(* ===== verification/_CoqProject ===== *)
-Q . S2P
Prelude.v
Sqlite.v
Types.v
Text.v
Policy.v
Outcome.v
Host.v
Bolt11.v
Nwa.v
Foreground.v
Coordinator.v
Runtime.v
Schema.v
Ledger.v
Registry.v
Registration.v
NostrValidation.v
Invoices.v
Outbox.v
Accounting.v
Metadata.v
AccountingProofs.v
Requests.v
Program.v
Reconciliation.v
RegistrationWorker.v
HostBridge.v
WakeEnvelope.v
InvoiceWorker.v
Library.v
ConnectionService.v
MobileService.v
ServiceProofs.v
NwcInfo.v
Relay.v
PushTransport.v
Application.v
ApplicationProofs.v
ApplicationManager.v
ApplicationSession.v
NotificationProofs.v
Engine.v
MobileNode.v
EngineProofs.v
MobileNodeProofs.v
MobileEngine.v
MobileEngineProofs.v
LocalStore.v
