(* ===== verification/Prelude.v ===== *)
(** * nwc-mobile: a verification development

    nwc-mobile lets a mobile wallet answer Nostr Wallet Connect requests while
    it is woken in the background for a few seconds, possibly by two processes
    at once, and possibly killed at any instant.  Everything that must survive
    lives in one SQLite database: which wake event is being worked on and by
    whom, which connections are approved, what has been reserved, paid and
    refunded against their budgets, and what has still to be told to relays and
    to the wake provider.  This development models the crate
    [src/crates/nwc-mobile] from that database outwards, up to the node adapter
    ([nwc-mobile-tokio]), the transports ([nwc-mobile-nostr],
    [nwc-mobile-http]), the invoice decoder ([nwc-mobile-bolt11]) and the
    objects foreign hosts call ([nwc-mobile-uniffi]).

    ** Layout: values

    - [Prelude]: results and the [?] operator, machine integers with checked
      arithmetic ([u64], [i64] as bounded [Z]), bytes of strings, tactics.
    - [Sqlite]: the fragment of SQL the statements use.  A table is the list
      of its rows; [CHECK], [UNIQUE] and foreign-key clauses are predicates, a
      violated one aborts the statement.  A transaction is a function from a
      database to an error (rollback: the database is the one it started from)
      or a value and the next database (commit).  SQLite serialises writers, so
      concurrent processes are modelled by interleaving whole transactions.
    - [Types] ([types.rs], [error.rs], [time.rs]), [Text] (the operations on
      UTF-8 text the code uses), [Policy] ([policy.rs]), [Outcome]
      ([outcome.rs]), [Host] (the values of [host.rs]), [Requests] (NIP-47 data
      and the pure conversions of [engine.rs]), [NostrValidation]
      ([nostr_validation.rs]), [Nwa] ([nwa.rs]), [NwcInfo] ([nwc_info.rs],
      [nip98.rs]), [WakeEnvelope] ([wake_envelope.rs] and the lifecycle values
      of the bindings), [Bolt11] ([nwc-mobile-bolt11]).

    ** Layout: the database

    - [Schema] (the tables of [ledger.rs] and their constraints), [Ledger]
      ([ledger.rs]: migrations and the claim, lease and completion of wake
      events), [Registry] ([connection_registry.rs]: approved connections and
      their revocation), [Registration] ([wake_registration.rs]: the outbox of
      the wake provider), [Invoices] and [Outbox] ([invoice_notifications.rs]:
      created invoices, sent payments and the life of their notifications),
      [Accounting] and [AccountingProofs] ([payment_accounting.rs]: budget
      periods and payment attempts), [Metadata] ([application_metadata.rs]).
    - [Library]: all transactions as one transition system with one invariant.

    ** Layout: programs

    - [Program]: what the asynchronous code is written in, a tree of ledger
      transactions and host calls, its executions with interference by other
      processes, and the rules ([wp]) its proofs use.
    - [Reconciliation] ([payment_reconciliation.rs]), [RegistrationWorker]
      ([wake_registration_worker.rs]), [InvoiceWorker] and [NotificationProofs]
      (the worker of [invoice_notifications.rs]), [Engine] and [EngineProofs]
      ([engine.rs]), [ConnectionService] ([connection_service.rs]),
      [MobileService] and [ServiceProofs] ([mobile_service.rs]), [Application]
      and [ApplicationProofs] ([application.rs]), [ApplicationManager]
      ([application_manager.rs]) are such programs; [ApplicationSession] runs
      all operations of an application in any order.
    - [Foreground] ([foreground.rs]) and [Coordinator]
      ([application_coordinator.rs]): the state machines of one process.
    - [Runtime]: the deadlines, retries, polling, task ownership and name
      resolution of [nwc-mobile-tokio];
      [HostBridge]: the adapter of [nwc-mobile-uniffi] that serves the host
      calls from foreign traits.
    - [Relay] ([nwc-mobile-nostr]) and [PushTransport] ([nwc-mobile-http]).
    - [MobileNode] and [MobileNodeProofs] ([node.rs], [mobile.rs]): the node
      adapter and one wake of the operating system, composed of the engine, the
      notification worker and the completion; [MobileEngine] and
      [MobileEngineProofs] ([mobile_engine.rs]): the object of foreign hosts.
    - [LocalStore] ([diagnostics.rs], [application_icon_cache.rs],
      [secret_store.rs] and the entry point of a native extension).

    ** State and operations

    [Schema.Database] is the record of all tables; every public operation of
    [WakeLedger] that writes is a [Tx] over it with the source's name
    ([claim_event], [tombstone_connection], [reserve_payment], ...), guards in
    the order of the source's early returns.  Reads take the database and return
    a result.  Random values (lease tokens, keys), clocks and every answer of
    the platform are arguments or answers of host calls.

    ** What the theorems show

    - Wake events: every ledger operation refines one transition of an abstract
      claim state machine (absent, claimed, retryable, finished); live leases
      exclude each other; a result is replayed and stays as it is until a prune
      with a cutoff after its completion removes it ([final_until_pruned]); a
      prune removes nothing else, and an entry old enough to be pruned belongs
      to an event that is stale for ever; migrations lose nothing.
    - Connections: what was approved is what loads; revocation decides every
      case and is permanent under all later transactions; the relay gate admits
      exactly the relays of unexpired active connections; a change queued for
      the wake provider stays until exactly that change is acknowledged.
    - Payments: along every interleaving of transactions each period's counter
      is the imported amount plus what its attempts count, limits hold unless
      the wallet itself overspends, initiated payments are never released and
      settled ones never change, and the reconciliation queue is fair.
    - The library: from an empty database, any interleaving of the modelled
      transactions, metadata and its deliveries included, keeps the invariants
      of all components, and what is permanent stays: initiated payments,
      connections until they are revoked, stored notifications, and terminal
      results until they are pruned.
    - The wake engine, against any host and any interference: payments start
      only with a durable initiated attempt behind them, the wakes of one event
      start one payment, with one idempotency key and one reservation (unless
      somebody releases that reservation in between, which
      [EngineProofs.replaced_reservation] shows is needed), responses are stored
      before they are published, wallet calls have the authority of a granted
      method, and a wake that stops anywhere leaves a consistent ledger.  A whole
      wake of the operating system, the notification worker and the completion
      handler included, keeps to that and reports only what was recorded in the
      ledger during the wake; a settlement check commits outbox transactions only
      and asks the wallet for nothing but its own invoice; and the wait for a
      settlement passes once per interval, never sleeps past its budget, and
      ends.
    - The workers: the reconciler only asks and accounts; the notification
      worker publishes stored events of open notifications in the scope of its pass only;
      the registration worker calls the provider once per change and settles a
      change only after its answer.
    - Applications: an approval grants at most what was reviewed; migrations are
      idempotent; a secret is stored before and deleted after its connection; no
      sequence of operations leaves the library's transactions or reaches the
      wallet, a relay or the provider;
      the review session and the foreground coordinator refine their abstract
      machines.
    - Transports: what a relay fetch or publication accepts, which addresses an
      icon may come from, the reserved blocks the code's filter lets through
      included, which requests a registration sends.
    - Values: parsing and printing are inverse, bounds and overflow are errors.

    ** Bounds

    Loops of the source run over lists, and programs are finite trees.  The one
    loop on a clock, the wait for a settlement, has the fuel of one pass per
    interval of its budget, which [MobileNodeProofs.linger_terminates] shows is
    never used up.  Unsigned 64-bit values are [Z] with [u64] as a hypothesis
    where a theorem needs the bound; SQLite integers are checked against
    [i64_max] where the source converts.

    ** Interfaces

    Code of other crates is a class, with its documented behaviour as laws
    where a theorem needs them: [UrlLib], [UrlParts] and [UrlEdit] for [url],
    [NostrKeys], [NostrLib], [NostrUri] and [SecretKeyText] for [nostr],
    [Nip47Json] and [NotificationJson] for its NIP-47 codec, [SerdeJson],
    [RelayJson] and [PushJson] for [serde_json], [HttpAuth] for the HTTP-auth
    event, [Sha256] for the hash, [Bolt11] for [lightning-invoice],
    [IconFiles] for file URLs.

    ** Not modelled

    The task and thread machinery of [tokio], which enters as the choices it
    makes (which of two futures is first, whether a task ran); panics of
    [Instant] arithmetic at the end of its range; the redaction of [Debug]
    output and the wiping of keys, which have no observable value; display
    texts of errors; opening the database file; the binding generator and the
    Swift and Kotlin packaging. *)
From Stdlib Require Export ZArith Lia.
From stdpp Require Export prelude strings list sorting.

#[global] Open Scope Z_scope.

(** ** Results

    Rust's [Result<A, E>]; the error type comes first so that [Result E] is
    the type of a fallible computation. *)

Inductive Result (E A : Type) : Type :=
| Ok (a : A)
| Err (e : E).
Arguments Ok {E A} a.
Arguments Err {E A} e.

Declare Scope nwc_scope.
Delimit Scope nwc_scope with nwc.

(** [let? x := m in k] is the [?] operator: bind a result, returning its
    error early. *)
Notation "'let?' x ':=' m 'in' k" :=
  (match m with Ok x => k | Err e => Err e end)
  (at level 10, x pattern, m at level 100, k at level 200) : nwc_scope.
#[global] Open Scope nwc_scope.

Definition is_ok {E A} (r : Result E A) : bool :=
  match r with Ok _ => true | Err _ => false end.

(** [Option::ok_or] and [Result::map_err]. *)
Definition ok_or {E A} (e : E) (o : option A) : Result E A :=
  match o with Some a => Ok a | None => Err e end.
Definition map_err {E F A} (f : E -> F) (r : Result E A) : Result F A :=
  match r with Ok a => Ok a | Err e => Err (f e) end.

(** [Option<Result<A, E>>::transpose] after [map]. *)
Definition traverse_option {E A B} (f : A -> Result E B) (o : option A)
  : Result E (option B) :=
  match o with
  | None => Ok None
  | Some a => let? b := f a in Ok (Some b)
  end.

(** [iter().map(f).collect::<Result<Vec<_>, _>>()]: the first error wins. *)
Fixpoint collect_results {E A B} (f : A -> Result E B) (l : list A)
  : Result E (list B) :=
  match l with
  | [] => Ok []
  | a :: l' => let? b := f a in let? bs := collect_results f l' in Ok (b :: bs)
  end.

(** ** Machine integers

    An integer of width [w] is a [Z] in the type's range; the operations of
    the standard library the source uses are written out. *)

Definition u8_max : Z := 2 ^ 8 - 1.
Definition u16_max : Z := 2 ^ 16 - 1.
Definition u32_max : Z := 2 ^ 32 - 1.
Definition u64_max : Z := 2 ^ 64 - 1.
Definition i64_max : Z := 2 ^ 63 - 1.

Definition u64 (v : Z) : Prop := 0 <= v <= u64_max.

Definition checked_add_u64 (a b : Z) : option Z :=
  if a + b <=? u64_max then Some (a + b) else None.
Definition checked_sub_u64 (a b : Z) : option Z :=
  if b <=? a then Some (a - b) else None.
Definition checked_mul_u64 (a b : Z) : option Z :=
  if a * b <=? u64_max then Some (a * b) else None.
Definition checked_add_i64 (a b : Z) : option Z :=
  if a + b <=? i64_max then Some (a + b) else None.
Definition saturating_add_u64 (a b : Z) : Z := Z.min (a + b) u64_max.
Definition saturating_sub_u64 (a b : Z) : Z := Z.max (a - b) 0.
Definition saturating_mul_u64 (a b : Z) : Z := Z.min (a * b) u64_max.
Definition wrapping_add_u64 (a b : Z) : Z := (a + b) mod 2 ^ 64.

(** [i64::try_from(u64)] and [u64::try_from(i64)]. *)
Definition i64_try_from (v : Z) : option Z := if v <=? i64_max then Some v else None.
Definition u64_try_from (v : Z) : option Z := if 0 <=? v then Some v else None.
Definition u32_try_from (v : Z) : option Z :=
  if (0 <=? v) && (v <=? u32_max) then Some v else None.
Definition u16_try_from (v : Z) : option Z :=
  if (0 <=? v) && (v <=? u16_max) then Some v else None.

(** [str::len]: the number of bytes. *)
Definition str_len (s : string) : Z := Z.of_nat (String.length s).

(** The bytes of a string. *)
Definition as_bytes (s : string) : list Z :=
  (fun c => Z.of_N (Ascii.N_of_ascii c)) <$> String.list_ascii_of_string s.

(** ** Sums over lists *)

Fixpoint Zsum {A} (f : A -> Z) (l : list A) : Z :=
  match l with [] => 0 | a :: l' => f a + Zsum f l' end.

(** ** Automation *)

(** Case analysis on the computation that produced a given outcome. *)
Ltac inv_run H :=
  repeat (simplify_eq;
    match type of H with
    | context [match ?x with _ => _ end] => destruct x eqn:?
    end); simplify_eq.

(** The run in [H] passes the refusal at its head. *)
Ltac pass_guard H E :=
  match type of H with (if ?b then _ else _) = _ => destruct b eqn:E; [discriminate H|] end.

(** Turn boolean tests into propositions. *)
Ltac bool_to_prop :=
  repeat match goal with
  | H : (_ && _)%bool = true |- _ => apply andb_prop in H; destruct H
  | H : (_ || _)%bool = false |- _ => apply orb_false_elim in H; destruct H
  | H : (_ || _)%bool = true |- _ => apply orb_prop in H
  | H : (_ && _)%bool = false |- _ => apply andb_false_iff in H
  | H : negb _ = true |- _ => apply negb_true_iff in H
  | H : negb _ = false |- _ => apply negb_false_iff in H
  | H : (_ <=? _) = true |- _ => apply Z.leb_le in H
  | H : (_ <=? _) = false |- _ => apply Z.leb_gt in H
  | H : (_ <? _) = true |- _ => apply Z.ltb_lt in H
  | H : (_ <? _) = false |- _ => apply Z.ltb_ge in H
  | H : (_ =? _) = true |- _ => apply Z.eqb_eq in H
  | H : (_ =? _) = false |- _ => apply Z.eqb_neq in H
  | H : bool_decide _ = true |- _ => apply bool_decide_eq_true_1 in H
  | H : bool_decide _ = false |- _ => apply bool_decide_eq_false_1 in H
  end.

(** A checked operation returns [Some] exactly when its test holds. *)
Ltac solve_checked :=
  case_match; bool_to_prop;
  (split; [intros [=]; subst; lia | intros [-> ?]; first [done | lia]]).

Create HintDb nwc.

(** ** Lemmas *)

Lemma ok_or_Ok {E A} (e : E) (o : option A) a : ok_or e o = Ok a <-> o = Some a.
Proof. destruct o; simpl; split; intros; simplify_eq; done. Qed.

Lemma map_err_Ok {E F A} (f : E -> F) (r : Result E A) a :
  map_err f r = Ok a <-> r = Ok a.
Proof. destruct r; simpl; split; intros; simplify_eq; done. Qed.

Lemma bind_Ok {E A B} (r : Result E A) (k : A -> Result E B) b :
  (let? a := r in k a) = Ok b <-> exists a, r = Ok a /\ k a = Ok b.
Proof. destruct r; split; [eauto|by intros (? & [= <-] & ?)|done|by intros (? & ? & ?)]. Qed.

Lemma map_err_Err {E F A} (f : E -> F) (r : Result E A) x :
  map_err f r = Err x <-> exists e, r = Err e /\ x = f e.
Proof.
  destruct r as [a|e]; simpl; split; intros H; [done|by destruct H as (?&?&?)| |].
  - injection H as <-; eauto.
  - by destruct H as (e' & [= <-] & ->).
Qed.

Lemma collect_results_Forall2 {E A B} (f : A -> Result E B) l bs :
  collect_results f l = Ok bs <-> Forall2 (fun a b => f a = Ok b) l bs.
Proof.
  revert bs; induction l as [|a l IH]; intros bs; simpl.
  - split; [intros [= <-]; constructor | by inversion 1].
  - split.
    + destruct (f a) as [b|] eqn:Hb; [|done].
      destruct (collect_results f l) as [bs'|]; [|done].
      intros [= <-]; constructor; [done|]; by apply IH.
    + inversion 1 as [|? b ? bs' Hb Hbs]; subst. rewrite Hb.
      apply IH in Hbs; by rewrite Hbs.
Qed.

(** A collection of readings that each succeed succeeds. *)
Lemma collect_results_total {E A B} (f : A -> Result E B) l :
  (forall a, a ∈ l -> is_ok (f a) = true) -> exists bs, collect_results f l = Ok bs.
Proof.
  induction l as [|a l IH]; intros H; [by exists []|].
  pose proof (H a (list_elem_of_here _ _)) as Ha. destruct (f a) as [b|] eqn:Hb; [|done].
  destruct IH as [bs Hbs]; [intros; apply H; by apply list_elem_of_further|].
  exists (b :: bs). simpl. by rewrite Hb, Hbs.
Qed.

Lemma checked_add_u64_Some a b c :
  checked_add_u64 a b = Some c <-> c = a + b /\ a + b <= u64_max.
Proof. unfold checked_add_u64. solve_checked. Qed.

Lemma checked_sub_u64_Some a b c :
  checked_sub_u64 a b = Some c <-> c = a - b /\ b <= a.
Proof. unfold checked_sub_u64. solve_checked. Qed.

Lemma checked_mul_u64_Some a b c :
  checked_mul_u64 a b = Some c <-> c = a * b /\ a * b <= u64_max.
Proof. unfold checked_mul_u64. solve_checked. Qed.

Lemma i64_try_from_Some a b : i64_try_from a = Some b <-> b = a /\ a <= i64_max.
Proof. unfold i64_try_from. solve_checked. Qed.

Lemma u64_try_from_Some a b : u64_try_from a = Some b <-> b = a /\ 0 <= a.
Proof. unfold u64_try_from. solve_checked. Qed.

Lemma Zsum_app {A} (f : A -> Z) l1 l2 : Zsum f (l1 ++ l2) = Zsum f l1 + Zsum f l2.
Proof. induction l1; simpl; lia. Qed.

Lemma Zsum_ext_in {A} (f g : A -> Z) l :
  (forall a, a ∈ l -> f a = g a) -> Zsum f l = Zsum g l.
Proof. intros H; induction l; simpl; [done|]. rewrite H, IHl; auto using list_elem_of_here, list_elem_of_further. Qed.

Lemma Zsum_zero {A} (f : A -> Z) l : (forall a, a ∈ l -> f a = 0) -> Zsum f l = 0.
Proof. intros H; induction l; simpl; [done|]. rewrite H, IHl; auto using list_elem_of_here, list_elem_of_further. Qed.

Lemma Zsum_nonneg {A} (f : A -> Z) l : (forall a, a ∈ l -> 0 <= f a) -> 0 <= Zsum f l.
Proof.
  intros H; induction l; simpl; [lia|].
  assert (0 <= f a) by (apply H, list_elem_of_here).
  assert (0 <= Zsum f l) by (apply IHl; intros; by apply H, list_elem_of_further). lia.
Qed.

Lemma Zsum_elem_le {A} (f : A -> Z) l a :
  (forall b, b ∈ l -> 0 <= f b) -> a ∈ l -> f a <= Zsum f l.
Proof.
  intros Hn; induction l as [|b l IH]; intros Ha; [by apply elem_of_nil in Ha|].
  assert (0 <= f b) by (apply Hn, list_elem_of_here).
  assert (0 <= Zsum f l) by (apply Zsum_nonneg; intros; by apply Hn, list_elem_of_further).
  apply elem_of_cons in Ha as [->|Ha]; simpl; [lia|].
  assert (f a <= Zsum f l) by (apply IH; [intros; by apply Hn, list_elem_of_further | done]). lia.
Qed.

(** Induction two elements at a time. *)
Lemma list_pair_ind {A} (P : list A -> Prop) :
  P [] -> (forall a, P [a]) -> (forall a b l, P l -> P (a :: b :: l)) -> forall l, P l.
Proof.
  intros H0 H1 H2. fix IH 1. intros [|a [|b l]]; [done|done|]. by apply H2.
Qed.

(** Rewrite the success of a library operation into its meaning. *)
Ltac use_results :=
  repeat match goal with
  | H : ok_or _ _ = Ok _ |- _ => apply ok_or_Ok in H
  | H : map_err _ _ = Ok _ |- _ => apply map_err_Ok in H
  | H : i64_try_from _ = Some _ |- _ => apply i64_try_from_Some in H as [? ?]
  | H : u64_try_from _ = Some _ |- _ => apply u64_try_from_Some in H as [? ?]
  | H : checked_add_u64 _ _ = Some _ |- _ => apply checked_add_u64_Some in H as [? ?]
  | H : checked_sub_u64 _ _ = Some _ |- _ => apply checked_sub_u64_Some in H as [? ?]
  | H : checked_mul_u64 _ _ = Some _ |- _ => apply checked_mul_u64_Some in H as [? ?]
  | H : (if ?b then Some _ else None) = Some _ |- _ => destruct b eqn:?
  end; simplify_eq.

(** Discharge a decidable fact about a concrete value by evaluation. *)
Ltac decide_concrete := apply (bool_decide_eq_true_1 _); vm_compute; reflexivity.
