(* ===== verification/Sqlite.v ===== *)
(** * The SQL statements the ledger executes

    The source keeps its durable state in SQLite tables and changes it with
    SQL text.  This file gives the fragment of SQL those statements use over a
    table that is the list of its rows: a [SELECT ... WHERE], [UPDATE ... SET
    ... WHERE], [DELETE ... WHERE], [INSERT] under [CHECK], key and foreign-key
    constraints, [ORDER BY], [LIMIT] and the aggregates [MAX] and [MIN].  A
    violated constraint makes the statement fail ([None]); the callers turn
    every [rusqlite::Error] into their [DatabaseUnavailable] and roll the
    transaction back. *)
From S2P Require Import Prelude.

Section Statements.
Context {Row : Type}.
Implicit Types (t : list Row) (p ok : Row -> bool) (f : Row -> Row).

(** [SELECT * FROM t WHERE p], in row order. *)
Definition select p t : list Row := List.filter p t.

(** [query_row(...).optional()]: the first matching row. *)
Definition query_row p t : option Row := head (select p t).

(** [SELECT 1 ... WHERE p] followed by [.is_some()], and [EXISTS (...)]. *)
Definition exists_row p t : bool := existsb p t.

(** [UPDATE t SET f WHERE p] returns the table and the number of rows
    changed; [ok] is the table's [CHECK] clauses. *)
Definition update_where ok p f t : option (list Row * nat) :=
  if forallb (fun r => ok (f r)) (select p t)
  then Some ((fun r => if p r then f r else r) <$> t, length (select p t))
  else None.

(** [DELETE FROM t WHERE p]. *)
Definition delete_where p t : list Row * nat :=
  (select (fun r => negb (p r)) t, length (select p t)).

(** [INSERT INTO t VALUES r]: [ok] holds the [CHECK] and foreign-key
    constraints, [clash r r'] says that [r] and [r'] share a primary or unique
    key. *)
Definition insert_row ok (clash : Row -> Row -> bool) (r : Row) t : option (list Row) :=
  if ok r && forallb (fun r' => negb (clash r r')) t then Some (t ++ [r]) else None.

(** [INSERT ... ON CONFLICT(key) DO NOTHING]: [conflict] is the conflict
    target.  The [CHECK] clauses come first, then the conflict; the foreign
    keys [fk] and any other key only matter for a row that is inserted. *)
Definition insert_or_nothing check (fk : Row -> bool) (conflict clash : Row -> Row -> bool)
    (r : Row) t : option (list Row) :=
  if negb (check r) then None
  else if exists_row (conflict r) t then Some t
  else insert_row (fun r => check r && fk r) clash r t.

(** One [INSERT] per row, in order, the first failure failing the whole. *)
Fixpoint insert_rows ok (clash : Row -> Row -> bool) (rows : list Row) t : option (list Row) :=
  match rows with
  | [] => Some t
  | r :: rows' => insert_row ok clash r t ≫= insert_rows ok clash rows'
  end.

(** [INSERT OR IGNORE]: a row that violates a constraint is skipped. *)
Definition insert_or_ignore ok (clash : Row -> Row -> bool) (rows : list Row) t : list Row :=
  foldl (fun t r => default t (insert_row ok clash r t)) t rows.

(** [SELECT MAX(g)] and [SELECT MIN(g)] over some rows. *)
Definition sql_max (g : Row -> Z) (rows : list Row) : option Z :=
  foldr (fun r acc => Some match acc with None => g r | Some m => Z.max (g r) m end)
    None rows.
Definition sql_min (g : Row -> Z) (rows : list Row) : option Z :=
  foldr (fun r acc => Some match acc with None => g r | Some m => Z.min (g r) m end)
    None rows.
End Statements.

(** BLOB and TEXT values compare by [memcmp]. *)
Fixpoint memcmp (a b : list Z) : comparison :=
  match a, b with
  | [], [] => Eq
  | [], _ => Lt
  | _, [] => Gt
  | x :: a', y :: b' => match x ?= y with Eq => memcmp a' b' | c => c end
  end.
Definition text_cmp (a b : string) : comparison := memcmp (as_bytes a) (as_bytes b).
Definition then_cmp (a b : comparison) : comparison :=
  match a with Eq => b | c => c end.
Definition cmp_le (c : comparison) : bool := match c with Gt => false | _ => true end.

(** [ORDER BY] a comparison of rows, [LIMIT n]. *)
Definition order_by {Row} (cmp : Row -> Row -> comparison) (rows : list Row) : list Row :=
  merge_sort (fun a b => Is_true (cmp_le (cmp a b))) rows.
Definition limit {Row} (n : Z) (rows : list Row) : list Row := take (Z.to_nat n) rows.

(** ** Lemmas *)

Section Lemmas.
Context {Row : Type}.
Implicit Types (t : list Row) (p ok : Row -> bool) (f : Row -> Row).

Lemma elem_of_select p t r : r ∈ select p t <-> r ∈ t /\ p r = true.
Proof. unfold select. rewrite !list_elem_of_In. apply filter_In. Qed.

Lemma select_ext p q t : (forall r, r ∈ t -> p r = q r) -> select p t = select q t.
Proof.
  intros H; induction t as [|r t IH]; simpl; [done|].
  rewrite (H r) by apply list_elem_of_here.
  rewrite IH by (intros; by apply H, list_elem_of_further). done.
Qed.

Lemma select_length_fmap p (f : Row -> Row) t :
  (forall r, r ∈ t -> p (f r) = p r) -> length (select p (f <$> t)) = length (select p t).
Proof.
  unfold select. induction t as [|r t IH]; intros Hp; [done|]. csimpl.
  rewrite (Hp r (list_elem_of_here _ _)).
  assert (length (List.filter p (f <$> t)) = length (List.filter p t)) as H
    by (apply IH; intros x Hx; apply Hp; by apply list_elem_of_further).
  destruct (p r); simpl; by rewrite H.
Qed.

Lemma select_none p t : (forall r, r ∈ t -> p r = false) -> select p t = [].
Proof.
  intros H; induction t as [|r t IH]; simpl; [done|].
  rewrite (H r) by apply list_elem_of_here.
  by apply IH; intros; apply H, list_elem_of_further.
Qed.

Lemma exists_row_true p t : exists_row p t = true <-> exists r, r ∈ t /\ p r = true.
Proof.
  unfold exists_row. rewrite existsb_exists.
  by setoid_rewrite list_elem_of_In.
Qed.

Lemma exists_row_false p t : exists_row p t = false <-> forall r, r ∈ t -> p r = false.
Proof.
  split.
  - intros H r Hr. destruct (p r) eqn:Hp; [|done].
    rewrite <- H. symmetry. apply exists_row_true. eauto.
  - intros H. destruct (exists_row p t) eqn:E; [|done].
    apply exists_row_true in E as (r & Hr & Hp). by rewrite H in Hp.
Qed.

Lemma query_row_Some p t r : query_row p t = Some r -> r ∈ t /\ p r = true.
Proof.
  unfold query_row. destruct (select p t) as [|r' l] eqn:E; [done|].
  intros [= ->]. apply elem_of_select. rewrite E. apply list_elem_of_here.
Qed.

Lemma query_row_None p t : query_row p t = None <-> forall r, r ∈ t -> p r = false.
Proof.
  unfold query_row. split.
  - destruct (select p t) as [|r' l] eqn:E; [|done]. intros _ r Hr.
    destruct (p r) eqn:Hp; [|done]. exfalso.
    apply (not_elem_of_nil r). rewrite <- E. by apply elem_of_select.
  - intros H. by rewrite select_none.
Qed.

(** A predicate that only holds of rows with [r]'s key selects just [r]. *)
Lemma select_unique {K} (key : Row -> K) p t r :
  NoDup (key <$> t) -> r ∈ t -> p r = true ->
  (forall r', r' ∈ t -> p r' = true -> key r' = key r) ->
  select p t = [r].
Proof.
  induction t as [|x t IH]; simpl; intros Hnd Hr Hp Hkey; [by apply elem_of_nil in Hr|].
  apply NoDup_cons in Hnd as [Hx Hnd].
  apply elem_of_cons in Hr as [->|Hr].
  - rewrite Hp. f_equal. apply select_none. intros r' Hr'.
    destruct (p r') eqn:Hp'; [|done]. exfalso. apply Hx.
    apply list_elem_of_fmap. exists r'. split; [|done].
    symmetry. apply Hkey; [by apply list_elem_of_further|done].
  - destruct (p x) eqn:Hpx.
    + exfalso. apply Hx. apply list_elem_of_fmap. exists r. split; [|done].
      apply Hkey; [apply list_elem_of_here|done].
    + apply IH; [done..|]. intros; apply Hkey; [by apply list_elem_of_further|done].
Qed.

Lemma query_row_unique {K} (key : Row -> K) p t r :
  NoDup (key <$> t) -> r ∈ t -> p r = true ->
  (forall r', r' ∈ t -> p r' = true -> key r' = key r) ->
  query_row p t = Some r.
Proof. intros. unfold query_row. by erewrite select_unique. Qed.

Lemma update_where_Some ok p f t t' n :
  update_where ok p f t = Some (t', n) ->
  t' = ((fun r => if p r then f r else r) <$> t) /\ n = length (select p t)
  /\ forall r, r ∈ t -> p r = true -> ok (f r) = true.
Proof.
  unfold update_where. case_match eqn:E; [|done]. intros [= <- <-].
  split_and!; [done..|]. intros r Hr Hp.
  rewrite forallb_forall in E. apply E, list_elem_of_In, elem_of_select. done.
Qed.

Lemma elem_of_update ok p f t t' n r :
  update_where ok p f t = Some (t', n) ->
  r ∈ t' -> exists r0, r0 ∈ t /\ r = if p r0 then f r0 else r0.
Proof.
  intros (-> & _ & _)%update_where_Some Hr.
  apply list_elem_of_fmap in Hr as (r0 & -> & ?). eauto.
Qed.

Lemma update_where_Forall (P : Row -> Prop) ok p f t t' n :
  update_where ok p f t = Some (t', n) ->
  Forall P t -> (forall r, r ∈ t -> p r = true -> P r -> ok (f r) = true -> P (f r)) ->
  Forall P t'.
Proof.
  intros Hu HP Hf. pose proof (update_where_Some _ _ _ _ _ _ Hu) as (_ & _ & Hok).
  apply Forall_forall. intros r Hr.
  eapply elem_of_update in Hr as (r0 & Hr0 & ->); [|done].
  rewrite Forall_forall in HP. destruct (p r0) eqn:Hp; eauto.
Qed.

(** Updates that leave a key alone keep it unique. *)
Lemma update_where_key {K} (key : Row -> K) ok p f t t' n :
  update_where ok p f t = Some (t', n) ->
  (forall r, key (f r) = key r) -> key <$> t' = key <$> t.
Proof.
  intros (-> & _ & _)%update_where_Some Hk.
  rewrite <- list_fmap_compose. apply list_fmap_ext. intros i r _. simpl.
  by destruct (p r).
Qed.

Lemma Zsum_update (g : Row -> Z) ok p f t t' n :
  update_where ok p f t = Some (t', n) ->
  Zsum g t' = Zsum g t - Zsum g (select p t) + Zsum (fun r => g (f r)) (select p t).
Proof.
  intros (-> & _ & _)%update_where_Some. unfold select.
  induction t as [|r t IH]; csimpl; [done|]. destruct (p r); csimpl; lia.
Qed.

Lemma Zsum_delete (g : Row -> Z) p t :
  Zsum g (delete_where p t).1 = Zsum g t - Zsum g (select p t).
Proof.
  unfold delete_where, select. cbn [fst].
  induction t as [|r t IH]; csimpl; [done|]. destruct (p r); csimpl; lia.
Qed.

Lemma elem_of_delete p t r : r ∈ (delete_where p t).1 <-> r ∈ t /\ p r = false.
Proof. simpl. rewrite elem_of_select, negb_true_iff. done. Qed.

Lemma select_sublist p t : select p t `sublist_of` t.
Proof. induction t as [|r t IH]; simpl; [done|]. destruct (p r); by constructor. Qed.

Lemma delete_where_Forall (P : Row -> Prop) p t :
  Forall P t -> Forall P (delete_where p t).1.
Proof. rewrite !Forall_forall. intros H r [Hr _]%elem_of_delete. auto. Qed.

Lemma delete_where_key {K} (key : Row -> K) p t :
  NoDup (key <$> t) -> NoDup (key <$> (delete_where p t).1).
Proof.
  intros H. eapply sublist_NoDup; [exact H|].
  apply fmap_sublist, select_sublist.
Qed.

Lemma insert_row_Some ok clash (r : Row) t t' :
  insert_row ok clash r t = Some t' <->
  t' = t ++ [r] /\ ok r = true /\ forall r', r' ∈ t -> clash r r' = false.
Proof.
  unfold insert_row. split.
  - case_match eqn:E; [|done]. intros [= <-]. apply andb_prop in E as [Hok Hcl].
    split_and!; [done..|]. intros r' Hr'. rewrite forallb_forall in Hcl.
    apply negb_true_iff, Hcl. by apply list_elem_of_In.
  - intros (-> & -> & Hcl). simpl.
    replace (forallb _ t) with true; [done|]. symmetry. apply forallb_forall.
    intros r' Hr'. apply negb_true_iff, Hcl. by apply list_elem_of_In.
Qed.

Lemma insert_row_key {K} (key : Row -> K) ok clash (r : Row) t t' :
  insert_row ok clash r t = Some t' ->
  (forall r', key r = key r' -> clash r r' = true) ->
  NoDup (key <$> t) -> NoDup (key <$> t').
Proof.
  intros (-> & _ & Hcl)%insert_row_Some Hk Hnd.
  rewrite fmap_app. apply NoDup_app. split_and!; [done| |apply NoDup_singleton].
  intros k Hin Hk'. simpl in Hk'. apply list_elem_of_singleton in Hk' as ->.
  apply list_elem_of_fmap in Hin as (r' & Hr' & Hin).
  specialize (Hk r' Hr'). by rewrite Hcl in Hk.
Qed.

Lemma insert_row_Forall (P : Row -> Prop) ok clash (r : Row) t t' :
  insert_row ok clash r t = Some t' -> (ok r = true -> P r) -> Forall P t -> Forall P t'.
Proof.
  intros (-> & Hok & _)%insert_row_Some HP Ht.
  apply Forall_app. split; [done|]. constructor; [auto|done].
Qed.

Lemma insert_rows_Some ok clash (rows : list Row) t t' :
  insert_rows ok clash rows t = Some t' ->
  t' = t ++ rows /\ Forall (fun r => ok r = true) rows
  /\ forall r r', r ∈ rows -> r' ∈ t -> clash r r' = false.
Proof.
  revert t; induction rows as [|x rows IH]; intros t; simpl.
  - intros [= <-]. rewrite app_nil_r. split_and!; [done|constructor|].
    by intros r r' ?%elem_of_nil.
  - destruct (insert_row ok clash x t) as [t1|] eqn:E; [|done]. simpl. intros H.
    apply insert_row_Some in E as (-> & Hok & Hcl). destruct (IH _ H) as (-> & Hall & Hcl').
    split_and!; [by rewrite <- app_assoc|by constructor|].
    intros r r' [->|Hr]%elem_of_cons Hr'; [by apply Hcl|].
    apply Hcl'; [done|]. apply elem_of_app; by left.
Qed.

Lemma insert_rows_total ok clash (rows : list Row) t :
  Forall (fun r => ok r = true) rows ->
  (forall r r', r ∈ rows -> r' ∈ t -> clash r r' = false) ->
  (forall i j r r', rows !! i = Some r -> rows !! j = Some r' -> (i < j)%nat -> clash r' r = false) ->
  insert_rows ok clash rows t = Some (t ++ rows).
Proof.
  revert t; induction rows as [|x rows IH]; intros t Hok Hcl Hnd; simpl; [by rewrite app_nil_r|].
  apply Forall_cons in Hok as [Hx Hok].
  assert (insert_row ok clash x t = Some (t ++ [x])) as ->.
  { apply insert_row_Some. split_and!; [done..|]. intros r' Hr'.
    apply Hcl; [apply list_elem_of_here|done]. }
  simpl. rewrite IH; [by rewrite <- app_assoc|done| |].
  - intros r r' Hr [Hr'|Hr']%elem_of_app.
    + apply Hcl; [by apply list_elem_of_further|done].
    + apply list_elem_of_singleton in Hr' as ->.
      apply list_elem_of_lookup in Hr as [i Hi]. eapply (Hnd 0%nat (S i)); [done|done|lia].
  - intros i j r r' Hi Hj Hij. eapply (Hnd (S i) (S j)); [done|done|lia].
Qed.

(** What every single insertion keeps, a sequence of insertions keeps. *)
Lemma insert_rows_keep (P : list Row -> Prop) ok clash (rows : list Row) t t' :
  (forall r u u', insert_row ok clash r u = Some u' -> P u -> P u') ->
  insert_rows ok clash rows t = Some t' -> P t -> P t'.
Proof.
  intros HP. revert t; induction rows as [|x rows IH]; intros t; simpl; [by intros [= <-]|].
  destruct (insert_row ok clash x t) as [t1|] eqn:E; [|done]. simpl. eauto.
Qed.

Lemma insert_or_ignore_rows ok clash (rows : list Row) t t' :
  insert_rows ok clash rows t = Some t' -> insert_or_ignore ok clash rows t = t'.
Proof.
  unfold insert_or_ignore. revert t; induction rows as [|x rows IH]; intros t; simpl; [by intros [= <-]|].
  destruct (insert_row ok clash x t) as [t1|]; [|done]. simpl. apply IH.
Qed.

Lemma insert_or_ignore_clash ok clash (rows : list Row) t :
  (forall r, r ∈ rows -> exists r', r' ∈ t /\ clash r r' = true) ->
  insert_or_ignore ok clash rows t = t.
Proof.
  unfold insert_or_ignore. induction rows as [|x rows IH]; intros H; simpl; [done|].
  assert (insert_row ok clash x t = None) as ->.
  { destruct (insert_row ok clash x t) as [t1|] eqn:E; [|done].
    apply insert_row_Some in E as (_ & _ & Hcl).
    destruct (H x (list_elem_of_here _ _)) as (r' & Hr' & Hc). by rewrite Hcl in Hc. }
  apply IH. intros r Hr. apply H. by apply list_elem_of_further.
Qed.

Lemma insert_or_ignore_Forall (P : Row -> Prop) ok clash (rows : list Row) t :
  (forall r, r ∈ rows -> ok r = true -> P r) -> Forall P t ->
  Forall P (insert_or_ignore ok clash rows t).
Proof.
  unfold insert_or_ignore. revert t; induction rows as [|x rows IH]; intros t HP Ht; [done|].
  simpl. apply IH; [intros; apply HP; [by apply list_elem_of_further|done]|].
  destruct (insert_row ok clash x t) as [t1|] eqn:E; [|done]. simpl.
  eapply insert_row_Forall; [exact E| |done]. apply HP, list_elem_of_here.
Qed.

Lemma sql_max_Some (g : Row -> Z) rows m :
  sql_max g rows = Some m ->
  (exists r, r ∈ rows /\ g r = m) /\ forall r, r ∈ rows -> g r <= m.
Proof.
  revert m; induction rows as [|x rows IH]; intros m; simpl; [done|].
  destruct (sql_max g rows) as [m'|] eqn:E; simpl; intros [= <-].
  - destruct (IH m' eq_refl) as [(r & Hr & Hgr) Hmax]. split.
    + destruct (Z.max_spec (g x) m') as [[? ->]|[? ->]]; subst.
      * exists r. split; [by apply list_elem_of_further|done].
      * exists x. split; [apply list_elem_of_here|done].
    + intros r' [->|Hr']%elem_of_cons; [lia|]. specialize (Hmax r' Hr'). lia.
  - split; [exists x; split; [apply list_elem_of_here|done]|].
    intros r [->|Hr]%elem_of_cons; [lia|]. exfalso.
    destruct rows as [|y rows]; [by apply elem_of_nil in Hr|]. simpl in E. done.
Qed.

Lemma sql_max_None (g : Row -> Z) rows : sql_max g rows = None <-> rows = [].
Proof. destruct rows; simpl; split; intros; simplify_eq; done. Qed.

Lemma sql_min_Some (g : Row -> Z) rows m :
  sql_min g rows = Some m ->
  (exists r, r ∈ rows /\ g r = m) /\ forall r, r ∈ rows -> m <= g r.
Proof.
  revert m; induction rows as [|x rows IH]; intros m; simpl; [done|].
  destruct (sql_min g rows) as [m'|] eqn:E; simpl; intros [= <-].
  - destruct (IH m' eq_refl) as [(r & Hr & Hgr) Hmin]. split.
    + destruct (Z.min_spec (g x) m') as [[? ->]|[? ->]]; subst.
      * exists x. split; [apply list_elem_of_here|done].
      * exists r. split; [by apply list_elem_of_further|done].
    + intros r' [->|Hr']%elem_of_cons; [lia|]. specialize (Hmin r' Hr'). lia.
  - split; [exists x; split; [apply list_elem_of_here|done]|].
    intros r [->|Hr]%elem_of_cons; [lia|]. exfalso.
    destruct rows as [|y rows]; [by apply elem_of_nil in Hr|]. simpl in E. done.
Qed.

Lemma order_by_Permutation (cmp : Row -> Row -> comparison) rows :
  order_by cmp rows ≡ₚ rows.
Proof. apply merge_sort_Permutation. Qed.

Lemma elem_of_order_limit (cmp : Row -> Row -> comparison) n rows r :
  r ∈ limit n (order_by cmp rows) -> r ∈ rows.
Proof.
  intros H. rewrite <- (order_by_Permutation cmp rows).
  unfold limit in H. rewrite <- (take_drop (Z.to_nat n) (order_by cmp rows)).
  apply elem_of_app; by left.
Qed.

Lemma length_limit n (rows : list Row) :
  0 <= n -> Z.of_nat (length (limit n rows)) <= n.
Proof. intros. unfold limit. rewrite length_take. lia. Qed.
End Lemmas.

#[export] Hint Resolve delete_where_Forall delete_where_key : nwc.

(** ** Order and limit *)

Lemma Sorted_weaken {A} (R S : A -> A -> Prop) (l : list A) :
  (forall a b, R a b -> S a b) -> Sorted R l -> Sorted S l.
Proof.
  intros HRS. induction 1 as [|a l Hl IH Hd]; constructor; [done|].
  destruct Hd; constructor. auto.
Qed.

Lemma text_cmp_total a b : cmp_le (text_cmp a b) = true \/ cmp_le (text_cmp b a) = true.
Proof.
  unfold text_cmp. generalize (as_bytes a) (as_bytes b).
  induction l as [|x l IH]; intros [|y l']; simpl; auto.
  rewrite (Z.compare_antisym x y). destruct (x ?= y); simpl; auto.
Qed.

(** [ORDER BY key, tie]: whatever breaks the ties, the keys come in order. *)
Lemma order_by_key {Row} (key : Row -> Z) (tie : Row -> Row -> comparison) rows :
  (forall a b, cmp_le (tie a b) = true \/ cmp_le (tie b a) = true) ->
  StronglySorted (fun a b => key a <= key b)
    (order_by (fun a b => then_cmp (key a ?= key b) (tie a b)) rows).
Proof.
  intros Htie. apply Sorted_StronglySorted; [intros x y z; lia|]. unfold order_by.
  set (R := fun a b => Is_true _). apply (Sorted_weaken R).
  - intros a b. unfold R, then_cmp. destruct (Z.compare_spec (key a) (key b)); simpl; [lia|lia|done].
  - apply Sorted_merge_sort. intros a b. unfold R, then_cmp.
    destruct (Z.compare_spec (key a) (key b)) as [E|E|E].
    + rewrite (proj2 (Z.compare_eq_iff (key b) (key a))) by done.
      destruct (Htie a b) as [->| ->]; auto.
    + by left.
    + right. by rewrite (proj2 (Z.compare_lt_iff (key b) (key a))).
Qed.

(** What a limit leaves out comes after what it lets through. *)
Lemma limit_first {Row} (key : Row -> Z) n rows a b :
  StronglySorted (fun a b => key a <= key b) rows ->
  a ∈ limit n rows -> b ∈ rows -> b ∉ limit n rows -> key a <= key b.
Proof.
  intros Hs Ha Hb Hnb. unfold limit in *.
  rewrite <- (take_drop (Z.to_nat n) rows) in Hb, Hs. apply elem_of_app in Hb as [?|Hb]; [done|].
  eapply (StronglySorted_app_1_elem_of (fun a b => key a <= key b)); [exact Hs|done|done].
Qed.

Lemma elem_of_limit {Row} n (rows : list Row) r : r ∈ limit n rows -> r ∈ rows.
Proof. intros H. by apply elem_of_take in H as (i & Hi & _); eapply list_elem_of_lookup_2. Qed.

Lemma limit_sorted {Row} (R : Row -> Row -> Prop) n rows :
  StronglySorted R rows -> StronglySorted R (limit n rows).
Proof.
  unfold limit. generalize (Z.to_nat n) as k. intros k Hs. revert k.
  induction Hs as [|r rows Hs IH Hall]; intros [|k]; simpl; constructor; [done|].
  by apply Forall_take.
Qed.

(** A list of the rows in order, read one by one, keeps the order of a key the
    reading preserves. *)
Lemma read_sorted {Row A} (f : Row -> A -> Prop) (key : Row -> Z) (key' : A -> Z) rows l :
  (forall r a, f r a -> key' a = key r) -> Forall2 f rows l ->
  StronglySorted (fun a b => key a <= key b) rows -> StronglySorted (fun a b => key' a <= key' b) l.
Proof.
  intros Hk. induction 1 as [|r a rows l Hra Hl IH]; intros Hs; [constructor|].
  apply StronglySorted_inv in Hs as [Hs Hall]. constructor; [auto|].
  apply Forall_forall. intros a' (i & Hi)%list_elem_of_lookup.
  destruct (Forall2_lookup_r _ _ _ _ _ Hl Hi) as (r' & Hri & Hra').
  rewrite (Hk _ _ Hra), (Hk _ _ Hra'). rewrite Forall_forall in Hall. apply Hall.
  by eapply list_elem_of_lookup_2.
Qed.

(** ** Tables as maps from a key

    [find_key key k t] is the row with key [k]; the statements act on this view
    of a table as insertion, pointwise update and deletion act on a map. *)

Section Keyed.
Context {Row K : Type} `{EqDecision K} (key : Row -> K).
Implicit Types (t : list Row).

Definition find_key (k : K) t : option Row :=
  query_row (fun r => bool_decide (key r = k)) t.

Lemma find_key_cons k r t :
  find_key k (r :: t) = if bool_decide (key r = k) then Some r else find_key k t.
Proof.
  unfold find_key, query_row, select. cbn [List.filter]. by destruct (bool_decide (key r = k)).
Qed.

Lemma find_key_Some k t r : find_key k t = Some r -> r ∈ t /\ key r = k.
Proof. intros [? ?%bool_decide_eq_true_1]%query_row_Some. done. Qed.

Lemma find_key_None k t : find_key k t = None <-> k ∉ key <$> t.
Proof.
  unfold find_key. rewrite query_row_None, list_elem_of_fmap. split.
  - intros H (r & -> & Hr). specialize (H r Hr). by apply bool_decide_eq_false_1 in H.
  - intros H r Hr. apply bool_decide_eq_false_2. intros <-. eauto.
Qed.

Lemma find_key_unique k t r :
  NoDup (key <$> t) -> find_key k t = Some r <-> r ∈ t /\ key r = k.
Proof.
  intros Hnd. split; [apply find_key_Some|]. intros [Hr Hk].
  apply (query_row_unique key); [done|done|by apply bool_decide_eq_true_2|].
  intros r' _ ?%bool_decide_eq_true_1. congruence.
Qed.

Lemma find_key_update ok p f t t' n k :
  update_where ok p f t = Some (t', n) ->
  (forall r, key (f r) = key r) ->
  find_key k t' = (fun r => if p r then f r else r) <$> find_key k t.
Proof.
  intros (-> & _ & _)%update_where_Some Hk.
  induction t as [|r t IH]; [done|]. rewrite fmap_cons, !find_key_cons.
  assert (key (if p r then f r else r) = key r) as -> by (destruct (p r); auto).
  destruct (bool_decide (key r = k)); [done|exact IH].
Qed.

Lemma find_key_fmap (g : Row -> Row) k t :
  (forall r, key (g r) = key r) -> find_key k (g <$> t) = g <$> find_key k t.
Proof.
  intros Hk. induction t as [|r t IH]; [done|].
  rewrite fmap_cons, !find_key_cons, Hk. by destruct (bool_decide (key r = k)).
Qed.

(** Replacing the one row of a key. *)
Lemma find_key_replace k t r r' :
  NoDup (key <$> t) -> r ∈ t -> key r' = key r ->
  find_key k ((fun x => if bool_decide (key x = key r) then r' else x) <$> t)
  = if bool_decide (k = key r) then Some r' else find_key k t.
Proof.
  intros Hnd Hr Hk. rewrite find_key_fmap.
  2:{ intros x. case_bool_decide; congruence. }
  case_bool_decide as Hd.
  - assert (find_key k t = Some r) as -> by (by apply find_key_unique).
    simpl. by rewrite bool_decide_true.
  - destruct (find_key k t) as [x|] eqn:Hx; [|done]. simpl.
    apply find_key_Some in Hx as [_ Hx]. by rewrite bool_decide_false by congruence.
Qed.

Lemma find_key_app k t r :
  find_key k (t ++ [r]) =
  match find_key k t with
  | Some r' => Some r'
  | None => if bool_decide (key r = k) then Some r else None
  end.
Proof.
  induction t as [|x t IH]; simpl.
  - rewrite find_key_cons. done.
  - rewrite !find_key_cons. destruct (bool_decide (key x = k)); [done|exact IH].
Qed.

Lemma find_key_delete k p t :
  NoDup (key <$> t) ->
  find_key k (delete_where p t).1 =
  match find_key k t with
  | Some r => if p r then None else Some r
  | None => None
  end.
Proof.
  induction t as [|x t IH]; intros Hnd; [done|].
  rewrite fmap_cons in Hnd. apply NoDup_cons in Hnd as [Hx Hnd]. specialize (IH Hnd).
  unfold delete_where, select in *. cbn [fst List.filter] in *.
  rewrite find_key_cons. destruct (bool_decide (key x = k)) eqn:E.
  - destruct (p x); simpl.
    + rewrite IH. apply bool_decide_eq_true_1 in E as <-.
      apply find_key_None in Hx. by rewrite Hx.
    + by rewrite find_key_cons, E.
  - destruct (p x); simpl; [exact IH|]. by rewrite find_key_cons, E.
Qed.

(** The row count of an update keyed on one row is 1 exactly when that row
    matches, and 0 otherwise. *)
Lemma select_key_count k p t :
  NoDup (key <$> t) -> (forall r, p r = true -> key r = k) ->
  length (select p t) =
  match find_key k t with Some r => if p r then 1%nat else 0%nat | None => 0%nat end.
Proof.
  intros Hnd Hp. destruct (find_key k t) as [r|] eqn:E.
  - apply find_key_Some in E as [Hr Hk]. destruct (p r) eqn:Hpr.
    + erewrite (select_unique key); [done..|]. intros r' _ Hr'. rewrite Hk. auto.
    + rewrite select_none; [done|]. intros r' Hr'. destruct (p r') eqn:Hp'; [|done].
      exfalso. assert (r' = r) as ->; [|congruence].
      assert (find_key k t = Some r) as E1 by (by apply find_key_unique).
      assert (find_key k t = Some r') as E2 by (apply find_key_unique; auto).
      congruence.
  - rewrite select_none; [done|]. intros r Hr. destruct (p r) eqn:Hpr; [|done].
    exfalso. apply find_key_None in E. apply E. rewrite <- (Hp r Hpr).
    by apply list_elem_of_fmap_2.
Qed.
End Keyed.
