(* ===== verification/Types.v ===== *)
(** * Domain values: errors, time, identifiers and methods

    Models [error.rs], [time.rs] and [types.rs] of the core crate: the
    validated identifiers, the 32-byte hexadecimal values, the connection
    revision, the NIP-47 methods, the wake input, and the duration arithmetic
    behind background budgets and operation deadlines. *)
From S2P Require Import Prelude.
#[local] Open Scope Z_scope.

(** ** [error.rs] *)

Inductive DomainError : Type :=
| EmptyIdentifier
| IdentifierTooLong (maximum : Z)
| InvalidIdentifierCharacter
| InvalidHexLength (expected actual : Z)
| InvalidHex
| RevisionOverflow
| InvalidBackgroundBudget
| InvalidOperationBudget
| InvalidRelayUrl
| InvalidWakeServerUrl
| InvalidWakePolicy
| PaymentAmountOverflow.

#[export] Instance DomainError_eq_dec : EqDecision DomainError.
Proof. solve_decision. Defined.

(** ** [std::time::Duration]

    A duration is its number of nanoseconds, at most [u64::MAX] seconds and
    999999999 nanoseconds. *)

Abbreviation Duration := Z (only parsing).
Definition NANOS_PER_SEC : Z := 1000000000.
Definition duration_max : Duration := u64_max * NANOS_PER_SEC + (NANOS_PER_SEC - 1).
Definition from_secs (seconds : Z) : Duration := seconds * NANOS_PER_SEC.
Definition duration_as_secs (d : Duration) : Z := d / NANOS_PER_SEC.
Definition subsec_nanos (d : Duration) : Z := d mod NANOS_PER_SEC.
Definition duration_is_zero (d : Duration) : bool := d =? 0.
Definition duration_checked_add (a b : Duration) : option Duration :=
  if a + b <=? duration_max then Some (a + b) else None.
Definition duration_saturating_sub (a b : Duration) : Duration := Z.max (a - b) 0.
Definition duration_saturating_mul (d : Duration) (factor : Z) : Duration :=
  Z.min (d * factor) duration_max.
(** The range of a [Duration] value. *)
Definition duration (d : Duration) : Prop := 0 <= d <= duration_max.

(** ** [time.rs] *)

(** A whole-second timestamp, a [u64]. *)
Abbreviation UnixTimestamp := Z (only parsing).

(** [SystemClock::now]: the operating system's clock, in nanoseconds since the Unix
    epoch and negative before it, where [duration_since] is an error. *)
Definition SystemClock_now (system_time : Z) : UnixTimestamp :=
  duration_as_secs (if system_time <? 0 then 0 else system_time).

(** The clock reads the epoch before the epoch, never goes backwards while the
    operating system's does not, and lags it by less than a second. *)
Lemma SystemClock_now_spec a b : a <= b ->
  0 <= SystemClock_now a <= SystemClock_now b
  /\ (0 <= a -> from_secs (SystemClock_now a) <= a < from_secs (SystemClock_now a + 1)).
Proof.
  intros H. unfold SystemClock_now, duration_as_secs, from_secs, NANOS_PER_SEC.
  destruct (Z.ltb_spec a 0), (Z.ltb_spec b 0); split; try (split; Z.to_euclidean_division_equations; lia); intros;
    Z.to_euclidean_division_equations; lia.
Qed.

Record BackgroundBudget := mkBackgroundBudget {
  bb_total : Duration;
  bb_cleanup_reserve : Duration;
}.

Definition BackgroundBudget_new (total cleanup_reserve : Duration)
  : Result DomainError BackgroundBudget :=
  if duration_is_zero total || duration_is_zero cleanup_reserve
     || (total <=? cleanup_reserve)
  then Err InvalidBackgroundBudget
  else Ok {| bb_total := total; bb_cleanup_reserve := cleanup_reserve |}.

(** [Duration - Duration] panics below zero; [None] is the panic. *)
Definition execution_budget (b : BackgroundBudget) : option Duration :=
  if bb_cleanup_reserve b <=? bb_total b
  then Some (bb_total b - bb_cleanup_reserve b) else None.

(** [OperationBudget::new] of [host.rs]: a non-zero remaining time. *)
Definition OperationBudget : Type := Duration.
Definition OperationBudget_new (timeout : Duration) : Result DomainError OperationBudget :=
  if duration_is_zero timeout then Err InvalidOperationBudget else Ok timeout.

(** [OperationDeadline]: the budget it was created with; the elapsed monotonic
    time is an argument of the reads. *)
Record OperationDeadline := mkOperationDeadline { od_budget : OperationBudget }.

Definition remaining (d : OperationDeadline) (elapsed : Duration) : Duration :=
  duration_saturating_sub (od_budget d) elapsed.

Definition deadline_context (d : OperationDeadline) (cancelled : bool) (elapsed : Duration)
  : option OperationBudget :=
  if cancelled then None
  else match OperationBudget_new (remaining d elapsed) with
       | Ok budget => Some budget
       | Err _ => None
       end.

(** ** [types.rs]: identifiers *)

Definition MAX_CONNECTION_ID_BYTES : Z := 128.
Definition HEX_32_LENGTH : Z := 64.

Definition is_ascii_digit (b : Z) : bool := (48 <=? b) && (b <=? 57).
Definition is_ascii_alphanumeric (b : Z) : bool :=
  is_ascii_digit b || ((65 <=? b) && (b <=? 90)) || ((97 <=? b) && (b <=? 122)).

(** The allowlist of [ConnectionId::parse]: alphanumeric, [-], [_], [.], [:]. *)
Definition connection_id_byte (b : Z) : bool :=
  is_ascii_alphanumeric b || (b =? 45) || (b =? 95) || (b =? 46) || (b =? 58).

Abbreviation ConnectionId := string (only parsing).

Definition ConnectionId_parse (value : string) : Result DomainError ConnectionId :=
  if str_len value =? 0 then Err EmptyIdentifier
  else if MAX_CONNECTION_ID_BYTES <? str_len value
  then Err (IdentifierTooLong MAX_CONNECTION_ID_BYTES)
  else if negb (forallb connection_id_byte (as_bytes value))
  then Err InvalidIdentifierCharacter
  else Ok value.

(** [ConnectionRevision]: a [u64] counter. *)
Abbreviation ConnectionRevision := Z (only parsing).
Definition REVISION_INITIAL : ConnectionRevision := 0.
Definition revision_next (r : ConnectionRevision) : Result DomainError ConnectionRevision :=
  ok_or RevisionOverflow (checked_add_u64 r 1).

(** ** [types.rs]: 32-byte values in hexadecimal

    [Hex32] is the array [[u8; 32]], a list of 32 bytes; [hex_32_type!] makes
    the event id, public key, payment hash and preimage from it. *)

Abbreviation Hex32 := (list Z) (only parsing).
Definition byte_value (b : Z) : bool := (0 <=? b) && (b <=? 255).
Definition hex32 (h : Hex32) : Prop := length h = 32%nat /\ Forall (fun b => 0 <= b <= 255) h.

Abbreviation EventId := (list Z) (only parsing).
Abbreviation PublicKey := (list Z) (only parsing).
Abbreviation PaymentHash := (list Z) (only parsing).
Abbreviation PaymentPreimage := (list Z) (only parsing).

Definition decode_hex_nibble (byte : Z) : option Z :=
  if (48 <=? byte) && (byte <=? 57) then Some (byte - 48)
  else if (97 <=? byte) && (byte <=? 102) then Some (byte - 97 + 10)
  else if (65 <=? byte) && (byte <=? 70) then Some (byte - 65 + 10)
  else None.

(** The loop over the pairs of [Hex32::from_hex]. *)
Fixpoint decode_pairs (bytes : list Z) : Result DomainError (list Z) :=
  match bytes with
  | h :: l :: rest =>
      let? high := ok_or InvalidHex (decode_hex_nibble h) in
      let? low := ok_or InvalidHex (decode_hex_nibble l) in
      let? tail := decode_pairs rest in
      Ok (Z.lor (Z.shiftl high 4) low :: tail)
  | _ => Ok []
  end.

Definition Hex32_from_hex (value : string) : Result DomainError Hex32 :=
  if negb (str_len value =? HEX_32_LENGTH)
  then Err (InvalidHexLength HEX_32_LENGTH (str_len value))
  else decode_pairs (as_bytes value).

Definition HEX_DIGITS : list Ascii.ascii := String.list_ascii_of_string "0123456789abcdef".
Definition hex_digit (n : Z) : Ascii.ascii := nth (Z.to_nat n) HEX_DIGITS Ascii.zero.

Fixpoint Hex32_to_hex (h : Hex32) : string :=
  match h with
  | [] => EmptyString
  | b :: h' => String (hex_digit (Z.shiftr b 4))
                 (String (hex_digit (Z.land b 15)) (Hex32_to_hex h'))
  end.

(** ** [types.rs]: methods and the wake input *)

Inductive NwcMethod : Type :=
| GetInfo | GetBalance | MakeInvoice | PayInvoice | LookupInvoice | ListTransactions.

#[export] Instance NwcMethod_eq_dec : EqDecision NwcMethod.
Proof. solve_decision. Defined.

Definition method_as_str (m : NwcMethod) : string :=
  match m with
  | GetInfo => "get_info"
  | GetBalance => "get_balance"
  | MakeInvoice => "make_invoice"
  | PayInvoice => "pay_invoice"
  | LookupInvoice => "lookup_invoice"
  | ListTransactions => "list_transactions"
  end.

Record WakeInput := mkWakeInput {
  wi_relay : string;
  wi_event_id : EventId;
  wi_wallet_service_pubkey : PublicKey;
  wi_embedded_event_json : option string;
  wi_received_at : UnixTimestamp;
}.

(** ** Lemmas *)

Lemma as_bytes_length s : length (as_bytes s) = String.length s.
Proof.
  unfold as_bytes. rewrite length_fmap.
  induction s; simpl; [done|by f_equal].
Qed.

Lemma as_bytes_cons c s :
  as_bytes (String c s) = Z.of_N (Ascii.N_of_ascii c) :: as_bytes s.
Proof. done. Qed.

Lemma as_bytes_range s : Forall (fun b => 0 <= b <= 255) (as_bytes s).
Proof.
  unfold as_bytes. apply Forall_fmap, Forall_forall. intros c _. simpl.
  pose proof (Ascii.N_ascii_bounded c). lia.
Qed.

(** Every byte is checked by running a decidable property over all 256. *)
Lemma byte_cases (P : Z -> bool) :
  forallb P (seqZ 0 256) = true -> forall b, 0 <= b <= 255 -> P b = true.
Proof.
  rewrite forallb_forall. intros H b Hb. apply H, list_elem_of_In, elem_of_seqZ. lia.
Qed.

Lemma hex_digit_ascii n :
  0 <= n <= 15 ->
  decode_hex_nibble (Z.of_N (Ascii.N_of_ascii (hex_digit n))) = Some n.
Proof.
  intros H.
  assert (forallb (fun n => bool_decide
    (decode_hex_nibble (Z.of_N (Ascii.N_of_ascii (hex_digit n))) = Some n))
    (seqZ 0 16) = true) as Hall by (vm_compute; done).
  rewrite forallb_forall in Hall.
  eapply bool_decide_eq_true_1, Hall, list_elem_of_In, elem_of_seqZ. lia.
Qed.

Lemma nibbles_of_byte b :
  0 <= b <= 255 ->
  0 <= Z.shiftr b 4 <= 15 /\ 0 <= Z.land b 15 <= 15
  /\ Z.lor (Z.shiftl (Z.shiftr b 4) 4) (Z.land b 15) = b.
Proof.
  intros Hb.
  pose proof (byte_cases (fun b => (0 <=? Z.shiftr b 4) && (Z.shiftr b 4 <=? 15)
    && (0 <=? Z.land b 15) && (Z.land b 15 <=? 15)
    && (Z.lor (Z.shiftl (Z.shiftr b 4) 4) (Z.land b 15) =? b))
    ltac:(vm_compute; done) b Hb) as H.
  cbv beta in H. bool_to_prop. lia.
Qed.

Lemma str_len_to_hex h : str_len (Hex32_to_hex h) = 2 * Z.of_nat (length h).
Proof. unfold str_len. induction h; simpl; lia. Qed.

Lemma decode_pairs_to_hex h :
  Forall (fun b => 0 <= b <= 255) h -> decode_pairs (as_bytes (Hex32_to_hex h)) = Ok h.
Proof.
  induction 1 as [|b h Hb Hh IH]; [done|].
  destruct (nibbles_of_byte b Hb) as (Hhi & Hlo & Heq).
  simpl Hex32_to_hex. rewrite !as_bytes_cons. simpl decode_pairs.
  rewrite !hex_digit_ascii by done. simpl. by rewrite IH, Heq.
Qed.

Lemma decode_hex_nibble_range b n : decode_hex_nibble b = Some n -> 0 <= n <= 15.
Proof. unfold decode_hex_nibble. intros H. inv_run H; bool_to_prop; lia. Qed.

Lemma join_nibbles high low :
  0 <= high <= 15 -> 0 <= low <= 15 ->
  0 <= Z.lor (Z.shiftl high 4) low <= 255
  /\ Z.shiftr (Z.lor (Z.shiftl high 4) low) 4 = high
  /\ Z.land (Z.lor (Z.shiftl high 4) low) 15 = low.
Proof.
  intros Hh Hl.
  assert (forallb (fun h => forallb (fun l =>
    (0 <=? Z.lor (Z.shiftl h 4) l) && (Z.lor (Z.shiftl h 4) l <=? 255)
    && (Z.shiftr (Z.lor (Z.shiftl h 4) l) 4 =? h)
    && (Z.land (Z.lor (Z.shiftl h 4) l) 15 =? l)) (seqZ 0 16)) (seqZ 0 16) = true)
    as Hall by (vm_compute; done).
  rewrite forallb_forall in Hall.
  specialize (Hall high ltac:(apply list_elem_of_In, elem_of_seqZ; lia)).
  cbv beta in Hall. rewrite forallb_forall in Hall.
  specialize (Hall low ltac:(apply list_elem_of_In, elem_of_seqZ; lia)).
  cbv beta in Hall. bool_to_prop. lia.
Qed.

Lemma decode_pairs_spec bytes h :
  decode_pairs bytes = Ok h ->
  Forall (fun b => 0 <= b <= 255) h /\ length h = Nat.div2 (length bytes).
Proof.
  revert h. induction bytes as [|a|a b bytes IH] using list_pair_ind; intros h H.
  - injection H as <-. by split.
  - injection H as <-. by split.
  - simpl in H. destruct (decode_hex_nibble a) as [high|] eqn:Ea; [|done].
    destruct (decode_hex_nibble b) as [low|] eqn:Eb; [|done]. simpl in H.
    destruct (decode_pairs bytes) as [tail|] eqn:Et; [|done]. injection H as <-.
    destruct (IH tail eq_refl) as [IH1 IH2].
    apply decode_hex_nibble_range in Ea, Eb. simpl. split; [|by rewrite IH2].
    constructor; [|done]. pose proof (join_nibbles high low Ea Eb). lia.
Qed.

(** [DomainError::InvalidHex] is the only error of the loop, and it is returned
    exactly when some byte is not a hexadecimal digit. *)
Lemma decode_pairs_Err bytes e :
  decode_pairs bytes = Err e -> e = InvalidHex.
Proof.
  induction bytes as [|a|a b bytes IH] using list_pair_ind; [done..|]. simpl.
  destruct (decode_hex_nibble a); [|simpl; congruence].
  destruct (decode_hex_nibble b); [|simpl; congruence]. simpl.
  destruct (decode_pairs bytes); [done|]. intros [= <-]. auto.
Qed.

Lemma decode_pairs_Ok_iff bytes :
  Nat.even (length bytes) = true ->
  (exists h, decode_pairs bytes = Ok h)
  <-> Forall (fun b => decode_hex_nibble b <> None) bytes.
Proof.
  induction bytes as [|a|a b bytes IH] using list_pair_ind; simpl; intros Heven.
  - split; [constructor|eauto].
  - done.
  - specialize (IH Heven). rewrite !Forall_cons. split.
    + intros [h H]. destruct (decode_hex_nibble a); [|done].
      destruct (decode_hex_nibble b); [|done]. simpl in H.
      destruct (decode_pairs bytes); [|done]. split_and!; [done..|]. apply IH. eauto.
    + intros (Ha & Hb & Hrest). apply IH in Hrest as [t ->].
      destruct (decode_hex_nibble a); [|done].
      destruct (decode_hex_nibble b); [|done]. simpl. eauto.
Qed.

Lemma Hex32_from_to_hex h : hex32 h -> Hex32_from_hex (Hex32_to_hex h) = Ok h.
Proof.
  intros [Hlen Hb]. unfold Hex32_from_hex, HEX_32_LENGTH. rewrite str_len_to_hex, Hlen. simpl.
  by apply decode_pairs_to_hex.
Qed.

Lemma Hex32_from_hex_hex32 s h : Hex32_from_hex s = Ok h -> hex32 h.
Proof.
  unfold Hex32_from_hex, HEX_32_LENGTH. intros H. destruct (str_len s =? 64) eqn:E; simpl in H; [|done].
  apply decode_pairs_spec in H as [Hb Hlen]. split; [|done].
  rewrite Hlen, as_bytes_length. bool_to_prop. unfold str_len in E.
  replace (String.length s) with 64%nat by lia. done.
Qed.

(** ** Properties *)

(** Parsing the printed form gives the value back, the parsed value is
    always 32 bytes, and parsing succeeds exactly on 64 hexadecimal digits of
    either case, with the error naming the reason otherwise. *)
Theorem Hex32_roundtrip_spec :
  (forall h, hex32 h -> Hex32_from_hex (Hex32_to_hex h) = Ok h)
  /\ (forall s h, Hex32_from_hex s = Ok h -> hex32 h)
  /\ (forall s, (exists h, Hex32_from_hex s = Ok h) <->
        String.length s = 64%nat /\ Forall (fun b => decode_hex_nibble b <> None) (as_bytes s))
  /\ (forall s e, Hex32_from_hex s = Err e ->
        e = InvalidHex \/ e = InvalidHexLength 64 (str_len s)).
Proof.
  split_and!; [apply Hex32_from_to_hex|apply Hex32_from_hex_hex32| |];
    unfold Hex32_from_hex, HEX_32_LENGTH.
  - intros s. unfold str_len.
    destruct (Z.of_nat (String.length s) =? 64) eqn:E; simpl; bool_to_prop.
    + assert (String.length s = 64%nat) as Hl by lia. rewrite decode_pairs_Ok_iff.
      * tauto.
      * by rewrite as_bytes_length, Hl.
    + split; [by intros [? ?]|lia].
  - intros s e H. destruct (str_len s =? 64); simpl in H; [|naive_solver].
    left. by eapply decode_pairs_Err.
Qed.

(** ConnectionId::parse accepts exactly the non-empty ids of at most 128
    allowlisted bytes, and returns them unchanged. *)
Theorem ConnectionId_parse_spec s id :
  ConnectionId_parse s = Ok id <->
  id = s /\ 1 <= str_len s <= 128 /\ Forall (fun b => connection_id_byte b = true) (as_bytes s).
Proof.
  unfold ConnectionId_parse, MAX_CONNECTION_ID_BYTES.
  assert (0 <= str_len s) by (unfold str_len; lia).
  assert (forallb connection_id_byte (as_bytes s) = true <->
    Forall (fun b => connection_id_byte b = true) (as_bytes s)) as Hall.
  { rewrite forallb_forall, Forall_forall. by setoid_rewrite list_elem_of_In. }
  rewrite <- Hall.
  destruct (str_len s =? 0) eqn:E0; bool_to_prop; [split; [done|lia]|].
  destruct (128 <? str_len s) eqn:E1; bool_to_prop; [split; [done|lia]|].
  destruct (forallb connection_id_byte (as_bytes s)); simpl.
  - split; [intros [= <-]; split_and!; [done|lia|lia|done] | by intros (-> & _)].
  - split; [done | by intros (_ & _ & ?)].
Qed.

(** The revision counter never wraps. *)
Theorem revision_next_spec r :
  u64 r -> (forall n, revision_next r = Ok n <-> n = r + 1 /\ r < u64_max)
           /\ (revision_next r = Err RevisionOverflow <-> r = u64_max).
Proof.
  unfold u64, revision_next, checked_add_u64. intros Hr.
  destruct (r + 1 <=? u64_max) eqn:E; bool_to_prop; simpl; split.
  - intros n. split; [intros [= <-]; lia | intros [-> _]; done].
  - split; [done|lia].
  - intros n. split; [done|lia].
  - split; [lia|done].
Qed.

(** A background budget always leaves a positive execution time that ends
    before the cleanup reserve starts, and its subtraction never panics. *)
Theorem BackgroundBudget_spec total reserve b :
  duration total -> duration reserve ->
  BackgroundBudget_new total reserve = Ok b ->
  exists e, execution_budget b = Some e /\ 0 < e /\ 0 < reserve
            /\ e + reserve = total /\ bb_total b = total.
Proof.
  unfold duration, BackgroundBudget_new, duration_is_zero, execution_budget.
  intros Ht Hr H. case_match eqn:E; [done|]. injection H as <-. simpl.
  bool_to_prop. replace (reserve <=? total) with true by lia.
  eexists; split_and!; [done|lia..].
Qed.

(** A host call gets a context exactly while the operation is not cancelled
    and its deadline has not passed, and then exactly the remaining time. *)
Theorem deadline_context_spec d cancelled elapsed b :
  deadline_context d cancelled elapsed = Some b <->
  cancelled = false /\ elapsed < od_budget d /\ b = od_budget d - elapsed.
Proof.
  unfold deadline_context, OperationBudget_new, remaining, duration_is_zero,
    duration_saturating_sub.
  destruct cancelled; [split; [done|by intros (? & _)]|].
  destruct (Z.max (od_budget d - elapsed) 0 =? 0) eqn:E; bool_to_prop.
  - split; [done|lia].
  - split; [intros [= <-]; lia | intros (_ & ? & ->); f_equal; lia].
Qed.

Lemma revision_next_spec_witness : revision_next u64_max = Err RevisionOverflow.
Proof. apply (revision_next_spec u64_max); [split; by vm_compute|reflexivity]. Defined.

Lemma BackgroundBudget_spec_witness :
  exists e, execution_budget (mkBackgroundBudget (from_secs 30) (from_secs 5)) = Some e
    /\ e + from_secs 5 = from_secs 30.
Proof.
  destruct (BackgroundBudget_spec (from_secs 30) (from_secs 5)
    (mkBackgroundBudget (from_secs 30) (from_secs 5))) as (e & H1 & _ & _ & H2 & _);
    [split; by vm_compute..|by vm_compute|].
  exists e. split; [exact H1|exact H2].
Defined.
