(* ===== verification/Text.v ===== *)
(** * Text

    The operations of [str], [char] and the integer parsers of Rust's standard
    library that the parsers of the repository use.  A [str] is a string of
    UTF-8 bytes; a [char] is its scalar value. *)
From Stdlib Require Import String Ascii.
From S2P Require Import Prelude Types.
#[local] Open Scope Z_scope.

(** ** UTF-8 *)

(** [str::chars]: decoding of valid UTF-8 (a truncated sequence, which a [str] does
    not hold, ends the text). *)
Fixpoint utf8_decode (bytes : list Z) : list Z :=
  match bytes with
  | [] => []
  | b :: rest =>
      if b <? 128 then b :: utf8_decode rest
      else if b <? 224 then
        match rest with
        | c1 :: rest => ((b - 192) * 64 + (c1 - 128)) :: utf8_decode rest
        | _ => []
        end
      else if b <? 240 then
        match rest with
        | c1 :: c2 :: rest => ((b - 224) * 4096 + (c1 - 128) * 64 + (c2 - 128)) :: utf8_decode rest
        | _ => []
        end
      else
        match rest with
        | c1 :: c2 :: c3 :: rest =>
            ((b - 240) * 262144 + (c1 - 128) * 4096 + (c2 - 128) * 64 + (c3 - 128)) :: utf8_decode rest
        | _ => []
        end
  end.
Definition chars (s : string) : list Z := utf8_decode (as_bytes s).

(** [String::push]. *)
Definition utf8_encode (c : Z) : list Z :=
  if c <? 128 then [c]
  else if c <? 2048 then [192 + c / 64; 128 + c mod 64]
  else if c <? 65536 then [224 + c / 4096; 128 + c / 64 mod 64; 128 + c mod 64]
  else [240 + c / 262144; 128 + c / 4096 mod 64; 128 + c / 64 mod 64; 128 + c mod 64].
Definition of_bytes (bytes : list Z) : string :=
  string_of_list_ascii ((fun b => ascii_of_N (Z.to_N b)) <$> bytes).
Definition of_chars (l : list Z) : string := of_bytes (mjoin (utf8_encode <$> l)).

(** ** Characters *)

Definition in_range (c low high : Z) : bool := (low <=? c) && (c <=? high).

(** [char::is_control]: the general category Cc. *)
Definition is_control (c : Z) : bool := in_range c 0 31 || in_range c 127 159.

(** [char::is_whitespace]: the property White_Space. *)
Definition is_whitespace (c : Z) : bool :=
  in_range c 9 13 || (c =? 32) || (c =? 133) || (c =? 160) || (c =? 5760) || in_range c 8192 8202
  || (c =? 8232) || (c =? 8233) || (c =? 8239) || (c =? 8287) || (c =? 12288).

Definition to_ascii_lowercase (b : Z) : Z := if in_range b 65 90 then b + 32 else b.
Definition eq_ignore_ascii_case (a b : string) : bool :=
  bool_decide (to_ascii_lowercase <$> as_bytes a = to_ascii_lowercase <$> as_bytes b).

(** ** Slices *)

(** [str::split] by a predicate; an empty text has one empty piece. *)
Fixpoint split_on (separator : Z -> bool) (l : list Z) : list (list Z) :=
  match l with
  | [] => [[]]
  | c :: rest =>
      if separator c then [] :: split_on separator rest
      else match split_on separator rest with
           | piece :: pieces => (c :: piece) :: pieces
           | [] => [[c]]
           end
  end.

Fixpoint trim_start (l : list Z) : list Z :=
  match l with c :: rest => if is_whitespace c then trim_start rest else l | [] => [] end.
Definition trim (l : list Z) : list Z := rev (trim_start (rev (trim_start l))).

Definition ends_with (suffix l : list Z) : bool := bool_decide (suffix `suffix_of` l).

(** ** Integers *)

(** [u64::from_str] and [u8::from_str]: decimal digits after an optional plus
    sign, at most [maximum]. *)
Fixpoint parse_digits (maximum acc : Z) (digits : list Z) : option Z :=
  match digits with
  | [] => Some acc
  | b :: rest =>
      if is_ascii_digit b then
        let value := acc * 10 + (b - 48) in
        if value <=? maximum then parse_digits maximum value rest else None
      else None
  end.
Definition parse_unsigned (maximum : Z) (bytes : list Z) : option Z :=
  match bytes with
  | [] => None
  | [_] => parse_digits maximum 0 bytes
  | b :: rest => parse_digits maximum 0 (if b =? 43 then rest else bytes)
  end.

(** ** Lemmas *)

Lemma parse_digits_range maximum digits : forall acc v,
  0 <= acc <= maximum -> parse_digits maximum acc digits = Some v -> acc <= v <= maximum.
Proof.
  induction digits as [|b digits IH]; intros acc v Ha H; simpl in H; [injection H as <-; lia|].
  destruct (is_ascii_digit b) eqn:Hb; [|done]. unfold is_ascii_digit in Hb.
  destruct (Z.leb_spec (acc * 10 + (b - 48)) maximum); [|done]. bool_to_prop.
  specialize (IH (acc * 10 + (b - 48)) v ltac:(lia) H). lia.
Qed.

Lemma parse_unsigned_range maximum bytes v :
  0 <= maximum -> parse_unsigned maximum bytes = Some v -> 0 <= v <= maximum.
Proof.
  intros Hm H. unfold parse_unsigned in H. destruct bytes as [|b [|c rest]]; [done| |];
    (apply parse_digits_range in H; lia).
Qed.

(** A piece of a split holds no separator. *)
Lemma split_on_pieces separator l piece c :
  piece ∈ split_on separator l -> c ∈ piece -> separator c = false.
Proof.
  revert piece. induction l as [|x l IH]; intros piece; cbn [split_on].
  - intros ->%list_elem_of_singleton ?%elem_of_nil. done.
  - destruct (separator x) eqn:Hx.
    + intros [->|Hp]%elem_of_cons Hc; [by apply elem_of_nil in Hc|]. by eapply IH.
    + destruct (split_on separator l) as [|p ps].
      * intros ->%list_elem_of_singleton ->%list_elem_of_singleton. done.
      * intros [->|Hp]%elem_of_cons Hc; [apply elem_of_cons in Hc as [->|Hc]; [done|]|].
        -- eapply (IH p); [apply list_elem_of_here|done].
        -- eapply (IH piece); [by apply list_elem_of_further|done].
Qed.

(** Encoding a scalar value and decoding it gives it back. *)
Lemma utf8_roundtrip c rest : 0 <= c < 1114112 ->
  utf8_decode (utf8_encode c ++ rest) = c :: utf8_decode rest.
Proof.
  intros Hc. unfold utf8_encode.
  destruct (Z.ltb_spec c 128) as [H|H].
  { simpl. by rewrite (proj2 (Z.ltb_lt c 128)). }
  destruct (Z.ltb_spec c 2048) as [H2|H2].
  { pose proof (Z.div_mod c 64 ltac:(lia)). pose proof (Z.mod_pos_bound c 64 ltac:(lia)).
    cbn [app utf8_decode].
    rewrite (proj2 (Z.ltb_ge (192 + c / 64) 128)), (proj2 (Z.ltb_lt (192 + c / 64) 224)) by lia.
    f_equal. lia. }
  pose proof (Z.div_mod c 64 ltac:(lia)) as D1. pose proof (Z.mod_pos_bound c 64 ltac:(lia)) as M1.
  pose proof (Z.div_mod (c / 64) 64 ltac:(lia)) as D2. pose proof (Z.mod_pos_bound (c / 64) 64 ltac:(lia)) as M2.
  rewrite Z.div_div in D2 by lia. change (64 * 64) with 4096 in D2.
  destruct (Z.ltb_spec c 65536) as [H3|H3].
  { cbn [app utf8_decode].
    rewrite (proj2 (Z.ltb_ge (224 + c / 4096) 128)), (proj2 (Z.ltb_ge (224 + c / 4096) 224)),
      (proj2 (Z.ltb_lt (224 + c / 4096) 240)) by lia.
    f_equal. lia. }
  pose proof (Z.div_mod (c / 4096) 64 ltac:(lia)) as D3. pose proof (Z.mod_pos_bound (c / 4096) 64 ltac:(lia)) as M3.
  rewrite Z.div_div in D3 by lia. change (4096 * 64) with 262144 in D3.
  cbn [app utf8_decode].
  rewrite (proj2 (Z.ltb_ge (240 + c / 262144) 128)), (proj2 (Z.ltb_ge (240 + c / 262144) 224)),
    (proj2 (Z.ltb_ge (240 + c / 262144) 240)) by lia.
  f_equal. lia.
Qed.

Definition scalar (c : Z) : Prop := 0 <= c < 1114112.

Lemma of_bytes_as_bytes s : of_bytes (as_bytes s) = s.
Proof.
  induction s as [|a s IH]; [done|]. rewrite as_bytes_cons. unfold of_bytes in *. cbn. rewrite IH. f_equal.
  rewrite N2Z.id. apply ascii_N_embedding.
Qed.

Lemma as_bytes_app s t : as_bytes (s ++ t) = as_bytes s ++ as_bytes t.
Proof. induction s as [|a s IH]; [done|].
  change (as_bytes (String a (s ++ t)) = as_bytes (String a s) ++ as_bytes t). by rewrite !as_bytes_cons, IH.
Qed.

Lemma as_bytes_of_bytes l : Forall (fun b => 0 <= b <= 255) l -> as_bytes (of_bytes l) = l.
Proof.
  induction 1 as [|b l Hb _ IH]; [done|].
  change (as_bytes (String (ascii_of_N (Z.to_N b)) (of_bytes l)) = b :: l). rewrite as_bytes_cons, IH. f_equal.
  rewrite N_ascii_embedding by lia. lia.
Qed.

Lemma utf8_encode_bytes c : scalar c -> Forall (fun b => 0 <= b <= 255) (utf8_encode c).
Proof.
  unfold scalar, utf8_encode. intros Hc.
  repeat case_match; bool_to_prop; repeat constructor; Z.to_euclidean_division_equations; lia.
Qed.

(** A text of scalar values survives the way through bytes. *)
Lemma chars_of_chars l : Forall scalar l -> chars (of_chars l) = l.
Proof.
  intros Hl. unfold chars, of_chars. rewrite as_bytes_of_bytes.
  - induction Hl as [|c l Hc _ IH]; [done|].
    change (utf8_decode (utf8_encode c ++ mjoin (utf8_encode <$> l)) = c :: l).
    rewrite utf8_roundtrip by done. by rewrite IH.
  - induction Hl as [|c l Hc _ IH]; [constructor|].
    change (Forall (fun b => 0 <= b <= 255) (utf8_encode c ++ mjoin (utf8_encode <$> l))). apply Forall_app. split; [by apply utf8_encode_bytes|done].
Qed.

Lemma ascii_decode l : Forall (fun b => 0 <= b < 128) l -> utf8_decode l = l.
Proof. induction 1 as [|b l Hb _ IH]; [done|]. cbn. rewrite (proj2 (Z.ltb_lt b 128)) by lia. by rewrite IH. Qed.

Lemma ascii_of_chars s : Forall (fun b => 0 <= b < 128) (as_bytes s) -> of_chars (chars s) = s.
Proof.
  intros Hs. unfold of_chars, chars. rewrite ascii_decode by done. rewrite <- (of_bytes_as_bytes s) at 2. f_equal.
  induction Hs as [|b l Hb _ IH]; [done|].
  change (utf8_encode b ++ mjoin (utf8_encode <$> l) = b :: l). rewrite IH. unfold utf8_encode.
  by rewrite (proj2 (Z.ltb_lt b 128)) by lia.
Qed.

(** [trim_start] keeps a suffix that does not start with white space. *)
Lemma trim_start_spec l :
  trim_start l `suffix_of` l /\ (forall c rest, trim_start l = c :: rest -> is_whitespace c = false).
Proof.
  induction l as [|c l [Hs Hh]]; cbn; [by split|]. destruct (is_whitespace c) eqn:E.
  - split; [by apply suffix_cons_r|done].
  - split; [done|]. by intros ? ? [= <- <-].
Qed.

Lemma trim_start_id l : (forall c rest, l = c :: rest -> is_whitespace c = false) -> trim_start l = l.
Proof. destruct l as [|c l]; [done|]. intros H. cbn. by rewrite (H c l eq_refl). Qed.

Lemma trim_id l :
  (forall c rest, l = c :: rest -> is_whitespace c = false) ->
  (forall c rest, rev l = c :: rest -> is_whitespace c = false) -> trim l = l.
Proof. intros H1 H2. unfold trim. rewrite (trim_start_id l H1), (trim_start_id (rev l) H2). apply rev_involutive. Qed.

Lemma trim_idem l : trim (trim l) = trim l.
Proof.
  destruct (trim_start_spec l) as [_ Hh]. set (a := trim_start l) in *.
  destruct (trim_start_spec (rev a)) as [[k Hk] Hb]. set (b := trim_start (rev a)) in *.
  assert (a = rev b ++ rev k) as Ha by (by rewrite <- (rev_involutive a), Hk, rev_app_distr).
  change (trim l) with (rev b). apply trim_id.
  - intros c rest Heq. apply (Hh c (rest ++ rev k)). by rewrite Ha, Heq.
  - rewrite rev_involutive. exact Hb.
Qed.

Lemma trim_elem c l : c ∈ trim l -> c ∈ l.
Proof.
  unfold trim. rewrite !list_elem_of_In, <- in_rev, <- !list_elem_of_In. intros H.
  destruct (trim_start_spec (rev (trim_start l))) as [Hs _].
  eapply (elem_of_suffix) in H; [|exact Hs]. rewrite list_elem_of_In, <- in_rev, <- list_elem_of_In in H.
  destruct (trim_start_spec l) as [Hs2 _]. by eapply elem_of_suffix in H.
Qed.

Lemma trim_start_nil l : trim_start l = [] -> forall c, c ∈ l -> is_whitespace c = true.
Proof.
  induction l as [|x l IH]; cbn; [by intros _ c ?%elem_of_nil|]. destruct (is_whitespace x) eqn:E; [|done].
  intros H c [->|Hc]%elem_of_cons; auto.
Qed.

(** Only white space is trimmed to nothing. *)
Lemma trim_nil l : trim l = [] -> forall c, c ∈ l -> is_whitespace c = true.
Proof.
  unfold trim. intros H c Hc. assert (trim_start (rev (trim_start l)) = []) as H1.
  { by rewrite <- (rev_involutive (trim_start _)), H. }
  destruct (trim_start l) as [|x rest] eqn:E; [exact (trim_start_nil l E c Hc)|].
  destruct (trim_start_spec l) as [_ Hh]. specialize (Hh x rest E).
  assert (is_whitespace x = true); [|congruence]. eapply trim_start_nil; [exact H1|].
  apply list_elem_of_In, in_rev. rewrite rev_involutive. by left.
Qed.

Lemma split_on_elem separator l piece c : piece ∈ split_on separator l -> c ∈ piece -> c ∈ l.
Proof.
  revert piece. induction l as [|x l IH]; intros piece; cbn [split_on].
  { intros ->%list_elem_of_singleton Hc. by apply elem_of_nil in Hc. }
  destruct (separator x).
  - intros [->|Hp]%elem_of_cons Hc; [by apply elem_of_nil in Hc|]. apply list_elem_of_further. by eapply IH.
  - destruct (split_on separator l) as [|p ps] eqn:E.
    + intros ->%list_elem_of_singleton ->%list_elem_of_singleton. apply list_elem_of_here.
    + intros [->|Hp]%elem_of_cons Hc.
      * apply elem_of_cons in Hc as [->|Hc]; [apply list_elem_of_here|].
        apply list_elem_of_further. eapply IH; [apply list_elem_of_here|done].
      * apply list_elem_of_further. eapply IH; [by apply list_elem_of_further|done].
Qed.
