(* ===== verification/Policy.v ===== *)
(** * Authorization policies

    Models [policy.rs] (budget intervals, fee policies, connection policies,
    the wake policy) and [maximum_mobile_fee_sat] of [application.rs]. *)
From S2P Require Import Prelude Types.
#[local] Open Scope Z_scope.

(** ** Budgets *)

Inductive BudgetInterval : Type := Never | Hourly | Daily | Weekly | Monthly | Yearly.

Inductive FeePolicy : Type :=
| CountTowardBudget (maximum_fee_sat : Z)
| ExcludeForCompatibility.

#[export] Instance BudgetInterval_eq_dec : EqDecision BudgetInterval.
Proof. solve_decision. Defined.
#[export] Instance FeePolicy_eq_dec : EqDecision FeePolicy.
Proof. solve_decision. Defined.

Definition interval_duration (i : BudgetInterval) : option Duration :=
  match i with
  | Never => None
  | Hourly => Some (from_secs (60 * 60))
  | Daily => Some (from_secs (24 * 60 * 60))
  | Weekly => Some (from_secs (7 * 24 * 60 * 60))
  | Monthly => Some (from_secs (30 * 24 * 60 * 60))
  | Yearly => Some (from_secs (365 * 24 * 60 * 60))
  end.

Record BudgetPolicy := mkBudgetPolicy {
  limit_sat : Z;
  interval : BudgetInterval;
  fee_policy : FeePolicy;
}.

#[export] Instance BudgetPolicy_eq_dec : EqDecision BudgetPolicy.
Proof. solve_decision. Defined.

Definition reservation_sat (b : BudgetPolicy) (principal_sat : Z) : Result DomainError Z :=
  let fee_reserve := match fee_policy b with
                     | CountTowardBudget maximum_fee_sat => maximum_fee_sat
                     | ExcludeForCompatibility => 0
                     end in
  ok_or PaymentAmountOverflow (checked_add_u64 principal_sat fee_reserve).

(** [maximum_mobile_fee_sat] of [application.rs]: one twentieth of the budget,
    clamped to 10..1000 satoshis and never above the budget. *)
Definition clamp (v low high : Z) : Z := Z.min (Z.max v low) high.
Definition maximum_mobile_fee_sat (budget_limit_sat : Z) : Z :=
  if budget_limit_sat =? 0 then 0
  else Z.min (clamp (budget_limit_sat / 20) 10 1000) budget_limit_sat.

(** ** Connection policies

    A [BTreeSet<NwcMethod>] is the list of its elements in the derived order. *)

Definition all_methods : list NwcMethod :=
  [GetInfo; GetBalance; MakeInvoice; PayInvoice; LookupInvoice; ListTransactions].
Definition btree_methods (methods : list NwcMethod) : list NwcMethod :=
  List.filter (fun m => bool_decide (m ∈ methods)) all_methods.

Record ConnectionPolicy := mkConnectionPolicy {
  cp_methods : list NwcMethod;
  cp_budget : BudgetPolicy;
}.

#[export] Instance ConnectionPolicy_eq_dec : EqDecision ConnectionPolicy.
Proof. solve_decision. Defined.

Definition ConnectionPolicy_new (methods : list NwcMethod) (budget : BudgetPolicy)
  : ConnectionPolicy :=
  {| cp_methods := btree_methods methods; cp_budget := budget |}.

Definition conservative_default : ConnectionPolicy :=
  ConnectionPolicy_new [GetInfo]
    {| limit_sat := 0; interval := Never; fee_policy := CountTowardBudget 0 |}.

Definition allows (p : ConnectionPolicy) (m : NwcMethod) : bool :=
  bool_decide (m ∈ cp_methods p).

(** ** Wake policy *)

Record WakePolicy := mkWakePolicy {
  maximum_event_age : Duration;
  maximum_future_skew : Duration;
  replay_retention : Duration;
  maximum_payload_bytes : Z;
  maximum_relays_per_connection : Z;
}.

Definition WakePolicy_new (age skew retention : Duration) (payload_bytes relays : Z)
  : Result DomainError WakePolicy :=
  let? required_retention := ok_or InvalidWakePolicy (duration_checked_add age skew) in
  if duration_is_zero age || (retention <? required_retention)
     || (payload_bytes =? 0) || (relays =? 0)
  then Err InvalidWakePolicy
  else Ok {| maximum_event_age := age; maximum_future_skew := skew;
             replay_retention := retention; maximum_payload_bytes := payload_bytes;
             maximum_relays_per_connection := relays |}.

Definition accepts_event_time (p : WakePolicy) (created_at now : UnixTimestamp) : bool :=
  if now <? created_at
  then created_at - now <=? duration_as_secs (maximum_future_skew p)
  else now - created_at <=? duration_as_secs (maximum_event_age p).

Definition WakePolicy_default : Result DomainError WakePolicy :=
  WakePolicy_new (from_secs (10 * 60)) (from_secs 30) (from_secs (24 * 60 * 60))
    (64 * 1024) 2.

(** ** Lemmas *)

Lemma elem_of_btree_methods m methods : m ∈ btree_methods methods <-> m ∈ methods.
Proof.
  unfold btree_methods. rewrite !list_elem_of_In, filter_In, bool_decide_eq_true.
  rewrite !list_elem_of_In.
  split; [by intros [_ ?]|]. intros; split; [|done]. destruct m; simpl; tauto.
Qed.

Lemma allows_new methods budget m :
  allows (ConnectionPolicy_new methods budget) m = bool_decide (m ∈ methods).
Proof. unfold allows. simpl. apply bool_decide_ext, elem_of_btree_methods. Qed.

Lemma btree_methods_idem methods : btree_methods (btree_methods methods) = btree_methods methods.
Proof.
  unfold btree_methods at 1 3. apply List.filter_ext. intros m.
  apply bool_decide_ext, elem_of_btree_methods.
Qed.

Lemma duration_as_secs_add a b :
  duration_as_secs a + duration_as_secs b <= duration_as_secs (a + b).
Proof.
  unfold duration_as_secs. assert (0 < NANOS_PER_SEC) by done.
  apply Z.div_le_lower_bound; [done|].
  pose proof (Z.mul_div_le a NANOS_PER_SEC). pose proof (Z.mul_div_le b NANOS_PER_SEC). lia.
Qed.

Lemma duration_as_secs_mono a b : a <= b -> duration_as_secs a <= duration_as_secs b.
Proof. intros. apply Z.div_le_mono; unfold NANOS_PER_SEC; lia. Qed.

Lemma WakePolicy_new_Ok age skew retention bytes relays p :
  WakePolicy_new age skew retention bytes relays = Ok p ->
  p = mkWakePolicy age skew retention bytes relays
  /\ age <> 0 /\ age + skew <= retention /\ age + skew <= duration_max.
Proof.
  unfold WakePolicy_new, duration_checked_add, duration_is_zero. intros H.
  inv_run H. use_results. bool_to_prop. split; [done|]. lia.
Qed.

(** ** Properties *)

(** The wake policy's replay retention covers its freshness window: once a
    terminal entry is old enough to be pruned, its event fails the freshness
    check forever, so forgetting it cannot let it execute again. *)
Theorem pruned_event_is_stale age skew retention bytes relays p
    created_at accepted_at completed_at now :
  WakePolicy_new age skew retention bytes relays = Ok p ->
  0 <= age -> 0 <= skew ->
  accepts_event_time p created_at accepted_at = true ->
  accepted_at <= completed_at ->
  completed_at < now - duration_as_secs (replay_retention p) ->
  accepts_event_time p created_at now = false.
Proof.
  intros (-> & Hage & Hret & _)%WakePolicy_new_Ok Ha Hs Hacc Hle Hold.
  unfold accepts_event_time in *. simpl in *.
  pose proof (duration_as_secs_add age skew).
  pose proof (duration_as_secs_mono _ _ Hret).
  assert (0 <= duration_as_secs age) by (apply Z.div_pos; [done|unfold NANOS_PER_SEC; lia]).
  assert (0 <= duration_as_secs skew) by (apply Z.div_pos; [done|unfold NANOS_PER_SEC; lia]).
  destruct (accepted_at <? created_at) eqn:E1; destruct (now <? created_at) eqn:E2;
    bool_to_prop; lia.
Qed.

Lemma pruned_event_is_stale_witness :
  accepts_event_time (mkWakePolicy (from_secs 600) (from_secs 30) (from_secs 86400) 65536 2)
    9990 100000 = false.
Proof.
  eapply (pruned_event_is_stale (from_secs 600) (from_secs 30) (from_secs 86400) 65536 2 _
    9990 10000 10001 100000); [reflexivity|vm_compute; congruence..].
Defined.

(** A policy grants exactly the methods it was built from, the conservative
    default grants no payment, and the reservation is the principal plus the
    fee reserve or an overflow error. *)
Theorem policy_grants_spec :
  (forall methods budget m, allows (ConnectionPolicy_new methods budget) m = true <-> m ∈ methods)
  /\ (forall m, allows conservative_default m = true <-> m = GetInfo)
  /\ (forall b p n, reservation_sat b p = Ok n <->
        n = p + match fee_policy b with
                | CountTowardBudget f => f | ExcludeForCompatibility => 0 end /\ n <= u64_max).
Proof.
  split_and!.
  - intros. by rewrite allows_new, bool_decide_eq_true.
  - intros m. destruct m; vm_compute; split; congruence.
  - intros b p n. unfold reservation_sat. rewrite ok_or_Ok, checked_add_u64_Some. naive_solver.
Qed.

(** The mobile fee reserve never exceeds the budget or 1000 satoshis, grows
    with the budget, and leaves a spendable principal exactly above 10. *)
Theorem maximum_mobile_fee_spec limit limit' :
  0 <= limit <= limit' ->
  0 <= maximum_mobile_fee_sat limit <= Z.min limit 1000
  /\ maximum_mobile_fee_sat limit <= maximum_mobile_fee_sat limit'
  /\ (maximum_mobile_fee_sat limit < limit <-> 10 < limit).
Proof.
  intros H. unfold maximum_mobile_fee_sat, clamp.
  destruct (limit =? 0) eqn:E; destruct (limit' =? 0) eqn:E'; bool_to_prop;
    Z.to_euclidean_division_equations; lia.
Qed.

Lemma maximum_mobile_fee_spec_witness :
  0 <= maximum_mobile_fee_sat 1000 <= Z.min 1000 1000
  /\ maximum_mobile_fee_sat 1000 <= maximum_mobile_fee_sat 2000
  /\ (maximum_mobile_fee_sat 1000 < 1000 <-> 10 < 1000).
Proof. apply (maximum_mobile_fee_spec 1000 2000). lia. Defined.
