(* ===== verification/Outcome.v ===== *)
(** * Engine outcomes

    Models [outcome.rs]: the dispositions an engine execution returns and the
    notification guidance they carry. *)
From S2P Require Import Prelude Types.
#[local] Open Scope Z_scope.

Inductive NotificationHint : Type :=
| Hint_Processing
| Hint_Completed
| Hint_Request (method : NwcMethod)
| Hint_OpenApplication.

Inductive QueueReason : Type :=
| Queue_Deadline
| Queue_SecureStorageUnavailable
| Queue_WalletUnavailable
| Queue_UnsupportedInBackground
| Queue_LedgerBusy.

Inductive RetryReason : Type :=
| Retry_RelayUnavailable
| Retry_WalletUnavailable
| Retry_ResponsePublishFailed
| Retry_ResponsePersistenceFailed
| Retry_RegistrationUnavailable.

Inductive RejectionCode : Type :=
| Reject_InvalidWakePayload
| Reject_ConnectionUnavailable
| Reject_RelayNotAllowed
| Reject_EventMismatch
| Reject_InvalidEvent
| Reject_InvalidRequest
| Reject_EventOutsideFreshnessWindow
| Reject_MethodNotAllowed
| Reject_BudgetExceeded.

Inductive WakeDisposition : Type :=
| Completed (notification : NotificationHint)
| AlreadyProcessed (notification : NotificationHint)
| QueuedForApplication (reason : QueueReason) (notification : NotificationHint)
| RetryAfter (delay : Duration) (reason : RetryReason) (notification : NotificationHint)
| Rejected (code : RejectionCode) (notification : NotificationHint).

Inductive WakeDispositionKind : Type :=
| Kind_Completed
| Kind_AlreadyProcessed
| Kind_QueuedForApplication
| Kind_RetryAfter
| Kind_Rejected.

(** [WakeDisposition::queued] and [WakeDisposition::rejected]. *)
Definition disposition_queued (reason : QueueReason) : WakeDisposition :=
  QueuedForApplication reason Hint_OpenApplication.
Definition disposition_rejected (code : RejectionCode) : WakeDisposition :=
  Rejected code Hint_OpenApplication.

Definition disposition_kind (d : WakeDisposition) : WakeDispositionKind :=
  match d with
  | Completed _ => Kind_Completed
  | AlreadyProcessed _ => Kind_AlreadyProcessed
  | QueuedForApplication _ _ => Kind_QueuedForApplication
  | RetryAfter _ _ _ => Kind_RetryAfter
  | Rejected _ _ => Kind_Rejected
  end.

Definition disposition_notification (d : WakeDisposition) : NotificationHint :=
  match d with
  | Completed n | AlreadyProcessed n | QueuedForApplication _ n
  | RetryAfter _ _ n | Rejected _ n => n
  end.

#[export] Instance NotificationHint_eq_dec : EqDecision NotificationHint.
Proof. solve_decision. Defined.
#[export] Instance QueueReason_eq_dec : EqDecision QueueReason.
Proof. solve_decision. Defined.
#[export] Instance RetryReason_eq_dec : EqDecision RetryReason.
Proof. solve_decision. Defined.
#[export] Instance RejectionCode_eq_dec : EqDecision RejectionCode.
Proof. solve_decision. Defined.
#[export] Instance WakeDisposition_eq_dec : EqDecision WakeDisposition.
Proof. solve_decision. Defined.
