(* ===== verification/Host.v ===== *)
(** * The host boundary

    Models [host.rs]: amounts, host errors, secure relay URLs, payment
    statuses, wallet transactions and the transaction page the host builds for
    a list request.  The [url] crate is a parameter ([UrlLib]); the laws the
    code relies on are the class [UrlLaws]. *)
From S2P Require Import Prelude Types.
#[local] Open Scope Z_scope.

(** ** Parameters: the [url] crate *)

Class UrlLib := {
  Url : Type;
  url_parse : string -> option Url;
  url_scheme : Url -> string;
  url_host_str : Url -> option string;
  url_username : Url -> string;
  url_password : Url -> option string;
  url_fragment : Url -> option string;
  url_to_string : Url -> string;
}.

(** Serializing a parsed URL and parsing it again gives the same URL, and a
    serialization is never empty. *)
Class UrlLaws (L : UrlLib) := {
  url_reparse : forall s u, url_parse s = Some u -> url_parse (url_to_string u) = Some u;
  url_nonempty : forall s u, url_parse s = Some u -> url_to_string u <> EmptyString;
}.

(** ** Amounts, budgets and errors *)

Abbreviation AmountMsat := Z (only parsing).
Abbreviation AmountSat := Z (only parsing).

(** The bytes of an [NwcSecretKey]. *)
Abbreviation NwcSecretKey := (list Z) (only parsing).

Inductive HostErrorKind : Type :=
| Unavailable | TimedOut | Cancelled | HostRejected | NotFound | AlreadyInProgress | Internal.

#[export] Instance HostErrorKind_eq_dec : EqDecision HostErrorKind.
Proof. solve_decision. Defined.

(** [HostError] wraps its kind. *)
Abbreviation HostError := HostErrorKind (only parsing).

Definition is_retryable (e : HostError) : bool :=
  match e with Unavailable | TimedOut | AlreadyInProgress => true | _ => false end.

Definition confirms_payment_was_not_submitted (e : HostError) : bool :=
  match e with HostRejected | NotFound => true | _ => false end.

(** ** Secure URLs *)

Definition MAX_RELAY_URL_BYTES : Z := 2048.
Definition MAX_WAKE_SERVER_URL_BYTES : Z := 2048.

Definition is_some {A} (o : option A) : bool := match o with Some _ => true | None => false end.
Definition string_is_empty (s : string) : bool := str_len s =? 0.

Section SecureUrls.
Context `{L : UrlLib}.

(** A [SecureRelayUrl] is its canonical string. *)
Definition SecureRelayUrl_parse (value : string) : Result DomainError string :=
  if string_is_empty value || (MAX_RELAY_URL_BYTES <? str_len value)
  then Err InvalidRelayUrl
  else
    let? relay := ok_or InvalidRelayUrl (url_parse value) in
    if negb (bool_decide (url_scheme relay = "wss"))
       || negb (is_some (url_host_str relay))
       || negb (string_is_empty (url_username relay))
       || is_some (url_password relay)
       || is_some (url_fragment relay)
    then Err InvalidRelayUrl
    else if MAX_RELAY_URL_BYTES <? str_len (url_to_string relay)
    then Err InvalidRelayUrl
    else Ok (url_to_string relay).

Definition SecureWakeServerUrl_parse (value : string) : Result DomainError string :=
  if string_is_empty value || (MAX_WAKE_SERVER_URL_BYTES <? str_len value)
  then Err InvalidWakeServerUrl
  else
    let? endpoint := ok_or InvalidWakeServerUrl (url_parse value) in
    if negb (bool_decide (url_scheme endpoint = "https"))
       || negb (is_some (url_host_str endpoint))
       || negb (string_is_empty (url_username endpoint))
       || is_some (url_password endpoint)
       || is_some (url_fragment endpoint)
    then Err InvalidWakeServerUrl
    else if MAX_WAKE_SERVER_URL_BYTES <? str_len (url_to_string endpoint)
    then Err InvalidWakeServerUrl
    else Ok (url_to_string endpoint).

End SecureUrls.

(** ** Cancellation

    [AtomicCancellation] is one shared bit; its operations are atomic, so the
    history of the signal is the order in which they take effect. *)

Definition AtomicCancellation : Type := bool.
Definition AtomicCancellation_new : AtomicCancellation := false.
Definition cancel (_ : AtomicCancellation) : AtomicCancellation := true.
Definition signal_is_cancelled (s : AtomicCancellation) : bool := s.
Definition NeverCancelled_is_cancelled : bool := false.

Inductive SignalOp : Type := Signal_cancel | Signal_is_cancelled.
(** What a history of operations reads from the signal. *)
Fixpoint signal_reads (ops : list SignalOp) (s : AtomicCancellation) : list bool :=
  match ops with
  | [] => []
  | Signal_cancel :: ops => signal_reads ops (cancel s)
  | Signal_is_cancelled :: ops => signal_is_cancelled s :: signal_reads ops s
  end.

Lemma signal_reads_cancelled ops : Forall (eq true) (signal_reads ops true).
Proof. induction ops as [|[] ops IH]; simpl; auto. Qed.

(** The signal is monotonic: a read is [true] exactly when a [cancel] came before
    it, in whatever order tasks use it. *)
Lemma signal_reads_spec ops :
  exists n, signal_reads ops AtomicCancellation_new
    = replicate n false ++ replicate (length (signal_reads ops AtomicCancellation_new) - n) true
  /\ (Signal_cancel ∈ ops <-> exists before after, ops = before ++ Signal_cancel :: after
        /\ length (signal_reads before AtomicCancellation_new) = n /\ ~ Signal_cancel ∈ before).
Proof.
  unfold AtomicCancellation_new. induction ops as [|[] ops (n & IH1 & IH2)]; simpl.
  - exists 0%nat. split; [done|]. split; [by intros ?%elem_of_nil|].
    intros (before & after & H & _). by destruct before.
  - exists 0%nat. rewrite Nat.sub_0_r. cbn. split.
    + change (cancel false) with true. pose proof (signal_reads_cancelled ops) as H.
      induction H as [|b l <- _ IH]; simpl; [done|]. by f_equal.
    + split; [|intros; by left]. intros _. exists [], ops. split_and!; [done..|by intros ?%elem_of_nil].
  - exists (S n). cbn. split; [by f_equal|]. split.
    + intros [[=]|H]%elem_of_cons. apply IH2 in H as (before & after & -> & Hn & Hb).
      exists (Signal_is_cancelled :: before), after. simpl. split_and!; [done|by f_equal|].
      by intros [[=]|?]%elem_of_cons.
    + intros (before & after & H & Hn & Hb). right. apply IH2. destruct before as [|x before]; [done|].
      injection H as <- ->. exists before, after. simpl in Hn. split_and!; [done|lia|].
      intros ?. apply Hb. by right.
Qed.

(** ** Wallet values *)

Inductive NwcNotificationType : Type := PaymentReceived | PaymentSent.

Definition notification_as_str (n : NwcNotificationType) : string :=
  match n with
  | PaymentReceived => "payment_received"
  | PaymentSent => "payment_sent"
  end.

#[export] Instance NwcNotificationType_eq_dec : EqDecision NwcNotificationType.
Proof. solve_decision. Defined.

(** [WalletInfo]: the sets are the lists of their elements in order. *)
Record WalletInfo := mkWalletInfo {
  wallet_public_key : option PublicKey;
  wallet_methods : list NwcMethod;
  wallet_notifications : list NwcNotificationType;
}.

Record MakeInvoiceRequest := mkMakeInvoiceRequest {
  mir_amount : AmountMsat;
  mir_description : option string;
  mir_expiry : Duration;
}.

Record CreatedInvoice := mkCreatedInvoice {
  ci_invoice : string;
  ci_payment_hash : PaymentHash;
  ci_amount : AmountMsat;
  ci_expires_at : UnixTimestamp;
}.

Record PayInvoiceRequest := mkPayInvoiceRequest {
  pir_invoice : string;
  pir_amount : option AmountMsat;
  pir_maximum_fee : AmountSat;
  pir_idempotency_key : EventId;
}.

Record PaymentQuote := mkPaymentQuote {
  pq_payment_hash : PaymentHash;
  pq_principal : AmountMsat;
}.

Inductive PaymentFailure : Type :=
| InvalidInvoice | InsufficientFunds | NoRoute | RecipientRejected | PaymentFailure_Other.

Inductive PaymentStatus : Type :=
| Status_Unknown
| Status_Pending
| Status_Succeeded (preimage : PaymentPreimage) (amount fee : AmountMsat)
| Status_Failed (reason : PaymentFailure).

Inductive InvoiceLookup : Type :=
| Lookup_PaymentHash (hash : PaymentHash)
| Lookup_Invoice (invoice : string).

Inductive TransactionDirection : Type := Incoming | Outgoing.

#[export] Instance TransactionDirection_eq_dec : EqDecision TransactionDirection.
Proof. solve_decision. Defined.

Record WalletTransaction := mkWalletTransaction {
  tx_payment_hash : option PaymentHash;
  tx_direction : TransactionDirection;
  tx_amount : AmountMsat;
  tx_fee : AmountMsat;
  tx_created_at : UnixTimestamp;
  tx_settled_at : option UnixTimestamp;
  tx_status : PaymentStatus;
}.

Definition pending_incoming (hash : PaymentHash) (amount : AmountMsat) (created_at : UnixTimestamp)
  : WalletTransaction :=
  mkWalletTransaction (Some hash) Incoming amount 0 created_at None Status_Pending.

Definition settled_incoming (hash : PaymentHash) (preimage : PaymentPreimage)
    (amount : AmountMsat) (created_at settled_at : UnixTimestamp) : WalletTransaction :=
  mkWalletTransaction (Some hash) Incoming amount 0 created_at (Some settled_at)
    (Status_Succeeded preimage amount 0).

Definition pending_outgoing (hash : PaymentHash) (amount fee : AmountMsat)
    (created_at : UnixTimestamp) : WalletTransaction :=
  mkWalletTransaction (Some hash) Outgoing amount fee created_at None Status_Pending.

Record ListTransactionsRequest := mkListTransactionsRequest {
  ltr_from : option UnixTimestamp;
  ltr_until : option UnixTimestamp;
  ltr_limit : Z;
  ltr_offset : Z;
  ltr_direction : option TransactionDirection;
  ltr_include_unpaid : bool;
}.

Definition is_succeeded (s : PaymentStatus) : bool :=
  match s with Status_Succeeded _ _ _ => true | _ => false end.

Definition transaction_matches (tx : WalletTransaction) (request : ListTransactionsRequest)
  : bool :=
  if match ltr_from request with Some from => tx_created_at tx <? from | None => false end
     || match ltr_until request with Some until => until <? tx_created_at tx | None => false end
     || match ltr_direction request with
        | Some direction => negb (bool_decide (tx_direction tx = direction))
        | None => false end
  then false
  else ltr_include_unpaid request || is_succeeded (tx_status tx).

(** [sort_by_key(Reverse(created_at))] is a stable sort, newest first. *)
Definition newest_first (a b : WalletTransaction) : Prop := tx_created_at b <= tx_created_at a.

#[export] Instance newest_first_dec : RelDecision newest_first.
Proof. unfold RelDecision, newest_first. intros; apply _. Defined.

Definition prepare_transaction_page (transactions : list WalletTransaction)
    (request : ListTransactionsRequest) : list WalletTransaction :=
  take (Z.to_nat (ltr_limit request))
    (drop (Z.to_nat (ltr_offset request))
      (merge_sort newest_first
        (List.filter (fun tx => transaction_matches tx request) transactions))).

(** ** Lemmas and properties *)

#[export] Instance newest_first_total : Total newest_first.
Proof. intros a b. unfold newest_first. lia. Qed.
#[export] Instance newest_first_trans : Transitive newest_first.
Proof. intros a b c. unfold newest_first. lia. Qed.

Lemma StronglySorted_take_drop {A} (R : relation A) n m l :
  StronglySorted R l -> StronglySorted R (take n (drop m l)).
Proof.
  intros H.
  assert (forall l1 l2 : list A, StronglySorted R (l1 ++ l2) ->
    StronglySorted R l1 /\ StronglySorted R l2) as Happ.
  { intros l1. induction l1 as [|a l1 IH]; intros l2 Hs; simpl in *; [by split; [constructor|]|].
    inversion Hs as [|? ? Hs' Hall]; subst. apply IH in Hs' as [? ?].
    split; [|done]. constructor; [done|]. by apply Forall_app in Hall as [? _]. }
  rewrite <- (take_drop m l) in H. apply Happ in H as [_ H].
  rewrite <- (take_drop n (drop m l)) in H. by apply Happ in H as [H _].
Qed.

(** A transaction page holds only matching transactions of the wallet, at most
    [limit] of them, newest first; it is complete when nothing is skipped. *)
Theorem prepare_transaction_page_spec txs request :
  0 <= ltr_limit request -> 0 <= ltr_offset request ->
  let page := prepare_transaction_page txs request in
  StronglySorted newest_first page
  /\ Z.of_nat (length page) <= ltr_limit request
  /\ (forall tx, tx ∈ page -> tx ∈ txs /\ transaction_matches tx request = true)
  /\ (ltr_offset request = 0 -> Z.of_nat (length txs) <= ltr_limit request ->
      forall tx, tx ∈ txs -> transaction_matches tx request = true -> tx ∈ page).
Proof.
  intros Hl Ho. unfold prepare_transaction_page. cbv zeta.
  set (matching := List.filter _ txs).
  assert (forall tx, tx ∈ merge_sort newest_first matching <->
    tx ∈ txs /\ transaction_matches tx request = true) as Hel.
  { intros tx. rewrite (merge_sort_Permutation newest_first matching).
    subst matching. rewrite !list_elem_of_In. apply filter_In. }
  split_and!.
  - apply StronglySorted_take_drop, Sorted_StronglySorted; [apply _|].
    apply Sorted_merge_sort, _.
  - rewrite length_take. lia.
  - intros tx Htx. apply Hel.
    eapply elem_of_submseteq; [exact Htx|].
    etrans; apply sublist_submseteq; [apply sublist_take|apply sublist_drop].
  - intros Ho0 Hlen tx Hin Hm. rewrite Ho0. simpl. rewrite drop_0, take_ge; [by apply Hel|].
    rewrite (merge_sort_Permutation newest_first matching).
    subst matching. pose proof (filter_length_le (fun tx => transaction_matches tx request) txs).
    lia.
Qed.

Lemma prepare_transaction_page_spec_witness :
  length (prepare_transaction_page
    [settled_incoming [] [] 5 1 2; pending_incoming [] 5 3; settled_incoming [] [] 5 4 4]
    (mkListTransactionsRequest None None 2 0 None false)) = 2%nat
  /\ StronglySorted newest_first (prepare_transaction_page
    [settled_incoming [] [] 5 1 2; pending_incoming [] 5 3; settled_incoming [] [] 5 4 4]
    (mkListTransactionsRequest None None 2 0 None false)).
Proof.
  split; [vm_compute; reflexivity|].
  apply (prepare_transaction_page_spec _
    (mkListTransactionsRequest None None 2 0 None false)); simpl; lia.
Defined.

Section SecureUrlLemmas.
Context `{L : UrlLib} `{LL : !UrlLaws L}.

(** A parsed relay URL is a bounded canonical form: it parses to itself. *)
Lemma SecureRelayUrl_parse_canonical s relay :
  SecureRelayUrl_parse s = Ok relay -> SecureRelayUrl_parse relay = Ok relay.
Proof.
  unfold SecureRelayUrl_parse. intros H. inv_run H. use_results.
  rename a into x.
  assert (url_parse (url_to_string x) = Some x) as Hre by eauto using url_reparse.
  assert (url_to_string x <> EmptyString) as Hne by eauto using url_nonempty.
  assert (string_is_empty (url_to_string x) = false) as ->.
  { unfold string_is_empty, str_len. destruct (url_to_string x); [done|]. simpl. lia. }
  rewrite Heqb1. cbn [orb]. rewrite Hre. cbn [ok_or].
  by rewrite Heqb0, Heqb1.
Qed.

(** The canonical relay is secure: its URL has the [wss] scheme, a host, and
    no credentials or fragment. *)
Lemma SecureRelayUrl_parse_secure s relay :
  SecureRelayUrl_parse s = Ok relay ->
  exists u, url_parse s = Some u /\ relay = url_to_string u /\ url_scheme u = "wss"
    /\ url_host_str u <> None /\ url_username u = EmptyString
    /\ url_password u = None /\ url_fragment u = None /\ 1 <= str_len relay <= 2048.
Proof.
  unfold SecureRelayUrl_parse. intros H. inv_run H. use_results. rename a into x.
  exists x. bool_to_prop.
  assert (forall y, string_is_empty y = true -> y = EmptyString) as Hemp.
  { intros [|? ?]; [done|]. unfold string_is_empty, str_len. simpl. lia. }
  split_and!; eauto.
  - by destruct (url_host_str x).
  - by destruct (url_password x).
  - by destruct (url_fragment x).
  - assert (url_to_string x <> EmptyString) as Hne by eauto using url_nonempty.
    unfold str_len. destruct (url_to_string x); [done|]. simpl. lia.
Qed.
End SecureUrlLemmas.
