(* ===== verification/Bolt11.v ===== *)
(** * Invoice helpers of wallet adapters

    Models [nwc-mobile-bolt11/src/lib.rs]: quotes and amounts of the invoices a
    wallet adapter is asked to pay.  The [lightning_invoice] crate is the
    interface [Bolt11]; the system clock its expiry check reads is the argument
    [now]. *)
From S2P Require Import Prelude Types Host.
#[local] Open Scope Z_scope.

Class Bolt11 := {
  Bolt11Invoice : Type;
  bolt11_from_str : string -> option Bolt11Invoice;
  bolt11_to_string : Bolt11Invoice -> string;
  bolt11_payment_hash : Bolt11Invoice -> list Z;
  amount_milli_satoshis : Bolt11Invoice -> option Z;
  bolt11_is_expired : Bolt11Invoice -> Duration -> bool;
  (** The expiry as a time since the epoch; [None] when it overflows. *)
  bolt11_expires_at : Bolt11Invoice -> option Duration;
}.

(** The amount of an invoice is a [u64]. *)
Class Bolt11Laws (B : Bolt11) := {
  bolt11_amount_u64 : forall i a, amount_milli_satoshis i = Some a -> u64 a;
}.

Section Bolt11.
Context `{B : Bolt11}.

Definition parse_invoice (invoice : string) : Result HostError Bolt11Invoice :=
  ok_or HostRejected (bolt11_from_str invoice).

Definition payment_hash (invoice : Bolt11Invoice) : PaymentHash := bolt11_payment_hash invoice.

Definition payment_amount (now : Duration) (invoice : Bolt11Invoice) (explicit_amount : option AmountMsat)
  : Result HostError AmountMsat :=
  if bolt11_is_expired invoice now then Err HostRejected
  else
  let? amount := match amount_milli_satoshis invoice, explicit_amount with
                 | Some amount, None => Ok amount
                 | None, Some amount => Ok amount
                 | Some _, Some _ | None, None => Err HostRejected
                 end in
  if amount =? 0 then Err HostRejected else Ok amount.

Definition exact_sats (amount_msat : AmountMsat) : Result HostError Z :=
  if negb (amount_msat mod 1000 =? 0) then Err HostRejected else Ok (amount_msat / 1000).

Definition payment_amount_sats (now : Duration) (invoice : Bolt11Invoice)
    (explicit_amount : option AmountMsat) : Result HostError Z :=
  let? amount := payment_amount now invoice explicit_amount in
  let? amount := exact_sats amount in
  if amount =? 0 then Err HostRejected else Ok amount.


Definition sats_to_msats (amount_sat : Z) : AmountMsat := saturating_mul_u64 amount_sat 1000.

Definition quote_invoice (now : Duration) (invoice : string) (explicit_amount : option AmountMsat)
  : Result HostError PaymentQuote :=
  let? invoice := parse_invoice invoice in
  let? principal := payment_amount now invoice explicit_amount in
  Ok (mkPaymentQuote (payment_hash invoice) principal).

Definition quote_invoice_sats (now : Duration) (invoice : string) (explicit_amount : option AmountMsat)
  : Result HostError PaymentQuote :=
  let? invoice := parse_invoice invoice in
  let? sats := payment_amount_sats now invoice explicit_amount in
  Ok (mkPaymentQuote (payment_hash invoice) (sats_to_msats sats)).

Definition created_invoice (invoice : Bolt11Invoice) : Result HostError CreatedInvoice :=
  let? amount := ok_or Internal (amount_milli_satoshis invoice) in
  let? expires_at := ok_or Internal (duration_as_secs <$> bolt11_expires_at invoice) in
  Ok (mkCreatedInvoice (bolt11_to_string invoice) (payment_hash invoice) amount expires_at).

(** ** Lemmas and properties *)

Lemma payment_amount_u64 `{!Bolt11Laws B} now i e a :
  (forall x, e = Some x -> u64 x) -> payment_amount now i e = Ok a -> 0 < a <= u64_max.
Proof.
  intros He H. unfold payment_amount in H. pass_guard H E1. apply bind_Ok in H as (a' & Ha & H).
  pass_guard H E2. injection H as ->. apply Z.eqb_neq in E2.
  assert (u64 a) as [? ?]; [|lia].
  destruct (amount_milli_satoshis i) as [x|] eqn:Hx, e as [y|]; simplify_eq; [by eapply bolt11_amount_u64|auto].
Qed.

(** Multiplying back cannot saturate. *)
Lemma exact_sats_back a n : 0 <= a <= u64_max -> exact_sats a = Ok n -> sats_to_msats n = a.
Proof.
  unfold exact_sats, sats_to_msats, saturating_mul_u64. intros Ha H. pass_guard H E. injection H as <-.
  apply negb_false_iff, Z.eqb_eq in E. pose proof (Z.div_mod a 1000 ltac:(lia)). lia.
Qed.

(** The quote for a wallet that pays whole satoshis is the exact quote, given
    exactly when its principal is a whole number of satoshis; a quote never
    promises nothing, an expired or ambiguous invoice is never quoted, and
    what the adapter is later asked to pay is that principal. *)
Theorem quote_sats_spec `{!Bolt11Laws B} now invoice explicit q
    (He : forall x, explicit = Some x -> u64 x) :
  (quote_invoice_sats now invoice explicit = Ok q <->
     quote_invoice now invoice explicit = Ok q /\ pq_principal q mod 1000 = 0)
  /\ (quote_invoice now invoice explicit = Ok q -> exists i,
       bolt11_from_str invoice = Some i /\ bolt11_is_expired i now = false
       /\ pq_payment_hash q = bolt11_payment_hash i /\ 0 < pq_principal q <= u64_max
       /\ payment_amount now i explicit = Ok (pq_principal q)
       /\ (amount_milli_satoshis i = Some (pq_principal q) /\ explicit = None
           \/ amount_milli_satoshis i = None /\ explicit = Some (pq_principal q))
       /\ (pq_principal q mod 1000 = 0 ->
           payment_amount_sats now i explicit = Ok (pq_principal q / 1000))).
Proof.
  unfold quote_invoice_sats, quote_invoice, parse_invoice.
  destruct (bolt11_from_str invoice) as [i|]; simpl; [|split; [split; [done|by intros []]|done]].
  unfold payment_amount_sats.
  destruct (payment_amount now i explicit) as [a|x] eqn:Ha; simpl; [|split; [split; [done|by intros []]|done]].
  pose proof (payment_amount_u64 _ _ _ _ He Ha) as Hu.
  assert (a mod 1000 = 0 -> exact_sats a = Ok (a / 1000) /\ (a / 1000 =? 0) = false) as Hex.
  { intros Hm. unfold exact_sats. rewrite Hm. split; [done|]. apply Z.eqb_neq.
    pose proof (Z.div_mod a 1000 ltac:(lia)). lia. }
  split.
  - split.
    + intros H. apply bind_Ok in H as (n & Hn & H). apply bind_Ok in Hn as (n' & Hn' & Hn).
      pass_guard Hn E. injection Hn as ->. injection H as <-.
      rewrite (exact_sats_back a n) by (done || lia). split; [done|]. simpl.
      unfold exact_sats in Hn'. pass_guard Hn' E2. by apply negb_false_iff, Z.eqb_eq in E2.
    + intros [[= <-] Hm]. simpl in Hm. destruct (Hex Hm) as [Hs Hz]. rewrite Hs. cbn. rewrite Hz. cbn.
      by rewrite (exact_sats_back a) by (done || lia).
  - intros [= <-]. exists i. cbn [pq_principal pq_payment_hash].
    pose proof Ha as Hamount. unfold payment_amount in Ha. pass_guard Ha E1.
    apply bind_Ok in Ha as (a' & Ha' & Ha). pass_guard Ha E2. injection Ha as ->. split_and!; try done; try lia.
    + destruct (amount_milli_satoshis i), explicit; simplify_eq; auto.
    + intros Hm. destruct (Hex Hm) as [Hs Hz]. rewrite Hamount. cbn. rewrite Hs. cbn. by rewrite Hz.
Qed.
End Bolt11.

(** An invoice is its amount, and expires at 1000. *)
Definition sample_bolt11 : Bolt11 := {|
  Bolt11Invoice := option Z;
  bolt11_from_str := fun s => match s with EmptyString => None | _ => Some (Some 10000) end;
  bolt11_to_string := fun _ => "ln"%string;
  bolt11_payment_hash := fun _ => repeat 9 32;
  amount_milli_satoshis := fun i => match i with Some a => if a <=? u64_max then if 0 <=? a then Some a else None else None | None => None end;
  bolt11_is_expired := fun _ now => 1000 <=? now;
  bolt11_expires_at := fun _ => Some 1000 |}.

Lemma sample_bolt11_laws : Bolt11Laws sample_bolt11.
Proof.
  split. intros [a|] x; simpl; [|done]. destruct (Z.leb_spec a u64_max), (Z.leb_spec 0 a); try done.
  intros [= <-]. by split.
Qed.

Lemma quote_sats_spec_witness :
  @quote_invoice_sats sample_bolt11 5 "ln" None = Ok (mkPaymentQuote (repeat 9 32) 10000).
Proof.
  apply (@quote_sats_spec sample_bolt11 sample_bolt11_laws 5 "ln" None); [done|]. split; [|done].
  vm_compute. reflexivity.
Defined.
