(* ===== verification/Nwa.v ===== *)
(** * Nostr Wallet Auth requests

    Models [nwa.rs]: the parsing of an untrusted authorization link into a
    bounded request for user review, and the callbacks that report its outcome.
    The parts of a URL beyond [UrlLib], and the form encoder of the [url]
    crate, are the interface [UrlParts]. *)
From Stdlib Require Import String.
From stdpp Require Import gmap strings.
From S2P Require Import Prelude Types Text Policy Host.
#[local] Open Scope Z_scope.

Class UrlParts (L : UrlLib) := {
  url_query_pairs : Url -> list (string * string);
  url_port : Url -> option Z;
  url_path : Url -> string;
  url_set_fragment : Url -> option string -> Url;
  (** [form_urlencoded::Serializer] over the pairs in order. *)
  form_urlencode : list (string * string) -> string;
}.

(** Removing the fragment of a URL that has none leaves it alone, and an HTTPS or
    WSS URL is written in graphic ASCII characters. *)
Class UrlPartsLaws {L : UrlLib} (P : UrlParts L) := {
  set_fragment_none : forall u, url_fragment u = None -> url_set_fragment u None = u;
  url_plain_text : forall s u, url_parse s = Some u ->
    url_scheme u = "https"%string \/ url_scheme u = "wss"%string ->
    Forall (fun b => 33 <= b <= 126) (as_bytes (url_to_string u));
}.

Definition CLIENT_PUBLIC_KEY_HEX_LENGTH : Z := 64.

Inductive NwaError : Type :=
| RequestTooLarge | InvalidUrl | UnsupportedScheme | InvalidClientPublicKey | DuplicateParameter
| UnsupportedVersion | UnsupportedSecretMode | UnsupportedResponseMode | SecretMaterialPresent
| MissingRelay | TooManyRelays | Nwa_InvalidRelay | InvalidExpiration | Expired | LifetimeTooLong
| InvalidBudget | BudgetTooHigh | InvalidBudgetInterval | UnknownMethod | InvalidCallback
| MissingCallbackState | InvalidCallbackState | Nwa_RandomnessUnavailable | CallbackConstructionFailed.

Abbreviation NwaRequestId := (list Z) (only parsing).

(** [getrandom::fill] of 16 bytes. *)
Definition NwaRequestId_generate (random : option (list Z)) : Result NwaError NwaRequestId :=
  ok_or Nwa_RandomnessUnavailable random.

Record NwaParsePolicy := mkNwaParsePolicy {
  maximum_request_bytes : Z;
  maximum_relays : Z;
  maximum_display_name_chars : Z;
  maximum_lifetime : Duration;
  maximum_budget_sat : Z;
}.

Definition NwaParsePolicy_default : NwaParsePolicy :=
  mkNwaParsePolicy (8 * 1024) 2 80 (from_secs (30 * 24 * 60 * 60)) 1000000.

(** ** Text *)

Definition is_bidi_formatting (c : Z) : bool :=
  (c =? 1564) || (c =? 8206) || (c =? 8207) || in_range c 8234 8238 || in_range c 8294 8297.

(** The loop of [sanitize_display_text]; a [String] is the list of its [char]s. *)
Fixpoint sanitize_from (maximum_chars : Z) (value result : list Z) (pending_space : bool) : list Z :=
  match value with
  | [] => result
  | character :: rest =>
      if is_control character || is_bidi_formatting character
      then sanitize_from maximum_chars rest result pending_space
      else if is_whitespace character
      then sanitize_from maximum_chars rest result (negb (Nat.eqb (length result) 0))
      else if maximum_chars <=? Z.of_nat (length result) then result
      else
        let result := if pending_space then result ++ [32] else result in
        sanitize_from maximum_chars rest (result ++ [character]) false
  end.
Definition sanitize_display_text (value : string) (maximum_chars : Z) : list Z :=
  sanitize_from maximum_chars (chars value) [] false.

Definition sanitize_callback_error (code : string) : string :=
  let sanitized := take 64 (List.filter
    (fun b => is_ascii_alphanumeric b || (b =? 45) || (b =? 95)) (as_bytes code)) in
  if Nat.eqb (length sanitized) 0 then "unknown" else of_bytes sanitized.

Definition is_public_domain (host : string) : bool :=
  let host := to_ascii_lowercase <$> as_bytes host in
  if negb (bool_decide (46 ∈ host)) || bool_decide (host = as_bytes "localhost")
     || ends_with (as_bytes ".local") host || bool_decide (58 ∈ host)
  then false
  else
    let parts := split_on (fun b => b =? 46) host in
    negb (Nat.eqb (length parts) 4
          && forallb (fun part => is_some (parse_unsigned u8_max part)) parts).

(** A character a reader sees. *)
Definition visible (c : Z) : bool :=
  negb (is_control c || is_bidi_formatting c) && negb (is_whitespace c).

Lemma visible_space : visible 32 = false.
Proof. done. Qed.

(** What a reader should see of a text: the words of its visible characters, with
    one space between a word and the next. *)
Definition nonempty (w : list Z) : bool := match w with [] => false | _ => true end.
Definition hidden (c : Z) : bool := is_control c || is_bidi_formatting c.
Definition words (value : list Z) : list (list Z) :=
  List.filter nonempty
    (split_on is_whitespace (List.filter (fun c => negb (hidden c)) value)).
Definition spaced (ws : list (list Z)) : list Z :=
  match ws with [] => [] | w :: rest => w ++ flat_map (cons 32) rest end.

(** The first [n] characters, or one more where the last of them is a space. *)
Definition cut (n : Z) (l : list Z) : list Z :=
  take (Z.to_nat (if (0 <? n) && bool_decide (l !! Z.to_nat (n - 1) = Some 32) then n + 1 else n)) l.

Lemma words_visible value : Forall (fun w => w <> [] /\ Forall (fun c => visible c = true) w) (words value).
Proof.
  apply Forall_forall. intros w Hw. apply list_elem_of_In, filter_In in Hw as [Hw Hne].
  apply list_elem_of_In in Hw. split; [by destruct w|]. apply Forall_forall. intros c Hc.
  pose proof (split_on_pieces _ _ _ _ Hw Hc) as H1. pose proof (split_on_elem _ _ _ _ Hw Hc) as H2.
  apply list_elem_of_In, filter_In in H2 as [_ H2]. unfold visible. unfold hidden in H2. by rewrite H1, H2.
Qed.

(** What the loop still shows when nothing is cut off. *)
Fixpoint shown_from (started pending : bool) (value : list Z) : list Z :=
  match value with
  | [] => []
  | c :: rest =>
      if hidden c then shown_from started pending rest
      else if is_whitespace c then shown_from started started rest
      else (if pending then [32] else []) ++ c :: shown_from true false rest
  end.

Lemma shown_words value :
  let pieces := split_on is_whitespace (List.filter (fun c => negb (hidden c)) value) in
  let kept := List.filter nonempty in
  shown_from false false value = spaced (kept pieces)
  /\ shown_from true true value = flat_map (cons 32) (kept pieces)
  /\ exists w rest, pieces = w :: rest
       /\ shown_from true false value = w ++ flat_map (cons 32) (kept rest).
Proof.
  induction value as [|c value IH]; [cbn; split_and!; [done..|by exists [], []]|].
  cbn [List.filter shown_from]. destruct (hidden c); cbn [negb]; [exact IH|].
  cbv zeta in *. destruct IH as (I1 & I2 & w & rest & I3 & I4). cbn [split_on]. destruct (is_whitespace c) eqn:Ew.
  - split_and!; [exact I1|exact I2|]. exists [], (split_on is_whitespace (List.filter (fun c => negb (hidden c)) value)).
    by rewrite I2.
  - rewrite I3, I4. split_and!; [done|done|by exists (c :: w), rest].
Qed.

Lemma cut_0 n l : n <= 0 -> cut n l = [].
Proof. intros Hn. unfold cut. rewrite (proj2 (Z.ltb_ge 0 n) Hn). cbn [andb]. by rewrite Z2Nat.nonpos. Qed.

Lemma cut_skip n c l : 1 < n -> cut n (c :: l) = c :: cut (n - 1) l.
Proof.
  intros Hn. unfold cut. rewrite (proj2 (Z.ltb_lt 0 n)), (proj2 (Z.ltb_lt 0 (n - 1))) by lia. cbn [andb].
  replace (Z.to_nat (n - 1)) with (S (Z.to_nat (n - 1 - 1))) by lia. cbn [lookup list_lookup].
  destruct (bool_decide _); [replace (Z.to_nat (n + 1)) with (S (Z.to_nat (n - 1 + 1))) by lia
    |replace (Z.to_nat n) with (S (Z.to_nat (n - 1))) by lia]; done.
Qed.

Lemma cut_cons n c l : 0 < n -> c <> 32 -> cut n (c :: l) = c :: cut (n - 1) l.
Proof.
  intros Hn Hc. destruct (Z.eq_dec n 1) as [->|Hn1]; [|apply cut_skip; lia].
  rewrite (cut_0 (1 - 1)) by done. unfold cut. cbn.
  change ((c :: l) !! Z.to_nat (1 - 1)) with (Some c). by rewrite bool_decide_false by congruence.
Qed.

Lemma cut_space n c l : 0 < n -> c <> 32 -> cut n (32 :: c :: l) = 32 :: c :: cut (n - 2) l.
Proof.
  intros Hn Hc. destruct (Z.eq_dec n 1) as [->|Hn1]; [done|].
  rewrite cut_skip, cut_cons by lia. do 3 f_equal. lia.
Qed.

Lemma sanitize_from_shown maximum_chars value : forall result pending,
  (pending = true -> result <> []) ->
  sanitize_from maximum_chars value result pending
  = result ++ cut (maximum_chars - Z.of_nat (length result))
      (shown_from (negb (Nat.eqb (length result) 0)) pending value).
Proof.
  induction value as [|c value IH]; intros result pending Hp; cbn [sanitize_from shown_from].
  { unfold cut. by rewrite take_nil, app_nil_r. }
  unfold hidden. destruct (is_control c || is_bidi_formatting c) eqn:Eh; [by apply IH|].
  destruct (is_whitespace c) eqn:Ew.
  { apply IH. intros H ->. done. }
  assert (c <> 32) as Hc by (by intros ->).
  destruct (Z.leb_spec maximum_chars (Z.of_nat (length result))) as [Hm|Hm].
  { rewrite cut_0 by lia. by rewrite app_nil_r. }
  destruct pending; cbn [app].
  - rewrite cut_space by lia. rewrite IH by done. rewrite !length_app, <- !app_assoc. cbn [length app].
    rewrite (Nat.add_comm _ 1). cbn [Nat.add Nat.eqb negb]. do 4 f_equal. lia.
  - rewrite cut_cons by lia. rewrite IH by done. rewrite length_app, <- app_assoc. cbn [length app].
    rewrite (Nat.add_comm _ 1). cbn [Nat.add Nat.eqb negb]. do 3 f_equal. lia.
Qed.

(** The loop shows the words of the text, as much as fits. *)
Lemma sanitize_words value maximum_chars :
  sanitize_display_text value maximum_chars = cut maximum_chars (spaced (words (chars value))).
Proof.
  unfold sanitize_display_text. rewrite sanitize_from_shown by done. cbn [length Nat.eqb negb app].
  rewrite Z.sub_0_r. f_equal. apply shown_words.
Qed.

Lemma spaced_chars ws : Forall (fun w => w <> [] /\ Forall (fun c => visible c = true) w) ws ->
  Forall (fun c => c = 32 \/ visible c = true) (spaced ws).
Proof.
  assert (forall w, Forall (fun c => visible c = true) w -> Forall (fun c => c = 32 \/ visible c = true) w) as Hw.
  { intros w H. eapply Forall_impl; [exact H|]. by right. }
  intros [|w rest [_ Hv] Hr]; [constructor|]. cbn [spaced]. apply Forall_app. split; [auto|].
  induction Hr as [|w' rest [_ Hv'] _ IH]; [constructor|]. cbn [flat_map app]. constructor; [by left|].
  apply Forall_app. auto.
Qed.

(** ** Requests *)

Section Nwa.
Context `{L : UrlLib} `{P : !UrlParts L}.

Record NwaCallback := mkNwaCallback {
  cb_url : Url;
  cb_state : string;
}.

Record NwaRequest := mkNwaRequest {
  nwr_id : NwaRequestId;
  nwr_client_pubkey : PublicKey;
  nwr_display_name : list Z;
  nwr_icon_url : option Url;
  nwr_relays : list string;
  nwr_requested_policy : ConnectionPolicy;
  nwr_expires_at : option UnixTimestamp;
  nwr_callback : option NwaCallback;
}.

Abbreviation NwaQuery := (gmap string (list string)) (only parsing).

(** The multimap of the pairs; a repetition of any name but [relay] is an error. *)
Definition NwaQuery_parse (u : Url) : Result NwaError NwaQuery :=
  let values := foldl (fun (values : NwaQuery) '(name, value) =>
    <[name := default [] (values !! name) ++ [value]]> values) ∅ (url_query_pairs u) in
  if existsb (fun '(name, values) => negb (bool_decide (name = "relay"%string))
       && Nat.ltb 1 (length values)) (map_to_list values)
  then Err DuplicateParameter else Ok values.
Definition query_values (query : NwaQuery) (name : string) : list string := default [] (query !! name).
Definition query_value (query : NwaQuery) (name : string) : option string := head (query_values query name).

(** The loop over the relays: the kept ones, in order. *)
Fixpoint collect_relays (values kept : list string) : Result NwaError (list string) :=
  match values with
  | [] => Ok kept
  | value :: rest =>
      let? relay := ok_or Nwa_InvalidRelay (url_parse value) in
      if negb (bool_decide (url_scheme relay = "wss"%string)) || negb (is_some (url_host_str relay))
         || negb (string_is_empty (url_username relay)) || is_some (url_password relay)
         || is_some (url_fragment relay)
      then Err Nwa_InvalidRelay
      else
      let normalized := url_to_string (url_set_fragment relay None) in
      collect_relays rest (if bool_decide (normalized ∈ kept) then kept else kept ++ [normalized])
  end.

Definition parse_relays (query : NwaQuery) (policy : NwaParsePolicy) : Result NwaError (list string) :=
  let values := query_values query "relay" in
  if Nat.eqb (length values) 0 then Err MissingRelay
  else if (maximum_relays policy <? Z.of_nat (length values)) || (maximum_relays policy =? 0)
  then Err TooManyRelays
  else
  let? relays := collect_relays values [] in
  if Nat.eqb (length relays) 0 then Err MissingRelay else Ok relays.

Definition parse_expiration (query : NwaQuery) (now : UnixTimestamp) (policy : NwaParsePolicy)
  : Result NwaError (option UnixTimestamp) :=
  match query_value query "expires_at" with
  | None => Ok None
  | Some raw =>
      let? expires_at := ok_or InvalidExpiration (parse_unsigned u64_max (as_bytes raw)) in
      if expires_at <=? now then Err Expired
      else if duration_as_secs (maximum_lifetime policy) <? expires_at - now then Err LifetimeTooLong
      else Ok (Some expires_at)
  end.

Definition parse_budget (query : NwaQuery) (policy : NwaParsePolicy) : Result NwaError BudgetPolicy :=
  let? budget_sat :=
    match query_value query "max_amount" with
    | Some raw =>
        let? amount_msat := ok_or InvalidBudget (parse_unsigned u64_max (as_bytes raw)) in
        if negb (amount_msat mod 1000 =? 0) then Err InvalidBudget else Ok (amount_msat / 1000)
    | None => Ok 0
    end in
  if maximum_budget_sat policy <? budget_sat then Err BudgetTooHigh
  else
  let? interval :=
    match query_value query "budget_renewal" with
    | None => Ok Never
    | Some s =>
        if bool_decide (s = ""%string) || bool_decide (s = "never"%string) then Ok Never
        else if bool_decide (s = "hourly"%string) then Ok Hourly
        else if bool_decide (s = "daily"%string) then Ok Daily
        else if bool_decide (s = "weekly"%string) then Ok Weekly
        else if bool_decide (s = "monthly"%string) then Ok Monthly
        else if bool_decide (s = "yearly"%string) then Ok Yearly
        else Err InvalidBudgetInterval
    end in
  Ok (mkBudgetPolicy budget_sat interval (CountTowardBudget (maximum_mobile_fee_sat budget_sat))).

Definition method_of_name (name : list Z) : option NwcMethod :=
  List.find (fun m => bool_decide (chars (method_as_str m) = name)) all_methods.

Fixpoint collect_methods (names : list (list Z)) (methods : list NwcMethod)
  : Result NwaError (list NwcMethod) :=
  match names with
  | [] => Ok methods
  | name :: rest =>
      if Nat.eqb (length name) 0 then collect_methods rest methods
      else
      let? method := ok_or UnknownMethod (method_of_name name) in
      collect_methods rest (if bool_decide (method ∈ methods) then methods else methods ++ [method])
  end.

Definition parse_methods (query : NwaQuery) : Result NwaError (list NwcMethod) :=
  match query_value query "request_methods" with
  | Some raw =>
      if Nat.eqb (length (trim (chars raw))) 0 then Ok [GetInfo]
      else
      let? methods := collect_methods (split_on (fun c => is_whitespace c || (c =? 44)) (chars raw)) [] in
      Ok (if Nat.eqb (length methods) 0 then [GetInfo] else methods)
  | None => Ok [GetInfo]
  end.

(** The checks a callback and an icon share. *)
Definition public_https (u : Url) (host : string) : bool :=
  negb (negb (bool_decide (url_scheme u = "https"%string)) || negb (string_is_empty (url_username u))
        || is_some (url_password u) || is_some (url_fragment u)
        || match url_port u with Some port => negb (port =? 443) | None => false end
        || negb (is_public_domain host)).

Definition parse_callback (query : NwaQuery) : Result NwaError (option NwaCallback) :=
  match query_value query "return_to" with
  | None => if is_some (query_value query "state") then Err InvalidCallback else Ok None
  | Some raw_url =>
      if 2048 <? str_len raw_url then Err InvalidCallback
      else
      let? state := ok_or MissingCallbackState (query_value query "state") in
      if (str_len state <? 32) || (256 <? str_len state) || existsb is_control (chars state)
      then Err InvalidCallbackState
      else
      let? u := ok_or InvalidCallback (url_parse raw_url) in
      let? host := ok_or InvalidCallback (url_host_str u) in
      if negb (public_https u host) || string_is_empty (url_path u) then Err InvalidCallback
      else Ok (Some (mkNwaCallback u state))
  end.

Definition parse_icon_url (raw : option string) : option Url :=
  match raw with
  | None => None
  | Some raw =>
      let raw := of_chars (trim (chars raw)) in
      if string_is_empty raw || (2048 <? str_len raw) then None
      else
        match url_parse raw with
        | None => None
        | Some u =>
            match url_host_str u with
            | None => None
            | Some host => if negb (public_https u host) then None else Some u
            end
        end
  end.
Definition validated_public_icon_url (raw : string) : option string :=
  url_to_string <$> parse_icon_url (Some raw).

Definition parse_with_id (input : string) (now : UnixTimestamp) (policy : NwaParsePolicy)
    (id : NwaRequestId) : Result NwaError NwaRequest :=
  if (maximum_request_bytes policy <? str_len input) || (maximum_request_bytes policy =? 0)
  then Err RequestTooLarge
  else
  let? u := ok_or InvalidUrl (url_parse input) in
  if negb (bool_decide (url_scheme u = "nostr+walletauth"%string)
           || bool_decide (url_scheme u = "nostr+walletauth+rebelwallet"%string))
  then Err UnsupportedScheme
  else if negb (string_is_empty (url_username u)) || is_some (url_password u)
  then Err SecretMaterialPresent
  else if is_some (url_fragment u) then Err SecretMaterialPresent
  else
  let? client_hex := ok_or InvalidClientPublicKey (url_host_str u) in
  if negb (str_len client_hex =? CLIENT_PUBLIC_KEY_HEX_LENGTH) then Err InvalidClientPublicKey
  else
  let? client_pubkey := map_err (fun _ => InvalidClientPublicKey) (Hex32_from_hex client_hex) in
  let? query := NwaQuery_parse u in
  if negb (bool_decide (default "1"%string (query_value query "version") = "1"%string))
  then Err UnsupportedVersion
  else if is_some (query_value query "pubkey") then Err InvalidClientPublicKey
  else if negb (eq_ignore_ascii_case (default "client"%string (query_value query "secret_mode")) "client")
  then Err UnsupportedSecretMode
  else if negb (eq_ignore_ascii_case (default "relay"%string (query_value query "response_mode")) "relay")
  then Err UnsupportedResponseMode
  else if existsb (fun name => is_some (query_value query name)) ["secret"; "nwc_uri"; "value"]%string
  then Err SecretMaterialPresent
  else
  let? relays := parse_relays query policy in
  let? expires_at := parse_expiration query now policy in
  let? budget := parse_budget query policy in
  let? methods := parse_methods query in
  if bool_decide (PayInvoice ∈ methods)
     && (limit_sat budget <=? maximum_mobile_fee_sat (limit_sat budget))
  then Err InvalidBudget
  else
  let requested_policy := ConnectionPolicy_new methods budget in
  let? callback := parse_callback query in
  let raw_name := default "External App"%string
    (match query_value query "name" with Some n => Some n | None => query_value query "appname" end) in
  let display_name := sanitize_display_text raw_name (maximum_display_name_chars policy) in
  let display_name := if Nat.eqb (length display_name) 0 then chars "External App" else display_name in
  let icon_url := parse_icon_url (query_value query "icon") in
  Ok (mkNwaRequest id client_pubkey display_name icon_url relays requested_policy expires_at callback).

(** [NwaRequest::parse]. *)
Definition NwaRequest_parse (random : option (list Z)) (input : string) (now : UnixTimestamp)
    (policy : NwaParsePolicy) : Result NwaError NwaRequest :=
  let? id := NwaRequestId_generate random in
  parse_with_id input now policy id.

(** ** Callbacks *)

Definition target_description (c : NwaCallback) : string :=
  ("https://" ++ default "" (url_host_str (cb_url c)) ++ url_path (cb_url c))%string.

Definition url_with_fragment (c : NwaCallback) (fields : list (string * string)) : Result NwaError Url :=
  Ok (url_set_fragment (cb_url c) (Some (form_urlencode fields))).

Definition approved_url (c : NwaCallback) (wallet_service_pubkey : PublicKey) (relays : list string)
    (lud16 : option string) : Result NwaError Url :=
  let fields := [("state", cb_state c); ("status", "approved");
                 ("wallet_pubkey", Hex32_to_hex wallet_service_pubkey)]%string
                ++ ((fun relay => ("relay"%string, relay)) <$> relays)
                ++ match lud16 with
                   | Some value => if Nat.eqb (length (trim (chars value))) 0 then []
                                   else [("lud16"%string, value)]
                   | None => []
                   end in
  url_with_fragment c fields.
Definition cancelled_url (c : NwaCallback) : Result NwaError Url :=
  url_with_fragment c [("state", cb_state c); ("status", "cancelled")]%string.
Definition error_url (c : NwaCallback) (code : string) : Result NwaError Url :=
  url_with_fragment c [("state", cb_state c); ("status", "error"); ("error", sanitize_callback_error code)]%string.

(** ** Lemmas *)

(** The values of [name] in the link, in order. *)
Definition named_values (name : string) (pairs : list (string * string)) : list string :=
  snd <$> List.filter (fun '(n, _) => bool_decide (n = name)) pairs.

Lemma query_fold pairs name : forall values : NwaQuery,
  query_values (foldl (fun (values : NwaQuery) '(name, value) =>
    <[name := default [] (values !! name) ++ [value]]> values) values pairs) name
  = query_values values name ++ named_values name pairs.
Proof.
  induction pairs as [|[n v] pairs IH]; intros values; [by rewrite app_nil_r|].
  cbn [foldl]. rewrite IH. unfold named_values, query_values. cbn [List.filter].
  destruct (decide (n = name)) as [->|Hne].
  - rewrite lookup_insert_eq, bool_decide_true by done. cbn [default fmap list_fmap snd from_option].
    unfold id. by rewrite <- app_assoc.
  - by rewrite lookup_insert_ne, bool_decide_false by done.
Qed.

(** A parsed query gives every name its values in the link; only a relay can be
    given twice. *)
Lemma NwaQuery_parse_Ok u query : NwaQuery_parse u = Ok query ->
  forall name, query_values query name = named_values name (url_query_pairs u)
    /\ (name <> "relay"%string -> (length (query_values query name) <= 1)%nat).
Proof.
  unfold NwaQuery_parse. intros H name. inv_run H. split; [apply query_fold|].
  intros Hname. unfold query_values.
  match goal with |- context [?m !! name] => destruct (m !! name) as [values|] eqn:Hl end; [|simpl; lia].
  apply elem_of_map_to_list in Hl. destruct (Nat.ltb_spec 1 (length values)) as [Hlt|]; [|done]. exfalso.
  enough (true = false) by done. rewrite <- Heqb. symmetry. apply existsb_exists. exists (name, values).
  split; [by apply list_elem_of_In|]. rewrite bool_decide_false by done. by apply Nat.ltb_lt.
Qed.

Lemma query_value_None query name : query_value query name = None <-> query_values query name = [].
Proof. unfold query_value. by destruct (query_values query name). Qed.

Lemma named_values_nil name pairs value : named_values name pairs = [] -> (name, value) ∉ pairs.
Proof.
  unfold named_values. intros H%fmap_nil_inv Hin.
  assert ((name, value) ∈ List.filter (fun '(n, _) => bool_decide (n = name)) pairs) as Hf.
  { apply list_elem_of_In, filter_In. split; [by apply list_elem_of_In|]. by apply bool_decide_eq_true_2. }
  rewrite H in Hf. by apply elem_of_nil in Hf.
Qed.

Lemma string_is_empty_true s : string_is_empty s = true <-> s = EmptyString.
Proof.
  unfold string_is_empty, str_len. destruct s; simpl; [done|]. split; [lia|done].
Qed.

Lemma is_some_false {A} (o : option A) : is_some o = false <-> o = None.
Proof. by destruct o. Qed.
Lemma is_some_true {A} (o : option A) : is_some o = true <-> o <> None.
Proof. destruct o; simpl; intuition congruence. Qed.

(** A relay as a request carries it: the serialization of a secure URL. *)
Definition secure_relay (relay : string) : Prop :=
  exists u, url_scheme u = "wss"%string /\ url_host_str u <> None /\ url_username u = EmptyString
    /\ url_password u = None /\ url_fragment u = None /\ relay = url_to_string u
    /\ url_parse relay = Some u.

(** An application-link target: HTTPS on a public domain, nothing hidden in it. *)
Definition public_target (u : Url) : Prop :=
  url_scheme u = "https"%string /\ url_username u = EmptyString /\ url_password u = None
  /\ url_fragment u = None /\ (forall port, url_port u = Some port -> port = 443)
  /\ exists host, url_host_str u = Some host /\ is_public_domain host = true.

Lemma public_https_true u host : url_host_str u = Some host -> public_https u host = true ->
  public_target u.
Proof.
  unfold public_https, public_target. intros Hh H.
  rewrite negb_true_iff, !orb_false_iff, !negb_false_iff, !is_some_false,
    string_is_empty_true, bool_decide_eq_true in H.
  destruct H as (((((Hs & Hu) & Hp) & Hf) & Hport) & Hd).
  split_and!; try done; [|by exists host].
  intros port Heq. rewrite Heq, negb_false_iff in Hport. lia.
Qed.

Section Parsed.
Context `{LL : !UrlLaws L} `{PL : !UrlPartsLaws P}.

Lemma collect_relays_Ok values : forall kept relays,
  collect_relays values kept = Ok relays -> NoDup kept -> Forall secure_relay kept ->
  NoDup relays /\ Forall secure_relay relays
  /\ (length kept <= length relays <= length kept + length values)%nat.
Proof.
  induction values as [|value rest IH]; intros kept relays H Hnd Hall; cbn [collect_relays] in H.
  { injection H as <-. simpl. split_and!; [done|done|lia|lia]. }
  apply bind_Ok in H as (u & Hu%ok_or_Ok & H).
  destruct (_ || is_some (url_fragment u)) eqn:E; [done|].
  rewrite !orb_false_iff, !negb_false_iff, !is_some_false, string_is_empty_true,
    is_some_true, bool_decide_eq_true in E. destruct E as ((((Hs & Hh) & Hn) & Hp) & Hf).
  rewrite (set_fragment_none u Hf) in H.
  assert (secure_relay (url_to_string u)) as Hsec by (exists u; eauto 10 using url_reparse).
  destruct (decide (url_to_string u ∈ kept)) as [Hin|Hin].
  - rewrite bool_decide_true in H by done. apply IH in H as (? & ? & ?); [|done..].
    simpl. split_and!; [done|done|lia|lia].
  - rewrite bool_decide_false in H by done.
    apply IH in H as (? & ? & Hlen).
    + rewrite length_app in Hlen. simpl in *. split_and!; [done|done|lia|lia].
    + apply NoDup_app. split_and!; [done| |apply NoDup_singleton].
      by intros r Hr ->%list_elem_of_singleton.
    + apply Forall_app. split; [done|]. by apply Forall_singleton.
Qed.

Lemma parse_relays_Ok query policy relays : parse_relays query policy = Ok relays ->
  1 <= Z.of_nat (length relays) <= maximum_relays policy /\ NoDup relays
  /\ Forall secure_relay relays.
Proof.
  unfold parse_relays. intros H.
  destruct (Nat.eqb (length (query_values query "relay")) 0) eqn:E1; [done|].
  destruct (_ || (maximum_relays policy =? 0)) eqn:E2; [done|].
  apply bind_Ok in H as (kept & Hk & H).
  destruct (Nat.eqb (length kept) 0) eqn:E3; [done|]. injection H as <-.
  apply collect_relays_Ok in Hk as (? & ? & Hlen); [|constructor..].
  apply orb_false_elim in E2 as [E2 _]. bool_to_prop. apply Nat.eqb_neq in E3.
  simpl in Hlen. split_and!; [lia|lia|done..].
Qed.

Lemma parse_expiration_Ok query now policy e : parse_expiration query now policy = Ok (Some e) ->
  now < e <= now + duration_as_secs (maximum_lifetime policy) /\ e <= u64_max.
Proof.
  unfold parse_expiration. destruct (query_value query "expires_at") as [raw|]; [|done]. intros H.
  apply bind_Ok in H as (v & Hv%ok_or_Ok & H). apply parse_unsigned_range in Hv; [|done].
  inv_run H. bool_to_prop. lia.
Qed.

Lemma parse_budget_Ok query policy b : parse_budget query policy = Ok b ->
  0 <= limit_sat b <= maximum_budget_sat policy
  /\ fee_policy b = CountTowardBudget (maximum_mobile_fee_sat (limit_sat b)).
Proof.
  unfold parse_budget. intros H. apply bind_Ok in H as (sat & Hsat & H).
  destruct (maximum_budget_sat policy <? sat) eqn:E; [done|].
  apply bind_Ok in H as (i & _ & H). injection H as <-. cbn [limit_sat fee_policy]. bool_to_prop.
  split; [|done]. split; [|lia].
  destruct (query_value query "max_amount") as [raw|]; [|injection Hsat as <-; lia].
  apply bind_Ok in Hsat as (msat & Hv%ok_or_Ok & Hsat). apply parse_unsigned_range in Hv; [|done].
  inv_run Hsat. apply Z.div_pos; lia.
Qed.

Lemma parse_methods_Ok query methods : parse_methods query = Ok methods -> methods <> [].
Proof.
  unfold parse_methods. destruct (query_value query "request_methods") as [raw|]; [|by intros [= <-]].
  destruct (Nat.eqb (length (trim (chars raw))) 0); [by intros [= <-]|].
  intros H. apply bind_Ok in H as (ms & _ & H). injection H as <-. by destruct ms.
Qed.

Lemma parse_callback_Ok query c : parse_callback query = Ok (Some c) ->
  public_target (cb_url c) /\ 32 <= str_len (cb_state c) <= 256
  /\ Forall (fun ch => is_control ch = false) (chars (cb_state c)).
Proof.
  unfold parse_callback. destruct (query_value query "return_to") as [raw|]; intros H.
  2:{ by destruct (is_some (query_value query "state")). }
  destruct (2048 <? str_len raw); [done|].
  apply bind_Ok in H as (state & _ & H).
  destruct (_ || existsb is_control (chars state)) eqn:E; [done|].
  apply bind_Ok in H as (u & _ & H). apply bind_Ok in H as (host & Hh%ok_or_Ok & H).
  destruct (negb (public_https u host) || string_is_empty (url_path u)) eqn:E2; [done|].
  injection H as <-. cbn [cb_url cb_state].
  apply orb_false_elim in E2 as [E2%negb_false_iff _].
  rewrite !orb_false_iff, !Z.ltb_ge in E. destruct E as ((? & ?) & Hc).
  split_and!; [by eapply public_https_true|lia|lia|].
  apply Forall_forall. intros ch Hch. destruct (is_control ch) eqn:Hcc; [|done].
  enough (true = false) by done. rewrite <- Hc. symmetry. apply existsb_exists. exists ch.
  by rewrite <- list_elem_of_In.
Qed.

(** What a user who approves a request can rely on. *)
Record reviewed (input : string) (now : UnixTimestamp) (policy : NwaParsePolicy)
    (id : NwaRequestId) (r : NwaRequest) : Prop := {
  rv_id : nwr_id r = id;
  (** The client is the authority of the link, which carries nothing secret. *)
  rv_link : exists u hex, url_parse input = Some u /\ url_host_str u = Some hex
    /\ Hex32_from_hex hex = Ok (nwr_client_pubkey r)
    /\ url_username u = EmptyString /\ url_password u = None /\ url_fragment u = None
    /\ forall name value, (name, value) ∈ url_query_pairs u ->
         name ∉ ["secret"; "nwc_uri"; "value"; "pubkey"]%string;
  rv_relays : 1 <= Z.of_nat (length (nwr_relays r)) <= maximum_relays policy
    /\ NoDup (nwr_relays r) /\ Forall secure_relay (nwr_relays r);
  rv_expiry : forall e, nwr_expires_at r = Some e ->
    now < e <= now + duration_as_secs (maximum_lifetime policy);
  rv_budget : 0 <= limit_sat (cp_budget (nwr_requested_policy r)) <= maximum_budget_sat policy
    /\ fee_policy (cp_budget (nwr_requested_policy r))
       = CountTowardBudget (maximum_mobile_fee_sat (limit_sat (cp_budget (nwr_requested_policy r))));
  rv_methods : cp_methods (nwr_requested_policy r) <> [];
  rv_spendable : allows (nwr_requested_policy r) PayInvoice = true ->
    10 < limit_sat (cp_budget (nwr_requested_policy r));
  rv_callback : forall c, nwr_callback r = Some c ->
    public_target (cb_url c) /\ 32 <= str_len (cb_state c) <= 256
    /\ Forall (fun ch => is_control ch = false) (chars (cb_state c));
  rv_name : nwr_display_name r <> [] /\ Forall (fun c => c = 32 \/ visible c = true) (nwr_display_name r);
}.

Lemma spendable_limit limit : 0 <= limit -> (limit <=? maximum_mobile_fee_sat limit) = false -> 10 < limit.
Proof.
  unfold maximum_mobile_fee_sat, clamp. intros H E.
  destruct (limit =? 0) eqn:E0; bool_to_prop; Z.to_euclidean_division_equations; lia.
Qed.

Lemma sanitized_visible value maximum_chars :
  Forall (fun c => c = 32 \/ visible c = true) (sanitize_display_text value maximum_chars).
Proof. rewrite sanitize_words. apply Forall_take, spaced_chars, words_visible. Qed.

Lemma parse_with_id_reviewed input now policy id r :
  parse_with_id input now policy id = Ok r -> 0 <= maximum_display_name_chars policy ->
  reviewed input now policy id r.
Proof.
  intros Hp Hm. unfold parse_with_id in Hp.
  pass_guard Hp E1.
  apply bind_Ok in Hp as (u & Hu%ok_or_Ok & Hp).
  pass_guard Hp E2. pass_guard Hp Ecred. pass_guard Hp Efrag.
  apply bind_Ok in Hp as (hex & Hhex%ok_or_Ok & Hp).
  pass_guard Hp E3.
  apply bind_Ok in Hp as (client & Hclient & Hp).
  apply bind_Ok in Hp as (query & Hq & Hp).
  pass_guard Hp E4. pass_guard Hp Epub. pass_guard Hp E5. pass_guard Hp E6. pass_guard Hp Esec.
  apply bind_Ok in Hp as (relays & Hrelays%parse_relays_Ok & Hp).
  apply bind_Ok in Hp as (expires & Hexp & Hp).
  apply bind_Ok in Hp as (budget & Hbud%parse_budget_Ok & Hp).
  apply bind_Ok in Hp as (methods & Hmeth%parse_methods_Ok & Hp).
  pass_guard Hp Espend.
  apply bind_Ok in Hp as (callback & Hcb & Hp). injection Hp as <-.
  split; cbn [nwr_id nwr_client_pubkey nwr_display_name nwr_relays nwr_requested_policy
    nwr_expires_at nwr_callback cp_methods cp_budget ConnectionPolicy_new].
  - done.
  - exists u, hex. rewrite orb_false_iff, negb_false_iff, string_is_empty_true, is_some_false in Ecred.
    destruct Ecred. apply is_some_false in Efrag, Epub.
    assert (Hex32_from_hex hex = Ok client) by (destruct (Hex32_from_hex hex); simpl in Hclient; congruence).
    split_and!; try done. intros name value Hin Hname.
    eapply named_values_nil; [|exact Hin].
    rewrite <- (proj1 (NwaQuery_parse_Ok u query Hq name)). apply query_value_None.
    cbn [existsb] in Esec. rewrite !orb_false_iff, !is_some_false in Esec. destruct Esec as (? & ? & ? & _).
    rewrite !elem_of_cons, elem_of_nil in Hname. by destruct Hname as [-> | [-> | [-> | [-> | []]]]].
  - done.
  - intros e ->. apply parse_expiration_Ok in Hexp. lia.
  - done.
  - intros Hnil. destruct methods as [|m ms]; [done|].
    assert (m ∈ btree_methods (m :: ms)) as Hin by (apply elem_of_btree_methods, list_elem_of_here).
    rewrite Hnil in Hin. by apply elem_of_nil in Hin.
  - intros Hpay. fold (ConnectionPolicy_new methods budget) in Hpay. rewrite allows_new in Hpay.
    rewrite Hpay in Espend. apply spendable_limit; [lia|exact Espend].
  - intros c ->. by apply parse_callback_Ok in Hcb.
  - set (name := sanitize_display_text _ _).
    assert (Forall (fun c => c = 32 \/ visible c = true) name) by (by apply sanitized_visible).
    destruct (Nat.eqb (length name) 0) eqn:E; [|apply Nat.eqb_neq in E; split; [by destruct name|done]].
    split; [done|]. decide_concrete.
Qed.

(** C36: A request that parses is bounded and safe to show: its client key is the
    link's authority; the link carries no secret, credential or fragment; its
    relays are distinct secure URLs within the policy's count; its expiration,
    budget and fee reserve are within the policy; a payment permission leaves
    a spendable amount; its callback is a public HTTPS target with a bounded
    correlation state; and its name shows no control or direction character. *)
Theorem parse_reviewed random input now policy r
    (Hp : NwaRequest_parse random input now policy = Ok r)
    (Hm : 0 <= maximum_display_name_chars policy) :
  exists id, random = Some id /\ reviewed input now policy id r.
Proof.
  unfold NwaRequest_parse, NwaRequestId_generate in Hp. apply bind_Ok in Hp as (id & Hid%ok_or_Ok & Hp).
  exists id. split; [done|]. by apply parse_with_id_reviewed.
Qed.
End Parsed.

End Nwa.
Arguments NwaCallback {L}.
Arguments NwaRequest {L}.

(** ** The display name

    Its length is checked before a pending space is pushed with the character
    that follows it, so a name can have one character more than
    [maximum_display_name_chars] allows. *)

(** C40: A display name is the text's words, in order, with exactly one space between
    two words and none before the first or after the last, as much of it as
    fits: a word is a longest run of visible characters, where control and
    direction characters do not count and white space separates.  What fits is
    the maximum, or one character more when the last that fits is a space, and
    that excess is reached. *)
Theorem sanitize_display_text_spec value maximum_chars :
  let shown := sanitize_display_text value maximum_chars in
  shown = cut maximum_chars (spaced (words (chars value)))
  /\ Forall (fun w => w <> [] /\ Forall (fun c => visible c = true) w) (words (chars value))
  /\ Z.of_nat (length shown) <= Z.max 0 maximum_chars + 1
  /\ Z.of_nat (length (sanitize_display_text "a b" 2)) = 2 + 1.
Proof.
  cbv zeta. rewrite sanitize_words. split_and!; [done|apply words_visible| |done].
  unfold cut. rewrite length_take. destruct (_ && _); lia.
Qed.

Lemma sanitize_display_text_spec_witness :
  of_chars (sanitize_display_text " Alice  Wallet " 80) = "Alice Wallet"%string
  /\ sanitize_display_text " a bcd" 4 = cut 4 (chars "a bcd").
Proof.
  split; [by vm_compute|]. exact (proj1 (sanitize_display_text_spec " a bcd" 4)).
Defined.

(** ** A concrete link

    URLs are texts whose scheme is read from their first character; the link
    asks for payments of at most 500 satoshis a month. *)

Definition sample_client : string := Hex32_to_hex (repeat 1 32).
Definition starts (s : string) (b : Z) : bool := bool_decide (head (as_bytes s) = Some b).
Definition link_urls : UrlLib := {|
  Url := string;
  url_parse := fun s => if string_is_empty s || negb (forallb (fun b => in_range b 33 126) (as_bytes s))
                        then None else Some s;
  url_scheme := fun s => (if starts s 110 then "nostr+walletauth" else if starts s 119 then "wss" else "https")%string;
  url_host_str := fun s => Some (if starts s 110 then sample_client else "app.example"%string);
  url_username := fun _ => EmptyString;
  url_password := fun _ => None;
  url_fragment := fun _ => None;
  url_to_string := fun u => u |}.
Definition link_parts : @UrlParts link_urls := {|
  url_query_pairs := fun _ =>
    [("relay", "wss://a"); ("relay", "wss://b"); ("relay", "wss://a");
     ("request_methods", "get_info, pay_invoice"); ("max_amount", "500000");
     ("budget_renewal", "monthly"); ("expires_at", "2000"); ("name", "A  Shop");
     ("return_to", "https://app.example/nwa");
     ("state", "8d2a91f43bc941778a4b9985274c0a54")]%string;
  url_port := fun _ => None;
  url_path := fun _ => "/nwa"%string;
  url_set_fragment := fun u _ => u;
  form_urlencode := fun _ => EmptyString |}.

Lemma link_parse_Some s u : @url_parse link_urls s = Some u ->
  u = s /\ s <> EmptyString /\ Forall (fun b => 33 <= b <= 126) (as_bytes s).
Proof.
  cbn. destruct (string_is_empty s) eqn:E1; [done|]. cbn [orb].
  destruct (forallb _ (as_bytes s)) eqn:E2; [|done]. intros [= <-]. split_and!; [done|by intros ->|].
  apply Forall_forall. intros b Hb. apply list_elem_of_In in Hb. rewrite forallb_forall in E2.
  specialize (E2 b Hb). unfold in_range in E2. bool_to_prop. lia.
Qed.
Lemma link_urls_laws : UrlLaws link_urls.
Proof.
  split; intros s u H; destruct (link_parse_Some s u H) as (-> & H1 & _); [exact H|exact H1].
Qed.
Lemma link_parts_laws : @UrlPartsLaws link_urls link_parts.
Proof. split; [done|]. intros s u H _. by destruct (link_parse_Some s u H) as (-> & _ & ?). Qed.

Definition link_policy : NwaParsePolicy := mkNwaParsePolicy 8192 3 80 (from_secs 5000) 1000000.
Definition linked_request : @NwaRequest link_urls :=
  @mkNwaRequest link_urls (repeat 7 16) (repeat 1 32) (as_bytes "A Shop") None ["wss://a"; "wss://b"]%string
    (ConnectionPolicy_new [GetInfo; PayInvoice] (mkBudgetPolicy 500 Monthly (CountTowardBudget 25)))
    (Some 2000) (Some (@mkNwaCallback link_urls "https://app.example/nwa"%string
                         "8d2a91f43bc941778a4b9985274c0a54"%string)).

Lemma linked_request_parses :
  @NwaRequest_parse link_urls link_parts (Some (repeat 7 16)) "nostr" 1000 link_policy = Ok linked_request.
Proof. vm_compute. reflexivity. Qed.

Lemma linked_request_reviewed :
  @reviewed link_urls link_parts "nostr" 1000 link_policy (repeat 7 16) linked_request.
Proof.
  apply (@parse_with_id_reviewed link_urls link_parts link_urls_laws link_parts_laws);
    [exact linked_request_parses|].
  vm_compute. discriminate.
Qed.

Lemma parse_reviewed_witness :
  exists id, Some (repeat 7 16) = Some id
  /\ @reviewed link_urls link_parts "nostr" 1000 link_policy id linked_request.
Proof.
  apply (@parse_reviewed link_urls link_parts link_urls_laws link_parts_laws
    (Some (repeat 7 16)) "nostr" 1000 link_policy linked_request); [exact linked_request_parses|].
  vm_compute. discriminate.
Defined.
