(* ===== verification/Foreground.v ===== *)
(** * Foreground wake execution

    Models [foreground.rs]: which wakes the application owns in this process,
    how often it has retried them, and what it does after each execution.  The
    identifiers of wakes are any countable type of keys. *)
From stdpp Require Import gmap.
From S2P Require Import Prelude Types Outcome.
#[local] Open Scope Z_scope.

Definition DEFAULT_FOREGROUND_WAKE_RETRY_ATTEMPTS : Z := 5.
Definition DEFAULT_FOREGROUND_WAKE_RETRY_BASE_DELAY : Duration := from_secs 2.

Record ForegroundWakePolicy := mkForegroundWakePolicy {
  maximum_retry_attempts : Z;
  queued_retry_base_delay : Duration;
}.
Definition ForegroundWakePolicy_new (maximum_retry_attempts : Z) (queued_retry_base_delay : Duration)
  : option ForegroundWakePolicy :=
  if (maximum_retry_attempts =? 0) || duration_is_zero queued_retry_base_delay then None
  else Some (mkForegroundWakePolicy maximum_retry_attempts queued_retry_base_delay).
Definition ForegroundWakePolicy_default : ForegroundWakePolicy :=
  mkForegroundWakePolicy DEFAULT_FOREGROUND_WAKE_RETRY_ATTEMPTS DEFAULT_FOREGROUND_WAKE_RETRY_BASE_DELAY.

Inductive ForegroundWakeOutcome : Type :=
| Foreground_Completed
| Foreground_AlreadyProcessed
| Foreground_Rejected (code : RejectionCode)
| RetryExhausted.

Inductive ForegroundWakeRetryCause : Type :=
| Cause_Engine (reason : RetryReason)
| Cause_QueuedForApplication (reason : QueueReason).

Inductive ForegroundWakeDecision : Type :=
| Finished (outcome : ForegroundWakeOutcome)
| Retry (delay : Duration) (cause : ForegroundWakeRetryCause).

(** [2_u32.saturating_pow(attempt.saturating_sub(1))] on [u8] attempts. *)
Definition u32_max : Z := 2 ^ 32 - 1.
Definition queued_retry_delay (policy : ForegroundWakePolicy) (attempt : Z) : Duration :=
  let exponent := Z.max (attempt - 1) 0 in
  let multiplier := Z.min (2 ^ exponent) u32_max in
  duration_saturating_mul (queued_retry_base_delay policy) multiplier.

Section Foreground.
Context {K : Type} `{Countable K}.

Record ForegroundWakeCoordinator := mkCoordinator {
  in_flight : gset K;
  retry_counts : gmap K Z;
  fw_policy : ForegroundWakePolicy;
}.

Definition ForegroundWakeCoordinator_new (policy : ForegroundWakePolicy) : ForegroundWakeCoordinator :=
  mkCoordinator ∅ ∅ policy.

(** [HashSet::insert] and [HashSet::remove] say whether they changed the set. *)
Definition begin_wake (identifier : K) (c : ForegroundWakeCoordinator) : bool * ForegroundWakeCoordinator :=
  (negb (bool_decide (identifier ∈ in_flight c)),
   mkCoordinator ({[identifier]} ∪ in_flight c) (retry_counts c) (fw_policy c)).

Definition is_in_flight (identifier : K) (c : ForegroundWakeCoordinator) : bool :=
  bool_decide (identifier ∈ in_flight c).

Definition retry_attempts (identifier : K) (c : ForegroundWakeCoordinator) : Z :=
  default 0 (retry_counts c !! identifier).

Definition retry_due (identifier : K) (c : ForegroundWakeCoordinator) : bool * ForegroundWakeCoordinator :=
  (bool_decide (identifier ∈ in_flight c),
   mkCoordinator (in_flight c ∖ {[identifier]}) (retry_counts c) (fw_policy c)).

Definition forget (identifier : K) (c : ForegroundWakeCoordinator) : ForegroundWakeCoordinator :=
  mkCoordinator (in_flight c ∖ {[identifier]}) (delete identifier (retry_counts c)) (fw_policy c).

Definition reset_wakes (c : ForegroundWakeCoordinator) : ForegroundWakeCoordinator :=
  mkCoordinator ∅ ∅ (fw_policy c).

Definition next_attempt (identifier : K) (c : ForegroundWakeCoordinator)
  : option Z * ForegroundWakeCoordinator :=
  let attempt := retry_attempts identifier c in
  let entry v := mkCoordinator (in_flight c) (<[identifier := v]> (retry_counts c)) (fw_policy c) in
  if maximum_retry_attempts (fw_policy c) <=? attempt then (None, entry attempt)
  else (Some (attempt + 1), entry (attempt + 1)).

Definition finish_wake (identifier : K) (outcome : ForegroundWakeOutcome) (c : ForegroundWakeCoordinator)
  : ForegroundWakeDecision * ForegroundWakeCoordinator :=
  (Finished outcome, forget identifier c).

Definition retry_wake (identifier : K) (delay : Duration) (cause : ForegroundWakeRetryCause)
    (c : ForegroundWakeCoordinator) : ForegroundWakeDecision * ForegroundWakeCoordinator :=
  match next_attempt identifier c with
  | (Some _, c) => (Retry delay cause, c)
  | (None, c) => finish_wake identifier RetryExhausted c
  end.

Definition handle_disposition (identifier : K) (disposition : WakeDisposition)
    (c : ForegroundWakeCoordinator) : ForegroundWakeDecision * ForegroundWakeCoordinator :=
  match disposition with
  | Completed _ => finish_wake identifier Foreground_Completed c
  | AlreadyProcessed _ => finish_wake identifier Foreground_AlreadyProcessed c
  | Rejected code _ => finish_wake identifier (Foreground_Rejected code) c
  | RetryAfter delay reason _ => retry_wake identifier delay (Cause_Engine reason) c
  | QueuedForApplication reason _ =>
      match next_attempt identifier c with
      | (Some attempt, c) =>
          (Retry (queued_retry_delay (fw_policy c) attempt) (Cause_QueuedForApplication reason), c)
      | (None, c) => finish_wake identifier RetryExhausted c
      end
  end.

(** ** One wake at a time

    What the coordinator promises of a wake does not involve the others: a wake
    is owned or not, and has been retried some number of times. *)

Record WakeView := mkWakeView { wv_owned : bool; wv_retries : Z }.
Definition fresh : WakeView := mkWakeView false 0.
Definition view (identifier : K) (c : ForegroundWakeCoordinator) : WakeView :=
  mkWakeView (is_in_flight identifier c) (retry_attempts identifier c).

(** The operations of the application, and their answers. *)
Inductive WakeOp : Type :=
| Op_begin (identifier : K)
| Op_retry_due (identifier : K)
| Op_forget (identifier : K)
| Op_reset
| Op_handle (identifier : K) (disposition : WakeDisposition).

Inductive WakeAnswer : Type :=
| Answer_bool (b : bool)
| Answer_none
| Answer_decision (decision : ForegroundWakeDecision).

Definition perform (op : WakeOp) (c : ForegroundWakeCoordinator) : WakeAnswer * ForegroundWakeCoordinator :=
  match op with
  | Op_begin k => let '(b, c) := begin_wake k c in (Answer_bool b, c)
  | Op_retry_due k => let '(b, c) := retry_due k c in (Answer_bool b, c)
  | Op_forget k => (Answer_none, forget k c)
  | Op_reset => (Answer_none, reset_wakes c)
  | Op_handle k d => let '(decision, c) := handle_disposition k d c in (Answer_decision decision, c)
  end.

Definition concerns (op : WakeOp) (k : K) : bool :=
  match op with
  | Op_begin k' | Op_retry_due k' | Op_forget k' | Op_handle k' _ => bool_decide (k = k')
  | Op_reset => true
  end.

(** A wake's own machine. *)
Definition retried (policy : ForegroundWakePolicy) (delay : Duration) (cause : ForegroundWakeRetryCause)
    (v : WakeView) : WakeAnswer * WakeView :=
  if wv_retries v <? maximum_retry_attempts policy
  then (Answer_decision (Retry delay cause), mkWakeView (wv_owned v) (wv_retries v + 1))
  else (Answer_decision (Finished RetryExhausted), fresh).

Definition view_step (policy : ForegroundWakePolicy) (op : WakeOp) (v : WakeView) : WakeAnswer * WakeView :=
  match op with
  | Op_begin _ => (Answer_bool (negb (wv_owned v)), mkWakeView true (wv_retries v))
  | Op_retry_due _ => (Answer_bool (wv_owned v), mkWakeView false (wv_retries v))
  | Op_forget _ | Op_reset => (Answer_none, fresh)
  | Op_handle _ (Completed _) => (Answer_decision (Finished Foreground_Completed), fresh)
  | Op_handle _ (AlreadyProcessed _) => (Answer_decision (Finished Foreground_AlreadyProcessed), fresh)
  | Op_handle _ (Rejected code _) => (Answer_decision (Finished (Foreground_Rejected code)), fresh)
  | Op_handle _ (RetryAfter delay reason _) => retried policy delay (Cause_Engine reason) v
  | Op_handle _ (QueuedForApplication reason _) =>
      retried policy (queued_retry_delay policy (wv_retries v + 1)) (Cause_QueuedForApplication reason) v
  end.

Lemma view_eq k c o r : is_in_flight k c = o -> retry_attempts k c = r -> view k c = mkWakeView o r.
Proof. by intros <- <-. Qed.

Lemma forget_view k c k' :
  view k' (forget k c) = if bool_decide (k' = k) then fresh else view k' c.
Proof.
  unfold view, is_in_flight, retry_attempts, forget, fresh. cbn [in_flight retry_counts].
  destruct (decide (k' = k)) as [->|Hk].
  - rewrite (bool_decide_true (k = k)), lookup_delete_eq by done. by rewrite bool_decide_false by set_solver.
  - rewrite (bool_decide_false (k' = k)), lookup_delete_ne by done. f_equal. apply bool_decide_ext. set_solver.
Qed.

Lemma next_attempt_view k c k' :
  (next_attempt k c).1 = (if wv_retries (view k c) <? maximum_retry_attempts (fw_policy c)
                          then Some (wv_retries (view k c) + 1) else None)
  /\ view k' (next_attempt k c).2
     = (if bool_decide (k' = k) && (wv_retries (view k c) <? maximum_retry_attempts (fw_policy c))
        then mkWakeView (wv_owned (view k c)) (wv_retries (view k c) + 1) else view k' c)
  /\ fw_policy (next_attempt k c).2 = fw_policy c.
Proof.
  unfold next_attempt. cbn [view wv_retries wv_owned]. rewrite Z.ltb_antisym.
  destruct (maximum_retry_attempts (fw_policy c) <=? retry_attempts k c); cbn [negb fst snd fw_policy];
    (split_and!; [done| |done]);
    unfold view, is_in_flight, retry_attempts; cbn [in_flight retry_counts];
    (destruct (decide (k' = k)) as [->|Hk];
     [rewrite (bool_decide_true (k = k)), lookup_insert_eq by done
     |rewrite (bool_decide_false (k' = k)), lookup_insert_ne by done]); done.
Qed.

Lemma retry_wake_view k delay cause c k' :
  (retry_wake k delay cause c).1 = match (retried (fw_policy c) delay cause (view k c)).1 with
                                   | Answer_decision d => d | _ => Finished RetryExhausted end
  /\ view k' (retry_wake k delay cause c).2
     = if bool_decide (k' = k) then (retried (fw_policy c) delay cause (view k c)).2 else view k' c.
Proof.
  unfold retry_wake, retried. destruct (next_attempt_view k c k') as (Hn & Hv & _).
  destruct (next_attempt k c) as [o c']. cbn [fst snd] in Hn, Hv. subst o.
  destruct (wv_retries (view k c) <? maximum_retry_attempts (fw_policy c)); cbn [fst snd].
  - by rewrite Hv, andb_true_r.
  - unfold finish_wake. cbn [fst snd]. rewrite forget_view, Hv, andb_false_r. done.
Qed.

(** A queued wake waits its own delay. *)
Lemma queued_is_retry k reason hint c :
  handle_disposition k (QueuedForApplication reason hint) c
  = retry_wake k (queued_retry_delay (fw_policy c) (wv_retries (view k c) + 1)) (Cause_QueuedForApplication reason) c.
Proof.
  unfold handle_disposition, retry_wake. destruct (next_attempt_view k c k) as (Hn & _ & Hp).
  destruct (next_attempt k c) as [o c']. cbn [fst snd] in Hn, Hp. subst o.
  destruct (wv_retries (view k c) <? maximum_retry_attempts (fw_policy c)); [|done]. by rewrite Hp.
Qed.

Lemma begin_view k c k' : view k' (begin_wake k c).2
  = if bool_decide (k' = k) then mkWakeView true (wv_retries (view k c)) else view k' c.
Proof.
  unfold view, is_in_flight, retry_attempts. cbn [begin_wake snd in_flight retry_counts wv_retries].
  destruct (decide (k' = k)) as [->|Hk].
  - rewrite (bool_decide_true (k = k)) by done. by rewrite bool_decide_true by set_solver.
  - rewrite (bool_decide_false (k' = k)) by done. f_equal. apply bool_decide_ext. set_solver.
Qed.

Lemma due_view k c k' : view k' (retry_due k c).2
  = if bool_decide (k' = k) then mkWakeView false (wv_retries (view k c)) else view k' c.
Proof.
  unfold view, is_in_flight, retry_attempts. cbn [retry_due snd in_flight retry_counts wv_retries].
  destruct (decide (k' = k)) as [->|Hk].
  - rewrite (bool_decide_true (k = k)) by done. by rewrite bool_decide_false by set_solver.
  - rewrite (bool_decide_false (k' = k)) by done. f_equal. apply bool_decide_ext. set_solver.
Qed.

Lemma perform_view op c k :
  view k (perform op c).2
    = (if concerns op k then (view_step (fw_policy c) op (view k c)).2 else view k c)
  /\ (concerns op k = true -> (perform op c).1 = (view_step (fw_policy c) op (view k c)).1).
Proof.
  destruct op as [k'|k'|k'| |k' d]; cbn [concerns].
  - split; [|by intros ->%bool_decide_eq_true_1]. change (perform (Op_begin k') c).2 with (begin_wake k' c).2.
    rewrite begin_view. case_bool_decide; by subst.
  - split; [|by intros ->%bool_decide_eq_true_1]. change (perform (Op_retry_due k') c).2 with (retry_due k' c).2.
    rewrite due_view. case_bool_decide; by subst.
  - split; [apply forget_view|done].
  - by split.
  - assert ((perform (Op_handle k' d) c)
      = (Answer_decision (handle_disposition k' d c).1, (handle_disposition k' d c).2)) as ->.
    { unfold perform. by destruct (handle_disposition k' d c). }
    cbn [fst snd]. destruct d as [h|h|reason h|delay reason h|code h].
    1,2,5: split; [apply forget_view|done].
    + rewrite queued_is_retry.
      edestruct (retry_wake_view k') as [E1 E2]. rewrite E1, E2. cbn [view_step].
      split; [case_bool_decide; by subst|intros ->%bool_decide_eq_true_1]. unfold retried. by destruct (_ <? _).
    + cbn [handle_disposition].
      edestruct (retry_wake_view k') as [E1 E2]. rewrite E1, E2. cbn [view_step].
      split; [case_bool_decide; by subst|intros ->%bool_decide_eq_true_1]. unfold retried. by destruct (_ <? _).
Qed.

Lemma perform_policy op c : fw_policy (perform op c).2 = fw_policy c.
Proof.
  destruct op as [k|k|k| |k d]; try done. unfold perform, handle_disposition, retry_wake.
  destruct (next_attempt_view k c k) as (_ & _ & Hp).
  by destruct d; simpl; try destruct (next_attempt k c) as [[n|] c'].
Qed.

(** ** Histories *)

Fixpoint perform_all (ops : list WakeOp) (c : ForegroundWakeCoordinator)
  : list WakeAnswer * ForegroundWakeCoordinator :=
  match ops with
  | [] => ([], c)
  | op :: rest =>
      let '(answer, c) := perform op c in
      let '(answers, c) := perform_all rest c in (answer :: answers, c)
  end.

(** The machine of one wake over the operations that concern it. *)
Fixpoint view_all (policy : ForegroundWakePolicy) (ops : list WakeOp) (v : WakeView)
  : list WakeAnswer * WakeView :=
  match ops with
  | [] => ([], v)
  | op :: rest =>
      let '(answer, v) := view_step policy op v in
      let '(answers, v) := view_all policy rest v in (answer :: answers, v)
  end.

Definition of_wake (k : K) (ops : list WakeOp) : list WakeOp := List.filter (fun op => concerns op k) ops.
Definition answers_of (k : K) (ops : list WakeOp) (answers : list WakeAnswer) : list WakeAnswer :=
  snd <$> List.filter (fun '(op, _) => concerns op k) (zip ops answers).

Lemma foreground_runs ops k : forall c,
  view_all (fw_policy c) (of_wake k ops) (view k c)
  = (answers_of k ops (perform_all ops c).1, view k (perform_all ops c).2).
Proof.
  induction ops as [|op ops IH]; intros c; [done|].
  destruct (perform_view op c k) as [Hv Ha]. pose proof (perform_policy op c) as Hp.
  unfold of_wake, answers_of in *. cbn [List.filter perform_all].
  destruct (perform op c) as [answer c1]. cbn [fst snd] in *. specialize (IH c1).
  destruct (perform_all ops c1) as [answers c2]. cbn [fst snd zip zip_with] in *. cbn [List.filter].
  rewrite Hp, Hv in IH. destruct (concerns op k).
  - rewrite (Ha eq_refl). cbn [view_all].
    destruct (view_step (fw_policy c) op (view k c)) as [answer' v']. cbn [fst snd] in *. by rewrite IH.
  - exact IH.
Qed.

(** C30: Over any history of operations on any wakes, each wake sees exactly the
    answers and ends in exactly the state of its own machine run on the
    operations that name it: a wake is claimed by one task at a time, and its
    retries are counted and delayed as if it were alone. *)
Theorem foreground_refines ops k c :
  view_all (fw_policy c) (of_wake k ops) (view k c)
  = (answers_of k ops (perform_all ops c).1, view k (perform_all ops c).2).
Proof. apply foreground_runs. Qed.

(** ** Giving up *)

Definition is_handle (op : WakeOp) : bool := match op with Op_handle _ _ => true | _ => false end.
Definition forgets (op : WakeOp) : bool := match op with Op_forget _ | Op_reset => true | _ => false end.
Definition finishes (answer : WakeAnswer) : bool :=
  match answer with Answer_decision (Finished _) => true | _ => false end.

(** Each execution that is not the last one costs a retry. *)
Lemma view_step_retries policy op v :
  0 <= wv_retries v <= maximum_retry_attempts policy -> forgets op = false ->
  finishes (view_step policy op v).1 = false ->
  wv_retries (view_step policy op v).2 = wv_retries v + (if is_handle op then 1 else 0)
  /\ 0 <= wv_retries (view_step policy op v).2 <= maximum_retry_attempts policy.
Proof.
  intros Hr Hf Hn. destruct op as [k|k|k| |k []]; try done; cbn [view_step fst snd wv_retries is_handle] in *;
    try lia; unfold retried in *;
    destruct (Z.ltb_spec (wv_retries v) (maximum_retry_attempts policy)); cbn [fst snd wv_retries] in *; try done; lia.
Qed.

Lemma view_all_retries policy ops : forall v,
  0 <= wv_retries v <= maximum_retry_attempts policy -> existsb forgets ops = false ->
  existsb finishes (view_all policy ops v).1 = false ->
  wv_retries v + Z.of_nat (length (List.filter is_handle ops)) <= maximum_retry_attempts policy.
Proof.
  induction ops as [|op ops IH]; intros v Hr Hf Hn; [simpl; lia|].
  cbn [existsb view_all List.filter] in *. apply orb_false_elim in Hf as [Hf Hfs].
  destruct (view_step policy op v) as [answer v1] eqn:E.
  destruct (view_all policy ops v1) as [answers v2] eqn:E2. cbn [fst existsb] in Hn.
  apply orb_false_elim in Hn as [Hn Hns].
  pose proof (view_step_retries policy op v Hr Hf) as Hs. rewrite E in Hs.
  destruct (Hs Hn) as [Heq Hb]. specialize (IH v1 Hb Hfs). rewrite E2 in IH. specialize (IH Hns).
  cbn [snd] in *. destruct (is_handle op); simpl length; lia.
Qed.

(** A wake is executed at most once more than its allowance of retries: any
    history with more executions of it than retries it has left, in which the
    application does not discard its state, holds a final decision for it.  Its
    retry count never leaves the policy's range. *)
Theorem foreground_gives_up ops k c
    (Hr : 0 <= retry_attempts k c <= maximum_retry_attempts (fw_policy c))
    (Hf : existsb forgets (of_wake k ops) = false)
    (Hmany : maximum_retry_attempts (fw_policy c) - retry_attempts k c
             < Z.of_nat (length (List.filter is_handle (of_wake k ops)))) :
  exists outcome, Answer_decision (Finished outcome) ∈ answers_of k ops (perform_all ops c).1.
Proof.
  pose proof (view_all_retries (fw_policy c) (of_wake k ops) (view k c) Hr Hf) as Hb.
  rewrite (foreground_runs ops k c) in Hb. cbn [fst view wv_retries] in Hb.
  destruct (existsb finishes (answers_of k ops (perform_all ops c).1)) eqn:E; [|specialize (Hb eq_refl); lia].
  apply existsb_exists in E as (answer & Hin & Hfin). apply list_elem_of_In in Hin.
  destruct answer as [b| |[outcome|delay cause]]; try done. by exists outcome.
Qed.

End Foreground.
Arguments ForegroundWakeCoordinator K {_ _}.
Arguments WakeOp K : clear implicits.

(** ** A run: one wake is retried once, then given up; another is untouched. *)

Definition sample_wake_ops : list (WakeOp Z) :=
  [Op_begin 1; Op_begin 2; Op_handle 1 (QueuedForApplication Queue_Deadline Hint_OpenApplication);
   Op_retry_due 1; Op_begin 1; Op_begin 1;
   Op_handle 1 (RetryAfter (from_secs 17) Retry_RelayUnavailable Hint_Processing)].
Definition sample_coordinator : ForegroundWakeCoordinator Z :=
  ForegroundWakeCoordinator_new (mkForegroundWakePolicy 1 (from_secs 2)).

Lemma foreground_gives_up_witness :
  exists outcome, Answer_decision (Finished outcome)
    ∈ answers_of 1 sample_wake_ops (perform_all sample_wake_ops sample_coordinator).1.
Proof.
  assert (0 <= retry_attempts 1 sample_coordinator <= maximum_retry_attempts (fw_policy sample_coordinator)) as Hr.
  { split; vm_compute; discriminate. }
  apply (foreground_gives_up sample_wake_ops 1 sample_coordinator Hr); vm_compute; reflexivity.
Defined.
