(* ===== verification/Coordinator.v ===== *)
(** * Application coordination

    Models [application_coordinator.rs]: the lifecycle of the callback after an
    approval, and the coordination of registration passes in the application's
    process (one pass at a time, refreshes that are requested meanwhile, timers
    that are superseded). *)
From S2P Require Import Prelude Types.
#[local] Open Scope Z_scope.

(** ** Callbacks *)

Inductive NwaCallbackBegin : Type := Begin_Complete | OpenUrl (url : string).
Inductive NwaCallbackCompletion : Type := Completion_Ignored | Completion_Complete | RetryAvailable.

(** [NwaCallbackCoordinator] is its [pending_url]. *)
Abbreviation NwaCallbackCoordinator := (option string) (only parsing).

Definition begin_callback (callback_url : option string) (_ : NwaCallbackCoordinator)
  : NwaCallbackBegin * NwaCallbackCoordinator :=
  (match callback_url with Some url => OpenUrl url | None => Begin_Complete end, callback_url).
Definition retry_url (pending_url : NwaCallbackCoordinator) : option string := pending_url.
Definition complete_open (opened : bool) (pending_url : NwaCallbackCoordinator)
  : NwaCallbackCompletion * NwaCallbackCoordinator :=
  match pending_url with
  | None => (Completion_Ignored, None)
  | Some _ => if opened then (Completion_Complete, None) else (RetryAvailable, pending_url)
  end.
Definition clear_callback (_ : NwaCallbackCoordinator) : NwaCallbackCoordinator := None.
Definition is_pending (pending_url : NwaCallbackCoordinator) : bool :=
  match pending_url with Some _ => true | None => false end.

(** ** Registration passes *)

Inductive ApplicationRegistrationBegin : Type := Busy | RefreshRequired | Ready.

Record ApplicationRegistrationPass := mkPass {
  ps_applied : nat;
  ps_deferred : nat;
  ps_next_attempt_at : option Z;
  ps_failed : bool;
}.
Definition pass_completed (applied deferred : nat) (next_attempt_at : option Z) : ApplicationRegistrationPass :=
  mkPass applied deferred next_attempt_at false.
Definition pass_failed : ApplicationRegistrationPass := mkPass 0 0 None true.

Inductive ApplicationRegistrationCompletion : Type :=
| Pass_Ignored
| RunAgain
| Pass_Failed (retry_at : Z)
| Pass_Deferred (retry_at : option Z)
| Pass_Applied (applied : nat) (retry_at : option Z)
| Pass_Idle (retry_at : option Z).

Record ApplicationRegistrationCoordinator := mkRegistrationCoordinator {
  pass_in_flight : bool;
  refresh_pending : bool;
  retry_token : Z;
}.
Definition default_registration : ApplicationRegistrationCoordinator := mkRegistrationCoordinator false false 0.

Definition mark_refresh_pending (c : ApplicationRegistrationCoordinator) : ApplicationRegistrationCoordinator :=
  mkRegistrationCoordinator (pass_in_flight c) true (retry_token c).
Definition complete_refresh (c : ApplicationRegistrationCoordinator) : ApplicationRegistrationCoordinator :=
  mkRegistrationCoordinator (pass_in_flight c) false (retry_token c).

Definition begin_pass (c : ApplicationRegistrationCoordinator)
  : ApplicationRegistrationBegin * ApplicationRegistrationCoordinator :=
  if pass_in_flight c then (Busy, c)
  else if refresh_pending c then (RefreshRequired, c)
  else (Ready, mkRegistrationCoordinator true (refresh_pending c) (wrapping_add_u64 (retry_token c) 1)).

Definition finish_pass (pass : ApplicationRegistrationPass) (now : Z) (c : ApplicationRegistrationCoordinator)
  : ApplicationRegistrationCompletion * ApplicationRegistrationCoordinator :=
  if negb (pass_in_flight c) then (Pass_Ignored, c)
  else
    let c := mkRegistrationCoordinator false (refresh_pending c) (retry_token c) in
    (if refresh_pending c then RunAgain
     else if ps_failed pass then Pass_Failed (saturating_add_u64 now 30)
     else if Nat.ltb 0 (ps_deferred pass) then Pass_Deferred (ps_next_attempt_at pass)
     else if Nat.ltb 0 (ps_applied pass) then Pass_Applied (ps_applied pass) (ps_next_attempt_at pass)
     else Pass_Idle (ps_next_attempt_at pass), c).

Definition schedule_retry (c : ApplicationRegistrationCoordinator) : Z * ApplicationRegistrationCoordinator :=
  let token := wrapping_add_u64 (retry_token c) 1 in
  (token, mkRegistrationCoordinator (pass_in_flight c) (refresh_pending c) token).
Definition retry_is_current (token : Z) (c : ApplicationRegistrationCoordinator) : bool := token =? retry_token c.
Definition reset_registration (c : ApplicationRegistrationCoordinator) : ApplicationRegistrationCoordinator :=
  mkRegistrationCoordinator false false (wrapping_add_u64 (retry_token c) 1).

(** ** Histories

    One event of the application: an operation with its answer. *)

Inductive registration_event : ApplicationRegistrationCoordinator -> ApplicationRegistrationCoordinator -> Type :=
| ev_mark c : registration_event c (mark_refresh_pending c)
| ev_refreshed c : registration_event c (complete_refresh c)
| ev_begin c answer c' : begin_pass c = (answer, c') -> registration_event c c'
| ev_finish c pass now answer c' : finish_pass pass now c = (answer, c') -> registration_event c c'
| ev_schedule c token c' : schedule_retry c = (token, c') -> registration_event c c'
| ev_reset c : registration_event c (reset_registration c).

(** The events that start a pass, release it, ask for a refresh, perform it, and
    supersede the timers. *)
Definition starts {c c'} (e : registration_event c c') : bool :=
  match e with ev_begin _ Ready _ _ => true | _ => false end.
Definition releases {c c'} (e : registration_event c c') : bool :=
  match e with
  | ev_finish _ _ _ Pass_Ignored _ _ => false
  | ev_finish _ _ _ _ _ _ | ev_reset _ => true
  | _ => false
  end.
Definition performs {c c'} (e : registration_event c c') : bool :=
  match e with ev_refreshed _ | ev_reset _ => true | _ => false end.
Definition supersedes {c c'} (e : registration_event c c') : bool :=
  match e with ev_schedule _ _ _ _ | ev_reset _ => true | _ => starts e end.

Inductive registration_history : ApplicationRegistrationCoordinator -> ApplicationRegistrationCoordinator -> Type :=
| hs_nil c : registration_history c c
| hs_cons c1 c2 c3 : registration_event c1 c2 -> registration_history c2 c3 -> registration_history c1 c3.

Fixpoint count_events (p : forall c c', registration_event c c' -> bool) {c c'} (h : registration_history c c') : Z :=
  match h with
  | hs_nil _ => 0
  | hs_cons _ _ _ e rest => (if p _ _ e then 1 else 0) + count_events p rest
  end.

Definition token_wf (c : ApplicationRegistrationCoordinator) : Prop := u64 (retry_token c).

Lemma event_pass {c c'} (e : registration_event c c') :
  (if pass_in_flight c' then 1 else 0) = (if pass_in_flight c then 1 else 0)
    + (if starts e then 1 else 0) - (if releases e && pass_in_flight c then 1 else 0)
  /\ (starts e = true -> pass_in_flight c = false /\ refresh_pending c = false).
Proof.
  destruct e as [c|c|c answer c' H|c pass now answer c' H|c token c' H|c]; cbn [starts releases andb]; try (simpl; lia).
  - unfold begin_pass in H. destruct (pass_in_flight c) eqn:E1; [injection H as <- <-; simpl; rewrite E1; by split|].
    destruct (refresh_pending c) eqn:E2; injection H as <- <-; simpl; rewrite ?E1; by split.
  - unfold finish_pass in H. destruct (pass_in_flight c) eqn:E1; cbn [negb] in H.
    + injection H as <- <-. simpl. repeat case_match; by split.
    + injection H as <- <-. rewrite E1. by split.
  - injection H as <- <-. simpl. split; [lia|done].
Qed.

Lemma event_refresh {c c'} (e : registration_event c c') :
  performs e = false -> refresh_pending c = true -> refresh_pending c' = true /\ starts e = false.
Proof.
  destruct e as [c|c|c answer c' H|c pass now answer c' H|c token c' H|c]; cbn [starts performs];
    try done; intros _ Hr.
  - unfold begin_pass in H. rewrite Hr in H. destruct (pass_in_flight c); by injection H as <- <-.
  - unfold finish_pass in H. destruct (pass_in_flight c); cbn [negb] in H; by injection H as <- <-.
  - by injection H as <- <-.
Qed.

Lemma event_token {c c'} (e : registration_event c c') :
  retry_token c' = (if supersedes e then wrapping_add_u64 (retry_token c) 1 else retry_token c).
Proof.
  destruct e as [c|c|c answer c' H|c pass now answer c' H|c token c' H|c]; cbn [starts supersedes]; try done.
  - unfold begin_pass in H. destruct (pass_in_flight c), (refresh_pending c); by injection H as <- <-.
  - unfold finish_pass in H. destruct (pass_in_flight c); cbn [negb] in H; by injection H as <- <-.
  - by injection H as <- <-.
Qed.

(** Along any history, passes are started one at a time: every start but the
    last has been released, and none is started while a refresh is asked for
    and not performed.  A refresh that is asked for during a pass makes its
    completion run again.  A timer token stops being current with the first
    event that supersedes it, and is not current again within 2^64 of them. *)
Theorem registration_passes {c c'} (h : registration_history c c') (Hc : token_wf c) :
  count_events (fun _ _ e => starts e) h
    = count_events (fun a _ e => releases e && pass_in_flight a) h
      + (if pass_in_flight c' then 1 else 0) - (if pass_in_flight c then 1 else 0)
  /\ (refresh_pending c = true -> count_events (fun _ _ e => performs e) h = 0 ->
      refresh_pending c' = true /\ count_events (fun _ _ e => starts e) h = 0
      /\ forall pass now, (finish_pass pass now c').1 = if pass_in_flight c' then RunAgain else Pass_Ignored)
  /\ (retry_is_current (retry_token c) c' = true <->
      count_events (fun _ _ e => supersedes e) h mod 2 ^ 64 = 0).
Proof.
  assert (forall p {a b} (g : registration_history a b), 0 <= count_events p g) as Hpos.
  { intros p a b g. induction g as [|a b d e g IH]; simpl; [lia|]. destruct (p a b e); lia. }
  split_and!.
  - clear Hc. induction h as [c|c1 c2 c3 e h IH]; simpl; [lia|].
    destruct (event_pass e) as [He _]. rewrite IH. lia.
  - clear Hc. induction h as [c|c1 c2 c3 e h IH]; cbn [count_events]; intros Hr H0.
    + split_and!; [done..|]. intros pass now. unfold finish_pass. destruct (pass_in_flight c); simpl; by rewrite ?Hr.
    + pose proof (Hpos (fun _ _ e => performs e) _ _ h). destruct (performs e) eqn:Hp; [lia|].
      destruct (event_refresh e Hp Hr) as [Hr2 Hs]. rewrite Hs. simpl. apply IH; [done|lia].
  - assert (retry_token c' = (retry_token c + count_events (fun _ _ e => supersedes e) h) mod 2 ^ 64) as Ht.
    { unfold token_wf, u64, u64_max in Hc.
      induction h as [c|c1 c2 c3 e h IH]; cbn [count_events]; [rewrite Z.add_0_r, Z.mod_small; lia|].
      pose proof (event_token e) as He. rewrite IH.
      - rewrite He. destruct (supersedes e); [|done]. unfold wrapping_add_u64.
        rewrite Zplus_mod_idemp_l. f_equal. lia.
      - rewrite He. destruct (supersedes e); [|lia]. unfold wrapping_add_u64.
        pose proof (Z.mod_pos_bound (retry_token c1 + 1) (2 ^ 64) ltac:(lia)). lia. }
    unfold retry_is_current. rewrite Z.eqb_eq, Ht. unfold token_wf, u64, u64_max in Hc.
    set (n := count_events _ _). rewrite Zplus_mod, (Z.mod_small (retry_token c)) by lia.
    pose proof (Z.mod_pos_bound n (2 ^ 64) ltac:(lia)).
    destruct (Z.ltb_spec (retry_token c + n mod 2 ^ 64) (2 ^ 64)).
    + rewrite Z.mod_small by lia. lia.
    + split; [|lia]. intros H1.
      pose proof (Z.div_mod (retry_token c + n mod 2 ^ 64) (2 ^ 64) ltac:(lia)).
      assert ((retry_token c + n mod 2 ^ 64) / 2 ^ 64 = 1) as Hq.
      { symmetry. apply (Z.div_unique _ _ 1 (retry_token c + n mod 2 ^ 64 - 2 ^ 64)); lia. }
      lia.
Qed.

Lemma registration_passes_witness :
  retry_is_current 0 default_registration = true
  /\ let c1 := (begin_pass default_registration).2 in
     let c2 := mark_refresh_pending c1 in
     (finish_pass pass_failed 5 c2).1 = RunAgain.
Proof.
  split; [reflexivity|]. cbv zeta.
  assert (token_wf (mark_refresh_pending (begin_pass default_registration).2)) as Hc.
  { split; vm_compute; discriminate. }
  destruct (registration_passes (hs_nil (mark_refresh_pending (begin_pass default_registration).2)) Hc)
    as (_ & Hr & _).
  destruct (Hr eq_refl eq_refl) as (_ & _ & Hf). exact (Hf pass_failed 5).
Defined.
