(* ===== verification/Runtime.v ===== *)
(** * Deadlines and cancellation on the native runtime

    Models [nwc-mobile-tokio/src/lib.rs]: the bounds that every call into the
    host runs under.  What the scheduler decides (which of two ready futures
    wins, how much time passed, whether the signal was set meanwhile) is data
    of the model, and the theorems hold for all of it. *)
From S2P Require Import Prelude Types Policy Outcome Host.
#[local] Open Scope Z_scope.

Section Context.
Context {T : Type}.

(** What ends the [tokio::select!] of [run_with_context]: the cancellation
    signal, the timer, or the operation; with the signal as it is read then. *)
Inductive Race : Type :=
| Cancellation_first
| Timer_first (cancelled : bool)
| Operation_first (cancelled : bool).

Definition run_with_context (cancelled : bool) (race : Race) (result : Result HostError T)
  : Result HostError T :=
  if cancelled then Err Cancelled
  else match race with
       | Cancellation_first => Err Cancelled
       | Timer_first cancelled => if cancelled then Err Cancelled else Err TimedOut
       | Operation_first cancelled => if cancelled then Err Cancelled else result
       end.

(** One run of an operation on the native runtime: whether the runtime exists,
    how long the task waited for it, the signal when it starts, how the race
    ends, and whether the task is joined. *)
Record Schedule := mkSchedule {
  sd_runtime : bool;
  sd_waited : Duration;
  sd_cancelled : bool;
  sd_race : Race;
  sd_joined : bool;
}.

(** [native_runtime_handle] is [sd_runtime]. *)
Definition run_on_native_runtime {A} (s : Schedule) (value : A) : Result HostError A :=
  if negb (sd_runtime s) then Err Internal
  else if negb (sd_joined s) then Err Internal
  else Ok value.

Definition run_owned_with_context (s : Schedule) (budget : OperationBudget)
    (result : Result HostError T) : Result HostError T :=
  let? inner := run_on_native_runtime s
    (let remaining := duration_saturating_sub budget (sd_waited s) in
     let? _ := map_err (fun _ => TimedOut) (OperationBudget_new remaining) in
     run_with_context (sd_cancelled s) (sd_race s) result) in
  inner.

(** [tokio::task::spawn_blocking]: [completed] is [false] when the task panics. *)
Definition run_owned_blocking_with_context (s : Schedule) (completed : bool) (budget : OperationBudget)
    (result : Result HostError T) : Result HostError T :=
  run_owned_with_context s budget (if completed then result else Err Internal).

End Context.

(** ** Waiting for a cancellation *)

Definition CANCELLATION_POLL_INTERVAL : Duration := 25 * 1000000.

(** [wait_for_cancellation]: the signal is read at once and then after every sleep;
    [signal t] is the signal [t] after the wait began, and the result the time at
    which the wait ends, within [fuel] sleeps. *)
Fixpoint wait_for_cancellation (signal : Duration -> bool) (now : Duration) (fuel : nat) : option Duration :=
  if signal now then Some now
  else match fuel with
       | O => None
       | S fuel => wait_for_cancellation signal (now + CANCELLATION_POLL_INTERVAL) fuel
       end.

(** ** Tasks of the runtime *)

Section Tasks.
Context {Handle Task : Type}.

(** [AbortTaskOnDrop]: its [JoinHandle], until it is taken; dropping it aborts the
    task of a handle that is still there. *)
Definition AbortTaskOnDrop : Type := option Task.
Definition drop_task (t : AbortTaskOnDrop) : list Task := option_list t.

(** [try_current] is the runtime of the calling thread, [spawn] what it starts. *)
Definition spawn_abort_on_drop (try_current : option Handle) (spawn : Handle -> Task)
  : Result HostError AbortTaskOnDrop :=
  let? runtime := ok_or Internal try_current in
  Ok (Some (spawn runtime)).

(** What starting the runtime's thread comes to: the thread cannot be spawned, its
    runtime cannot be built, it ends before it answers, or it serves a handle. *)
Inductive RuntimeThread : Type :=
| Thread_not_spawned
| Runtime_not_built
| Thread_gone
| Runtime_serves (handle : Handle).

Definition start_native_runtime (thread : RuntimeThread) : option Handle :=
  match thread with
  | Thread_not_spawned | Runtime_not_built | Thread_gone => None
  | Runtime_serves handle => Some handle
  end.

(** [NATIVE_RUNTIME_HANDLE] is a [OnceLock]: the first call decides what every later
    one gets. *)
Definition native_runtime_handle (thread : RuntimeThread) (cell : option (option Handle))
  : option Handle * option (option Handle) :=
  match cell with
  | Some handle => (handle, cell)
  | None => let handle := start_native_runtime thread in (handle, Some handle)
  end.

(** How the caller leaves [run_on_native_runtime] once the task runs: it drops the
    future while it waits, or the task was joined, or failed. *)
Inductive Leaving : Type := Dropped | Joined | Task_failed.

(** The tasks it aborts. *)
Definition native_run_aborts (handle : option Handle) (spawn : Handle -> Task) (leaving : Leaving) : list Task :=
  match handle with
  | None => []
  | Some handle =>
      let task : AbortTaskOnDrop := Some (spawn handle) in
      match leaving with
      | Dropped => drop_task task
      | Joined | Task_failed => drop_task None
      end
  end.

(** The handles successive callers get. *)
Fixpoint runtime_handles (threads : list RuntimeThread) (cell : option (option Handle)) : list (option Handle) :=
  match threads with
  | [] => []
  | thread :: threads =>
      let '(handle, cell) := native_runtime_handle thread cell in
      handle :: runtime_handles threads cell
  end.

End Tasks.

(** ** Resolving names *)

Definition MAX_RESOLVED_SOCKET_ADDRESSES : nat := 16.

(** [to_socket_addrs] is the operating system's answer and [joined] whether the
    blocking task ended without a panic. *)
Definition resolve_socket_addresses {A} (to_socket_addrs : string -> Z -> option (list A)) (joined : bool)
    (host : string) (port : Z) : Result HostError (list A) :=
  if joined
  then
    let? addresses := ok_or Unavailable (to_socket_addrs host port) in
    let addresses := take MAX_RESOLVED_SOCKET_ADDRESSES addresses in
    if Nat.eqb (length addresses) 0 then Err Unavailable else Ok addresses
  else Err Internal.

(** ** Background wakes *)

Record BackgroundWakeWindow := mkBackgroundWakeWindow { bw_total : Duration }.

(** [elapsed] is the monotonic time since [started_at]. *)
Definition window_remaining (w : BackgroundWakeWindow) (elapsed : Duration) : Duration :=
  duration_saturating_sub (bw_total w) elapsed.
Definition window_operation_budget (w : BackgroundWakeWindow) (elapsed : Duration)
  : option OperationBudget :=
  match OperationBudget_new (window_remaining w elapsed) with Ok b => Some b | Err _ => None end.

(** [finished] is what the operation returned, unless the timer came first. *)
Definition run_bounded_background_wake (total : Duration) (cancelled_before cancelled_after : bool)
    (finished : BackgroundWakeWindow -> option WakeDisposition) : WakeDisposition :=
  if duration_is_zero total then disposition_queued Queue_Deadline
  else if cancelled_before then disposition_queued Queue_Deadline
  else match finished (mkBackgroundWakeWindow total) with
       | Some disposition => if cancelled_after then disposition_queued Queue_Deadline else disposition
       | None => disposition_queued Queue_Deadline
       end.

(** ** Retrying *)

(** [u32::checked_shl]. *)
Definition checked_shl_u32 (value exponent : Z) : option Z :=
  if exponent <? 32 then Some (Z.land (Z.shiftl value exponent) u32_max) else None.

Section Retry.
Context {T E : Type} (operation : nat -> Result E T) (base_delay : Duration).

Definition backoff_delay (attempt : nat) : Duration :=
  duration_saturating_mul base_delay (default u32_max (checked_shl_u32 1 (Z.of_nat attempt))).

(** The loop from [attempt] on, with [left] attempts to go: the result and the
    sleeps; [None] is [unreachable!]. *)
Fixpoint retry_attempts (maximum_attempts attempt left : nat) : option (Result E T) * list Duration :=
  match left with
  | O => (None, [])
  | S left' =>
      match operation attempt with
      | Ok value => (Some (Ok value), [])
      | Err error =>
          if Nat.eqb (attempt + 1) maximum_attempts then (Some (Err error), [])
          else let '(r, sleeps) := retry_attempts maximum_attempts (attempt + 1) left' in
               (r, backoff_delay attempt :: sleeps)
      end
  end.

Definition retry_with_exponential_backoff (maximum_attempts : nat)
  : option (Result E T) * list Duration :=
  let maximum_attempts := Nat.max maximum_attempts 1 in
  retry_attempts maximum_attempts 0 maximum_attempts.

End Retry.

(** ** Polling *)

Section Poll.
Context {T E : Type} (is_terminal : T -> bool) (timeout interval : Duration).

(** One turn of the loop: the time since the start when it begins, what the check
    returned within its timeout, and the time when it ended. *)
Record PollTurn := mkPollTurn {
  pt_before : Duration;
  pt_check : option (Result E T);
  pt_after : Duration;
}.

(** [None]: the turns given ran out. *)
Fixpoint poll_until_terminal (turns : list PollTurn) (last_value : option T)
  : option (Result E (option T)) :=
  match turns with
  | [] => None
  | turn :: turns' =>
      let remaining := duration_saturating_sub timeout (pt_before turn) in
      if duration_is_zero remaining then Some (Ok last_value)
      else match pt_check turn with
           | None => Some (Ok last_value)
           | Some (Err error) => Some (Err error)
           | Some (Ok value) =>
               if is_terminal value then Some (Ok (Some value))
               else
               let remaining := duration_saturating_sub timeout (pt_after turn) in
               if duration_is_zero remaining || duration_is_zero interval
               then Some (Ok (Some value))
               else poll_until_terminal turns' (Some value)
           end
  end.

(** Time passes: a turn takes no negative time, and the next one begins after the
    sleep of the smaller of the remaining time and the interval. *)
Fixpoint timely (turns : list PollTurn) : Prop :=
  match turns with
  | [] => True
  | turn :: turns' =>
      pt_before turn <= pt_after turn
      /\ match turns' with
         | [] => True
         | next :: _ =>
             pt_after turn + Z.min (duration_saturating_sub timeout (pt_after turn)) interval
             <= pt_before next
         end
      /\ timely turns'
  end.

End Poll.
Arguments mkPollTurn {T E}.
Arguments pt_before {T E}.
Arguments pt_check {T E}.
Arguments pt_after {T E}.

(** ** Properties *)

(** The runtime returns the operation's own result, or an error that leaves open
    what the operation did. *)
Lemma owned_call_bounded {T} (s : Schedule) budget (result : Result HostError T) :
  run_owned_with_context s budget result = result
  \/ exists error, run_owned_with_context s budget result = Err error
     /\ confirms_payment_was_not_submitted error = false.
Proof.
  unfold run_owned_with_context, run_on_native_runtime, run_with_context, OperationBudget_new.
  destruct (sd_runtime s); [|right; eauto]. destruct (sd_joined s); [|right; eauto]. cbn [negb].
  destruct (duration_is_zero _); cbn [map_err]; [right; eauto|].
  destruct (sd_cancelled s); [right; eauto|].
  destruct (sd_race s) as [|[|]|[|]]; try (right; by eauto). by left.
Qed.

(** A bounded operation gives a value exactly when it finished with that value
    before the timer and before any cancellation. *)
Lemma run_with_context_Ok {T} cancelled race (result : Result HostError T) value :
  run_with_context cancelled race result = Ok value
  <-> cancelled = false /\ race = Operation_first false /\ result = Ok value.
Proof. unfold run_with_context. destruct cancelled, race as [|[]|[]]; naive_solver. Qed.

(** A call into the host is bounded: what the runtime returns is the operation's own
    result, and then neither the deadline nor a cancellation had come first, or
    one of the errors [Cancelled], [TimedOut] and [Internal]; none of these says
    that a payment was not submitted. *)
Theorem owned_call_is_bounded {T} (s : Schedule) budget (result : Result HostError T) :
  let r := run_owned_with_context s budget result in
  r = result /\ sd_race s = Operation_first false /\ sd_cancelled s = false /\ sd_waited s < budget
  \/ exists error, r = Err error /\ (error = Cancelled \/ error = TimedOut \/ error = Internal)
     /\ confirms_payment_was_not_submitted error = false.
Proof.
  unfold run_owned_with_context, run_on_native_runtime, run_with_context, OperationBudget_new,
    duration_saturating_sub, duration_is_zero.
  destruct (sd_runtime s); [|right; eauto 6]. destruct (sd_joined s); [|right; eauto 6]. cbn [negb].
  destruct (Z.eqb_spec (Z.max (budget - sd_waited s) 0) 0); cbn [map_err]; [right; eauto 6|].
  destruct (sd_cancelled s); [right; eauto 6|].
  destruct (sd_race s) as [|[|]|[|]]; try (right; by eauto 6).
  left. split_and!; try done. lia.
Qed.

(** A background wake reports the operation's disposition only when it finished in
    time and was not cancelled; otherwise the wake is handed to the application. *)
Theorem background_wake_is_bounded total before after finished :
  let w := mkBackgroundWakeWindow total in
  run_bounded_background_wake total before after finished
  = if negb (duration_is_zero total) && negb before && negb after
    then default (disposition_queued Queue_Deadline) (finished w)
    else disposition_queued Queue_Deadline.
Proof.
  unfold run_bounded_background_wake. destruct (duration_is_zero total), before, after; simpl; try done;
    by destruct (finished _).
Qed.

(** A wait notices a cancellation at the first poll after it: never before it, and
    within one poll interval. *)
Lemma wait_for_cancellation_spec signal cancelled : 0 <= cancelled ->
  (forall t, signal t = true <-> cancelled <= t) ->
  forall fuel now, 0 <= now ->
  cancelled <= now + Z.of_nat fuel * CANCELLATION_POLL_INTERVAL ->
  exists t, wait_for_cancellation signal now fuel = Some t
  /\ cancelled <= t /\ (t = now \/ t < cancelled + CANCELLATION_POLL_INTERVAL)
  /\ (now <= cancelled -> t < cancelled + CANCELLATION_POLL_INTERVAL).
Proof.
  intros Hc Hs. assert (0 < CANCELLATION_POLL_INTERVAL) as Hp by done. induction fuel as [|fuel IH]; intros now Hn Hf; cbn [wait_for_cancellation].
  - rewrite (proj2 (Hs now)) by lia. exists now. split_and!; [done|lia|by left|lia].
  - destruct (signal now) eqn:E.
    + apply Hs in E. exists now. split_and!; [done|done|by left|lia].
    + assert (~ cancelled <= now) by (intros H%Hs; congruence).
      destruct (IH (now + CANCELLATION_POLL_INTERVAL)) as (t & -> & H1 & H2 & H3); [lia..|].
      exists t. split_and!; [done|done| |]; destruct H2; [right; lia|right; done|lia|lia].
Qed.

(** Every caller of the native runtime gets the handle of the first, or none if the
    first could not start it. *)
Lemma one_native_runtime {Handle} (threads : list (@RuntimeThread Handle)) thread :
  Forall (eq (start_native_runtime thread)) (runtime_handles (thread :: threads) None).
Proof.
  simpl. constructor; [done|]. induction threads as [|other threads IH]; simpl; [done|]. by constructor.
Qed.

(** A task is aborted exactly when its owner is dropped while it waits. *)
Lemma native_run_aborts_spec {Handle Task} (handle : option Handle) (spawn : Handle -> Task) leaving task :
  task ∈ native_run_aborts handle spawn leaving
  <-> leaving = Dropped /\ exists h, handle = Some h /\ task = spawn h.
Proof.
  destruct handle as [h|], leaving; cbn; rewrite ?list_elem_of_singleton, ?elem_of_nil; naive_solver.
Qed.

(** A resolution that gives addresses gives between one and sixteen, the first the
    operating system answered. *)
Lemma resolve_socket_addresses_Ok {A} (answer : string -> Z -> option (list A)) joined host port addresses :
  resolve_socket_addresses answer joined host port = Ok addresses
  <-> joined = true /\ (1 <= length addresses <= 16)%nat
     /\ exists all, answer host port = Some all /\ addresses = take 16 all.
Proof.
  unfold resolve_socket_addresses, MAX_RESOLVED_SOCKET_ADDRESSES.
  destruct joined; [|naive_solver]. destruct (answer host port) as [all|]; cbn [ok_or]; [|naive_solver].
  destruct (Nat.eqb_spec (length (take 16 all)) 0) as [E|E]; rewrite length_take in E.
  - split; [done|]. intros (_ & H & ? & [= <-] & ->). rewrite length_take in H. lia.
  - split; [intros [= <-]; rewrite length_take; split_and!; [done|lia|lia|by exists all]|].
    by intros (_ & _ & ? & [= <-] & ->).
Qed.

Lemma retry_attempts_spec {T E} (operation : nat -> Result E T) base maximum left : forall attempt,
  (attempt + left = maximum)%nat -> (0 < left)%nat ->
  exists n, (attempt <= n < maximum)%nat
  /\ retry_attempts operation base maximum attempt left
     = (Some (operation n), backoff_delay base <$> seq attempt (n - attempt))
  /\ (forall k, (attempt <= k < n)%nat -> is_ok (operation k) = false)
  /\ (is_ok (operation n) = true \/ n = (maximum - 1)%nat).
Proof.
  induction left as [|left IH]; intros attempt Hm Hleft; [lia|]. cbn [retry_attempts].
  destruct (operation attempt) as [v|e] eqn:Ho.
  - exists attempt. rewrite Ho, Nat.sub_diag. split_and!; [lia..|done| |by left]. intros k Hk. lia.
  - destruct (Nat.eqb_spec (attempt + 1) maximum) as [Heq|Hne].
    + exists attempt. rewrite Ho, Nat.sub_diag. split_and!; [lia..|done| |right; lia]. intros k Hk. lia.
    + destruct (IH (attempt + 1)%nat ltac:(lia) ltac:(lia)) as (n & Hn & Hr & Hfail & Hend).
      exists n. rewrite Hr. split_and!; [lia..| | |done].
      * replace (n - attempt)%nat with (S (n - (attempt + 1))) by lia. simpl.
        by rewrite Nat.add_1_r.
      * intros k Hk. destruct (decide (k = attempt)) as [->|]; [by rewrite Ho|]. apply Hfail. lia.
Qed.

(** A retried operation runs until its first success, at most the maximum number of
    attempts (at least one): it returns that success or the last error, never
    the unreachable end, and sleeps once before every further attempt. *)
Theorem retry_returns_first_success {T E} (operation : nat -> Result E T) base maximum :
  exists n, (n < Nat.max maximum 1)%nat
  /\ retry_with_exponential_backoff operation base maximum
     = (Some (operation n), backoff_delay base <$> seq 0 n)
  /\ (forall k, (k < n)%nat -> is_ok (operation k) = false)
  /\ (is_ok (operation n) = true \/ n = (Nat.max maximum 1 - 1)%nat).
Proof.
  destruct (retry_attempts_spec operation base (Nat.max maximum 1) (Nat.max maximum 1) 0)
    as (n & Hn & Hr & Hfail & Hend); [lia..|].
  exists n. rewrite Nat.sub_0_r in Hr. split_and!; [lia|exact Hr| |exact Hend]. intros k Hk. apply Hfail. lia.
Qed.

Lemma poll_terminates {T E} (is_terminal : T -> bool) timeout interval : 0 < interval ->
  forall (turns : list (@PollTurn T E)) spent last, timely timeout interval turns -> turns <> [] ->
  (forall turn, head turns = Some turn -> Z.min timeout spent <= pt_before turn) ->
  timeout <= spent + (Z.of_nat (length turns) - 1) * interval ->
  is_some (poll_until_terminal is_terminal timeout interval turns last) = true.
Proof.
  intros Hi. induction turns as [|turn turns IH]; intros spent last Ht Hne Hb Hlen; [done|].
  specialize (Hb turn eq_refl). cbn [poll_until_terminal]. unfold duration_saturating_sub, duration_is_zero.
  destruct (Z.eqb_spec (Z.max (timeout - pt_before turn) 0) 0) as [|Hr]; [done|].
  destruct (pt_check turn) as [[v|e]|]; [|done..]. destruct (is_terminal v); [done|].
  destruct (Z.eqb_spec (Z.max (timeout - pt_after turn) 0) 0) as [|Hr2]; [done|]. cbn [orb].
  rewrite (proj2 (Z.eqb_neq interval 0)) by lia.
  destruct Ht as (Hba & Hnext & Ht). unfold duration_saturating_sub in Hnext.
  destruct turns as [|next turns].
  - exfalso. simpl in Hlen. lia.
  - apply (IH (spent + interval)); [done|done| |].
    + intros turn' [= <-]. lia.
    + cbn [length] in *. lia.
Qed.

Lemma poll_result {T E} (is_terminal : T -> bool) timeout interval : forall (turns : list (@PollTurn T E)) last r,
  poll_until_terminal is_terminal timeout interval turns last = Some r ->
  match r with
  | Err e => exists turn, turn ∈ turns /\ pt_check turn = Some (Err e) /\ pt_before turn < timeout
  | Ok value => value = last
      \/ exists turn v, turn ∈ turns /\ value = Some v /\ pt_check turn = Some (Ok v)
         /\ pt_before turn < timeout
  end.
Proof.
  induction turns as [|turn turns IH]; intros last r; cbn [poll_until_terminal]; [done|].
  unfold duration_saturating_sub, duration_is_zero.
  destruct (Z.eqb_spec (Z.max (timeout - pt_before turn) 0) 0) as [|Hr]; [intros [= <-]; by left|].
  assert (pt_before turn < timeout) as Hb by lia. pose proof (list_elem_of_here turn turns) as Hin.
  destruct (pt_check turn) as [[v|e]|] eqn:Hc; [|intros [= <-]; eauto|intros [= <-]; by left].
  assert (exists turn' v', turn' ∈ turn :: turns /\ Some v = Some v'
    /\ pt_check turn' = Some (Ok v') /\ pt_before turn' < timeout) as Hv by eauto 8.
  destruct (is_terminal v); [intros [= <-]; by right|].
  destruct ((Z.max (timeout - pt_after turn) 0 =? 0) || (interval =? 0)); [intros [= <-]; by right|].
  intros H. specialize (IH _ _ H). destruct r as [value|e].
  - right. destruct IH as [->|(t & v' & Ht & ? & ? & ?)]; [done|].
    exists t, v'. split; [by apply list_elem_of_further|done].
  - destruct IH as (t & Ht & ? & ?). exists t. split; [by apply list_elem_of_further|done].
Qed.

(** Polling ends: with an interval of its own it returns within [timeout / interval] + 2
    turns, and what it returns is the value of a check that began
    before the deadline, a terminal one if there was one, or the error of such a
    check. *)
Theorem poll_until_terminal_spec {T E} (is_terminal : T -> bool) timeout interval
    (turns : list (@PollTurn T E))
    (Ht : 0 <= timeout) (Hi : 0 < interval) (Htime : timely timeout interval turns)
    (Hstart : forall turn, head turns = Some turn -> 0 <= pt_before turn)
    (Hlong : timeout / interval + 1 < Z.of_nat (length turns)) :
  exists r, poll_until_terminal is_terminal timeout interval turns None = Some r
  /\ match r with
     | Err e => exists turn, turn ∈ turns /\ pt_check turn = Some (Err e) /\ pt_before turn < timeout
     | Ok (Some v) => exists turn, turn ∈ turns /\ pt_check turn = Some (Ok v) /\ pt_before turn < timeout
     | Ok None => True
     end.
Proof.
  assert (is_some (poll_until_terminal is_terminal timeout interval turns None) = true) as Hs.
  { apply (poll_terminates is_terminal timeout interval Hi turns 0); [done| | |].
    - intros ->. simpl in Hlong. pose proof (Z.div_pos timeout interval). lia.
    - intros turn Hh. specialize (Hstart turn Hh). lia.
    - pose proof (Z.mul_succ_div_gt timeout interval Hi). nia. }
  destruct (poll_until_terminal is_terminal timeout interval turns None) as [r|] eqn:Hp; [|done].
  exists r. split; [done|]. apply poll_result in Hp. destruct r as [[v|]|e]; [|done|done].
  destruct Hp as [|(turn & v' & ? & [= <-] & ? & ?)]; [done|]. eauto.
Qed.

(** ** Runs of the model *)

Definition sample_turns : list (@PollTurn nat unit) :=
  [mkPollTurn 0 (Some (Ok 1%nat)) 1; mkPollTurn 4 (Some (Ok 2%nat)) 5; mkPollTurn 8 (Some (Ok 3%nat)) 9;
   mkPollTurn 10 (Some (Ok 4%nat)) 11; mkPollTurn 14 (Some (Ok 5%nat)) 15].

Lemma poll_until_terminal_spec_witness :
  exists r, poll_until_terminal (Nat.eqb 9) 10 3 sample_turns None = Some r /\ r = Ok (Some 3%nat).
Proof.
  destruct (poll_until_terminal_spec (Nat.eqb 9) 10 3 sample_turns) as (r & Hr & _);
    [done|done| | |by vm_compute|].
  - repeat split; by vm_compute.
  - by intros turn [= <-].
  - exists r. split; [exact Hr|]. vm_compute in Hr. by injection Hr.
Defined.
