(* ===== verification/Schema.v ===== *)
(** * The durable schema

    The tables of [ledger.rs], [invoice_notifications.rs] and
    [application_metadata.rs] at schema version 13: a row record per table with
    one field per column, the [CHECK] clauses as a boolean on rows, the primary
    and unique keys as a clash relation, and the database as the record of its
    tables.  A 0/1 column read as a [bool] is a [bool]. *)
From S2P Require Import Prelude Sqlite Types.
#[local] Open Scope Z_scope.

(** ** SQL functions used by the constraints *)

Definition text_in (s : string) (l : list string) : bool := bool_decide (s ∈ l).

(** [length] of a TEXT counts characters: the bytes that do not continue a
    UTF-8 sequence. *)
Definition text_length (s : string) : Z :=
  Z.of_nat (length (List.filter (fun b => negb ((128 <=? b) && (b <=? 191))) (as_bytes s))).

Definition blob_length (n : Z) (b : list Z) : bool := Z.of_nat (length b) =? n.

Definition between (v low high : Z) : bool := (low <=? v) && (v <=? high).

Definition null {A} (o : option A) : bool := match o with None => true | Some _ => false end.
Definition not_null {A} (o : option A) : bool := negb (null o).

(** A [CHECK] on a nullable column passes on [NULL]. *)
Definition null_or {A} (P : A -> bool) (o : option A) : bool :=
  match o with None => true | Some a => P a end.

Definition METHOD_NAMES : list string :=
  ["get_info"; "get_balance"; "make_invoice"; "pay_invoice"; "lookup_invoice";
   "list_transactions"].

(** ** Tables *)

(** [wake_events]: claims and terminal replay state. *)
Record WakeEventRow := mkWakeEventRow {
  we_event_id : list Z;
  we_connection_id : string;
  we_connection_revision : Z;
  we_state : string;
  we_claim_token : option (list Z);
  we_available_at : option Z;
  we_updated_at : Z;
  we_terminal_kind : option string;
  we_response_event_json : option string;
  we_request_method : option string;
  we_freshness_accepted : bool;
}.

Definition wake_event_check (r : WakeEventRow) : bool :=
  blob_length 32 (we_event_id r)
  && (0 <=? we_connection_revision r)
  && text_in (we_state r) ["claimed"; "retryable"; "terminal"]
  && null_or (blob_length 16) (we_claim_token r)
  && (0 <=? we_updated_at r)
  && null_or (fun k => text_in k ["completed"; "rejected"; "failed"]) (we_terminal_kind r)
  && null_or (fun j => str_len j <=? 131072) (we_response_event_json r)
  && null_or (fun m => text_in m METHOD_NAMES) (we_request_method r)
  && ((text_in (we_state r) ["claimed"] && not_null (we_claim_token r)
       && not_null (we_available_at r) && null (we_terminal_kind r)
       && null (we_response_event_json r))
      || (text_in (we_state r) ["retryable"] && null (we_claim_token r)
          && not_null (we_available_at r) && null (we_terminal_kind r)
          && null (we_response_event_json r))
      || (text_in (we_state r) ["terminal"] && null (we_claim_token r)
          && null (we_available_at r) && not_null (we_terminal_kind r))).

(** Two rows clash when they share the primary key. *)
Definition wake_event_clash (r r' : WakeEventRow) : bool :=
  bool_decide (we_event_id r = we_event_id r').

(** [connections]: authorizations and tombstones. *)
Record ConnectionRow := mkConnectionRow {
  cn_id : string;
  cn_revision : Z;
  cn_status : string;
  cn_client_pubkey : list Z;
  cn_wallet_service_pubkey : list Z;
  cn_encryption : string;
  cn_budget_limit_sat : Z;
  cn_budget_interval : string;
  cn_fee_policy : string;
  cn_maximum_fee_sat : Z;
  cn_created_at : Z;
  cn_updated_at : Z;
  cn_tombstoned_at : option Z;
  cn_expires_at : option Z;
}.

Definition connection_check (r : ConnectionRow) : bool :=
  between (text_length (cn_id r)) 1 128
  && (0 <=? cn_revision r)
  && text_in (cn_status r) ["active"; "tombstoned"]
  && blob_length 32 (cn_client_pubkey r)
  && blob_length 32 (cn_wallet_service_pubkey r)
  && text_in (cn_encryption r) ["nip44_v2"; "nip04"]
  && (0 <=? cn_budget_limit_sat r)
  && text_in (cn_budget_interval r)
       ["never"; "hourly"; "daily"; "weekly"; "monthly"; "yearly"]
  && text_in (cn_fee_policy r) ["count"; "exclude"]
  && (0 <=? cn_maximum_fee_sat r)
  && (0 <=? cn_created_at r)
  && (cn_created_at r <=? cn_updated_at r)
  && ((text_in (cn_status r) ["active"] && null (cn_tombstoned_at r))
      || (text_in (cn_status r) ["tombstoned"]
          && bool_decide (cn_tombstoned_at r = Some (cn_updated_at r))))
  && (text_in (cn_fee_policy r) ["count"]
      || (text_in (cn_fee_policy r) ["exclude"] && (cn_maximum_fee_sat r =? 0)))
  && null_or (fun e => cn_created_at r <? e) (cn_expires_at r).

(** The primary key and the unique index [connections_permanent_keys]. *)
Definition connection_clash (r r' : ConnectionRow) : bool :=
  bool_decide (cn_id r = cn_id r')
  || (bool_decide (cn_client_pubkey r = cn_client_pubkey r')
      && bool_decide (cn_wallet_service_pubkey r = cn_wallet_service_pubkey r')).

(** [connection_methods] and [connection_relays]. *)
Record ConnectionMethodRow := mkConnectionMethodRow {
  cm_connection_id : string;
  cm_method : string;
}.
Definition connection_method_check (r : ConnectionMethodRow) : bool :=
  text_in (cm_method r) METHOD_NAMES.
Definition connection_method_clash (r r' : ConnectionMethodRow) : bool :=
  bool_decide (cm_connection_id r = cm_connection_id r')
  && bool_decide (cm_method r = cm_method r').

(** The relay tables share one shape: an owner, a position and a URL, with the
    keys (owner, position) and (owner, relay_url). *)
Record RelayRow (K : Type) := mkRelayRow {
  rl_owner : K;
  rl_position : Z;
  rl_relay_url : string;
  rl_delivered_at : option Z;
}.
Arguments mkRelayRow {K}.
Arguments rl_owner {K}.
Arguments rl_position {K}.
Arguments rl_relay_url {K}.
Arguments rl_delivered_at {K}.
Definition relay_check {K} (r : RelayRow K) : bool := 0 <=? rl_position r.
Definition relay_clash {K} `{EqDecision K} (r r' : RelayRow K) : bool :=
  bool_decide (rl_owner r = rl_owner r')
  && (bool_decide (rl_position r = rl_position r')
      || bool_decide (rl_relay_url r = rl_relay_url r')).

(** [budget_periods]: the spend counted against one renewal period. *)
Record BudgetPeriodRow := mkBudgetPeriodRow {
  bp_connection_id : string;
  bp_period_started_at : Z;
  bp_limit_sat : Z;
  bp_used_sat : Z;
  bp_updated_at : Z;
}.
Definition budget_period_check (r : BudgetPeriodRow) : bool :=
  (0 <=? bp_period_started_at r) && (0 <=? bp_limit_sat r) && (0 <=? bp_used_sat r)
  && (bp_period_started_at r <=? bp_updated_at r).
Definition bp_key (r : BudgetPeriodRow) : string * Z :=
  (bp_connection_id r, bp_period_started_at r).
Definition budget_period_clash (r r' : BudgetPeriodRow) : bool :=
  bool_decide (bp_key r = bp_key r').

(** [payment_attempts]: one durable attempt per authenticated event. *)
Record PaymentAttemptRow := mkPaymentAttemptRow {
  pa_event_id : list Z;
  pa_payment_hash : list Z;
  pa_connection_id : string;
  pa_connection_revision : Z;
  pa_period_started_at : Z;
  pa_principal_sat : Z;
  pa_fee_reserve_sat : Z;
  pa_reserved_sat : Z;
  pa_state : string;
  pa_actual_principal_sat : option Z;
  pa_actual_fee_sat : option Z;
  pa_charged_sat : option Z;
  pa_authorization_exceeded : bool;
  pa_created_at : Z;
  pa_updated_at : Z;
  pa_reconciliation_sequence : Z;
  pa_initiated_at : option Z;
  pa_legacy_initiation_ambiguous : bool;
}.
Definition payment_attempt_check (r : PaymentAttemptRow) : bool :=
  blob_length 32 (pa_event_id r) && blob_length 32 (pa_payment_hash r)
  && (0 <=? pa_connection_revision r) && (0 <=? pa_period_started_at r)
  && (0 <=? pa_principal_sat r) && (0 <=? pa_fee_reserve_sat r)
  && (pa_principal_sat r <=? pa_reserved_sat r)
  && (pa_fee_reserve_sat r =? pa_reserved_sat r - pa_principal_sat r)
  && text_in (pa_state r) ["reserved"; "pending"; "succeeded"; "failed"]
  && null_or (fun v => 0 <=? v) (pa_actual_principal_sat r)
  && null_or (fun v => 0 <=? v) (pa_actual_fee_sat r)
  && null_or (fun v => 0 <=? v) (pa_charged_sat r)
  && (pa_period_started_at r <=? pa_created_at r)
  && (pa_created_at r <=? pa_updated_at r)
  && ((text_in (pa_state r) ["reserved"; "pending"]
       && null (pa_actual_principal_sat r) && null (pa_actual_fee_sat r)
       && null (pa_charged_sat r) && negb (pa_authorization_exceeded r))
      || (text_in (pa_state r) ["succeeded"] && not_null (pa_actual_principal_sat r)
          && not_null (pa_actual_fee_sat r) && not_null (pa_charged_sat r))
      || (text_in (pa_state r) ["failed"] && null (pa_actual_principal_sat r)
          && null (pa_actual_fee_sat r) && null (pa_charged_sat r)
          && negb (pa_authorization_exceeded r)))
  && (0 <=? pa_reconciliation_sequence r)
  && null_or (fun t => pa_created_at r <=? t) (pa_initiated_at r).
Definition pa_key (r : PaymentAttemptRow) : string * Z :=
  (pa_connection_id r, pa_period_started_at r).
(** The primary key [event_id] and the unique [payment_hash]. *)
Definition payment_attempt_clash (r r' : PaymentAttemptRow) : bool :=
  bool_decide (pa_event_id r = pa_event_id r')
  || bool_decide (pa_payment_hash r = pa_payment_hash r').

(** [wake_registration_outbox]: the latest desired provider state. *)
Record RegistrationRow := mkRegistrationRow {
  wo_connection_id : string;
  wo_connection_revision : Z;
  wo_desired_enabled : Z;
  wo_client_pubkey : list Z;
  wo_wallet_service_pubkey : list Z;
  wo_attempt_count : Z;
  wo_available_at : Z;
  wo_updated_at : Z;
}.
Definition registration_check (r : RegistrationRow) : bool :=
  (0 <=? wo_connection_revision r)
  && between (wo_desired_enabled r) 0 1
  && blob_length 32 (wo_client_pubkey r) && blob_length 32 (wo_wallet_service_pubkey r)
  && between (wo_attempt_count r) 0 2147483647
  && (0 <=? wo_available_at r) && (0 <=? wo_updated_at r).
Definition registration_clash (r r' : RegistrationRow) : bool :=
  bool_decide (wo_connection_id r = wo_connection_id r').

(** [nwc_created_invoices] and [nwc_sent_payments]. *)
Record InvoiceRow := mkInvoiceRow {
  iv_request_event_id : list Z;
  iv_payment_hash : list Z;
  iv_connection_id : string;
  iv_connection_revision : Z;
  iv_invoice : string;
  iv_description : option string;
  iv_amount_msat : Z;
  iv_created_at : Z;
  iv_expires_at : Z;
  iv_last_checked_at : Z;
  iv_notification_event_json : option string;
  iv_notification_created_at : option Z;
  iv_completed_at : option Z;
  iv_settlement_trigger_token : option (list Z);
}.
Definition invoice_check (r : InvoiceRow) : bool :=
  blob_length 32 (iv_request_event_id r) && blob_length 32 (iv_payment_hash r)
  && (0 <=? iv_connection_revision r)
  && between (str_len (iv_invoice r)) 1 16384
  && null_or (fun d => str_len d <=? 4096) (iv_description r)
  && (0 <? iv_amount_msat r) && (0 <=? iv_created_at r)
  && (iv_created_at r <? iv_expires_at r)
  && (iv_created_at r <=? iv_last_checked_at r)
  && null_or (fun j => str_len j <=? 131072) (iv_notification_event_json r)
  && ((null (iv_notification_event_json r) && null (iv_notification_created_at r))
      || (not_null (iv_notification_event_json r) && not_null (iv_notification_created_at r)))
  && (null (iv_completed_at r) || not_null (iv_notification_event_json r))
  && null_or (blob_length 32) (iv_settlement_trigger_token r).
Definition invoice_clash (r r' : InvoiceRow) : bool :=
  bool_decide (iv_request_event_id r = iv_request_event_id r')
  || bool_decide (iv_payment_hash r = iv_payment_hash r').

Record SentPaymentRow := mkSentPaymentRow {
  sp_request_event_id : list Z;
  sp_payment_hash : list Z;
  sp_connection_id : string;
  sp_connection_revision : Z;
  sp_invoice : string;
  sp_amount_msat : Z;
  sp_fee_msat : Z;
  sp_preimage : list Z;
  sp_created_at : Z;
  sp_settled_at : Z;
  sp_notification_event_json : option string;
  sp_completed_at : option Z;
}.
Definition sent_payment_check (r : SentPaymentRow) : bool :=
  blob_length 32 (sp_request_event_id r) && blob_length 32 (sp_payment_hash r)
  && (0 <=? sp_connection_revision r)
  && between (str_len (sp_invoice r)) 1 16384
  && (0 <? sp_amount_msat r) && (0 <=? sp_fee_msat r)
  && blob_length 32 (sp_preimage r)
  && (0 <=? sp_created_at r) && (sp_created_at r <=? sp_settled_at r)
  && null_or (fun j => str_len j <=? 131072) (sp_notification_event_json r)
  && (null (sp_completed_at r) || not_null (sp_notification_event_json r)).
Definition sent_payment_clash (r r' : SentPaymentRow) : bool :=
  bool_decide (sp_request_event_id r = sp_request_event_id r')
  || bool_decide (sp_payment_hash r = sp_payment_hash r').

(** The relay rows of an invoice or a sent payment also bound the URL. *)
Definition notification_relay_check {K} (r : RelayRow K) : bool :=
  (0 <=? rl_position r) && between (str_len (rl_relay_url r)) 1 2048.

(** [connection_metadata] and [nwc_info_outbox]. *)
Record MetadataRow := mkMetadataRow {
  md_connection_id : string;
  md_display_name : string;
  md_icon_url : option string;
}.
Definition metadata_check (r : MetadataRow) : bool :=
  between (str_len (md_display_name r)) 1 256
  && null_or (fun u => between (str_len u) 1 2048) (md_icon_url r).
Definition metadata_clash (r r' : MetadataRow) : bool :=
  bool_decide (md_connection_id r = md_connection_id r').

Record InfoRow := mkInfoRow { ni_connection_id : string; ni_relay_url : string }.
Definition info_check (r : InfoRow) : bool := between (str_len (ni_relay_url r)) 1 2048.
Definition info_clash (r r' : InfoRow) : bool :=
  bool_decide (ni_connection_id r = ni_connection_id r') && bool_decide (ni_relay_url r = ni_relay_url r').

(** ** The database *)

Record Database := mkDatabase {
  wake_events : list WakeEventRow;
  connections : list ConnectionRow;
  connection_methods : list ConnectionMethodRow;
  connection_relays : list (RelayRow string);
  budget_periods : list BudgetPeriodRow;
  payment_attempts : list PaymentAttemptRow;
  wake_registration_outbox : list RegistrationRow;
  wake_registration_relays : list (RelayRow string);
  nwc_created_invoices : list InvoiceRow;
  nwc_invoice_notification_relays : list (RelayRow (list Z));
  nwc_sent_payments : list SentPaymentRow;
  nwc_sent_payment_relays : list (RelayRow (list Z));
  connection_metadata : list MetadataRow;
  nwc_info_outbox : list InfoRow;
}.

Definition empty_database : Database := mkDatabase [] [] [] [] [] [] [] [] [] [] [] [] [] [].

Definition set_wake_events t (d : Database) : Database :=
  mkDatabase t (connections d) (connection_methods d) (connection_relays d) (budget_periods d)
    (payment_attempts d) (wake_registration_outbox d) (wake_registration_relays d)
    (nwc_created_invoices d) (nwc_invoice_notification_relays d) (nwc_sent_payments d)
    (nwc_sent_payment_relays d) (connection_metadata d) (nwc_info_outbox d).
Definition set_connections t (d : Database) : Database :=
  mkDatabase (wake_events d) t (connection_methods d) (connection_relays d) (budget_periods d)
    (payment_attempts d) (wake_registration_outbox d) (wake_registration_relays d)
    (nwc_created_invoices d) (nwc_invoice_notification_relays d) (nwc_sent_payments d)
    (nwc_sent_payment_relays d) (connection_metadata d) (nwc_info_outbox d).
Definition set_connection_methods t (d : Database) : Database :=
  mkDatabase (wake_events d) (connections d) t (connection_relays d) (budget_periods d)
    (payment_attempts d) (wake_registration_outbox d) (wake_registration_relays d)
    (nwc_created_invoices d) (nwc_invoice_notification_relays d) (nwc_sent_payments d)
    (nwc_sent_payment_relays d) (connection_metadata d) (nwc_info_outbox d).
Definition set_connection_relays t (d : Database) : Database :=
  mkDatabase (wake_events d) (connections d) (connection_methods d) t (budget_periods d)
    (payment_attempts d) (wake_registration_outbox d) (wake_registration_relays d)
    (nwc_created_invoices d) (nwc_invoice_notification_relays d) (nwc_sent_payments d)
    (nwc_sent_payment_relays d) (connection_metadata d) (nwc_info_outbox d).
Definition set_budget_periods t (d : Database) : Database :=
  mkDatabase (wake_events d) (connections d) (connection_methods d) (connection_relays d) t
    (payment_attempts d) (wake_registration_outbox d) (wake_registration_relays d)
    (nwc_created_invoices d) (nwc_invoice_notification_relays d) (nwc_sent_payments d)
    (nwc_sent_payment_relays d) (connection_metadata d) (nwc_info_outbox d).
Definition set_payment_attempts t (d : Database) : Database :=
  mkDatabase (wake_events d) (connections d) (connection_methods d) (connection_relays d)
    (budget_periods d) t (wake_registration_outbox d) (wake_registration_relays d)
    (nwc_created_invoices d) (nwc_invoice_notification_relays d) (nwc_sent_payments d)
    (nwc_sent_payment_relays d) (connection_metadata d) (nwc_info_outbox d).
Definition set_wake_registration_outbox t (d : Database) : Database :=
  mkDatabase (wake_events d) (connections d) (connection_methods d) (connection_relays d)
    (budget_periods d) (payment_attempts d) t (wake_registration_relays d)
    (nwc_created_invoices d) (nwc_invoice_notification_relays d) (nwc_sent_payments d)
    (nwc_sent_payment_relays d) (connection_metadata d) (nwc_info_outbox d).
Definition set_wake_registration_relays t (d : Database) : Database :=
  mkDatabase (wake_events d) (connections d) (connection_methods d) (connection_relays d)
    (budget_periods d) (payment_attempts d) (wake_registration_outbox d) t
    (nwc_created_invoices d) (nwc_invoice_notification_relays d) (nwc_sent_payments d)
    (nwc_sent_payment_relays d) (connection_metadata d) (nwc_info_outbox d).
Definition set_nwc_created_invoices t (d : Database) : Database :=
  mkDatabase (wake_events d) (connections d) (connection_methods d) (connection_relays d)
    (budget_periods d) (payment_attempts d) (wake_registration_outbox d)
    (wake_registration_relays d) t (nwc_invoice_notification_relays d) (nwc_sent_payments d)
    (nwc_sent_payment_relays d) (connection_metadata d) (nwc_info_outbox d).
Definition set_nwc_invoice_notification_relays t (d : Database) : Database :=
  mkDatabase (wake_events d) (connections d) (connection_methods d) (connection_relays d)
    (budget_periods d) (payment_attempts d) (wake_registration_outbox d)
    (wake_registration_relays d) (nwc_created_invoices d) t (nwc_sent_payments d)
    (nwc_sent_payment_relays d) (connection_metadata d) (nwc_info_outbox d).
Definition set_nwc_sent_payments t (d : Database) : Database :=
  mkDatabase (wake_events d) (connections d) (connection_methods d) (connection_relays d)
    (budget_periods d) (payment_attempts d) (wake_registration_outbox d)
    (wake_registration_relays d) (nwc_created_invoices d) (nwc_invoice_notification_relays d) t
    (nwc_sent_payment_relays d) (connection_metadata d) (nwc_info_outbox d).
Definition set_nwc_sent_payment_relays t (d : Database) : Database :=
  mkDatabase (wake_events d) (connections d) (connection_methods d) (connection_relays d)
    (budget_periods d) (payment_attempts d) (wake_registration_outbox d)
    (wake_registration_relays d) (nwc_created_invoices d) (nwc_invoice_notification_relays d)
    (nwc_sent_payments d) t (connection_metadata d) (nwc_info_outbox d).
Definition set_connection_metadata t (d : Database) : Database :=
  mkDatabase (wake_events d) (connections d) (connection_methods d) (connection_relays d)
    (budget_periods d) (payment_attempts d) (wake_registration_outbox d)
    (wake_registration_relays d) (nwc_created_invoices d) (nwc_invoice_notification_relays d)
    (nwc_sent_payments d) (nwc_sent_payment_relays d) t (nwc_info_outbox d).
Definition set_nwc_info_outbox t (d : Database) : Database :=
  mkDatabase (wake_events d) (connections d) (connection_methods d) (connection_relays d)
    (budget_periods d) (payment_attempts d) (wake_registration_outbox d)
    (wake_registration_relays d) (nwc_created_invoices d) (nwc_invoice_notification_relays d)
    (nwc_sent_payments d) (nwc_sent_payment_relays d) (connection_metadata d) t.

(** Foreign keys to [connections] and [budget_periods]. *)
Definition connection_exists (d : Database) (id : string) : bool :=
  exists_row (fun c => bool_decide (cn_id c = id)) (connections d).
Definition period_exists (d : Database) (k : string * Z) : bool :=
  exists_row (fun p => bool_decide (bp_key p = k)) (budget_periods d).

(** ** Row invariants *)

Definition events_wf (t : list WakeEventRow) : Prop :=
  Forall (fun r => wake_event_check r = true) t /\ NoDup (we_event_id <$> t).

Definition connections_wf (t : list ConnectionRow) : Prop :=
  Forall (fun r => connection_check r = true) t /\ NoDup (cn_id <$> t)
  /\ NoDup ((fun r => (cn_client_pubkey r, cn_wallet_service_pubkey r)) <$> t).

Definition periods_wf (t : list BudgetPeriodRow) : Prop :=
  Forall (fun r => budget_period_check r = true) t /\ NoDup (bp_key <$> t).

Definition attempts_wf (t : list PaymentAttemptRow) : Prop :=
  Forall (fun r => payment_attempt_check r = true) t
  /\ NoDup (pa_event_id <$> t) /\ NoDup (pa_payment_hash <$> t).

Definition outbox_wf (t : list RegistrationRow) : Prop :=
  Forall (fun r => registration_check r = true) t /\ NoDup (wo_connection_id <$> t).

(** Within one owner, positions and URLs are unique. *)
Definition relays_wf (t : list (RelayRow string)) : Prop :=
  Forall (fun r => relay_check r = true) t
  /\ NoDup ((fun r => (rl_owner r, rl_position r)) <$> t)
  /\ NoDup ((fun r => (rl_owner r, rl_relay_url r)) <$> t).

(** ** Lemmas *)

Lemma insert_relay_wf ok (r : RelayRow string) t t' :
  insert_row (fun r => relay_check r && ok r) relay_clash r t = Some t' -> relays_wf t -> relays_wf t'.
Proof.
  intros H (H1 & H2 & H3). split_and!.
  - apply (insert_row_Forall _ _ _ _ _ _ H); [|done]. intros Hok. by apply andb_prop in Hok as [? _].
  - eapply insert_row_key; [exact H| |done]. intros r' [= Ho Hp]. unfold relay_clash.
    by rewrite Ho, Hp, (bool_decide_true (rl_owner r' = _)), (bool_decide_true (rl_position r' = _)).
  - eapply insert_row_key; [exact H| |done]. intros r' [= Ho Hp]. unfold relay_clash.
    by rewrite Ho, Hp, (bool_decide_true (rl_owner r' = _)),
      (bool_decide_true (rl_relay_url r' = _)), orb_true_r.
Qed.

Lemma delete_relays_wf p t : relays_wf t -> relays_wf (delete_where p t).1.
Proof. intros (H1 & H2 & H3). split_and!; auto with nwc. Qed.

(** The rows of one owner go into a table that has none of that owner. *)
Lemma insert_own_relays t t' id :
  relays_wf t -> (forall r, r ∈ t' -> rl_owner r <> id) ->
  let own := select (fun r => bool_decide (rl_owner r = id)) t in
  insert_rows relay_check relay_clash own t' = Some (t' ++ own).
Proof.
  intros (H1 & H2 & H3) Hno own.
  assert (forall r, r ∈ own -> r ∈ t /\ rl_owner r = id) as Hown.
  { intros r [Hr Ho%bool_decide_eq_true_1]%elem_of_select. done. }
  apply insert_rows_total.
  - apply Forall_forall. intros r [Hr _]%Hown. rewrite Forall_forall in H1. auto.
  - intros r r' [_ Ho]%Hown Hr'. unfold relay_clash. rewrite bool_decide_false; [done|].
    rewrite Ho. intros Heq. by apply (Hno r').
  - assert (forall {K} (key : RelayRow string -> K) i j r r', NoDup (key <$> t) ->
      own !! i = Some r -> own !! j = Some r' -> (i < j)%nat -> key r' <> key r) as Hne.
    { intros K key i j r r' Hnd Hi Hj Hij Heq.
      assert (NoDup (key <$> own)) as Hnd'.
      { eapply sublist_NoDup; [exact Hnd|]. apply fmap_sublist, select_sublist. }
      assert (i = j); [|lia]. eapply (NoDup_lookup (key <$> own)); [done|..];
        rewrite list_lookup_fmap; [by rewrite Hi|rewrite Hj; simpl; by rewrite Heq]. }
    intros i j r r' Hi Hj Hij. unfold relay_clash.
    pose proof (Hne _ _ i j r r' H2 Hi Hj Hij). pose proof (Hne _ _ i j r r' H3 Hi Hj Hij).
    apply not_true_iff_false. rewrite andb_true_iff, orb_true_iff, !bool_decide_eq_true.
    intros [Ho [?|?]]; congruence.
Qed.

Lemma text_in_cons s a l : text_in s (a :: l) = bool_decide (s = a) || text_in s l.
Proof.
  unfold text_in. apply eq_true_iff_eq.
  rewrite orb_true_iff, !bool_decide_eq_true, elem_of_cons. done.
Qed.

Lemma text_in_true s l : text_in s l = true <-> s ∈ l.
Proof. unfold text_in. apply bool_decide_eq_true. Qed.

Lemma text_in_1 s a : text_in s [a] = true <-> s = a.
Proof. rewrite text_in_true. apply list_elem_of_singleton. Qed.

Lemma null_true {A} (o : option A) : null o = true <-> o = None.
Proof. by destruct o. Qed.

Lemma not_null_true {A} (o : option A) : not_null o = true <-> exists a, o = Some a.
Proof. destruct o; simpl; naive_solver. Qed.

Lemma null_or_true {A} (P : A -> bool) (o : option A) :
  null_or P o = true <-> forall a, o = Some a -> P a = true.
Proof. destruct o; simpl; naive_solver. Qed.

Lemma blob_length_true n b : blob_length n b = true <-> Z.of_nat (length b) = n.
Proof. apply Z.eqb_eq. Qed.

Lemma between_true v low high : between v low high = true <-> low <= v <= high.
Proof. unfold between. rewrite andb_true_iff, !Z.leb_le. done. Qed.

(** Read a [CHECK] clause as a proposition. *)
Ltac check_to_prop :=
  rewrite ?andb_true_iff, ?orb_true_iff, ?andb_true_iff, ?negb_true_iff, ?text_in_1,
    ?null_true, ?not_null_true, ?null_or_true, ?blob_length_true, ?between_true,
    ?Z.leb_le, ?Z.ltb_lt, ?Z.eqb_eq, ?bool_decide_eq_true.
Ltac check_to_prop_in H :=
  rewrite ?andb_true_iff, ?orb_true_iff, ?andb_true_iff, ?negb_true_iff, ?text_in_1,
    ?null_true, ?not_null_true, ?null_or_true, ?blob_length_true, ?between_true,
    ?Z.leb_le, ?Z.ltb_lt, ?Z.eqb_eq, ?bool_decide_eq_true in H.
