(* ===== verification/Ledger.v ===== *)
(** * The wake ledger: event claims and terminal replay state

    Models [ledger.rs]: claiming an event under a lease, recording freshness,
    renewing and releasing the lease, committing a terminal state, replaying
    it, pruning it, and the schema migrations.  Each operation is one SQLite
    transaction: a function from the database to a result and the new
    database; an error leaves the database as it was. *)
From S2P Require Import Prelude Sqlite Types Schema.
#[local] Open Scope Z_scope.

(** ** Data *)

Definition SCHEMA_VERSION : Z := 13.
Definition MAX_RESPONSE_EVENT_BYTES : Z := 128 * 1024.
Definition MAX_PRUNE_BATCH : Z := 1000.

Inductive LedgerError : Type :=
| DatabaseUnavailable
| UnsupportedSchema
| CorruptData
| ValueOutOfRange
| InvalidLease
| RandomnessUnavailable
| ClaimMetadataMismatch
| ConnectionUnavailable
| LostLease
| ResponseTooLarge
| InvalidPruneBatch.

#[export] Instance LedgerError_eq_dec : EqDecision LedgerError.
Proof. solve_decision. Defined.

Inductive TerminalKind : Type := Kind_completed | Kind_rejected | Kind_failed.

Definition terminal_as_database_str (k : TerminalKind) : string :=
  match k with
  | Kind_completed => "completed"
  | Kind_rejected => "rejected"
  | Kind_failed => "failed"
  end.

Definition terminal_from_database_str (s : string) : Result LedgerError TerminalKind :=
  if bool_decide (s = "completed") then Ok Kind_completed
  else if bool_decide (s = "rejected") then Ok Kind_rejected
  else if bool_decide (s = "failed") then Ok Kind_failed
  else Err CorruptData.

Record EventLease := mkEventLease {
  el_event_id : EventId;
  el_token : list Z;
  el_resumed : bool;
  el_freshness_accepted : bool;
}.

Record TerminalEvent := mkTerminalEvent {
  te_event_id : EventId;
  te_kind : TerminalKind;
  te_response_event_json : option string;
  te_request_method : option NwcMethod;
  te_completed_at : UnixTimestamp;
}.

Inductive ClaimOutcome : Type :=
| Acquired (lease : EventLease)
| InProgress (retry_after : Duration)
| Terminal (event : TerminalEvent).

(** A ledger transaction. *)
Definition Tx (E A : Type) : Type := Database -> Result E (A * Database).

(** ** Conversions *)

Definition sqlite_timestamp (t : UnixTimestamp) : Result LedgerError Z :=
  ok_or ValueOutOfRange (i64_try_from t).
Definition sqlite_revision (r : ConnectionRevision) : Result LedgerError Z :=
  ok_or ValueOutOfRange (i64_try_from r).

Definition nwc_method_from_database (s : string) : Result LedgerError NwcMethod :=
  if bool_decide (s = "get_info") then Ok GetInfo
  else if bool_decide (s = "get_balance") then Ok GetBalance
  else if bool_decide (s = "make_invoice") then Ok MakeInvoice
  else if bool_decide (s = "pay_invoice") then Ok PayInvoice
  else if bool_decide (s = "lookup_invoice") then Ok LookupInvoice
  else if bool_decide (s = "list_transactions") then Ok ListTransactions
  else Err CorruptData.

(** The expiry of a lease or retry that starts at [now] (already an [i64]). *)
Definition lease_expiry (now : Z) (d : Duration) : Result LedgerError Z :=
  let seconds := duration_as_secs d in
  if duration_is_zero d || (seconds =? 0) then Err InvalidLease
  else
    let? seconds := ok_or InvalidLease (i64_try_from seconds) in
    ok_or InvalidLease (checked_add_i64 now seconds).

Definition load_existing (event_id : EventId) (d : Database) : option WakeEventRow :=
  find_key we_event_id event_id (wake_events d).

Definition terminal_from_row (event_id : EventId) (r : WakeEventRow)
  : Result LedgerError TerminalEvent :=
  if not_null (we_available_at r) then Err CorruptData
  else
    let? kind := ok_or CorruptData (we_terminal_kind r) in
    let? kind := terminal_from_database_str kind in
    let? completed_at := ok_or CorruptData (u64_try_from (we_updated_at r)) in
    if match we_response_event_json r with
       | Some value => MAX_RESPONSE_EVENT_BYTES <? str_len value
       | None => false
       end
    then Err CorruptData
    else
      let? method := traverse_option nwc_method_from_database (we_request_method r) in
      Ok {| te_event_id := event_id; te_kind := kind;
            te_response_event_json := we_response_event_json r;
            te_request_method := method; te_completed_at := completed_at |}.

(** [require_owned_lease]. *)
Definition require_owned_lease (updated_rows : nat) : Result LedgerError unit :=
  if Nat.eqb updated_rows 1 then Ok tt else Err LostLease.

(** An [UPDATE wake_events SET f WHERE p]. *)
Definition update_events (p : WakeEventRow -> bool) (f : WakeEventRow -> WakeEventRow)
  : Tx LedgerError nat := fun d =>
  match update_where wake_event_check p f (wake_events d) with
  | Some (t, n) => Ok (n, set_wake_events t d)
  | None => Err DatabaseUnavailable
  end.

(** [event_id = ?1 AND state = 'claimed' AND claim_token = ?2 AND available_at > now]. *)
Definition lease_matches (lease : EventLease) (now : Z) (r : WakeEventRow) : bool :=
  bool_decide (we_event_id r = el_event_id lease)
  && bool_decide (we_state r = "claimed")
  && bool_decide (we_claim_token r = Some (el_token lease))
  && match we_available_at r with Some t => now <? t | None => false end.

(** ** Operations *)

(** [WakeLedger::claim_event]; [token] is the result of [getrandom::fill]. *)
Definition claim_event (token : option (list Z)) (event_id : EventId)
    (connection_id : ConnectionId) (connection_revision : ConnectionRevision)
    (now : UnixTimestamp) (lease_duration : Duration) : Tx LedgerError ClaimOutcome := fun d =>
  let? now := sqlite_timestamp now in
  let? revision := sqlite_revision connection_revision in
  let? lease_expires := lease_expiry now lease_duration in
  match load_existing event_id d with
  | None =>
      let? token := ok_or RandomnessUnavailable token in
      match insert_row wake_event_check wake_event_clash
        {| we_event_id := event_id; we_connection_id := connection_id;
           we_connection_revision := revision; we_state := "claimed";
           we_claim_token := Some token; we_available_at := Some lease_expires;
           we_updated_at := now; we_terminal_kind := None;
           we_response_event_json := None; we_request_method := None;
           we_freshness_accepted := false |} (wake_events d) with
      | None => Err DatabaseUnavailable
      | Some t =>
          Ok (Acquired {| el_event_id := event_id; el_token := token; el_resumed := false;
                          el_freshness_accepted := false |}, set_wake_events t d)
      end
  | Some existing =>
      if negb (bool_decide (we_connection_id existing = connection_id))
         || negb (we_connection_revision existing =? revision)
      then Err ClaimMetadataMismatch
      else if bool_decide (we_state existing = "terminal") then
        let? event := terminal_from_row event_id existing in Ok (Terminal event, d)
      else if bool_decide (we_state existing = "claimed")
              || bool_decide (we_state existing = "retryable") then
        let? available_at := ok_or CorruptData (we_available_at existing) in
        if now <? available_at then
          let? seconds := ok_or CorruptData (u64_try_from (available_at - now)) in
          Ok (InProgress (from_secs seconds), d)
        else
          let? token := ok_or RandomnessUnavailable token in
          let? (updated, d) := update_events
            (fun r => bool_decide (we_event_id r = event_id)
                      && text_in (we_state r) ["claimed"; "retryable"]
                      && match we_available_at r with Some t => t <=? now | None => false end)
            (fun r => mkWakeEventRow (we_event_id r) (we_connection_id r)
                        (we_connection_revision r) "claimed" (Some token)
                        (Some lease_expires) now (we_terminal_kind r)
                        (we_response_event_json r) (we_request_method r)
                        (we_freshness_accepted r)) d in
          if negb (Nat.eqb updated 1) then Err DatabaseUnavailable
          else Ok (Acquired {| el_event_id := event_id; el_token := token;
                               el_resumed := true;
                               el_freshness_accepted := we_freshness_accepted existing |}, d)
      else Err CorruptData
  end.

(** [WakeLedger::accept_event_freshness]. *)
Definition accept_event_freshness (lease : EventLease) (now : UnixTimestamp)
  : Tx LedgerError unit := fun d =>
  let? now := sqlite_timestamp now in
  let? (updated, d) := update_events (lease_matches lease now)
    (fun r => mkWakeEventRow (we_event_id r) (we_connection_id r)
                (we_connection_revision r) (we_state r) (we_claim_token r)
                (we_available_at r) now (we_terminal_kind r)
                (we_response_event_json r) (we_request_method r) true) d in
  let? _ := require_owned_lease updated in Ok (tt, d).

(** [WakeLedger::renew_lease]. *)
Definition renew_lease (lease : EventLease) (now : UnixTimestamp) (lease_duration : Duration)
  : Tx LedgerError unit := fun d =>
  let? now := sqlite_timestamp now in
  let? expires := lease_expiry now lease_duration in
  let? (updated, d) := update_events (lease_matches lease now)
    (fun r => mkWakeEventRow (we_event_id r) (we_connection_id r)
                (we_connection_revision r) (we_state r) (we_claim_token r)
                (Some expires) now (we_terminal_kind r)
                (we_response_event_json r) (we_request_method r)
                (we_freshness_accepted r)) d in
  let? _ := require_owned_lease updated in Ok (tt, d).

(** [WakeLedger::retry_later]. *)
Definition retry_later (lease : EventLease) (now : UnixTimestamp) (delay : Duration)
  : Tx LedgerError unit := fun d =>
  let? now := sqlite_timestamp now in
  let? available_at := lease_expiry now delay in
  let? (updated, d) := update_events (lease_matches lease now)
    (fun r => mkWakeEventRow (we_event_id r) (we_connection_id r)
                (we_connection_revision r) "retryable" None
                (Some available_at) now (we_terminal_kind r)
                (we_response_event_json r) (we_request_method r)
                (we_freshness_accepted r)) d in
  let? _ := require_owned_lease updated in Ok (tt, d).

(** The terminal row a completion writes. *)
Definition make_terminal (kind : TerminalKind) (response : option string)
    (method : option NwcMethod) (now : Z) (r : WakeEventRow) : WakeEventRow :=
  mkWakeEventRow (we_event_id r) (we_connection_id r) (we_connection_revision r)
    "terminal" None None now (Some (terminal_as_database_str kind)) response
    (method_as_str <$> method) (we_freshness_accepted r).

(** [WakeLedger::complete_event]. *)
Definition complete_event (lease : EventLease) (kind : TerminalKind)
    (response_event_json : option string) (now : UnixTimestamp) : Tx LedgerError unit := fun d =>
  if match response_event_json with
     | Some value => MAX_RESPONSE_EVENT_BYTES <? str_len value | None => false end
  then Err ResponseTooLarge
  else
    let? now := sqlite_timestamp now in
    let? (updated, d) := update_events (lease_matches lease now)
      (make_terminal kind response_event_json None now) d in
    let? _ := require_owned_lease updated in Ok (tt, d).

(** The claim of [lease], made for this exact connection revision. *)
Definition lease_matches_connection (lease : EventLease) (connection_id : ConnectionId)
    (revision : Z) (now : Z) (r : WakeEventRow) : bool :=
  lease_matches lease now r
  && bool_decide (we_connection_id r = connection_id)
  && (we_connection_revision r =? revision).

(** [EXISTS (SELECT 1 FROM connections WHERE connection_id AND revision AND active)]. *)
Definition revision_active (connection_id : ConnectionId) (revision : Z) (d : Database) : bool :=
  exists_row (fun c => bool_decide (cn_id c = connection_id)
                       && (cn_revision c =? revision)
                       && bool_decide (cn_status c = "active")) (connections d).

(** [complete_event_for_active_connection_inner]. *)
Definition complete_event_for_active_connection_inner (lease : EventLease)
    (connection_id : ConnectionId) (connection_revision : ConnectionRevision)
    (response_event_json : string) (request_method : option NwcMethod)
    (now : UnixTimestamp) : Tx LedgerError unit := fun d =>
  if MAX_RESPONSE_EVENT_BYTES <? str_len response_event_json then Err ResponseTooLarge
  else
    let? now := sqlite_timestamp now in
    let? revision := sqlite_revision connection_revision in
    let? (updated, d') := update_events
      (fun r => lease_matches_connection lease connection_id revision now r
                && revision_active connection_id revision d)
      (make_terminal Kind_completed (Some response_event_json) request_method now) d in
    if Nat.eqb updated 1 then Ok (tt, d')
    else if exists_row (lease_matches_connection lease connection_id revision now)
              (wake_events d')
    then Err ConnectionUnavailable
    else Err LostLease.

Definition complete_event_for_active_connection (lease : EventLease)
    (connection_id : ConnectionId) (connection_revision : ConnectionRevision)
    (response_event_json : string) (now : UnixTimestamp) : Tx LedgerError unit :=
  complete_event_for_active_connection_inner lease connection_id connection_revision
    response_event_json None now.

Definition complete_nwc_event_for_active_connection (lease : EventLease)
    (connection_id : ConnectionId) (connection_revision : ConnectionRevision)
    (response_event_json : string) (request_method : NwcMethod) (now : UnixTimestamp)
  : Tx LedgerError unit :=
  complete_event_for_active_connection_inner lease connection_id connection_revision
    response_event_json (Some request_method) now.

(** [WakeLedger::last_completed_event_at]. *)
Definition last_completed_event_at (connection_id : ConnectionId) (d : Database)
  : Result LedgerError (option UnixTimestamp) :=
  traverse_option (fun v => ok_or CorruptData (u64_try_from v))
    (sql_max we_updated_at
      (select (fun r => bool_decide (we_connection_id r = connection_id)
                        && bool_decide (we_state r = "terminal")
                        && bool_decide (we_terminal_kind r = Some "completed"))
        (wake_events d))).

(** [WakeLedger::prune_terminal]: the number of rows deleted. *)
Definition prune_terminal (completed_before : UnixTimestamp) (maximum_rows : Z)
  : Tx LedgerError nat := fun d =>
  if (maximum_rows =? 0) || (MAX_PRUNE_BATCH <? maximum_rows) then Err InvalidPruneBatch
  else
    let? cutoff := sqlite_timestamp completed_before in
    let? rows := ok_or InvalidPruneBatch (i64_try_from maximum_rows) in
    let oldest := limit rows
      (order_by (fun a b => we_updated_at a ?= we_updated_at b)
        (select (fun r => bool_decide (we_state r = "terminal")
                          && (we_updated_at r <? cutoff)) (wake_events d))) in
    let '(t, deleted) := delete_where
      (fun r => bool_decide (we_event_id r ∈ we_event_id <$> oldest)) (wake_events d) in
    Ok (deleted, set_wake_events t d).

(** ** Migrations

    [migrate] on a database whose columns added by a later version hold their
    defaults; the schema batches without data statements only move the
    version. *)

(** [CREATE_WAKE_REGISTRATION_SCHEMA] creates both tables and fills them. *)
Definition migrate_outbox (d : Database) : Database :=
  let active := select (fun c => bool_decide (cn_status c = "active")) (connections d) in
  set_wake_registration_relays
    (select (fun r => bool_decide (rl_owner r ∈ cn_id <$> active)) (connection_relays d))
    (set_wake_registration_outbox
      ((fun c => mkRegistrationRow (cn_id c) (cn_revision c) 1 (cn_client_pubkey c)
                   (cn_wallet_service_pubkey c) 0 (cn_updated_at c) (cn_updated_at c))
       <$> active) d).

(** [ADD_INVOICE_SETTLEMENT_TRIGGER]; [token] is [randomblob(32)] for a row. *)
Definition migrate_trigger_tokens (token : EventId -> list Z) (d : Database) : Database :=
  set_nwc_created_invoices
    ((fun r => match iv_settlement_trigger_token r with
               | Some _ => r
               | None => mkInvoiceRow (iv_request_event_id r) (iv_payment_hash r)
                   (iv_connection_id r) (iv_connection_revision r) (iv_invoice r)
                   (iv_description r) (iv_amount_msat r) (iv_created_at r)
                   (iv_expires_at r) (iv_last_checked_at r)
                   (iv_notification_event_json r) (iv_notification_created_at r)
                   (iv_completed_at r) (Some (token (iv_request_event_id r)))
               end) <$> nwc_created_invoices d) d.

Definition set_initiated (initiated : option Z) (legacy : bool) (r : PaymentAttemptRow)
  : PaymentAttemptRow :=
  mkPaymentAttemptRow (pa_event_id r) (pa_payment_hash r) (pa_connection_id r)
    (pa_connection_revision r) (pa_period_started_at r) (pa_principal_sat r)
    (pa_fee_reserve_sat r) (pa_reserved_sat r) (pa_state r)
    (pa_actual_principal_sat r) (pa_actual_fee_sat r) (pa_charged_sat r)
    (pa_authorization_exceeded r) (pa_created_at r) (pa_updated_at r)
    (pa_reconciliation_sequence r) initiated legacy.

(** [ADD_PAYMENT_INITIATION_MARKER]: [SET initiated_at = created_at]. *)
Definition migrate_initiation (d : Database) : Database :=
  set_payment_attempts
    ((fun r => set_initiated (Some (pa_created_at r)) (pa_legacy_initiation_ambiguous r) r)
     <$> payment_attempts d) d.

(** [ADD_WAKE_EVENT_FRESHNESS_ACCEPTANCE]. *)
Definition migrate_freshness (d : Database) : Database :=
  set_payment_attempts
    ((fun r => if text_in (pa_state r) ["reserved"; "pending"]
               then set_initiated (pa_initiated_at r) true r else r) <$> payment_attempts d)
    (set_wake_events
      ((fun r => if text_in (we_state r) ["retryable"; "terminal"]
                 then mkWakeEventRow (we_event_id r) (we_connection_id r)
                        (we_connection_revision r) (we_state r) (we_claim_token r)
                        (we_available_at r) (we_updated_at r) (we_terminal_kind r)
                        (we_response_event_json r) (we_request_method r) true
                 else r) <$> wake_events d) d).

(** [migrate]: the chain of version steps. *)
Definition migrate (token : EventId -> list Z) (version : Z) (d : Database)
  : Result LedgerError (Z * Database) :=
  let v := version in
  let v := if v =? 0 then 1 else v in
  let v := if v =? 1 then 2 else v in
  let v := if v =? 2 then 3 else v in
  let '(v, d) := if v =? 3 then (4, migrate_outbox d) else (v, d) in
  let v := if v =? 4 then 5 else v in
  let v := if v =? 5 then 6 else v in
  let v := if v =? 6 then 7 else v in
  let v := if v =? 7 then 8 else v in
  let v := if v =? 8 then 9 else v in
  let v := if v =? 9 then 10 else v in
  let '(v, d) := if v =? 10 then (11, migrate_trigger_tokens token d) else (v, d) in
  let '(v, d) := if v =? 11 then (12, migrate_initiation d) else (v, d) in
  let '(v, d) := if v =? 12 then (13, migrate_freshness d) else (v, d) in
  if negb (v =? SCHEMA_VERSION) then Err UnsupportedSchema else Ok (SCHEMA_VERSION, d).

(** ** Abstract claims

    What the ledger promises for one event, without the columns: nothing is
    known of it, it is claimed under a token until an expiry, it is waiting for
    a retry, or it is terminal with its replayable result. *)

Record ClaimOwner := mkClaimOwner { co_connection : string; co_revision : Z; co_fresh : bool }.

Inductive ClaimState : Type :=
| Claimed (owner : ClaimOwner) (token : list Z) (until : Z)
| Retryable (owner : ClaimOwner) (until : Z)
| Finished (owner : ClaimOwner) (event : TerminalEvent).

Definition row_owner (r : WakeEventRow) : ClaimOwner :=
  mkClaimOwner (we_connection_id r) (we_connection_revision r) (we_freshness_accepted r).

Definition claim_view (r : WakeEventRow) : option ClaimState :=
  if bool_decide (we_state r = "claimed") then
    match we_claim_token r, we_available_at r with
    | Some token, Some until => Some (Claimed (row_owner r) token until)
    | _, _ => None
    end
  else if bool_decide (we_state r = "retryable") then
    Retryable (row_owner r) <$> we_available_at r
  else match terminal_from_row (we_event_id r) r with
       | Ok event => Some (Finished (row_owner r) event)
       | Err _ => None
       end.

(** The abstract state of event [e]; [None] is an event never claimed. *)
Definition claim_state (d : Database) (e : EventId) : option ClaimState :=
  load_existing e d ≫= claim_view.

(** Claiming, as the contract states it. *)
Definition spec_claim (s : option ClaimState) (token : list Z) (e : EventId)
    (connection : string) (revision now expires : Z)
  : Result LedgerError (ClaimOutcome * option ClaimState) :=
  let mine o := bool_decide (co_connection o = connection) && (co_revision o =? revision) in
  let acquire fresh resumed :=
    Ok (Acquired (mkEventLease e token resumed fresh),
        Some (Claimed (mkClaimOwner connection revision fresh) token expires)) in
  match s with
  | None => acquire false false
  | Some (Finished o event) =>
      if mine o then Ok (Terminal event, s) else Err ClaimMetadataMismatch
  | Some (Claimed o _ until) | Some (Retryable o until) =>
      if negb (mine o) then Err ClaimMetadataMismatch
      else if now <? until then Ok (InProgress (from_secs (until - now)), s)
      else acquire (co_fresh o) true
  end.

(** The lease is the live claim of its event. *)
Definition lease_live (d : Database) (lease : EventLease) (now : Z) : Prop :=
  exists owner until,
    claim_state d (el_event_id lease) = Some (Claimed owner (el_token lease) until) /\ now < until.

(** One committed ledger transaction of any process. *)
Inductive ledger_step : Database -> Database -> Prop :=
| step_claim token e c rev now dur d o d' :
    length token = 16%nat -> length e = 32%nat -> u64 now -> 0 <= rev -> duration dur ->
    claim_event (Some token) e c rev now dur d = Ok (o, d') -> ledger_step d d'
| step_accept lease now d d' :
    u64 now -> accept_event_freshness lease now d = Ok (tt, d') -> ledger_step d d'
| step_renew lease now dur d d' :
    u64 now -> duration dur -> renew_lease lease now dur d = Ok (tt, d') -> ledger_step d d'
| step_retry lease now dur d d' :
    u64 now -> duration dur -> retry_later lease now dur d = Ok (tt, d') -> ledger_step d d'
| step_complete lease kind response now d d' :
    u64 now -> complete_event lease kind response now d = Ok (tt, d') -> ledger_step d d'
| step_complete_active lease c rev response m now d d' :
    u64 now -> 0 <= rev ->
    complete_event_for_active_connection_inner lease c rev response m now d = Ok (tt, d') ->
    ledger_step d d'
| step_prune cutoff maximum n d d' :
    0 <= maximum -> prune_terminal cutoff maximum d = Ok (n, d') -> ledger_step d d'.

(** A committed prune removed the terminal event [e], completed before its cutoff. *)
Definition pruned (e : EventId) (o : ClaimOwner) (ev : TerminalEvent) (d d' : Database) : Prop :=
  exists cutoff maximum n,
    0 <= maximum /\ prune_terminal cutoff maximum d = Ok (n, d') /\ te_completed_at ev < cutoff
    /\ claim_state d e = Some (Finished o ev) /\ claim_state d' e = None.

(** A transaction that leaves the result of [e] in place. *)
Definition keeping (step : relation Database) (e : EventId) (o : ClaimOwner) (ev : TerminalEvent)
    (d d' : Database) : Prop := step d d' /\ claim_state d' e = Some (Finished o ev).

(** Along the transactions [step] the result of [e] stays exactly as it is, to
    the end or until a prune removes it. *)
Definition final_until_pruned (step : relation Database) (e : EventId) (o : ClaimOwner)
    (ev : TerminalEvent) (d d' : Database) : Prop :=
  claim_state d' e = Some (Finished o ev)
  \/ exists a b, rtc (keeping step e o ev) d a /\ pruned e o ev a b /\ rtc step b d'.

(** Every operation on the lease is refused as lost, whatever its arguments. *)
Definition lease_lost (lease : EventLease) (d : Database) : Prop :=
  forall now dur expires kind outcome response method connection revision,
    0 <= now <= i64_max -> lease_expiry now dur = Ok expires -> 0 <= revision <= i64_max ->
    (forall j, outcome = Some j -> str_len j <= MAX_RESPONSE_EVENT_BYTES) ->
    str_len response <= MAX_RESPONSE_EVENT_BYTES ->
    accept_event_freshness lease now d = Err LostLease
    /\ renew_lease lease now dur d = Err LostLease
    /\ retry_later lease now dur d = Err LostLease
    /\ complete_event lease kind outcome now d = Err LostLease
    /\ complete_event_for_active_connection lease connection revision response now d = Err LostLease
    /\ complete_nwc_event_for_active_connection lease connection revision response method now d
         = Err LostLease.

(** ** Lemmas *)

Lemma terminal_str_roundtrip k :
  terminal_from_database_str (terminal_as_database_str k) = Ok k.
Proof. by destruct k. Qed.

Lemma method_str_roundtrip m : nwc_method_from_database (method_as_str m) = Ok m.
Proof. by destruct m. Qed.

Lemma method_str_in m : text_in (method_as_str m) METHOD_NAMES = true.
Proof. by destruct m. Qed.

Lemma lease_expiry_Ok now dur t :
  lease_expiry now dur = Ok t -> duration dur ->
  now < t <= i64_max /\ t = now + duration_as_secs dur.
Proof.
  unfold lease_expiry, duration_is_zero, checked_add_i64. intros H [Hd _].
  destruct ((dur =? 0) || (duration_as_secs dur =? 0)) eqn:E; [done|].
  inv_run H. use_results. bool_to_prop.
  assert (0 <= duration_as_secs dur) by (apply Z.div_pos; [done|unfold NANOS_PER_SEC; lia]).
  lia.
Qed.

(** The [CHECK] clauses of [wake_events] as a proposition: the state decides
    which of the nullable columns are set. *)
Definition event_columns (r : WakeEventRow) : Prop :=
  (we_state r = "claimed" /\ (exists t, we_claim_token r = Some t /\ length t = 16%nat)
   /\ (exists u, we_available_at r = Some u) /\ we_terminal_kind r = None
   /\ we_response_event_json r = None)
  \/ (we_state r = "retryable" /\ we_claim_token r = None
      /\ (exists u, we_available_at r = Some u) /\ we_terminal_kind r = None
      /\ we_response_event_json r = None)
  \/ (we_state r = "terminal" /\ we_claim_token r = None /\ we_available_at r = None
      /\ exists k, we_terminal_kind r = Some (terminal_as_database_str k)).

Lemma wake_event_check_spec r :
  wake_event_check r = true <->
  length (we_event_id r) = 32%nat /\ 0 <= we_connection_revision r /\ 0 <= we_updated_at r
  /\ (forall j, we_response_event_json r = Some j -> str_len j <= MAX_RESPONSE_EVENT_BYTES)
  /\ (forall m, we_request_method r = Some m -> text_in m METHOD_NAMES = true)
  /\ event_columns r.
Proof.
  unfold wake_event_check, event_columns, MAX_RESPONSE_EVENT_BYTES.
  check_to_prop. setoid_rewrite blob_length_true. setoid_rewrite Z.leb_le.
  rewrite !text_in_true.
  split.
  - intros ((((((((Hid & Hrev) & Hst) & Htok) & Hupd) & Hkind) & Hresp) & Hmeth) & Hcols).
    split_and!; [lia|done..|].
    destruct Hcols as [[((((Hs & [t Ht]) & Hav) & Hk) & Hr)|((((Hs & Ht) & Hav) & Hk) & Hr)]
                      |(((Hs & Ht) & Hav) & [k Hk])].
    + left. specialize (Htok t Ht). split_and!; [done| |done..]. exists t. split; [done|lia].
    + right. left. split_and!; done.
    + right. right. split_and!; [done..|]. specialize (Hkind k Hk).
      rewrite text_in_true in Hkind. rewrite !elem_of_cons, elem_of_nil in Hkind.
      destruct Hkind as [->|[->|[->|[]]]];
        [exists Kind_completed|exists Kind_rejected|exists Kind_failed]; done.
  - intros (Hid & Hrev & Hupd & Hresp & Hmeth & Hcols).
    assert (forall s, s = "claimed" \/ s = "retryable" \/ s = "terminal" ->
      s ∈ ["claimed"; "retryable"; "terminal"]) as Hin by (intros; set_solver).
    destruct Hcols as [(Hs & (t & Ht & Hlen) & Hav & Hk & Hr)
      |[(Hs & Ht & Hav & Hk & Hr)|(Hs & Ht & Hav & k & Hk)]];
      rewrite ?Ht, ?Hk; split_and!; eauto; try lia; try done; try (intros; simplify_eq; lia).
    + naive_solver.
    + naive_solver.
    + intros a [= <-]. by destruct k.
    + right. eauto 10.
Qed.

Lemma update_events_Ok p f d n d' :
  update_events p f d = Ok (n, d') ->
  (forall r, we_event_id (f r) = we_event_id r) ->
  events_wf (wake_events d) ->
  events_wf (wake_events d') /\ d' = set_wake_events (wake_events d') d
  /\ forall k, load_existing k d' = (fun r => if p r then f r else r) <$> load_existing k d.
Proof.
  unfold update_events. intros H Hid [Hchk Hnd].
  destruct (update_where wake_event_check p f (wake_events d)) as [[t m]|] eqn:Hu; [|done].
  injection H as <- <-. simpl. split; [split|split].
  - eapply update_where_Forall; eauto.
  - by rewrite (update_where_key we_event_id _ _ _ _ _ _ Hu Hid).
  - done.
  - intros k. unfold load_existing. simpl. by eapply find_key_update.
Qed.

(** An update keyed on one event counts that event's row when it matches. *)
Lemma update_events_count p f d n d' e :
  update_events p f d = Ok (n, d') -> events_wf (wake_events d) ->
  (forall r, p r = true -> we_event_id r = e) ->
  n = match load_existing e d with Some r => if p r then 1%nat else 0%nat | None => 0%nat end.
Proof.
  unfold update_events. intros H [_ Hnd] Hp.
  destruct (update_where wake_event_check p f (wake_events d)) as [[t m]|] eqn:Hu; [|done].
  injection H as <- <-. apply update_where_Some in Hu as (_ & -> & _).
  by apply (select_key_count we_event_id).
Qed.

(** An update whose new row still passes the [CHECK] clauses succeeds. *)
Lemma update_events_total p f d :
  (forall r, p r = true -> wake_event_check r = true -> wake_event_check (f r) = true) ->
  events_wf (wake_events d) -> exists n d', update_events p f d = Ok (n, d').
Proof.
  intros Hf [Hchk _]. unfold update_events, update_where.
  replace (forallb _ _) with true; [eauto|]. symmetry. apply forallb_forall.
  intros r Hr. apply list_elem_of_In, elem_of_select in Hr as [Hr Hp].
  rewrite Forall_forall in Hchk. auto.
Qed.

Lemma lease_matches_true lease now r :
  lease_matches lease now r = true <->
  we_event_id r = el_event_id lease /\ we_state r = "claimed"
  /\ we_claim_token r = Some (el_token lease)
  /\ exists t, we_available_at r = Some t /\ now < t.
Proof.
  unfold lease_matches. rewrite !andb_true_iff, !bool_decide_eq_true.
  destruct (we_available_at r) as [t|]; [rewrite Z.ltb_lt|].
  - split; [intros (((? & ?) & ?) & ?); eauto 10|].
    intros (? & ? & ? & t' & [= <-] & ?). done.
  - split; [by intros [_ ?]|]. intros (_ & _ & _ & t' & [=] & _).
Qed.

Lemma lease_matches_id lease now r :
  lease_matches lease now r = true -> we_event_id r = el_event_id lease.
Proof. by intros (? & _)%lease_matches_true. Qed.

(** The row a lease operation writes: what all five of them share.  [f] writes
    the matched row, [d'] differs from [d] in that row only, and the operation
    succeeds exactly when the lease owns the live claim. *)
Lemma lease_update_Ok lease now f (q : WakeEventRow -> bool) d n d' :
  update_events (fun r => lease_matches lease now r && q r) f d = Ok (n, d') -> n = 1%nat ->
  (forall r, we_event_id (f r) = we_event_id r) -> events_wf (wake_events d) ->
  exists r, load_existing (el_event_id lease) d = Some r
    /\ lease_matches lease now r = true /\ q r = true
    /\ load_existing (el_event_id lease) d' = Some (f r)
    /\ (forall e, e <> el_event_id lease -> load_existing e d' = load_existing e d)
    /\ events_wf (wake_events d') /\ d' = set_wake_events (wake_events d') d.
Proof.
  intros H Hn Hid Hwf. pose proof (update_events_Ok _ _ _ _ _ H Hid Hwf) as (Hwf' & Hd' & Hl).
  eapply update_events_count in H; [|done|].
  2:{ intros r [? _]%andb_prop. by eapply lease_matches_id. }
  rewrite Hn in H. destruct (load_existing (el_event_id lease) d) as [r|] eqn:Er; [|done].
  destruct (lease_matches lease now r && q r) eqn:Em; [|done].
  pose proof Em as [Em1 Em2]%andb_prop. exists r. split_and!; try done.
  - rewrite Hl, Er. simpl. by rewrite Em.
  - intros e He. rewrite Hl. destruct (load_existing e d) as [r'|] eqn:Er'; [|done]. simpl.
    destruct (lease_matches lease now r' && q r') eqn:Em'; [|done].
    apply andb_prop in Em' as [Em' _]. apply lease_matches_id in Em'.
    apply find_key_Some in Er' as [_ Hk]. congruence.
Qed.

Lemma update_events_and_true p f d :
  update_events p f d = update_events (fun r => p r && true) f d.
Proof.
  unfold update_events, update_where.
  assert (select p (wake_events d) = select (fun r => p r && true) (wake_events d)) as <-.
  { apply select_ext. intros. by rewrite andb_true_r. }
  destruct (forallb _ _); [|done]. cbv beta iota. do 3 f_equal.
  apply list_fmap_ext. intros i r _. by rewrite andb_true_r.
Qed.

(** What a committed lease operation did: it matched the live claim [r] and
    wrote [f r] in its place. *)
Definition lease_wrote (lease : EventLease) (now : Z) (f : WakeEventRow -> WakeEventRow)
    (d d' : Database) : Prop :=
  exists r, load_existing (el_event_id lease) d = Some r
    /\ lease_matches lease now r = true
    /\ load_existing (el_event_id lease) d' = Some (f r)
    /\ (forall e, e <> el_event_id lease -> load_existing e d' = load_existing e d)
    /\ events_wf (wake_events d') /\ d' = set_wake_events (wake_events d') d.

Lemma owned_update_Ok lease now f d n u d' :
  update_events (lease_matches lease now) f d = Ok (n, d') ->
  require_owned_lease n = Ok u ->
  (forall r, we_event_id (f r) = we_event_id r) -> events_wf (wake_events d) ->
  lease_wrote lease now f d d'.
Proof.
  intros H Hn Hid Hwf. unfold require_owned_lease in Hn.
  destruct (Nat.eqb n 1) eqn:En; [|done]. apply Nat.eqb_eq in En.
  rewrite update_events_and_true in H.
  eapply (lease_update_Ok _ _ _ (fun _ => true)) in H
    as (r & ? & ? & _ & ? & ? & ? & ?); [|done..].
  exists r. split_and!; done.
Qed.

Lemma method_names_decode m :
  text_in m METHOD_NAMES = true -> exists method, nwc_method_from_database m = Ok method.
Proof.
  rewrite text_in_true. unfold METHOD_NAMES. rewrite !elem_of_cons, elem_of_nil.
  intros [->|[->|[->|[->|[->|[->|[]]]]]]]; vm_compute; eauto.
Qed.

(** Every row the constraints admit has an abstract state: the corrupt-data
    branches are unreachable on a well-formed table. *)
Lemma claim_view_cases r :
  wake_event_check r = true ->
  (exists token until, we_state r = "claimed" /\ we_claim_token r = Some token
     /\ we_available_at r = Some until
     /\ claim_view r = Some (Claimed (row_owner r) token until))
  \/ (exists until, we_state r = "retryable" /\ we_available_at r = Some until
     /\ we_claim_token r = None /\ claim_view r = Some (Retryable (row_owner r) until))
  \/ (exists event, we_state r = "terminal"
     /\ terminal_from_row (we_event_id r) r = Ok event
     /\ claim_view r = Some (Finished (row_owner r) event)).
Proof.
  intros (Hid & Hrev & Hupd & Hresp & Hmeth & Hcols)%wake_event_check_spec.
  unfold claim_view.
  destruct Hcols as [(Hs & (t & Ht & _) & (u & Hu) & _)
    |[(Hs & Ht & (u & Hu) & _)|(Hs & Ht & Hu & k & Hk)]].
  - left. exists t, u. rewrite Hs, Ht, Hu. done.
  - right. left. exists u. rewrite Hs, Hu. done.
  - right. right.
    assert (exists event, terminal_from_row (we_event_id r) r = Ok event) as [event He].
    { unfold terminal_from_row. rewrite Hu, Hk. cbn [not_null null negb ok_or].
      rewrite terminal_str_roundtrip. unfold u64_try_from.
      rewrite (proj2 (Z.leb_le 0 _) Hupd). cbn [ok_or].
      assert ((match we_response_event_json r with
        Some value => MAX_RESPONSE_EVENT_BYTES <? str_len value | None => false end) = false) as ->.
      { destruct (we_response_event_json r) as [j|]; [|done].
        apply Z.ltb_ge. by apply Hresp. }
      destruct (we_request_method r) as [m|]; simpl; [|eauto].
      destruct (method_names_decode m (Hmeth m eq_refl)) as [method ->]. eauto. }
    exists event. rewrite Hs, He. done.
Qed.

Lemma events_wf_check d e r :
  events_wf (wake_events d) -> load_existing e d = Some r ->
  wake_event_check r = true /\ we_event_id r = e /\ r ∈ wake_events d.
Proof.
  intros [Hchk _] [Hr He]%find_key_Some. rewrite Forall_forall in Hchk. auto.
Qed.

Lemma claim_state_None d e :
  events_wf (wake_events d) -> claim_state d e = None <-> load_existing e d = None.
Proof.
  intros Hwf. unfold claim_state. split; [|by intros ->].
  destruct (load_existing e d) as [r|] eqn:E; [|done]. simpl.
  destruct (events_wf_check d e r Hwf E) as (Hc & _).
  destruct (claim_view_cases r Hc) as [(?&?&?&?&?&->)|[(?&?&?&?&->)|(?&?&?&->)]]; done.
Qed.

(** The insertion of a fresh claim. *)
Lemma insert_claim_total d e c rev token expires now :
  events_wf (wake_events d) -> load_existing e d = None ->
  length e = 32%nat -> length token = 16%nat -> 0 <= rev -> 0 <= now ->
  let row := mkWakeEventRow e c rev "claimed" (Some token) (Some expires) now None None None false in
  exists t, insert_row wake_event_check wake_event_clash row (wake_events d) = Some t
    /\ events_wf t
    /\ forall e', find_key we_event_id e' t =
         if bool_decide (e = e') then Some row else load_existing e' d.
Proof.
  intros [Hchk Hnd] Hnone He Ht Hrev Hnow row.
  assert (insert_row wake_event_check wake_event_clash row (wake_events d)
    = Some (wake_events d ++ [row])) as Hins.
  { apply insert_row_Some. split_and!; [done| |].
    - apply wake_event_check_spec. simpl. split_and!; try done; try naive_solver.
      left. simpl. eauto 10.
    - intros r' Hr'. unfold wake_event_clash. apply bool_decide_eq_false_2. simpl. intros Heq.
      apply find_key_None in Hnone. apply Hnone. rewrite Heq. by apply list_elem_of_fmap_2. }
  exists (wake_events d ++ [row]). split_and!; [done| |].
  - split.
    + eapply insert_row_Forall; [exact Hins|done|done].
    + eapply insert_row_key; [exact Hins| |done]. intros r' Hr'.
      unfold wake_event_clash. by apply bool_decide_eq_true_2.
  - intros e'. rewrite find_key_app. fold (load_existing e' d). simpl.
    destruct (bool_decide (e = e')) eqn:E; [|by destruct (load_existing e' d)].
    apply bool_decide_eq_true_1 in E as <-. by rewrite Hnone.
Qed.

(** The reclaim of an expired claim or a due retry. *)
Lemma reclaim_total d e r token expires now until :
  events_wf (wake_events d) -> load_existing e d = Some r ->
  we_state r = "claimed" \/ we_state r = "retryable" ->
  we_available_at r = Some until -> until <= now -> 0 <= now -> length token = 16%nat ->
  let p := fun r => bool_decide (we_event_id r = e)
             && text_in (we_state r) ["claimed"; "retryable"]
             && match we_available_at r with Some t => t <=? now | None => false end in
  let f := fun r => mkWakeEventRow (we_event_id r) (we_connection_id r)
             (we_connection_revision r) "claimed" (Some token) (Some expires) now
             (we_terminal_kind r) (we_response_event_json r) (we_request_method r)
             (we_freshness_accepted r) in
  exists d', update_events p f d = Ok (1%nat, d') /\ events_wf (wake_events d')
    /\ load_existing e d' = Some (f r)
    /\ (forall e', e' <> e -> load_existing e' d' = load_existing e' d)
    /\ d' = set_wake_events (wake_events d') d.
Proof.
  intros Hwf Hl Hst Hav Hle Hnow Ht p f.
  assert (forall r, p r = true -> we_event_id r = e) as Hpe.
  { intros r' Hp. unfold p in Hp. rewrite !andb_true_iff, bool_decide_eq_true in Hp. tauto. }
  destruct (update_events_total p f d) as (n & d' & Hu).
  { intros r' Hp (Hid & Hrev & Hupd & Hresp & Hmeth & Hcols)%wake_event_check_spec.
    unfold p in Hp. rewrite !andb_true_iff, text_in_true in Hp.
    destruct Hp as [[_ Hs] _]. rewrite !elem_of_cons, elem_of_nil in Hs.
    apply wake_event_check_spec. unfold f, event_columns in *. simpl. split_and!; try done.
    left. split_and!; eauto.
    - destruct Hcols as [Hc|[Hc|Hc]]; destruct_and? Hc; try done. naive_solver congruence.
    - destruct Hcols as [Hc|[Hc|Hc]]; destruct_and? Hc; try done. naive_solver congruence. }
  { done. }
  destruct (update_events_Ok _ _ _ _ _ Hu ltac:(done) Hwf) as (Hwf' & Hd' & Hlook).
  pose proof (update_events_count _ _ _ _ _ e Hu Hwf Hpe) as Hn.
  assert (p r = true) as Hpr.
  { destruct (events_wf_check d e r Hwf Hl) as (_ & He & _).
    unfold p. rewrite Hav, He. apply andb_true_iff. split; [|by apply Z.leb_le].
    rewrite bool_decide_true by done. simpl. apply text_in_true. set_solver. }
  rewrite Hl, Hpr in Hn. subst n. exists d'. split_and!; try done.
  - rewrite Hlook, Hl. simpl. by rewrite Hpr.
  - intros e' He'. rewrite Hlook. destruct (load_existing e' d) as [r'|] eqn:E'; [|done].
    simpl. destruct (p r') eqn:Ep; [|done]. apply Hpe in Ep.
    apply find_key_Some in E' as [_ ?]. congruence.
Qed.

Lemma row_owner_mine r c rev :
  bool_decide (co_connection (row_owner r) = c) && (co_revision (row_owner r) =? rev)
  = negb (negb (bool_decide (we_connection_id r = c)) || negb (we_connection_revision r =? rev)).
Proof. simpl. by rewrite negb_orb, !negb_involutive. Qed.

(** What a committed write of one event's row means for the abstract states. *)
Definition wrote_state (e : EventId) (s : option ClaimState) (d d' : Database) : Prop :=
  claim_state d' e = s /\ (forall e', e' <> e -> claim_state d' e' = claim_state d e')
  /\ events_wf (wake_events d') /\ d' = set_wake_events (wake_events d') d.

(** A transaction on event [e] implements an abstract outcome. *)
Definition tx_refines {A} (m : Result LedgerError (A * Database)) (d : Database) (e : EventId)
    (spec : Result LedgerError (A * option ClaimState)) : Prop :=
  match spec with
  | Err x => m = Err x
  | Ok (a, s) => exists d', m = Ok (a, d') /\ wrote_state e s d d'
  end.

Lemma wrote_state_same d e : events_wf (wake_events d) -> wrote_state e (claim_state d e) d d.
Proof. intros. split_and!; [done..|]. by destruct d. Qed.

Lemma claim_state_of d e r : load_existing e d = Some r -> claim_state d e = claim_view r.
Proof. intros H. unfold claim_state. by rewrite H. Qed.

Lemma claim_state_ext d d' e :
  load_existing e d' = load_existing e d -> claim_state d' e = claim_state d e.
Proof. unfold claim_state. by intros ->. Qed.

(** Reclaiming from the two states that admit it. *)
Lemma claim_event_reclaims d token e c revision now dur expires r until :
  events_wf (wake_events d) -> 0 <= now <= i64_max -> revision <= i64_max ->
  length token = 16%nat -> lease_expiry now dur = Ok expires ->
  load_existing e d = Some r -> we_state r = "claimed" \/ we_state r = "retryable" ->
  we_available_at r = Some until ->
  tx_refines (claim_event (Some token) e c revision now dur d) d e
    (if negb (bool_decide (co_connection (row_owner r) = c) && (co_revision (row_owner r) =? revision))
     then Err ClaimMetadataMismatch
     else if now <? until then Ok (InProgress (from_secs (until - now)), claim_state d e)
     else Ok (Acquired (mkEventLease e token true (co_fresh (row_owner r))),
              Some (Claimed (mkClaimOwner c revision (co_fresh (row_owner r))) token expires))).
Proof.
  intros Hwf Hnow Hrev Ht Hexp Hl Hs Hav.
  unfold claim_event, sqlite_timestamp, sqlite_revision, i64_try_from.
  rewrite (proj2 (Z.leb_le _ _) (proj2 Hnow)), (proj2 (Z.leb_le _ _) Hrev).
  cbn [ok_or]. rewrite Hexp, Hl. rewrite row_owner_mine, negb_involutive.
  destruct (negb (bool_decide (we_connection_id r = c)) || _) eqn:Hmine; [done|].
  rewrite orb_false_iff, !negb_false_iff, bool_decide_eq_true, Z.eqb_eq in Hmine.
  destruct Hmine as [Hc Hr].
  replace (bool_decide (we_state r = "terminal")) with false
    by (destruct Hs as [-> | ->]; done).
  replace (bool_decide (we_state r = "claimed") || bool_decide (we_state r = "retryable"))
    with true by (destruct Hs as [-> | ->]; done).
  rewrite Hav. cbn [ok_or]. destruct (now <? until) eqn:Hlt.
  - apply Z.ltb_lt in Hlt. unfold u64_try_from.
    rewrite (proj2 (Z.leb_le 0 (until - now))) by lia. cbn [ok_or tx_refines].
    eexists. split; [done|]. by apply wrote_state_same.
  - apply Z.ltb_ge in Hlt.
    destruct (reclaim_total d e r token expires now until Hwf Hl Hs Hav Hlt (proj1 Hnow) Ht)
      as (d' & Hu & Hwf' & Hl' & Hoth & Hd').
    cbv zeta in Hu, Hl'. rewrite Hu. cbn [Nat.eqb negb tx_refines].
    eexists. split; [done|]. split_and!; try done.
    + rewrite (claim_state_of _ _ _ Hl'). unfold claim_view. simpl. by rewrite <- Hc, <- Hr.
    + intros e' He'. by apply claim_state_ext, Hoth.
Qed.

(** What the operations on an owned lease share. *)
Definition spec_lease_op (s : option ClaimState) (token : list Z) (now : Z)
    (k : ClaimOwner -> Z -> ClaimState) : Result LedgerError (unit * option ClaimState) :=
  match s with
  | Some (Claimed owner t until) =>
      if bool_decide (t = token) && (now <? until)
      then Ok (tt, Some (k owner until)) else Err LostLease
  | _ => Err LostLease
  end.

Lemma lease_matches_view d lease now :
  events_wf (wake_events d) ->
  match load_existing (el_event_id lease) d with
  | Some r => lease_matches lease now r = true <->
      exists until, claim_view r = Some (Claimed (row_owner r) (el_token lease) until)
        /\ we_available_at r = Some until /\ now < until
  | None => True
  end.
Proof.
  intros Hwf. destruct (load_existing _ d) as [r|] eqn:Hl; [|done].
  destruct (events_wf_check d _ r Hwf Hl) as (Hc & He & _).
  rewrite lease_matches_true.
  destruct (claim_view_cases r Hc) as [(t&u&Hs&Ht&Hu&->)|[(u&Hs&Hu&Ht&->)|(ev&Hs&_&->)]];
    rewrite Hs; [| naive_solver..].
  rewrite Ht, Hu. split.
  - intros (_ & _ & [= ->] & u' & [= <-] & ?). eauto.
  - intros (u' & H1 & H2 & ?). simplify_eq. split_and!; eauto.
Qed.

(** A keyed update guarded by the lease implements [spec_lease_op]. *)
Lemma owned_update_refines d lease now f k :
  events_wf (wake_events d) ->
  (forall r, we_event_id (f r) = we_event_id r) ->
  (forall r, wake_event_check r = true -> we_state r = "claimed" -> wake_event_check (f r) = true) ->
  (forall r until, wake_event_check r = true -> we_state r = "claimed" ->
     we_available_at r = Some until -> we_claim_token r = Some (el_token lease) ->
     we_event_id r = el_event_id lease -> claim_view (f r) = Some (k (row_owner r) until)) ->
  tx_refines
    (let? (updated, d) := update_events (lease_matches lease now) f d in
     let? _ := require_owned_lease updated in Ok (tt, d)) d (el_event_id lease)
    (spec_lease_op (claim_state d (el_event_id lease)) (el_token lease) now k).
Proof.
  intros Hwf Hid Hchk Hview. set (e := el_event_id lease).
  destruct (update_events_total (lease_matches lease now) f d) as (n & d' & Hu); [|done|].
  { intros r (_ & Hs & _)%lease_matches_true Hc. auto. }
  rewrite Hu.
  pose proof (update_events_count _ _ _ _ _ e Hu Hwf (lease_matches_id lease now)) as Hn.
  pose proof (lease_matches_view d lease now Hwf) as Hlm. fold e in Hlm.
  destruct (load_existing e d) as [r|] eqn:Hl.
  2:{ unfold claim_state. rewrite Hl, Hn. done. }
  destruct (events_wf_check d _ r Hwf Hl) as (Hc & He & _).
  rewrite (claim_state_of d e r Hl).
  destruct (lease_matches lease now r) eqn:Em; subst n.
  - destruct (proj1 Hlm eq_refl) as (until & -> & Hav & Hlt).
    cbn [require_owned_lease Nat.eqb spec_lease_op].
    rewrite bool_decide_true, (proj2 (Z.ltb_lt _ _) Hlt) by done. cbn [andb tx_refines].
    apply lease_matches_true in Em as (_ & Hs & Ht & _).
    destruct (owned_update_Ok lease now f d 1 tt d' Hu eq_refl Hid Hwf)
      as (r' & Hl0 & _ & Hl' & Hoth & Hwf' & Hd').
    fold e in Hl0, Hl', Hoth. assert (r' = r) as -> by congruence.
    eexists. split; [done|]. split_and!; try done.
    + rewrite (claim_state_of _ _ _ Hl'). auto.
    + intros e' He'. by apply claim_state_ext, Hoth.
  - assert (spec_lease_op (claim_view r) (el_token lease) now k = Err LostLease) as ->; [|done].
    destruct (claim_view_cases r Hc) as [(t&u&Hs&Ht&Hav&Hv)|[(u&_&_&_&->)|(ev&_&_&->)]]; try done.
    rewrite Hv in *. simpl. destruct (bool_decide (t = el_token lease)) eqn:Et; [|done].
    apply bool_decide_eq_true_1 in Et as ->. destruct (now <? u) eqn:Eu; [|done]. exfalso.
    apply Z.ltb_lt in Eu. assert (false = true); [|done]. apply Hlm. eauto.
Qed.

Lemma claimed_columns r :
  wake_event_check r = true -> we_state r = "claimed" ->
  we_terminal_kind r = None /\ we_response_event_json r = None.
Proof.
  intros (_ & _ & _ & _ & _ & Hcols)%wake_event_check_spec Hs.
  destruct Hcols as [(_ & _ & _ & ? & ?)|[(Hs' & _)|(Hs' & _)]]; [done|congruence..].
Qed.

(** The five rows the lease operations write satisfy the constraints. *)
Lemma claimed_write_check r now available fresh token :
  wake_event_check r = true -> we_state r = "claimed" -> 0 <= now ->
  token = we_claim_token r ->
  wake_event_check (mkWakeEventRow (we_event_id r) (we_connection_id r)
    (we_connection_revision r) "claimed" token (Some available) now (we_terminal_kind r)
    (we_response_event_json r) (we_request_method r) fresh) = true.
Proof.
  intros (Hid & Hrev & Hupd & Hresp & Hmeth & Hcols)%wake_event_check_spec Hs Hnow ->.
  apply wake_event_check_spec. simpl. split_and!; try done. left. simpl.
  destruct Hcols as [(_ & ? & _ & ? & ?)|[(Hs' & _)|(Hs' & _)]]; [eauto 10|congruence..].
Qed.

Lemma retryable_write_check r now available :
  wake_event_check r = true -> we_state r = "claimed" -> 0 <= now ->
  wake_event_check (mkWakeEventRow (we_event_id r) (we_connection_id r)
    (we_connection_revision r) "retryable" None (Some available) now (we_terminal_kind r)
    (we_response_event_json r) (we_request_method r) (we_freshness_accepted r)) = true.
Proof.
  intros Hc Hs Hnow. destruct (claimed_columns r Hc Hs) as [Hk Hr].
  apply wake_event_check_spec in Hc as (Hid & Hrev & Hupd & Hresp & Hmeth & _).
  apply wake_event_check_spec. simpl. split_and!; try done. right. left. simpl. eauto 10.
Qed.

Lemma make_terminal_check kind response method now r :
  wake_event_check r = true -> 0 <= now ->
  (forall j, response = Some j -> str_len j <= MAX_RESPONSE_EVENT_BYTES) ->
  wake_event_check (make_terminal kind response method now r) = true.
Proof.
  intros (Hid & Hrev & _)%wake_event_check_spec Hnow Hresp.
  apply wake_event_check_spec. simpl. split_and!; try done.
  - intros m. destruct method as [m'|]; [|done]. intros [= <-]. apply method_str_in.
  - right. right. simpl. eauto 10.
Qed.

Lemma make_terminal_view kind response method now r :
  0 <= now -> (forall j, response = Some j -> str_len j <= MAX_RESPONSE_EVENT_BYTES) ->
  claim_view (make_terminal kind response method now r)
  = Some (Finished (row_owner r) (mkTerminalEvent (we_event_id r) kind response method now)).
Proof.
  intros Hnow Hresp. unfold claim_view, terminal_from_row. simpl.
  rewrite terminal_str_roundtrip. unfold u64_try_from. rewrite (proj2 (Z.leb_le 0 now) Hnow).
  cbn [ok_or].
  replace (match response with Some value => _ | None => false end) with false.
  2:{ destruct response as [j|]; [|done]. symmetry. apply Z.ltb_ge. by apply Hresp. }
  destruct method as [m|]; simpl; [|done]. by rewrite method_str_roundtrip.
Qed.

Lemma i64_now now : 0 <= now <= i64_max -> sqlite_timestamp now = Ok now.
Proof.
  intros [_ H]. unfold sqlite_timestamp, i64_try_from. by rewrite (proj2 (Z.leb_le _ _) H).
Qed.

Lemma accept_tx d lease now :
  events_wf (wake_events d) -> 0 <= now <= i64_max ->
  tx_refines (accept_event_freshness lease now d) d (el_event_id lease)
    (spec_lease_op (claim_state d (el_event_id lease)) (el_token lease) now
      (fun o until => Claimed (mkClaimOwner (co_connection o) (co_revision o) true)
                        (el_token lease) until)).
Proof.
  intros Hwf Hnow. unfold accept_event_freshness. rewrite i64_now by done.
  apply owned_update_refines; [done|done| |].
  - intros r Hc Hs. destruct (claim_view_cases r Hc) as [(t&u&_&Ht&Hu&_)|[(u&?&_)|(ev&?&_)]];
      [|congruence..]. rewrite Hs, Hu. apply claimed_write_check; tauto.
  - intros r until Hc Hs Hu Ht. unfold claim_view. simpl. by rewrite Hs, Ht, Hu.
Qed.

Lemma renew_tx d lease now dur expires :
  events_wf (wake_events d) -> 0 <= now <= i64_max -> lease_expiry now dur = Ok expires ->
  tx_refines (renew_lease lease now dur d) d (el_event_id lease)
    (spec_lease_op (claim_state d (el_event_id lease)) (el_token lease) now
      (fun o _ => Claimed o (el_token lease) expires)).
Proof.
  intros Hwf Hnow Hexp. unfold renew_lease. rewrite i64_now, Hexp by done.
  apply owned_update_refines; [done|done| |].
  - intros r Hc Hs. rewrite Hs. apply claimed_write_check; tauto.
  - intros r until Hc Hs Hu Ht. unfold claim_view. simpl. by rewrite Hs, Ht.
Qed.

Lemma retry_tx d lease now delay available :
  events_wf (wake_events d) -> 0 <= now <= i64_max -> lease_expiry now delay = Ok available ->
  tx_refines (retry_later lease now delay d) d (el_event_id lease)
    (spec_lease_op (claim_state d (el_event_id lease)) (el_token lease) now
      (fun o _ => Retryable o available)).
Proof.
  intros Hwf Hnow Hexp. unfold retry_later. rewrite i64_now, Hexp by done.
  apply owned_update_refines; [done|done| |].
  - intros r Hc Hs. apply retryable_write_check; tauto.
  - intros r until Hc Hs Hu Ht. done.
Qed.

Lemma complete_tx d lease kind response now :
  events_wf (wake_events d) -> 0 <= now <= i64_max ->
  (forall j, response = Some j -> str_len j <= MAX_RESPONSE_EVENT_BYTES) ->
  tx_refines (complete_event lease kind response now d) d (el_event_id lease)
    (spec_lease_op (claim_state d (el_event_id lease)) (el_token lease) now
      (fun o _ => Finished o (mkTerminalEvent (el_event_id lease) kind response None now))).
Proof.
  intros Hwf Hnow Hresp. unfold complete_event. rewrite i64_now by done.
  replace (match response with Some value => _ | None => false end) with false.
  2:{ destruct response as [j|]; [|done]. symmetry. apply Z.ltb_ge. by apply Hresp. }
  apply owned_update_refines; [done|done| |].
  - intros r Hc Hs. apply make_terminal_check; tauto.
  - intros r until Hc Hs Hu Ht Hid. rewrite make_terminal_view by tauto. by rewrite Hid.
Qed.

(** The lookup that a claim starts from, on each abstract state. *)
Lemma claim_tx d token e c revision now dur expires :
  events_wf (wake_events d) -> 0 <= now <= i64_max -> 0 <= revision <= i64_max ->
  length token = 16%nat -> length e = 32%nat -> lease_expiry now dur = Ok expires ->
  tx_refines (claim_event (Some token) e c revision now dur d) d e
    (spec_claim (claim_state d e) token e c revision now expires).
Proof.
  intros Hwf Hnow Hrev Ht He Hexp.
  destruct (load_existing e d) as [r|] eqn:Hl.
  - destruct (events_wf_check d _ r Hwf Hl) as (Hc & Hid & _).
    rewrite (claim_state_of d e r Hl).
    destruct (claim_view_cases r Hc) as [(t&u&Hs&Htk&Hu&Hv)|[(u&Hs&Hu&_&Hv)|(ev&Hs&Hev&Hv)]].
    + rewrite Hv. cbn [spec_claim]. rewrite <- Hv, <- (claim_state_of d e r Hl).
      eapply claim_event_reclaims; eauto. tauto.
    + rewrite Hv. cbn [spec_claim]. rewrite <- Hv, <- (claim_state_of d e r Hl).
      eapply claim_event_reclaims; eauto. tauto.
    + rewrite Hv. cbn [spec_claim]. unfold claim_event, sqlite_revision, i64_try_from.
      rewrite i64_now by done. rewrite (proj2 (Z.leb_le _ _) (proj2 Hrev)).
      cbn [ok_or]. rewrite Hexp, Hl, row_owner_mine.
      destruct (negb (bool_decide (we_connection_id r = c)) || _); cbn [negb tx_refines]; [done|].
      rewrite Hs, <- Hid, Hev, Hid. eexists. split; [done|].
      rewrite <- Hv, <- (claim_state_of d e r Hl). by apply wrote_state_same.
  - unfold claim_state. rewrite Hl. simpl.
    unfold claim_event, sqlite_revision, i64_try_from.
    rewrite i64_now by done. rewrite (proj2 (Z.leb_le _ _) (proj2 Hrev)).
    cbn [ok_or]. rewrite Hexp, Hl.
    destruct (insert_claim_total d e c revision token expires now Hwf Hl He Ht (proj1 Hrev) (proj1 Hnow))
      as (t & -> & Hwf' & Hlook).
    eexists. split; [done|]. split_and!; [|intros e' He'|done|done].
    + unfold claim_state, load_existing. simpl. rewrite Hlook, bool_decide_true by done. done.
    + apply claim_state_ext. unfold load_existing. simpl. by rewrite Hlook, bool_decide_false.
Qed.

(** Completing under an authorization: [active] is the revision check inside
    the statement. *)
Definition spec_complete_active (s : option ClaimState) (token : list Z) (now : Z)
    (connection : string) (revision : Z) (active : bool) (event : TerminalEvent)
  : Result LedgerError (unit * option ClaimState) :=
  match s with
  | Some (Claimed owner t until) =>
      if negb (bool_decide (t = token) && (now <? until)
               && bool_decide (co_connection owner = connection)
               && (co_revision owner =? revision)) then Err LostLease
      else if active then Ok (tt, Some (Finished owner event))
      else Err ConnectionUnavailable
  | _ => Err LostLease
  end.

Lemma exists_row_by_event d e p :
  events_wf (wake_events d) -> (forall r, p r = true -> we_event_id r = e) ->
  exists_row p (wake_events d) = match load_existing e d with Some r => p r | None => false end.
Proof.
  intros [_ Hnd] Hp. unfold load_existing. apply eq_true_iff_eq. rewrite exists_row_true. split.
  - intros (r & Hr & Hpr).
    assert (find_key we_event_id e (wake_events d) = Some r) as ->; [|done].
    apply find_key_unique; auto.
  - destruct (find_key we_event_id e (wake_events d)) as [r|] eqn:E; [|done].
    apply find_key_Some in E as [? ?]. eauto.
Qed.

Lemma complete_active_tx d lease c revision response method now :
  events_wf (wake_events d) -> 0 <= now <= i64_max -> 0 <= revision <= i64_max ->
  str_len response <= MAX_RESPONSE_EVENT_BYTES ->
  tx_refines
    (complete_event_for_active_connection_inner lease c revision response method now d) d
    (el_event_id lease)
    (spec_complete_active (claim_state d (el_event_id lease)) (el_token lease) now c revision
      (revision_active c revision d)
      (mkTerminalEvent (el_event_id lease) Kind_completed (Some response) method now)).
Proof.
  intros Hwf Hnow Hrev Hlen. set (e := el_event_id lease).
  unfold complete_event_for_active_connection_inner, sqlite_revision, i64_try_from.
  rewrite i64_now by done. rewrite (proj2 (Z.ltb_ge _ _) Hlen), (proj2 (Z.leb_le _ _) (proj2 Hrev)).
  cbn [ok_or]. set (active := revision_active c revision d).
  set (q := fun r => lease_matches_connection lease c revision now r).
  set (f := make_terminal Kind_completed (Some response) method now).
  assert (forall r, q r = true -> we_event_id r = e) as Hqe.
  { intros r H. unfold q, lease_matches_connection in H. rewrite !andb_true_iff in H.
    eapply lease_matches_id. apply H. }
  assert (forall r, q r && active = true -> we_event_id r = e) as Hpe.
  { intros r [? _]%andb_prop. auto. }
  destruct (update_events_total (fun r => q r && active) f d) as (n & d' & Hu); [|done|].
  { intros r _ Hc. apply make_terminal_check; [done|tauto|by intros j [= <-]]. }
  rewrite Hu.
  destruct (update_events_Ok _ _ _ _ _ Hu ltac:(done) Hwf) as (Hwf' & Hd' & Hlook).
  pose proof (update_events_count _ _ _ _ _ e Hu Hwf Hpe) as Hn.
  rewrite (exists_row_by_event d' e q Hwf' Hqe), Hlook.
  destruct (load_existing e d) as [r|] eqn:Hl.
  2:{ unfold claim_state. by rewrite Hl, Hn. }
  destruct (events_wf_check d _ r Hwf Hl) as (Hc & He & _). cbn [fmap option_fmap option_map].
  rewrite (claim_state_of d e r Hl).
  assert (q r = lease_matches lease now r && bool_decide (co_connection (row_owner r) = c)
    && (co_revision (row_owner r) =? revision)) as Hq by done.
  assert (lease_matches lease now r = match claim_view r with
    | Some (Claimed _ t until) => bool_decide (t = el_token lease) && (now <? until)
    | _ => false end) as Hlm.
  { unfold lease_matches. fold e. rewrite He, (bool_decide_true (e = e)) by done.
    destruct (claim_view_cases r Hc) as [(t&u&->&->&->&->)|[(u&->&_&_&->)|(ev&->&_&->)]];
      cbn [andb]; [|done..]. f_equal. apply bool_decide_ext. split; congruence. }
  destruct (claim_view_cases r Hc) as [(t&u&_&_&_&Hv)|[(u&_&_&_&Hv)|(ev&_&_&Hv)]];
    rewrite Hv in *; rewrite Hlm in Hq; cbn [spec_complete_active andb] in *;
    [|by rewrite Hq in *; subst n; cbn [Nat.eqb andb]; rewrite Hq..].
  rewrite <- Hq. destruct (q r) eqn:Hqr; cbn [negb andb] in *.
  - destruct active eqn:Hact; subst n; cbn [Nat.eqb].
    + eexists. split; [done|]. split_and!; [| |done|done].
      * unfold claim_state. rewrite Hlook, Hl. simpl. rewrite Hqr. simpl.
        unfold f. rewrite make_terminal_view, He by first [tauto|by intros j [= <-]]. done.
      * intros e' He'. apply claim_state_ext. rewrite Hlook.
        destruct (load_existing e' d) as [r'|] eqn:Hl'; [|done]. simpl.
        destruct (q r' && true) eqn:E; [|done]. apply Hpe in E.
        apply find_key_Some in Hl' as [_ ?]. congruence.
    + by rewrite Hqr.
  - subst n. cbn [Nat.eqb]. by rewrite Hqr.
Qed.

Lemma sqlite_timestamp_Ok t v : sqlite_timestamp t = Ok v -> v = t /\ t <= i64_max.
Proof. unfold sqlite_timestamp. intros. by use_results. Qed.

(** ** Pruning *)

Definition prunable (cutoff : Z) (r : WakeEventRow) : bool :=
  bool_decide (we_state r = "terminal") && (we_updated_at r <? cutoff).

Definition oldest_prunable (cutoff n : Z) (t : list WakeEventRow) : list WakeEventRow :=
  limit n (order_by (fun a b => we_updated_at a ?= we_updated_at b) (select (prunable cutoff) t)).

Lemma NoDup_rows {Row K} (key : Row -> K) (t : list Row) : NoDup (key <$> t) -> NoDup t.
Proof. apply NoDup_fmap_1. Qed.

Lemma NoDup_key_inj {Row K} (key : Row -> K) (t : list Row) a b :
  NoDup (key <$> t) -> a ∈ t -> b ∈ t -> key a = key b -> a = b.
Proof.
  induction t as [|x t IH]; [by intros _ ?%elem_of_nil|].
  rewrite fmap_cons, NoDup_cons. intros [Hx Hnd].
  assert (forall y, y ∈ t -> key y <> key x) as Hne.
  { intros y Hy Heq. apply Hx. rewrite <- Heq. by apply list_elem_of_fmap_2. }
  intros [-> | Ha]%elem_of_cons [-> | Hb]%elem_of_cons Hk; [done| | |auto].
  - by destruct (Hne b Hb).
  - by destruct (Hne a Ha).
Qed.

Lemma oldest_NoDup cutoff n t :
  NoDup (we_event_id <$> t) -> NoDup (oldest_prunable cutoff n t).
Proof.
  intros Hnd. unfold oldest_prunable, limit.
  eapply sublist_NoDup; [|apply sublist_take].
  rewrite order_by_Permutation. eapply sublist_NoDup; [|apply select_sublist].
  by eapply NoDup_rows.
Qed.

Lemma prune_selects cutoff n t :
  NoDup (we_event_id <$> t) ->
  select (fun r => bool_decide (we_event_id r ∈ we_event_id <$> oldest_prunable cutoff n t)) t
  ≡ₚ oldest_prunable cutoff n t.
Proof.
  intros Hnd. apply NoDup_Permutation.
  - eapply sublist_NoDup; [|apply select_sublist]. by eapply NoDup_rows.
  - by apply oldest_NoDup.
  - intros r. rewrite elem_of_select, bool_decide_eq_true, list_elem_of_fmap.
    assert (forall r', r' ∈ oldest_prunable cutoff n t -> r' ∈ t) as Hin.
    { intros r' Hr'. apply elem_of_order_limit, elem_of_select in Hr'. tauto. }
    split; [|eauto]. intros [Hr (r' & Hk & Hr')].
    by rewrite (NoDup_key_inj we_event_id t r r') by auto.
Qed.

Lemma oldest_sorted cutoff n t r r' :
  r ∈ oldest_prunable cutoff n t -> r' ∈ t -> prunable cutoff r' = true ->
  r' ∉ oldest_prunable cutoff n t -> we_updated_at r <= we_updated_at r'.
Proof.
  intros Hr Hr' Hp Hnot. unfold oldest_prunable, limit, order_by in *.
  set (R := fun a b => Is_true (cmp_le (we_updated_at a ?= we_updated_at b))) in *.
  assert (forall a b, R a b <-> we_updated_at a <= we_updated_at b) as HR.
  { intros a b. unfold R. destruct (Z.compare_spec (we_updated_at a) (we_updated_at b)); simpl;
      split; intros; first [done|lia]. }
  assert (Transitive R) by (intros a b c; rewrite !HR; lia).
  assert (Total R) by (intros a b; rewrite !HR; lia).
  pose proof (StronglySorted_merge_sort R (select (prunable cutoff) t)) as Hs.
  set (l := merge_sort R (select (prunable cutoff) t)) in *.
  assert (r' ∈ l) as Hl.
  { unfold l. rewrite merge_sort_Permutation. by apply elem_of_select. }
  rewrite <- (take_drop (Z.to_nat n) l) in Hl, Hs. apply elem_of_app in Hl as [?|Hl]; [done|].
  apply HR. revert Hs. generalize dependent (take (Z.to_nat n) l). intros l1 Hr Hnot Hs.
  induction l1 as [|x l1 IH]; [by apply elem_of_nil in Hr|].
  simpl in Hs. apply StronglySorted_inv in Hs as [Hs Hall].
  apply elem_of_cons in Hr as [->|Hr].
  - rewrite Forall_forall in Hall. apply Hall, elem_of_app. by right.
  - apply IH; [done| |done]. set_solver.
Qed.

(** Pruning deletes terminal events only, the oldest first, and touches no other table. *)
Lemma prune_terminal_Ok d cutoff maximum n d'
    (Hwf : events_wf (wake_events d)) (Hmax : 0 <= maximum)
    (Hrun : prune_terminal cutoff maximum d = Ok (n, d')) :
  Z.of_nat n = Z.min maximum (Z.of_nat (length (select (prunable cutoff) (wake_events d))))
  /\ 1 <= maximum <= MAX_PRUNE_BATCH
  /\ events_wf (wake_events d') /\ d' = set_wake_events (wake_events d') d
  /\ (forall e, claim_state d' e = claim_state d e
       \/ claim_state d' e = None /\ exists o ev,
            claim_state d e = Some (Finished o ev) /\ te_completed_at ev < cutoff)
  /\ (forall r r', r ∈ wake_events d -> r ∉ wake_events d' ->
        r' ∈ wake_events d' -> prunable cutoff r' = true -> we_updated_at r <= we_updated_at r').
Proof.
  unfold prune_terminal in Hrun.
  destruct ((maximum =? 0) || (MAX_PRUNE_BATCH <? maximum)) eqn:Hb; [done|]. bool_to_prop.
  destruct (sqlite_timestamp cutoff) as [cut|] eqn:Hc; [|done].
  apply sqlite_timestamp_Ok in Hc as [-> _].
  destruct (ok_or InvalidPruneBatch (i64_try_from maximum)) as [m|] eqn:Hm; [|done].
  use_results. fold (prunable cutoff) in Hrun.
  fold (oldest_prunable cutoff maximum (wake_events d)) in Hrun.
  set (old := oldest_prunable cutoff maximum (wake_events d)) in *.
  set (p := fun r => bool_decide (we_event_id r ∈ we_event_id <$> old)) in *.
  injection Hrun as <- <-. destruct Hwf as [Hchk Hnd].
  pose proof (prune_selects cutoff maximum (wake_events d) Hnd) as Hsel.
  fold old in Hsel. fold p in Hsel.
  assert (forall r, r ∈ wake_events d -> p r = true <-> r ∈ old) as Hp.
  { intros r Hr. rewrite <- Hsel, elem_of_select. tauto. }
  assert (forall r, r ∈ old -> prunable cutoff r = true) as Hold.
  { intros r Hr. apply elem_of_order_limit, elem_of_select in Hr. tauto. }
  split_and!; try lia.
  - rewrite Hsel. unfold old, oldest_prunable, limit.
    rewrite length_take, (Permutation_length (order_by_Permutation _ _)). lia.
  - split; [by apply (delete_where_Forall _ p)|by apply (delete_where_key we_event_id p)].
  - done.
  - intros e. unfold claim_state, load_existing. simpl.
    pose proof (find_key_delete we_event_id e p (wake_events d) Hnd) as Hf. simpl in Hf.
    rewrite Hf. destruct (find_key we_event_id e (wake_events d)) as [r|] eqn:Hl; [|by left].
    destruct (p r) eqn:Hpr; [|by left]. right. split; [done|].
    destruct (find_key_Some _ _ _ _ Hl) as [Hr <-].
    apply Hp, Hold in Hpr; [|done]. unfold prunable in Hpr. bool_to_prop.
    rewrite Forall_forall in Hchk.
    destruct (claim_view_cases r (Hchk r Hr)) as [(?&?&?&_)|[(?&?&_)|(ev&_&Hev&Hv)]];
      [congruence..|]. simpl. rewrite Hv. exists (row_owner r), ev. split; [done|].
    unfold terminal_from_row in Hev. inv_run Hev; use_results; simpl; lia.
  - intros r r' Hr Hgone Hr' Hpr'. cbn [wake_events set_wake_events] in *. rewrite elem_of_select, negb_true_iff in Hgone, Hr'.
    destruct Hr' as [Hr' Hpf]. destruct (p r) eqn:Hpr; [|by destruct Hgone].
    apply Hp in Hpr; [|done]. eapply oldest_sorted; [exact Hpr|done|done|].
    intros Hin. apply Hp in Hin; [|done]. congruence.
Qed.

(** ** Steps *)

(** How one committed transaction may change what is known of one event. *)
Definition claim_evolves (s s' : option ClaimState) : Prop :=
  match s, s' with
  | Some (Finished o ev), _ => s' = s
  | Some (Claimed o _ _), Some (Claimed o' _ _ | Retryable o' _ | Finished o' _)
  | Some (Retryable o _), Some (Claimed o' _ _ | Retryable o' _ | Finished o' _) =>
      co_connection o' = co_connection o /\ co_revision o' = co_revision o
      /\ (co_fresh o = true -> co_fresh o' = true)
  | Some _, None => False
  | None, Some (Claimed o' _ _) => co_fresh o' = false
  | None, None => True
  | None, _ => False
  end.

Lemma claim_evolves_refl s : claim_evolves s s.
Proof. by destruct s as [[| |]|]. Qed.

Lemma tx_refines_effect {A} (m : Result LedgerError (A * Database)) d e spec a d' :
  tx_refines m d e spec -> m = Ok (a, d') ->
  (forall s, spec = Ok (a, s) -> claim_evolves (claim_state d e) s) ->
  events_wf (wake_events d') /\ d' = set_wake_events (wake_events d') d
  /\ forall e', claim_evolves (claim_state d e') (claim_state d' e').
Proof.
  intros Hr Hm Hs. unfold tx_refines in Hr. destruct spec as [[a0 s]|x]; [|congruence].
  destruct Hr as (d0 & Hm0 & Hst & Hoth & Hwf & Hd). rewrite Hm in Hm0. injection Hm0 as <- <-.
  split_and!; [done..|]. intros e'. destruct (decide (e' = e)) as [->|Hne].
  - rewrite Hst. by apply Hs.
  - rewrite Hoth by done. apply claim_evolves_refl.
Qed.

Lemma spec_lease_op_evolves s token now k s' :
  spec_lease_op s token now k = Ok (tt, s') ->
  (forall o u, claim_evolves (Some (Claimed o token u)) (Some (k o u))) -> claim_evolves s s'.
Proof.
  intros H Hk. unfold spec_lease_op in H. destruct s as [[o t u| |]|]; try done.
  destruct (bool_decide (t = token)) eqn:E; [|done]. apply bool_decide_eq_true_1 in E as ->.
  cbn [andb] in H. destruct (now <? u); [|done]. injection H as <-. apply Hk.
Qed.

Lemma spec_claim_evolves s token e c revision now expires o s' :
  spec_claim s token e c revision now expires = Ok (o, s') -> claim_evolves s s'.
Proof.
  unfold spec_claim. intros H. destruct s as [[ow t u|ow u|ow ev]|].
  1,2: destruct (bool_decide (co_connection ow = c) && (co_revision ow =? revision)) eqn:E; [|done];
       cbn [negb] in H; bool_to_prop; destruct (now <? u); injection H as <- <-;
       [apply claim_evolves_refl|]; simpl; auto.
  - destruct (_ && _); [|done]. injection H as <- <-. done.
  - by injection H as <- <-.
Qed.

Lemma tx_refines_step {A} (m : Result LedgerError (A * Database)) d e spec a d' :
  tx_refines m d e spec -> m = Ok (a, d') ->
  (forall s, spec = Ok (a, s) -> claim_evolves (claim_state d e) s) ->
  events_wf (wake_events d') /\ d' = set_wake_events (wake_events d') d
  /\ forall e', claim_evolves (claim_state d e') (claim_state d' e') \/ exists o ev, pruned e' o ev d d'.
Proof.
  intros H1 H2 H3. destruct (tx_refines_effect m d e spec a d' H1 H2 H3) as (? & ? & ?). split_and!; auto.
Qed.

Lemma ledger_step_effect d d' :
  ledger_step d d' -> events_wf (wake_events d) ->
  events_wf (wake_events d') /\ d' = set_wake_events (wake_events d') d
  /\ forall e, claim_evolves (claim_state d e) (claim_state d' e) \/ exists o ev, pruned e o ev d d'.
Proof.
  intros Hstep Hwf.
  destruct Hstep as [token e c rev now dur d o d' Ht He [Hn _] Hr Hdur H
    |lease now d d' [Hn _] H|lease now dur d d' [Hn _] Hdur H|lease now dur d d' [Hn _] Hdur H
    |lease kind resp now d d' [Hn _] H|lease c rev resp m now d d' [Hn _] Hr H|cutoff maximum n d d' Hmax H].
  - pose proof H as H0. unfold claim_event, sqlite_revision in H0.
    destruct (sqlite_timestamp now) as [now'|] eqn:E1; [|done].
    destruct (ok_or ValueOutOfRange (i64_try_from rev)) as [rev'|] eqn:E2; [|done].
    destruct (lease_expiry now' dur) as [expires|] eqn:E3; [|done].
    apply sqlite_timestamp_Ok in E1 as [-> ?]. use_results.
    eapply tx_refines_step; [|exact H|].
    + eapply claim_tx; [done|lia|lia|done..].
    + intros s Hs. by eapply spec_claim_evolves.
  - pose proof H as H0. unfold accept_event_freshness in H0.
    destruct (sqlite_timestamp now) as [now'|] eqn:E1; [|done].
    apply sqlite_timestamp_Ok in E1 as [-> ?].
    eapply tx_refines_step; [|exact H|]; [by apply accept_tx; [|lia]|].
    intros s Hs. eapply spec_lease_op_evolves; [exact Hs|]. done.
  - pose proof H as H0. unfold renew_lease in H0.
    destruct (sqlite_timestamp now) as [now'|] eqn:E1; [|done].
    destruct (lease_expiry now' dur) as [expires|] eqn:E3; [|done].
    apply sqlite_timestamp_Ok in E1 as [-> ?].
    eapply tx_refines_step; [|exact H|]; [by eapply renew_tx; [|lia|]|].
    intros s Hs. eapply spec_lease_op_evolves; [exact Hs|]. done.
  - pose proof H as H0. unfold retry_later in H0.
    destruct (sqlite_timestamp now) as [now'|] eqn:E1; [|done].
    destruct (lease_expiry now' dur) as [expires|] eqn:E3; [|done].
    apply sqlite_timestamp_Ok in E1 as [-> ?].
    eapply tx_refines_step; [|exact H|]; [by eapply retry_tx; [|lia|]|].
    intros s Hs. eapply spec_lease_op_evolves; [exact Hs|]. done.
  - pose proof H as H0. unfold complete_event in H0.
    destruct (match resp with Some value => MAX_RESPONSE_EVENT_BYTES <? str_len value
      | None => false end) eqn:Elen; [done|].
    destruct (sqlite_timestamp now) as [now'|] eqn:E1; [|done].
    apply sqlite_timestamp_Ok in E1 as [-> ?].
    eapply tx_refines_step; [|exact H|]; [apply complete_tx; [done|lia|]|].
    + intros j ->. by apply Z.ltb_ge in Elen.
    + intros s Hs. eapply spec_lease_op_evolves; [exact Hs|]. done.
  - pose proof H as H0. unfold complete_event_for_active_connection_inner, sqlite_revision in H0.
    destruct (MAX_RESPONSE_EVENT_BYTES <? str_len resp) eqn:Elen; [done|]. bool_to_prop.
    destruct (sqlite_timestamp now) as [now'|] eqn:E1; [|done].
    destruct (ok_or ValueOutOfRange (i64_try_from rev)) as [rev'|] eqn:E2; [|done].
    apply sqlite_timestamp_Ok in E1 as [-> ?]. use_results.
    eapply tx_refines_step; [|exact H|].
    + eapply complete_active_tx; [done|lia|lia|done].
    + intros s Hs. unfold spec_complete_active in Hs.
      destruct (claim_state d (el_event_id lease)) as [[o t u| |]|]; try done.
      inv_run Hs. done.
  - destruct (prune_terminal_Ok d cutoff maximum n d' Hwf Hmax H) as (_ & _ & Hwf' & Hd & Hev & _).
    split_and!; [done..|]. intros e. destruct (Hev e) as [->|(Hn & o & ev & Hf & Hlt)].
    + left. apply claim_evolves_refl.
    + right. exists o, ev, cutoff, maximum, n. done.
Qed.

Lemma evolves_final s o ev s' :
  s = Some (Finished o ev) -> claim_evolves s s' -> s' = Some (Finished o ev).
Proof. by intros -> ->. Qed.

Lemma ledger_step_final d d' e o ev :
  ledger_step d d' -> events_wf (wake_events d) -> claim_state d e = Some (Finished o ev) ->
  claim_state d' e = Some (Finished o ev) \/ pruned e o ev d d'.
Proof.
  intros Hs Hwf He. destruct (ledger_step_effect d d' Hs Hwf) as (_ & _ & Hev).
  destruct (Hev e) as [H|(o' & ev' & H)]; [left; by eapply evolves_final|right].
  assert (o' = o /\ ev' = ev) as [-> ->]; [|done].
  destruct H as (cutoff & maximum & n & _ & _ & _ & H & _). rewrite He in H. by injection H as -> ->.
Qed.

(** Transactions whose steps keep a result or prune it keep it until pruned. *)
Lemma steps_final (step : relation Database) (inv : Database -> Prop) e o ev d d' :
  (forall a b, step a b -> inv a -> inv b) ->
  (forall a b, step a b -> inv a -> claim_state a e = Some (Finished o ev) ->
     claim_state b e = Some (Finished o ev) \/ pruned e o ev a b) ->
  rtc step d d' -> inv d -> claim_state d e = Some (Finished o ev) ->
  final_until_pruned step e o ev d d'.
Proof.
  intros Hinv Hstep Hs. induction Hs as [d|d d1 d' H1 Hrest IH]; intros Hd He; [by left|].
  destruct (Hstep d d1 H1 Hd He) as [He1|Hp].
  - destruct (IH (Hinv _ _ H1 Hd) He1) as [?|(a & b & Ha & Hp & Hb)]; [by left|].
    right. exists a, b. split_and!; [|done..]. by eapply rtc_l.
  - right. exists d, d1. by split_and!.
Qed.

Lemma final_until_pruned_weaken (step step' : relation Database) e o ev d d' :
  (forall a b, step a b -> step' a b) ->
  final_until_pruned step e o ev d d' -> final_until_pruned step' e o ev d d'.
Proof.
  intros Hsub [?|(a & b & Ha & Hp & Hb)]; [by left|right]. exists a, b. split_and!; [|done|].
  - eapply (rtc_congruence (fun d => d)); [|exact Ha]. intros x y [? ?]. split; auto.
  - by eapply (rtc_congruence (fun d => d)).
Qed.

Lemma ledger_steps_wf d d' :
  rtc ledger_step d d' -> events_wf (wake_events d) -> events_wf (wake_events d').
Proof. induction 1 as [|d d1 d' Hs _ IH]; [done|]. intros Hwf. by eapply IH, ledger_step_effect. Qed.

(** An event whose claim is not the lease's refuses every operation on it. *)
Lemma lease_lost_state lease d :
  events_wf (wake_events d) ->
  (forall o u, claim_state d (el_event_id lease) <> Some (Claimed o (el_token lease) u)) ->
  lease_lost lease d.
Proof.
  intros Hwf Hno now dur expires kind outcome response method connection revision Hnow Hexp Hrev Hout Hresp.
  assert (forall k, spec_lease_op (claim_state d (el_event_id lease)) (el_token lease) now k
    = Err LostLease) as Hop.
  { intros k. destruct (claim_state d (el_event_id lease)) as [[ow t u| |]|]; try done. simpl.
    rewrite bool_decide_false; [done|]. intros ->. by apply (Hno ow u). }
  assert (forall active event, spec_complete_active (claim_state d (el_event_id lease)) (el_token lease)
    now connection revision active event = Err LostLease) as Hactive.
  { intros active event. destruct (claim_state d (el_event_id lease)) as [[ow t u| |]|]; try done. simpl.
    rewrite bool_decide_false; [done|]. intros ->. by apply (Hno ow u). }
  pose proof (accept_tx d lease now Hwf Hnow) as H1.
  pose proof (renew_tx d lease now dur expires Hwf Hnow Hexp) as H2.
  pose proof (retry_tx d lease now dur expires Hwf Hnow Hexp) as H3.
  pose proof (complete_tx d lease kind outcome now Hwf Hnow Hout) as H4.
  pose proof (fun m => complete_active_tx d lease connection revision response m now Hwf Hnow Hrev Hresp) as H5.
  rewrite Hop in H1, H2, H3, H4.
  split_and!; [done..| |]; [specialize (H5 None)|specialize (H5 (Some method))]; by rewrite Hactive in H5.
Qed.

Definition state_owner (s : ClaimState) : ClaimOwner :=
  match s with Claimed o _ _ | Retryable o _ | Finished o _ => o end.

(** ** Properties *)

(** C17: Claiming an event implements its contract on every state the constraints
    admit: a new event is claimed, a live claim or an undue retry is reported
    as in progress with the time that is left, an expired claim or a due retry
    is taken over keeping its accepted freshness, a terminal event is replayed,
    and a different connection or revision is refused.  Other events and other
    tables stay as they are, and the corrupt-data errors never occur. *)
Theorem claim_event_refines d token e c revision now dur expires
    (Hwf : events_wf (wake_events d)) (Hnow : 0 <= now <= i64_max)
    (Hrev : 0 <= revision <= i64_max) (Ht : length token = 16%nat)
    (He : length e = 32%nat) (Hexp : lease_expiry now dur = Ok expires) :
  tx_refines (claim_event (Some token) e c revision now dur d) d e
    (spec_claim (claim_state d e) token e c revision now expires).
Proof. by apply claim_tx. Qed.

(** Accepting freshness, renewing, releasing for a retry and completing are
    each one abstract transition of the lease's own event: they commit exactly
    when the lease is the live claim, write the stated next state, and
    otherwise fail with [LostLease] and change nothing. *)
Theorem lease_operations_refine d lease now dur expires kind response
    (Hwf : events_wf (wake_events d)) (Hnow : 0 <= now <= i64_max)
    (Hexp : lease_expiry now dur = Ok expires)
    (Hresp : forall j, response = Some j -> str_len j <= MAX_RESPONSE_EVENT_BYTES) :
  let e := el_event_id lease in
  let op := spec_lease_op (claim_state d e) (el_token lease) now in
  tx_refines (accept_event_freshness lease now d) d e
    (op (fun o until => Claimed (mkClaimOwner (co_connection o) (co_revision o) true)
                          (el_token lease) until))
  /\ tx_refines (renew_lease lease now dur d) d e (op (fun o _ => Claimed o (el_token lease) expires))
  /\ tx_refines (retry_later lease now dur d) d e (op (fun o _ => Retryable o expires))
  /\ tx_refines (complete_event lease kind response now d) d e
       (op (fun o _ => Finished o (mkTerminalEvent e kind response None now))).
Proof.
  split_and!; [by apply accept_tx|by apply renew_tx|by apply retry_tx|by apply complete_tx].
Qed.

(** A response is committed for a connection exactly when the lease is the live
    claim of that connection and revision and the revision is active in the
    same statement: a revoked connection is told apart from a lost lease, and
    nothing is written in either case. *)
Theorem complete_for_active_refines d lease c revision response method now
    (Hwf : events_wf (wake_events d)) (Hnow : 0 <= now <= i64_max)
    (Hrev : 0 <= revision <= i64_max) (Hlen : str_len response <= MAX_RESPONSE_EVENT_BYTES) :
  tx_refines
    (complete_nwc_event_for_active_connection lease c revision response method now d) d
    (el_event_id lease)
    (spec_complete_active (claim_state d (el_event_id lease)) (el_token lease) now c revision
      (revision_active c revision d)
      (mkTerminalEvent (el_event_id lease) Kind_completed (Some response) (Some method) now)).
Proof. by apply complete_active_tx. Qed.

(** C12: Mutual exclusion: while a lease is live nobody acquires its event, and once
    the event is acquired under another token every operation on the earlier
    lease is refused with [LostLease]: accepting freshness, renewing, releasing
    for a retry, completing, and both completions under an active connection. *)
Theorem lease_exclusion d lease token e c revision now dur o d'
    (Hwf : events_wf (wake_events d)) (Hnow : u64 now) (Hrev : u64 revision)
    (Ht : length token = 16%nat) (He : length e = 32%nat)
    (Hclaim : claim_event (Some token) e c revision now dur d = Ok (Acquired o, d'))
    (Hlease : el_event_id lease = e) (Htok : el_token lease <> token) :
  ~ lease_live d lease now
  /\ lease_lost lease d'.
Proof.
  pose proof Hclaim as H0. unfold claim_event, sqlite_revision in H0.
  destruct (sqlite_timestamp now) as [now'|] eqn:E1; [|done].
  destruct (ok_or ValueOutOfRange (i64_try_from revision)) as [rev'|] eqn:E2; [|done].
  destruct (lease_expiry now' dur) as [expires|] eqn:E3; [|done]. clear H0.
  apply sqlite_timestamp_Ok in E1 as [-> ?]. use_results. destruct Hnow, Hrev.
  assert (tx_refines (claim_event (Some token) (el_event_id lease) c revision now dur d) d (el_event_id lease)
    (spec_claim (claim_state d (el_event_id lease)) token (el_event_id lease) c revision now expires)) as Href
    by (apply claim_tx; first [done|lia]).
  unfold tx_refines in Href.
  destruct (spec_claim (claim_state d (el_event_id lease)) token (el_event_id lease) c revision now expires) as [[a s]|x] eqn:Es;
    [|congruence].
  destruct Href as (d0 & Heq & Hst & _ & Hwf' & _).
  rewrite Hclaim in Heq. injection Heq as <- <-.
  assert ((exists ow, s = Some (Claimed ow token expires))
    /\ forall ow u, claim_state d (el_event_id lease) = Some (Claimed ow (el_token lease) u) -> u <= now) as [[ow ->] Hold].
  { unfold spec_claim in Es. destruct (claim_state d (el_event_id lease)) as [[ow t u|ow u|ow ev]|]; inv_run Es;
      (split; [eauto|]); intros; simplify_eq. by apply Z.ltb_ge. }
  split.
  - intros (ow' & u & Hs & Hlt). apply Hold in Hs. lia.
  - apply lease_lost_state; [done|]. intros ow' u. rewrite Hst. by intros [= _ Heq _].
Qed.

(** C13: Terminal replay: whatever ledger transactions the processes commit after an
    event is terminal, either its result is still exactly the stored one, a
    redelivery of the event replays it and every operation on every lease of it
    is refused with [LostLease]; or the result stayed untouched until a prune
    removed it, whose cutoff was after its completion. *)
Theorem terminal_is_final d d' e owner event token now dur expires
    (Hwf : events_wf (wake_events d))
    (Hfin : claim_state d e = Some (Finished owner event))
    (Hsteps : rtc ledger_step d d')
    (Hnow : 0 <= now <= i64_max) (Hrev : 0 <= co_revision owner <= i64_max)
    (Ht : length token = 16%nat) (He : length e = 32%nat)
    (Hexp : lease_expiry now dur = Ok expires) :
  claim_state d' e = Some (Finished owner event)
    /\ claim_event (Some token) e (co_connection owner) (co_revision owner) now dur d'
         = Ok (Terminal event, d')
    /\ (forall lease, el_event_id lease = e -> lease_lost lease d')
  \/ exists a b, rtc (keeping ledger_step e owner event) d a /\ pruned e owner event a b
       /\ rtc ledger_step b d'.
Proof.
  pose proof (ledger_steps_wf d d' Hsteps Hwf) as Hwf'.
  assert (final_until_pruned ledger_step e owner event d d') as [Hfin'|?]; [|left|by right].
  { apply (steps_final ledger_step (fun d => events_wf (wake_events d))); try done.
    - intros a b Hs Ha. by eapply ledger_step_effect.
    - intros a b Hs Ha. by apply ledger_step_final. }
  split_and!; [done| |].
  - assert (tx_refines (claim_event (Some token) e (co_connection owner) (co_revision owner) now dur d')
      d' e (spec_claim (claim_state d' e) token e (co_connection owner) (co_revision owner) now expires))
      as Href by (by apply claim_tx).
    rewrite Hfin' in Href. unfold spec_claim in Href.
    rewrite bool_decide_true, Z.eqb_refl in Href by done. cbn [andb tx_refines] in Href.
    pose proof Href as (d1 & Hc & _). rewrite Hc. f_equal. f_equal.
    unfold claim_event in Hc. inv_run Hc; done.
  - intros lease <-. apply lease_lost_state; [done|]. intros o u. by rewrite Hfin'.
Qed.

(** An event belongs to one connection revision for as long as it is known, and
    accepted freshness is never forgotten, along every ledger transaction; only
    a prune makes it unknown. *)
Theorem claim_owner_stable d d' e s
    (Hwf : events_wf (wake_events d)) (Hstep : ledger_step d d')
    (Hs : claim_state d e = Some s) :
  (exists s', claim_state d' e = Some s'
    /\ co_connection (state_owner s') = co_connection (state_owner s)
    /\ co_revision (state_owner s') = co_revision (state_owner s)
    /\ (co_fresh (state_owner s) = true -> co_fresh (state_owner s') = true))
  \/ exists o ev, pruned e o ev d d'.
Proof.
  destruct (ledger_step_effect d d' Hstep Hwf) as (_ & _ & Hev).
  destruct (Hev e) as [H|H]; [left|by right]. rewrite Hs in H.
  destruct s as [o t u|o u|o ev]; [..|rewrite H; eauto 10];
    destruct (claim_state d' e) as [[| |]|]; simpl in *; first [done|eauto 10].
Qed.

(** ** Pruning and queries *)

(** Pruning deletes terminal events only, each last updated before the cutoff,
    the oldest first, and exactly as many as exist up to the bound; the row
    constraints, the other events and the other tables are kept. *)
Theorem prune_terminal_spec d cutoff maximum n d'
    (Hwf : events_wf (wake_events d)) (Hmax : 0 <= maximum)
    (Hrun : prune_terminal cutoff maximum d = Ok (n, d')) :
  Z.of_nat n = Z.min maximum (Z.of_nat (length (select (prunable cutoff) (wake_events d))))
  /\ 1 <= maximum <= MAX_PRUNE_BATCH
  /\ events_wf (wake_events d') /\ d' = set_wake_events (wake_events d') d
  /\ (forall e, claim_state d' e = claim_state d e
       \/ claim_state d' e = None /\ exists o ev,
            claim_state d e = Some (Finished o ev) /\ te_completed_at ev < cutoff)
  /\ (forall r r', r ∈ wake_events d -> r ∉ wake_events d' ->
        r' ∈ wake_events d' -> prunable cutoff r' = true -> we_updated_at r <= we_updated_at r').
Proof. by apply prune_terminal_Ok. Qed.

(** The latest completed event of a connection is the greatest completion time
    of its completed terminal events, and it is defined exactly when the
    connection has one. *)
Theorem last_completed_event_at_spec d c
    (Hwf : events_wf (wake_events d)) :
  let completed at_ := exists e ev o, claim_state d e = Some (Finished o ev)
    /\ te_kind ev = Kind_completed /\ co_connection o = c /\ te_completed_at ev = at_ in
  match last_completed_event_at c d with
  | Ok (Some t) => completed t /\ forall t', completed t' -> t' <= t
  | Ok None => forall t', ~ completed t'
  | Err _ => False
  end.
Proof.
  intros completed.
  set (p := fun r => bool_decide (we_connection_id r = c) && bool_decide (we_state r = "terminal")
                     && bool_decide (we_terminal_kind r = Some "completed")).
  assert (forall r, r ∈ wake_events d -> p r = true -> completed (we_updated_at r) /\ 0 <= we_updated_at r) as Hto.
  { intros r Hr Hp. unfold p in Hp. bool_to_prop. destruct Hwf as [Hchk Hnd].
    rewrite Forall_forall in Hchk. pose proof (Hchk r Hr) as Hc.
    split; [|apply wake_event_check_spec in Hc; tauto].
    assert (load_existing (we_event_id r) d = Some r) as Hl by (by apply find_key_unique).
    destruct (claim_view_cases r Hc) as [(?&?&?&_)|[(?&?&_)|(ev&_&Hev&Hv)]]; [congruence..|].
    exists (we_event_id r), ev, (row_owner r). rewrite (claim_state_of _ _ _ Hl).
    assert (we_terminal_kind r = Some "completed") as Hkind by done.
    unfold terminal_from_row in Hev. rewrite Hkind in Hev.
    destruct (not_null _); [done|]. cbn [ok_or] in Hev.
    change (terminal_from_database_str "completed") with (@Ok LedgerError _ Kind_completed) in Hev.
    inv_run Hev; use_results; simpl; split_and!; done. }
  assert (forall t', completed t' -> exists r, r ∈ wake_events d /\ p r = true /\ we_updated_at r = t') as Hfrom.
  { intros t' (e & ev & o & Hs & Hk & Ho & Ht). unfold claim_state in Hs.
    destruct (load_existing e d) as [r|] eqn:Hl; [|done]. simpl in Hs.
    destruct (events_wf_check d e r Hwf Hl) as (Hc & He & Hr). exists r. split; [done|].
    destruct (claim_view_cases r Hc) as [(?&?&_&_&_&Hv)|[(?&_&_&_&Hv)|(ev'&Hst&Hev&Hv)]];
      rewrite Hv in Hs; [done..|]. injection Hs as <- <-.
    unfold terminal_from_row in Hev. destruct (not_null _); [done|].
    destruct (we_terminal_kind r) as [k|] eqn:Hkind; [|done]. cbn [ok_or] in Hev.
    destruct (terminal_from_database_str k) as [k'|] eqn:Hk'; [|done].
    inv_run Hev; use_results; simpl in *; subst; (split; [|done]);
      unfold p; rewrite Hst, Hkind; unfold terminal_from_database_str in Hk';
      repeat case_bool_decide; simplify_eq; try done. }
  unfold last_completed_event_at. fold p.
  destruct (sql_max we_updated_at (select p (wake_events d))) as [m|] eqn:Hm.
  - apply sql_max_Some in Hm as [(r & Hr & <-) Hmax]. apply elem_of_select in Hr as [Hr Hp].
    destruct (Hto r Hr Hp) as [Hcomp H0]. simpl. unfold u64_try_from.
    rewrite (proj2 (Z.leb_le 0 _) H0). simpl. split; [done|].
    intros t' (r' & Hr' & Hp' & <-)%Hfrom. apply Hmax. by apply elem_of_select.
  - apply sql_max_None in Hm. simpl. intros t' (r' & Hr' & Hp' & _)%Hfrom.
    assert (r' ∈ select p (wake_events d)) as Hin by (by apply elem_of_select).
    rewrite Hm in Hin. by apply elem_of_nil in Hin.
Qed.

(** ** Migration *)

(** The version steps 0 to 9 move no data except the outbox step at 3. *)
Definition migrated (token : EventId -> list Z) (v : Z) (d : Database) : Database :=
  let d := if v <=? 3 then migrate_outbox d else d in
  let d := if v <=? 10 then migrate_trigger_tokens token d else d in
  let d := if v <=? 11 then migrate_initiation d else d in
  if v <=? 12 then migrate_freshness d else d.

Lemma migrate_cases token v d :
  migrate token v d =
  if (0 <=? v) && (v <=? 13) then Ok (13, migrated token v d) else Err UnsupportedSchema.
Proof.
  destruct (decide (0 <= v <= 13)) as [Hv|Hv].
  - assert (v ∈ seqZ 0 14) as Hin by (apply elem_of_seqZ; lia).
    repeat (apply elem_of_cons in Hin as [->|Hin]; [reflexivity|]). by apply elem_of_nil in Hin.
  - assert ((0 <=? v) && (v <=? 13) = false) as ->.
    { apply andb_false_iff. rewrite !Z.leb_gt. lia. }
    unfold migrate, SCHEMA_VERSION.
    repeat match goal with
    | |- context [?a =? ?b] => rewrite (proj2 (Z.eqb_neq a b)) by lia; cbv beta iota zeta
    end. done.
Qed.

(** Opening a database migrates exactly the versions 0 to 13 to 13 and refuses
    every other version; at 13 it changes nothing.  A payment attempt that an
    older version left unresolved is marked ambiguous, so that it is never taken
    for a reservation that the wallet has not seen; attempts already resolved
    are not, and no amount, state or budget column changes. *)
Theorem migrate_spec token v d :
  (is_ok (migrate token v d) = true <-> 0 <= v <= SCHEMA_VERSION)
  /\ migrate token SCHEMA_VERSION d = Ok (SCHEMA_VERSION, d)
  /\ forall v' d', migrate token v d = Ok (v', d') ->
       v' = SCHEMA_VERSION /\ budget_periods d' = budget_periods d
       /\ Forall2 (fun a a' =>
            (v <= 12 -> pa_state a = "reserved" \/ pa_state a = "pending" ->
               pa_legacy_initiation_ambiguous a' = true)
            /\ (pa_state a <> "reserved" -> pa_state a <> "pending" ->
               pa_legacy_initiation_ambiguous a' = pa_legacy_initiation_ambiguous a)
            /\ (v <= 11 -> pa_initiated_at a' = Some (pa_created_at a))
            /\ set_initiated None false a' = set_initiated None false a)
          (payment_attempts d) (payment_attempts d').
Proof.
  rewrite migrate_cases. split; [|split].
  - unfold SCHEMA_VERSION. destruct ((0 <=? v) && (v <=? 13)) eqn:E; simpl.
    + bool_to_prop. split; [lia|done].
    + apply andb_false_iff in E. rewrite !Z.leb_gt in E. split; [done|lia].
  - by rewrite migrate_cases.
  - intros v' d' H. destruct ((0 <=? v) && (v <=? 13)); [|done]. injection H as <- <-.
    split; [done|]. unfold migrated.
    assert (forall a, text_in (pa_state a) ["reserved"; "pending"] = true
      <-> pa_state a = "reserved" \/ pa_state a = "pending") as Hin.
    { intros a. rewrite text_in_true. set_solver. }
    destruct (v <=? 3) eqn:?, (v <=? 10) eqn:?, (v <=? 11) eqn:?, (v <=? 12) eqn:?;
      bool_to_prop; try lia; (split; [done|]); simpl;
      rewrite ?Forall2_fmap_r; apply Forall_Forall2_diag, Forall_true; intros a; simpl;
      (destruct (text_in (pa_state a) ["reserved"; "pending"]) eqn:E;
        [apply Hin in E|assert (~ (pa_state a = "reserved" \/ pa_state a = "pending"))
           by (rewrite <- Hin; congruence)]);
      simpl; split_and!; first [done|lia|tauto|by destruct a].
Qed.

(** ** Concrete runs *)

Definition sample_event : EventId := repeat 7 32.
Definition sample_token (n : Z) : list Z := repeat n 16.
Definition sample_lease (n : Z) : EventLease := mkEventLease sample_event (sample_token n) false false.
Definition run {E A} (m : Result E (A * Database)) : Database :=
  match m with Ok (_, d) => d | Err _ => empty_database end.
(** Claimed at 10 for 5 seconds by token 1; then completed at 12. *)
Definition claimed_database : Database :=
  run (claim_event (Some (sample_token 1)) sample_event "c1" 3 10 (from_secs 5) empty_database).
Definition finished_database : Database :=
  run (complete_event (sample_lease 1) Kind_completed (Some "{}") 12 claimed_database).
Definition sample_terminal : TerminalEvent :=
  mkTerminalEvent sample_event Kind_completed (Some "{}") None 12.

Lemma claim_event_refines_witness :
  tx_refines (claim_event (Some (sample_token 2)) sample_event "c1" 3 15 (from_secs 5) claimed_database)
    claimed_database sample_event
    (Ok (Acquired (mkEventLease sample_event (sample_token 2) true false),
         Some (Claimed (mkClaimOwner "c1" 3 false) (sample_token 2) 20))).
Proof.
  apply (claim_event_refines claimed_database (sample_token 2) sample_event "c1" 3 15 (from_secs 5) 20);
    [decide_concrete|by vm_compute..].
Defined.

Lemma lease_operations_refine_witness :
  tx_refines (complete_event (sample_lease 1) Kind_completed (Some "{}") 12 claimed_database)
    claimed_database sample_event
    (Ok (tt, Some (Finished (mkClaimOwner "c1" 3 false) sample_terminal))).
Proof.
  apply (lease_operations_refine claimed_database (sample_lease 1) 12 (from_secs 5) 17
    Kind_completed (Some "{}")); [decide_concrete|by vm_compute|by vm_compute|].
  intros j [= <-]. by vm_compute.
Defined.

Lemma complete_for_active_refines_witness :
  tx_refines (complete_nwc_event_for_active_connection (sample_lease 1) "c1" 3 "{}" PayInvoice 12
      claimed_database) claimed_database sample_event (Err ConnectionUnavailable).
Proof.
  apply (complete_for_active_refines claimed_database (sample_lease 1) "c1" 3 "{}" PayInvoice 12);
    [decide_concrete|by vm_compute..].
Defined.

Lemma lease_exclusion_witness :
  complete_nwc_event_for_active_connection (sample_lease 1) "c1" 3 "{}" PayInvoice 16
    (run (claim_event (Some (sample_token 2)) sample_event "c1" 3 15 (from_secs 5) claimed_database))
  = Err LostLease.
Proof.
  eapply (lease_exclusion claimed_database (sample_lease 1) (sample_token 2) sample_event "c1" 3 15
    (from_secs 5)) with (now := 16) (dur := from_secs 5) (expires := 21) (kind := Kind_failed)
    (outcome := None);
    first [decide_concrete | done | by vm_compute].
Defined.

Definition pruned_database : Database := run (prune_terminal 13 5 finished_database).

(** Kept by an undisturbed ledger; pruned with cutoff 13, but not with cutoff 12. *)
Lemma terminal_is_final_witness :
  claim_event (Some (sample_token 2)) sample_event "c1" 3 100 (from_secs 5) finished_database
    = Ok (Terminal sample_terminal, finished_database)
  /\ (exists a b, pruned sample_event (mkClaimOwner "c1" 3 false) sample_terminal a b)
  /\ run (prune_terminal 12 5 finished_database) = finished_database.
Proof.
  pose proof (fun d' (Hs : rtc ledger_step finished_database d') => terminal_is_final finished_database d' sample_event
    (mkClaimOwner "c1" 3 false) sample_terminal (sample_token 2) 100 (from_secs 5) 105
    ltac:(decide_concrete) ltac:(by vm_compute) Hs ltac:(done) ltac:(done)
    ltac:(done) ltac:(done) ltac:(by vm_compute)) as H.
  split; [|split; [|by vm_compute]].
  - destruct (H finished_database (rtc_refl _ _)) as [(_ & Hc & _)|(a & b & _ & Hp & _)]; [exact Hc|].
    by vm_compute.
  - destruct (H pruned_database) as [(Hc & _)|(a & b & _ & Hp & _)]; [|discriminate Hc|eauto].
    apply rtc_once. apply (step_prune 13 5 1); by vm_compute.
Defined.

Lemma claim_owner_stable_witness :
  exists s, claim_state finished_database sample_event = Some s /\ co_revision (state_owner s) = 3.
Proof.
  destruct (claim_owner_stable claimed_database finished_database sample_event
    (Claimed (mkClaimOwner "c1" 3 false) (sample_token 1) 15)) as [(s & Hs & _ & Hr & _)|(o & ev & H)].
  - decide_concrete.
  - eapply (step_complete (sample_lease 1) Kind_completed (Some "{}") 12);
      by vm_compute.
  - by vm_compute.
  - exists s. split; [exact Hs|exact Hr].
  - destruct H as (cutoff & maximum & n & _ & _ & _ & _ & H). discriminate H.
Defined.

Lemma prune_terminal_spec_witness :
  Z.of_nat 1 = Z.min 5 (Z.of_nat (length (select (prunable 13) (wake_events finished_database)))).
Proof.
  apply (prune_terminal_spec finished_database 13 5 1 (set_wake_events [] finished_database));
    [decide_concrete|done|by vm_compute].
Defined.

Lemma last_completed_event_at_spec_witness :
  last_completed_event_at "c1" finished_database = Ok (Some 12)
  /\ forall t', (exists e ev o, claim_state finished_database e = Some (Finished o ev)
      /\ te_kind ev = Kind_completed /\ co_connection o = "c1"%string /\ te_completed_at ev = t') ->
     t' <= 12.
Proof.
  split; [by vm_compute|].
  assert (events_wf (wake_events finished_database)) as Hwf by decide_concrete.
  pose proof (last_completed_event_at_spec finished_database "c1" Hwf) as H.
  change (last_completed_event_at "c1" finished_database) with
    (@Ok LedgerError _ (Some 12)) in H. apply H.
Defined.
