(* ===== verification/Registry.v ===== *)
(** * The connection registry

    Models [connection_registry.rs]: validated connections, their insertion
    and import, loading and listing, the relay and revision queries of the
    engine, and permanent tombstones.  Key validation by the [nostr] crate
    ([PublicKey::from_slice]) and URL parsing are parameters. *)
From S2P Require Import Prelude Sqlite Types Policy Host Schema Ledger.
#[local] Open Scope Z_scope.

Class NostrKeys := { public_key_from_slice_ok : list Z -> bool }.

Definition MAX_CONNECTION_RELAYS : Z := 8.

Inductive RegistryError : Type :=
| Reg_DatabaseUnavailable
| Reg_CorruptData
| Reg_ValueOutOfRange
| Reg_InvalidConnection
| Reg_AlreadyExists
| Reg_NotFound
| Reg_StaleRevision
| Reg_AlreadyTombstoned.

#[export] Instance RegistryError_eq_dec : EqDecision RegistryError.
Proof. solve_decision. Defined.

(** [NwcEncryption] of [nostr_validation.rs]. *)
Inductive NwcEncryption : Type := Nip44V2 | LegacyNip04.

#[export] Instance NwcEncryption_eq_dec : EqDecision NwcEncryption.
Proof. solve_decision. Defined.

Record NewConnection := mkNewConnection {
  nc_id : ConnectionId;
  nc_client_pubkey : PublicKey;
  nc_wallet_service_pubkey : PublicKey;
  nc_relays : list string;
  nc_policy : ConnectionPolicy;
  nc_encryption : NwcEncryption;
  nc_expires_at : option UnixTimestamp;
}.

Record ActiveConnection := mkActiveConnection {
  ac_id : ConnectionId;
  ac_revision : ConnectionRevision;
  ac_client_pubkey : PublicKey;
  ac_wallet_service_pubkey : PublicKey;
  ac_relays : list string;
  ac_policy : ConnectionPolicy;
  ac_encryption : NwcEncryption;
  ac_created_at : UnixTimestamp;
  ac_expires_at : option UnixTimestamp;
  ac_updated_at : UnixTimestamp;
}.

Record ConnectionTombstone := mkConnectionTombstone {
  ct_id : ConnectionId;
  ct_revision : ConnectionRevision;
  ct_tombstoned_at : UnixTimestamp;
}.

Inductive StoredConnection : Type :=
| Stored_Active (c : ActiveConnection)
| Stored_Tombstoned (t : ConnectionTombstone).

Definition is_expired_at (c : ActiveConnection) (now : UnixTimestamp) : bool :=
  match ac_expires_at c with Some expires_at => expires_at <=? now | None => false end.

Definition allows_relay (c : ActiveConnection) (relay : string) : bool :=
  bool_decide (relay ∈ ac_relays c).

Definition with_expiration (expires_at : option UnixTimestamp) (c : NewConnection)
  : NewConnection :=
  mkNewConnection (nc_id c) (nc_client_pubkey c) (nc_wallet_service_pubkey c)
    (nc_relays c) (nc_policy c) (nc_encryption c) expires_at.

(** ** Column conversions *)

Definition reg_sqlite_u64 (v : Z) : Result RegistryError Z :=
  ok_or Reg_ValueOutOfRange (i64_try_from v).
Definition reg_decode_u64 (v : Z) : Result RegistryError Z :=
  ok_or Reg_CorruptData (u64_try_from v).

Definition encryption_to_str (e : NwcEncryption) : string :=
  match e with Nip44V2 => "nip44_v2" | LegacyNip04 => "nip04" end.
Definition str_to_encryption (s : string) : Result RegistryError NwcEncryption :=
  if bool_decide (s = "nip44_v2") then Ok Nip44V2
  else if bool_decide (s = "nip04") then Ok LegacyNip04
  else Err Reg_CorruptData.

Definition interval_to_str (i : BudgetInterval) : string :=
  match i with
  | Never => "never" | Hourly => "hourly" | Daily => "daily"
  | Weekly => "weekly" | Monthly => "monthly" | Yearly => "yearly"
  end.
Definition str_to_interval (s : string) : Result RegistryError BudgetInterval :=
  if bool_decide (s = "never") then Ok Never
  else if bool_decide (s = "hourly") then Ok Hourly
  else if bool_decide (s = "daily") then Ok Daily
  else if bool_decide (s = "weekly") then Ok Weekly
  else if bool_decide (s = "monthly") then Ok Monthly
  else if bool_decide (s = "yearly") then Ok Yearly
  else Err Reg_CorruptData.

Definition encode_fee_policy (p : FeePolicy) : Result RegistryError (string * Z) :=
  match p with
  | CountTowardBudget maximum_fee_sat =>
      let? fee := reg_sqlite_u64 maximum_fee_sat in Ok ("count"%string, fee)
  | ExcludeForCompatibility => Ok ("exclude"%string, 0)
  end.
Definition str_to_fee_policy (s : string) (maximum_fee_sat : Z) : Result RegistryError FeePolicy :=
  if bool_decide (s = "count") then Ok (CountTowardBudget maximum_fee_sat)
  else if bool_decide (s = "exclude") && (maximum_fee_sat =? 0) then Ok ExcludeForCompatibility
  else Err Reg_CorruptData.

Definition str_to_method (s : string) : Result RegistryError NwcMethod :=
  if bool_decide (s = "get_info") then Ok GetInfo
  else if bool_decide (s = "get_balance") then Ok GetBalance
  else if bool_decide (s = "make_invoice") then Ok MakeInvoice
  else if bool_decide (s = "pay_invoice") then Ok PayInvoice
  else if bool_decide (s = "lookup_invoice") then Ok LookupInvoice
  else if bool_decide (s = "list_transactions") then Ok ListTransactions
  else Err Reg_CorruptData.

(** The start of the renewal period that [now] falls in. *)
Definition imported_budget_period_start (i : BudgetInterval) (created_at now : Z)
  : Result RegistryError Z :=
  if now <? created_at then Err Reg_InvalidConnection
  else match interval_duration i with
       | None => Ok created_at
       | Some duration =>
           let periods := (now - created_at) / duration_as_secs duration in
           let? elapsed := ok_or Reg_ValueOutOfRange
             (checked_mul_u64 periods (duration_as_secs duration)) in
           ok_or Reg_ValueOutOfRange (checked_add_u64 created_at elapsed)
       end.

Section Registry.
Context `{L : UrlLib} `{NK : NostrKeys}.

(** ** Validation *)

Definition NewConnection_new (id : ConnectionId) (client_pubkey wallet_service_pubkey : PublicKey)
    (relays : list string) (policy : ConnectionPolicy) (encryption : NwcEncryption)
    (wake_policy : WakePolicy) : Result RegistryError NewConnection :=
  if bool_decide (client_pubkey = wallet_service_pubkey)
     || negb (public_key_from_slice_ok client_pubkey)
     || negb (public_key_from_slice_ok wallet_service_pubkey)
     || Nat.eqb (length relays) 0
     || (maximum_relays_per_connection wake_policy <? Z.of_nat (length relays))
     || (MAX_CONNECTION_RELAYS <? Z.of_nat (length relays))
     || Nat.eqb (length (cp_methods policy)) 0
  then Err Reg_InvalidConnection
  else if negb (Nat.eqb (length (remove_dups relays)) (length relays))
  then Err Reg_InvalidConnection
  else Ok (mkNewConnection id client_pubkey wallet_service_pubkey relays policy encryption None).

Definition NewConnection_from_host_strings (id client_pubkey_hex wallet_service_pubkey_hex : string)
    (relay_urls : list string) (policy : ConnectionPolicy) (encryption : NwcEncryption)
    (wake_policy : WakePolicy) : Result RegistryError NewConnection :=
  let invalid {A} (r : Result DomainError A) := map_err (fun _ => Reg_InvalidConnection) r in
  let? id := invalid (ConnectionId_parse id) in
  let? client_pubkey := invalid (Hex32_from_hex client_pubkey_hex) in
  let? wallet_service_pubkey := invalid (Hex32_from_hex wallet_service_pubkey_hex) in
  let? relays := invalid (collect_results SecureRelayUrl_parse relay_urls) in
  NewConnection_new id client_pubkey wallet_service_pubkey relays policy encryption wake_policy.

(** ** Insertion *)

(** The rows of the connection's approved relays, in order. *)
Definition relay_rows (id : string) (relays : list string) : list (RelayRow string) :=
  imap (fun position relay => mkRelayRow id (Z.of_nat position) relay None) relays.

Definition insert_connection_state (n : NewConnection) (created_at : UnixTimestamp)
    (budget_used_sat : Z) (now : UnixTimestamp) : Tx RegistryError ActiveConnection := fun d =>
  let? now_sql := reg_sqlite_u64 now in
  let? created_at_sql := reg_sqlite_u64 created_at in
  if match nc_expires_at n with Some expires_at => expires_at <=? created_at | None => false end
  then Err Reg_InvalidConnection
  else
  let? expires_at_sql := traverse_option reg_sqlite_u64 (nc_expires_at n) in
  let budget := cp_budget (nc_policy n) in
  let? budget_limit := reg_sqlite_u64 (limit_sat budget) in
  let? (fee_policy, maximum_fee) := encode_fee_policy (fee_policy budget) in
  if exists_row (fun r => bool_decide (cn_id r = nc_id n)) (connections d)
     || exists_row (fun r => bool_decide (cn_client_pubkey r = nc_client_pubkey n)
          && bool_decide (cn_wallet_service_pubkey r = nc_wallet_service_pubkey n)) (connections d)
  then Err Reg_AlreadyExists
  else
  let? conns := ok_or Reg_DatabaseUnavailable (insert_row connection_check connection_clash
    (mkConnectionRow (nc_id n) 0 "active" (nc_client_pubkey n) (nc_wallet_service_pubkey n)
       (encryption_to_str (nc_encryption n)) budget_limit (interval_to_str (interval budget))
       fee_policy maximum_fee created_at_sql now_sql None expires_at_sql) (connections d)) in
  let d := set_connections conns d in
  let? methods := ok_or Reg_DatabaseUnavailable
    (insert_rows (fun r => connection_method_check r && connection_exists d (cm_connection_id r))
       connection_method_clash
       ((fun m => mkConnectionMethodRow (nc_id n) (method_as_str m)) <$> cp_methods (nc_policy n))
       (connection_methods d)) in
  let d := set_connection_methods methods d in
  let? relays := ok_or Reg_DatabaseUnavailable
    (insert_rows (fun r => relay_check r && connection_exists d (rl_owner r)) relay_clash
       (relay_rows (nc_id n) (nc_relays n)) (connection_relays d)) in
  let d := set_connection_relays relays d in
  let? d :=
    if 0 <? budget_used_sat then
      let? period_started_at :=
        imported_budget_period_start (interval budget) created_at now in
      let? period_sql := reg_sqlite_u64 period_started_at in
      let? used_sql := reg_sqlite_u64 budget_used_sat in
      let? periods := ok_or Reg_DatabaseUnavailable
        (insert_row (fun r => budget_period_check r && connection_exists d (bp_connection_id r))
           budget_period_clash
           (mkBudgetPeriodRow (nc_id n) period_sql budget_limit used_sql now_sql)
           (budget_periods d)) in
      Ok (set_budget_periods periods d)
    else Ok d in
  let? outbox := ok_or Reg_DatabaseUnavailable
    (insert_row (fun r => registration_check r && connection_exists d (wo_connection_id r))
       registration_clash
       (mkRegistrationRow (nc_id n) 0 1 (nc_client_pubkey n) (nc_wallet_service_pubkey n)
          0 now_sql now_sql) (wake_registration_outbox d)) in
  let d := set_wake_registration_outbox outbox d in
  let? registration_relays := ok_or Reg_DatabaseUnavailable
    (insert_rows relay_check relay_clash
       (select (fun r => bool_decide (rl_owner r = nc_id n)) (connection_relays d))
       (wake_registration_relays d)) in
  let d := set_wake_registration_relays registration_relays d in
  Ok (mkActiveConnection (nc_id n) REVISION_INITIAL (nc_client_pubkey n)
        (nc_wallet_service_pubkey n) (nc_relays n) (nc_policy n) (nc_encryption n)
        created_at (nc_expires_at n) now, d).

Definition insert_connection (n : NewConnection) (now : UnixTimestamp)
  : Tx RegistryError ActiveConnection :=
  insert_connection_state n now 0 now.

Definition import_connection (n : NewConnection) (created_at : UnixTimestamp)
    (budget_used_sat : Z) (now : UnixTimestamp) : Tx RegistryError ActiveConnection := fun d =>
  let budget := cp_budget (nc_policy n) in
  if (now <? created_at) || (limit_sat budget <? budget_used_sat)
     || ((0 <? budget_used_sat) && negb (allows (nc_policy n) PayInvoice))
  then Err Reg_InvalidConnection
  else insert_connection_state n created_at budget_used_sat now d.

(** ** Loading *)

Definition load_methods (d : Database) (id : ConnectionId) : Result RegistryError (list NwcMethod) :=
  collect_results (fun r => str_to_method (cm_method r))
    (order_by (fun a b => text_cmp (cm_method a) (cm_method b))
      (select (fun r => bool_decide (cm_connection_id r = id)) (connection_methods d))).

Definition load_relays (d : Database) (id : ConnectionId) : Result RegistryError (list string) :=
  collect_results
    (fun r => map_err (fun _ => Reg_CorruptData) (SecureRelayUrl_parse (rl_relay_url r)))
    (order_by (fun a b => rl_position a ?= rl_position b)
      (select (fun r => bool_decide (rl_owner r = id)) (connection_relays d))).

Definition decode_public_key (value : list Z) : Result RegistryError PublicKey :=
  if negb (Nat.eqb (length value) 32) then Err Reg_CorruptData
  else if negb (public_key_from_slice_ok value) then Err Reg_CorruptData
  else Ok value.

Definition hydrate_active (d : Database) (r : ConnectionRow) (id : ConnectionId)
    (revision created_at updated_at : Z) (expires_at : option Z)
  : Result RegistryError ActiveConnection :=
  let? client_pubkey := decode_public_key (cn_client_pubkey r) in
  let? wallet_service_pubkey := decode_public_key (cn_wallet_service_pubkey r) in
  if bool_decide (client_pubkey = wallet_service_pubkey) then Err Reg_CorruptData
  else
  let? encryption := str_to_encryption (cn_encryption r) in
  let? methods := load_methods d id in
  if Nat.eqb (length methods) 0 then Err Reg_CorruptData
  else
  let? relays := load_relays d id in
  if Nat.eqb (length relays) 0 || (MAX_CONNECTION_RELAYS <? Z.of_nat (length relays))
  then Err Reg_CorruptData
  else
  let? limit := reg_decode_u64 (cn_budget_limit_sat r) in
  let? maximum_fee := reg_decode_u64 (cn_maximum_fee_sat r) in
  let? interval := str_to_interval (cn_budget_interval r) in
  let? fee_policy := str_to_fee_policy (cn_fee_policy r) maximum_fee in
  Ok (mkActiveConnection id revision client_pubkey wallet_service_pubkey relays
        (ConnectionPolicy_new methods (mkBudgetPolicy limit interval fee_policy))
        encryption created_at expires_at updated_at).

Definition hydrate_stored_connection (d : Database) (r : ConnectionRow)
  : Result RegistryError StoredConnection :=
  let? id := map_err (fun _ => Reg_CorruptData) (ConnectionId_parse (cn_id r)) in
  let? revision := reg_decode_u64 (cn_revision r) in
  let? created_at := reg_decode_u64 (cn_created_at r) in
  let? expires_at := traverse_option reg_decode_u64 (cn_expires_at r) in
  let? updated_at := reg_decode_u64 (cn_updated_at r) in
  if (cn_updated_at r <? cn_created_at r)
     || match expires_at with Some value => value <=? created_at | None => false end
  then Err Reg_CorruptData
  else if bool_decide (cn_status r = "tombstoned") then
    let? tombstoned_at := ok_or Reg_CorruptData (cn_tombstoned_at r) in
    let? tombstoned_at := reg_decode_u64 tombstoned_at in
    if negb (tombstoned_at =? updated_at) then Err Reg_CorruptData
    else Ok (Stored_Tombstoned (mkConnectionTombstone id revision tombstoned_at))
  else if bool_decide (cn_status r = "active") && null (cn_tombstoned_at r) then
    let? active := hydrate_active d r id revision created_at updated_at expires_at in
    Ok (Stored_Active active)
  else Err Reg_CorruptData.

Definition load_connection (id : ConnectionId) (d : Database)
  : Result RegistryError (option StoredConnection) :=
  traverse_option (hydrate_stored_connection d)
    (query_row (fun r => bool_decide (cn_id r = id)) (connections d)).

Definition load_active_connection (id : ConnectionId) (d : Database)
  : Result RegistryError (option ActiveConnection) :=
  let? stored := load_connection id d in
  match stored with
  | Some (Stored_Active connection) => Ok (Some connection)
  | Some (Stored_Tombstoned _) | None => Ok None
  end.

(** The conversion both active-only queries apply to a row. *)
Definition hydrate_active_row (d : Database) (r : ConnectionRow)
  : Result RegistryError ActiveConnection :=
  let? stored := hydrate_stored_connection d r in
  match stored with
  | Stored_Active active => Ok active
  | Stored_Tombstoned _ => Err Reg_CorruptData
  end.

Definition list_active_connections (d : Database) : Result RegistryError (list ActiveConnection) :=
  collect_results (hydrate_active_row d)
    (order_by (fun a b => then_cmp (cn_created_at a ?= cn_created_at b) (text_cmp (cn_id a) (cn_id b)))
      (select (fun r => bool_decide (cn_status r = "active")) (connections d))).

Definition load_active_connection_by_keys (client_pubkey wallet_service_pubkey : PublicKey)
    (d : Database) : Result RegistryError (option ActiveConnection) :=
  traverse_option (hydrate_active_row d)
    (query_row (fun r => bool_decide (cn_status r = "active")
       && bool_decide (cn_client_pubkey r = client_pubkey)
       && bool_decide (cn_wallet_service_pubkey r = wallet_service_pubkey)) (connections d)).

Definition is_relay_approved_for_wallet (wallet_service_pubkey : PublicKey) (relay : string)
    (now : UnixTimestamp) (d : Database) : Result RegistryError bool :=
  let? now_sql := reg_sqlite_u64 now in
  Ok (exists_row (fun c =>
        bool_decide (cn_status c = "active")
        && bool_decide (cn_wallet_service_pubkey c = wallet_service_pubkey)
        && null_or (fun e => now_sql <? e) (cn_expires_at c)
        && exists_row (fun r => bool_decide (rl_owner r = cn_id c)
                                && bool_decide (rl_relay_url r = relay)) (connection_relays d))
      (connections d)).

Definition is_connection_revision_active (id : ConnectionId) (revision : ConnectionRevision)
    (d : Database) : Result RegistryError bool :=
  let? revision := reg_sqlite_u64 revision in
  Ok (exists_row (fun r => bool_decide (cn_id r = id) && (cn_revision r =? revision)
                           && bool_decide (cn_status r = "active")) (connections d)).

(** ** Revocation *)

Definition tombstone_row (next_sql now_sql : Z) (r : ConnectionRow) : ConnectionRow :=
  mkConnectionRow (cn_id r) next_sql "tombstoned" (cn_client_pubkey r)
    (cn_wallet_service_pubkey r) (cn_encryption r) (cn_budget_limit_sat r)
    (cn_budget_interval r) (cn_fee_policy r) (cn_maximum_fee_sat r)
    (cn_created_at r) now_sql (Some now_sql) (cn_expires_at r).

(** [INSERT ... ON CONFLICT(connection_id) DO UPDATE] of a wake registration: the
    row replaces whatever is queued for its connection. *)
Definition upsert_registration (row : RegistrationRow) (t : list RegistrationRow)
  : option (list RegistrationRow) :=
  if exists_row (registration_clash row) t
  then fst <$> update_where registration_check (registration_clash row) (fun _ => row) t
  else insert_row registration_check registration_clash row t.

(** The removal is queued from the tombstoned row. *)
Definition queue_registration_removal (id : ConnectionId) (next_sql now_sql : Z) (d : Database)
  : option (list RegistrationRow) :=
  match query_row (fun r => bool_decide (cn_id r = id)) (connections d) with
  | None => Some (wake_registration_outbox d)
  | Some c =>
      upsert_registration
        (mkRegistrationRow (cn_id c) next_sql 0 (cn_client_pubkey c)
           (cn_wallet_service_pubkey c) 0 now_sql now_sql) (wake_registration_outbox d)
  end.

Definition tombstone_connection (id : ConnectionId) (expected_revision : ConnectionRevision)
    (now : UnixTimestamp) : Tx RegistryError ConnectionTombstone := fun d =>
  let? expected_sql := reg_sqlite_u64 expected_revision in
  let? next_revision := map_err (fun _ => Reg_ValueOutOfRange) (revision_next expected_revision) in
  let? next_sql := reg_sqlite_u64 next_revision in
  let? now_sql := reg_sqlite_u64 now in
  let? current := ok_or Reg_NotFound
    (query_row (fun r => bool_decide (cn_id r = id)) (connections d)) in
  if bool_decide (cn_status current = "tombstoned") then Err Reg_AlreadyTombstoned
  else if negb (bool_decide (cn_status current = "active")) then Err Reg_CorruptData
  else if negb (cn_revision current =? expected_sql) then Err Reg_StaleRevision
  else if now_sql <? cn_created_at current then Err Reg_ValueOutOfRange
  else
  let? (conns, updated) := ok_or Reg_DatabaseUnavailable (update_where connection_check
    (fun r => bool_decide (cn_id r = id) && bool_decide (cn_status r = "active")
              && (cn_revision r =? expected_sql))
    (tombstone_row next_sql now_sql) (connections d)) in
  if negb (Nat.eqb updated 1) then Err Reg_StaleRevision
  else
  let d := set_connections conns d in
  let? outbox := ok_or Reg_DatabaseUnavailable (queue_registration_removal id next_sql now_sql d) in
  let d := set_wake_registration_outbox outbox d in
  let mine := fun r : RelayRow string => bool_decide (rl_owner r = id) in
  let d := set_wake_registration_relays
    (insert_or_ignore relay_check relay_clash (select mine (connection_relays d))
       (wake_registration_relays d)) d in
  let d := set_connection_methods
    (delete_where (fun r => bool_decide (cm_connection_id r = id)) (connection_methods d)).1 d in
  let d := set_connection_relays (delete_where mine (connection_relays d)).1 d in
  Ok (mkConnectionTombstone id next_revision now, d).

End Registry.

(** ** Lemmas *)

Lemma collect_results_map {E A B C} (f : A -> Result E B) (g : C -> A) (h : C -> B) l :
  (forall c, c ∈ l -> f (g c) = Ok (h c)) -> collect_results f (g <$> l) = Ok (h <$> l).
Proof.
  intros H. apply collect_results_Forall2. rewrite Forall2_fmap.
  apply Forall_Forall2_diag, Forall_forall. auto.
Qed.

(** Rows already sorted by a strictly increasing key come back in order. *)
Lemma order_by_sorted {Row} (key : Row -> Z) (rows rows' : list Row) :
  StronglySorted (fun a b => key a < key b) rows -> rows' ≡ₚ rows ->
  order_by (fun a b => key a ?= key b) rows' = rows.
Proof.
  intros Hs Hp. unfold order_by.
  set (R := fun a b => Is_true (cmp_le (key a ?= key b))).
  assert (forall a b, R a b <-> key a <= key b) as HR.
  { intros a b. unfold R. destruct (Z.compare_spec (key a) (key b)); simpl;
      split; intros; first [done|lia]. }
  assert (Transitive R) by (intros a b c; rewrite !HR; lia).
  assert (Total R) by (intros a b; rewrite !HR; lia).
  assert (merge_sort R rows' ≡ₚ rows) as Hperm by (by rewrite merge_sort_Permutation).
  apply (StronglySorted_unique_strong R); [| | |done].
  - intros x1 x2 Hx1 Hx2. rewrite Hperm in Hx1. rewrite !HR. clear Hperm Hp.
    induction Hs as [|x l Hs IH Hall]; [by apply elem_of_nil in Hx1|].
    rewrite Forall_forall in Hall.
    apply elem_of_cons in Hx1 as [->|Hx1]; apply elem_of_cons in Hx2 as [->|Hx2]; [done| | |auto].
    + specialize (Hall x2 Hx2). simpl in Hall. intros; exfalso; lia.
    + specialize (Hall x1 Hx1). simpl in Hall. intros; exfalso; lia.
  - by apply StronglySorted_merge_sort.
  - clear Hp Hperm. induction Hs as [|x l Hs IH Hall]; constructor; [done|].
    eapply Forall_impl; [exact Hall|]. intros y Hy. apply HR. simpl in Hy. lia.
Qed.

Lemma btree_methods_ext l l' :
  (forall m, m ∈ l <-> m ∈ l') -> btree_methods l = btree_methods l'.
Proof.
  intros H. unfold btree_methods. apply (select_ext _ _ all_methods). intros m _.
  apply bool_decide_ext, H.
Qed.

Lemma str_to_method_roundtrip m : str_to_method (method_as_str m) = Ok m.
Proof. by destruct m. Qed.

Lemma reg_sqlite_u64_Ok v w : reg_sqlite_u64 v = Ok w <-> w = v /\ v <= i64_max.
Proof. unfold reg_sqlite_u64. by rewrite ok_or_Ok, i64_try_from_Some. Qed.

Lemma reg_decode_u64_nonneg v : 0 <= v -> reg_decode_u64 v = Ok v.
Proof.
  intros H. unfold reg_decode_u64, u64_try_from. by rewrite (proj2 (Z.leb_le 0 v) H).
Qed.

Lemma select_app {Row} (p : Row -> bool) t t' : select p (t ++ t') = select p t ++ select p t'.
Proof. apply List.filter_app. Qed.

Lemma select_all {Row} (p : Row -> bool) t : (forall r, r ∈ t -> p r = true) -> select p t = t.
Proof.
  intros H; induction t as [|r t IH]; simpl; [done|].
  rewrite (H r) by apply list_elem_of_here.
  by rewrite IH by (intros; by apply H, list_elem_of_further).
Qed.

Lemma select_delete_other {Row} (p q : Row -> bool) t :
  (forall r, r ∈ t -> p r = true -> q r = false) -> select p (delete_where q t).1 = select p t.
Proof.
  intros H; unfold delete_where; cbn [fst]; induction t as [|r t IH]; simpl; [done|].
  specialize (IH (fun r' Hr' => H r' (list_elem_of_further _ _ _ Hr'))).
  destruct (q r) eqn:Hq; simpl.
  - rewrite IH. destruct (p r) eqn:Hp; [|done].
    rewrite H in Hq; [done|apply list_elem_of_here|done].
  - by rewrite IH.
Qed.

Lemma elem_of_relay_rows id relays r :
  r ∈ relay_rows id relays ->
  rl_owner r = id /\ rl_relay_url r ∈ relays /\ 0 <= rl_position r.
Proof.
  unfold relay_rows. intros (i & y & -> & Hi)%elem_of_lookup_imap. simpl.
  split_and!; [done| |lia]. by eapply list_elem_of_lookup_2.
Qed.

Lemma relay_rows_sorted id relays :
  StronglySorted (fun a b => rl_position a < rl_position b) (relay_rows id relays).
Proof.
  unfold relay_rows.
  assert (forall k, StronglySorted (fun a b : RelayRow string => rl_position a < rl_position b)
    (imap (fun i relay => mkRelayRow id (Z.of_nat (k + i)) relay None) relays)) as H.
  { induction relays as [|y relays IH]; intros k; simpl; [constructor|]. constructor.
    - specialize (IH (S k)). erewrite imap_ext; [exact IH|]. intros i x _. simpl.
      by rewrite Nat.add_succ_r.
    - apply Forall_forall. intros r (i & x & -> & _)%elem_of_lookup_imap. simpl. lia. }
  apply (H 0%nat).
Qed.

Lemma relay_rows_urls id relays : rl_relay_url <$> relay_rows id relays = relays.
Proof.
  apply list_eq. intros i. unfold relay_rows. rewrite list_lookup_fmap, list_lookup_imap.
  by destruct (relays !! i).
Qed.

Section RegistryLemmas.
Context `{L : UrlLib} `{NK : NostrKeys}.

(** Hydration reads only the methods and relays of the row's own connection. *)
Lemma hydrate_stored_connection_ext d d' r :
  select (fun m => bool_decide (cm_connection_id m = cn_id r)) (connection_methods d')
    = select (fun m => bool_decide (cm_connection_id m = cn_id r)) (connection_methods d) ->
  select (fun l => bool_decide (rl_owner l = cn_id r)) (connection_relays d')
    = select (fun l => bool_decide (rl_owner l = cn_id r)) (connection_relays d) ->
  hydrate_stored_connection d' r = hydrate_stored_connection d r.
Proof.
  intros Hm Hr. unfold hydrate_stored_connection.
  destruct (ConnectionId_parse (cn_id r)) as [id|] eqn:Hid; [|done].
  assert (id = cn_id r) as ->.
  { unfold ConnectionId_parse in Hid. repeat case_match; by simplify_eq. }
  cbn [map_err]. unfold hydrate_active, load_methods, load_relays. by rewrite Hm, Hr.
Qed.

(** What a committed insertion wrote. *)
Record inserted (n : NewConnection) (created_at used now : Z) (row : ConnectionRow)
    (d d' : Database) : Prop := {
  ins_row : exists fee maximum_fee,
    encode_fee_policy (fee_policy (cp_budget (nc_policy n))) = Ok (fee, maximum_fee)
    /\ row = mkConnectionRow (nc_id n) 0 "active" (nc_client_pubkey n) (nc_wallet_service_pubkey n)
         (encryption_to_str (nc_encryption n)) (limit_sat (cp_budget (nc_policy n)))
         (interval_to_str (interval (cp_budget (nc_policy n)))) fee maximum_fee
         created_at now None (nc_expires_at n);
  ins_check : connection_check row = true;
  ins_bounds : now <= i64_max /\ created_at <= i64_max
    /\ limit_sat (cp_budget (nc_policy n)) <= i64_max;
  ins_unexpired : forall e, nc_expires_at n = Some e -> created_at < e;
  ins_fresh : forall c, c ∈ connections d ->
    cn_id c <> nc_id n
    /\ (cn_client_pubkey c, cn_wallet_service_pubkey c)
       <> (nc_client_pubkey n, nc_wallet_service_pubkey n);
  ins_connections : connections d' = connections d ++ [row];
  ins_methods : connection_methods d' = connection_methods d
    ++ ((fun m => mkConnectionMethodRow (nc_id n) (method_as_str m)) <$> cp_methods (nc_policy n));
  ins_relays : connection_relays d' = connection_relays d ++ relay_rows (nc_id n) (nc_relays n);
  ins_relay_rows : relays_wf (connection_relays d) -> relays_wf (connection_relays d');
  ins_periods : budget_periods d' = budget_periods d
    \/ 0 < used /\ exists start,
         imported_budget_period_start (interval (cp_budget (nc_policy n))) created_at now = Ok start
         /\ let p := mkBudgetPeriodRow (nc_id n) start (limit_sat (cp_budget (nc_policy n))) used now in
            budget_periods d' = budget_periods d ++ [p]
            /\ budget_period_check p = true /\ used <= i64_max
            /\ forall p', p' ∈ budget_periods d -> bp_key p' <> bp_key p;
  ins_no_import : used = 0 -> budget_periods d' = budget_periods d;
  ins_attempts : payment_attempts d' = payment_attempts d;
  ins_events : wake_events d' = wake_events d;
  ins_outbox : let w := mkRegistrationRow (nc_id n) 0 1 (nc_client_pubkey n)
                          (nc_wallet_service_pubkey n) 0 now now in
    wake_registration_outbox d' = wake_registration_outbox d ++ [w] /\ registration_check w = true
    /\ forall x, x ∈ wake_registration_outbox d -> wo_connection_id x <> nc_id n;
  ins_wake_relays : wake_registration_relays d' = wake_registration_relays d
    ++ select (fun r => bool_decide (rl_owner r = nc_id n)) (connection_relays d');
}.

Lemma insert_connection_state_Ok n created_at used now d c d' :
  insert_connection_state n created_at used now d = Ok (c, d') ->
  c = mkActiveConnection (nc_id n) 0 (nc_client_pubkey n) (nc_wallet_service_pubkey n)
        (nc_relays n) (nc_policy n) (nc_encryption n) created_at (nc_expires_at n) now
  /\ exists row, inserted n created_at used now row d d'.
Proof.
  unfold insert_connection_state. intros H.
  destruct (reg_sqlite_u64 now) as [now'|] eqn:E1; [|done].
  apply reg_sqlite_u64_Ok in E1 as [-> Hnow].
  destruct (reg_sqlite_u64 created_at) as [created'|] eqn:E2; [|done].
  apply reg_sqlite_u64_Ok in E2 as [-> Hcreated].
  destruct (match nc_expires_at n with Some e => e <=? created_at | None => false end) eqn:E3; [done|].
  destruct (traverse_option reg_sqlite_u64 (nc_expires_at n)) as [ex|] eqn:E4; [|done].
  assert (ex = nc_expires_at n) as ->.
  { destruct (nc_expires_at n) as [e|]; simpl in E4; [|by injection E4].
    destruct (reg_sqlite_u64 e) as [e'|] eqn:Ee; [|done]. apply reg_sqlite_u64_Ok in Ee as [-> _].
    by injection E4. }
  destruct (reg_sqlite_u64 (limit_sat _)) as [lim|] eqn:E5; [|done].
  apply reg_sqlite_u64_Ok in E5 as [-> Hlim].
  destruct (encode_fee_policy _) as [[fee maxfee]|] eqn:E6; [|done].
  destruct (exists_row _ (connections d) || exists_row _ (connections d)) eqn:E7; [done|].
  apply orb_false_elim in E7 as [Hid Hkeys].
  destruct (insert_row connection_check _ _ _) as [conns|] eqn:E8; [|done]. cbn [ok_or] in H.
  destruct (insert_rows _ connection_method_clash _ _) as [methods|] eqn:E9; [|done].
  cbn [ok_or] in H.
  destruct (insert_rows _ relay_clash (relay_rows _ _) _) as [relays|] eqn:E10; [|done].
  cbn [ok_or] in H.
  destruct (if 0 <? used then _ else _) as [d1|] eqn:E11; [|done].
  destruct (insert_row _ registration_clash _ _) as [outbox|] eqn:E12; [|done].
  cbn [ok_or] in H.
  destruct (insert_rows relay_check relay_clash (select _ _) _) as [regs|] eqn:E13; [|done].
  cbn [ok_or] in H. injection H as <- <-. split; [done|].
  apply insert_row_Some in E8 as (-> & Hchk & Hcl).
  apply insert_rows_Some in E9 as (Hm & _ & _).
  pose proof (fun H0 => insert_rows_keep relays_wf _ _ _ _ _ (insert_relay_wf _) E10 H0) as Hrk.
  apply insert_rows_Some in E10 as (Hr & _ & _).
  eexists. split; cbn [connections connection_methods connection_relays budget_periods
    payment_attempts wake_events set_wake_registration_relays set_wake_registration_outbox].
  - eauto.
  - exact Hchk.
  - done.
  - intros e He. rewrite He in E3. by apply Z.leb_gt.
  - intros c Hc. split.
    + intros Heq. rewrite exists_row_false in Hid. specialize (Hid c Hc).
      by apply bool_decide_eq_false_1 in Hid.
    + intros [= Hk1 Hk2]. rewrite exists_row_false in Hkeys. specialize (Hkeys c Hc).
      simpl in Hkeys. by rewrite !bool_decide_true in Hkeys.
  - inv_run E11; done.
  - inv_run E11; done.
  - inv_run E11; done.
  - inv_run E11; exact Hrk.
  - destruct (0 <? used) eqn:Hu; [|left; by injection E11 as <-]. right.
    apply Z.ltb_lt in Hu. split; [done|].
    destruct (imported_budget_period_start _ _ _) as [start|] eqn:Es; [|done].
    destruct (reg_sqlite_u64 start) as [start'|] eqn:Es'; [|done].
    apply reg_sqlite_u64_Ok in Es' as [-> _].
    destruct (reg_sqlite_u64 used) as [used'|] eqn:Eu'; [|done].
    apply reg_sqlite_u64_Ok in Eu' as [-> Hused].
    destruct (insert_row _ budget_period_clash _ _) as [periods|] eqn:Ep; [|done].
    cbn [ok_or] in E11. injection E11 as <-.
    apply insert_row_Some in Ep as (-> & Hpc & Hpcl). apply andb_prop in Hpc as [Hpc _].
    exists start. split_and!; [done..|]. intros p' Hp' Heq. specialize (Hpcl p' Hp').
    unfold budget_period_clash in Hpcl. by rewrite bool_decide_true in Hpcl.
  - intros ->. simpl in E11. by injection E11 as <-.
  - inv_run E11; done.
  - inv_run E11; done.
  - apply insert_row_Some in E12 as (-> & Hw & Hwcl). apply andb_prop in Hw as [Hw _].
    assert (wake_registration_outbox d1 = wake_registration_outbox d) as Hd1 by (inv_run E11; done).
    rewrite Hd1 in *. cbv zeta. split_and!; [done..|]. intros x Hx Heq.
    specialize (Hwcl x Hx). unfold registration_clash in Hwcl. simpl in Hwcl.
    by rewrite bool_decide_true in Hwcl.
  - apply insert_rows_Some in E13 as (-> & _). f_equal. inv_run E11; done.
Qed.

(** ** The registry invariant *)

(** The connection [id] is active: its methods and relays may be stored. *)
Definition owner_active (d : Database) (id : string) : Prop :=
  exists c, c ∈ connections d /\ cn_id c = id /\ cn_status c = "active".

(** Rows satisfy their constraints, ids and key pairs are unique, only active
    connections own methods and relays, relays are stored in canonical form,
    and every stored row loads. *)
Record registry_wf (d : Database) : Prop := {
  rw_connections : connections_wf (connections d);
  rw_methods : forall m, m ∈ connection_methods d -> owner_active d (cm_connection_id m);
  rw_relays : forall r, r ∈ connection_relays d -> owner_active d (rl_owner r);
  rw_canonical : forall r, r ∈ connection_relays d ->
    SecureRelayUrl_parse (rl_relay_url r) = Ok (rl_relay_url r);
  rw_relay_rows : relays_wf (connection_relays d);
  rw_loads : forall c, c ∈ connections d -> exists s, hydrate_stored_connection d c = Ok s;
}.

(** What validation establishes of a new connection. *)
Record connection_valid (n : NewConnection) : Prop := {
  cv_id : ConnectionId_parse (nc_id n) = Ok (nc_id n);
  cv_client : length (nc_client_pubkey n) = 32%nat
    /\ public_key_from_slice_ok (nc_client_pubkey n) = true;
  cv_wallet : length (nc_wallet_service_pubkey n) = 32%nat
    /\ public_key_from_slice_ok (nc_wallet_service_pubkey n) = true;
  cv_distinct : nc_client_pubkey n <> nc_wallet_service_pubkey n;
  cv_canonical : Forall (fun r => SecureRelayUrl_parse r = Ok r) (nc_relays n);
  cv_count : 1 <= Z.of_nat (length (nc_relays n)) <= MAX_CONNECTION_RELAYS;
  cv_unique : NoDup (nc_relays n);
  cv_methods : btree_methods (cp_methods (nc_policy n)) = cp_methods (nc_policy n);
  cv_some_method : cp_methods (nc_policy n) <> [];
}.

Lemma ConnectionId_parse_id s id : ConnectionId_parse s = Ok id -> id = s.
Proof. unfold ConnectionId_parse. intros H. repeat case_match; by simplify_eq. Qed.

Lemma check_row_nonneg r : connection_check r = true ->
  0 <= cn_revision r /\ 0 <= cn_budget_limit_sat r /\ 0 <= cn_maximum_fee_sat r
  /\ 0 <= cn_created_at r <= cn_updated_at r
  /\ forall e, cn_expires_at r = Some e -> cn_created_at r < e.
Proof.
  unfold connection_check. rewrite !andb_true_iff, !Z.leb_le, null_or_true.
  setoid_rewrite Z.ltb_lt. intuition lia.
Qed.

Lemma select_fresh {Row} (p : Row -> bool) t t' :
  (forall r, r ∈ t -> p r = false) -> (forall r, r ∈ t' -> p r = true) ->
  select p (t ++ t') = t'.
Proof. intros. by rewrite select_app, select_none, select_all. Qed.

(** The methods and relays a new connection stored come back as it listed them. *)
Lemma inserted_methods n created_at used now row d d' :
  inserted n created_at used now row d d' -> registry_wf d ->
  btree_methods (cp_methods (nc_policy n)) = cp_methods (nc_policy n) ->
  exists ms, load_methods d' (nc_id n) = Ok ms /\ length ms = length (cp_methods (nc_policy n))
    /\ btree_methods ms = cp_methods (nc_policy n).
Proof.
  intros Hins Hwf Hcan. set (ms0 := cp_methods (nc_policy n)) in *.
  set (g := fun m => mkConnectionMethodRow (nc_id n) (method_as_str m)).
  assert (select (fun r => bool_decide (cm_connection_id r = nc_id n)) (connection_methods d')
    = g <$> ms0) as Hsel.
  { rewrite (ins_methods _ _ _ _ _ _ _ Hins). apply select_fresh.
    - intros r Hr. apply bool_decide_eq_false_2. intros Heq.
      destruct (rw_methods d Hwf r Hr) as (c & Hc & Hid & _).
      destruct (ins_fresh _ _ _ _ _ _ _ Hins c Hc) as [Hne _]. congruence.
    - intros r (m & -> & _)%list_elem_of_fmap. by apply bool_decide_eq_true_2. }
  unfold load_methods. rewrite Hsel.
  set (rows := order_by _ _).
  assert (rows ≡ₚ g <$> ms0) as Hp by apply order_by_Permutation.
  destruct (Permutation_map_inv g ms0 Hp) as (ms & Hrows & Hperm).
  exists ms. rewrite Hrows.
  split_and!.
  - rewrite <- (list_fmap_id ms) at 2. apply collect_results_map.
    intros m _. apply str_to_method_roundtrip.
  - by rewrite Hperm.
  - rewrite <- Hcan. apply btree_methods_ext. intros m. by rewrite Hperm.
Qed.

Lemma inserted_relays n created_at used now row d d' :
  inserted n created_at used now row d d' -> registry_wf d ->
  Forall (fun r => SecureRelayUrl_parse r = Ok r) (nc_relays n) ->
  load_relays d' (nc_id n) = Ok (nc_relays n).
Proof.
  intros Hins Hwf Hcan.
  assert (select (fun r => bool_decide (rl_owner r = nc_id n)) (connection_relays d')
    = relay_rows (nc_id n) (nc_relays n)) as Hsel.
  { rewrite (ins_relays _ _ _ _ _ _ _ Hins). apply select_fresh.
    - intros r Hr. apply bool_decide_eq_false_2. intros Heq.
      destruct (rw_relays d Hwf r Hr) as (c & Hc & Hid & _).
      destruct (ins_fresh _ _ _ _ _ _ _ Hins c Hc) as [Hne _]. congruence.
    - intros r (Ho & _)%elem_of_relay_rows. by apply bool_decide_eq_true_2. }
  unfold load_relays. rewrite Hsel.
  rewrite (order_by_sorted rl_position (relay_rows (nc_id n) (nc_relays n)))
    by first [apply relay_rows_sorted|done].
  rewrite <- (relay_rows_urls (nc_id n) (nc_relays n)) at 2.
  rewrite <- (list_fmap_id (relay_rows _ _)) at 1. apply collect_results_map.
  intros r (_ & Hu & _)%elem_of_relay_rows. rewrite Forall_forall in Hcan.
  simpl. by rewrite Hcan.
Qed.

(** The stored row of a new connection loads as the connection returned. *)
Lemma inserted_loads n created_at used now row d d' :
  inserted n created_at used now row d d' -> registry_wf d -> connection_valid n ->
  hydrate_stored_connection d' row = Ok (Stored_Active
    (mkActiveConnection (nc_id n) 0 (nc_client_pubkey n) (nc_wallet_service_pubkey n)
       (nc_relays n) (nc_policy n) (nc_encryption n) created_at (nc_expires_at n) now)).
Proof.
  intros Hins Hwf Hv.
  destruct (ins_row _ _ _ _ _ _ _ Hins) as (fee & maxfee & Hfee & Hrow).
  pose proof (check_row_nonneg _ (ins_check _ _ _ _ _ _ _ Hins)) as (_ & Hlim & Hmax & Hcr & Hex).
  destruct (inserted_methods _ _ _ _ _ _ _ Hins Hwf (cv_methods n Hv)) as (ms & Hms & Hlen & Hbt).
  pose proof (inserted_relays _ _ _ _ _ _ _ Hins Hwf (cv_canonical n Hv)) as Hrel.
  rewrite Hrow in *. cbn in Hlim, Hmax, Hcr, Hex.
  unfold hydrate_stored_connection. cbn -[load_methods load_relays hydrate_active Z.ltb Z.leb].
  rewrite (cv_id n Hv). cbn [map_err]. rewrite !reg_decode_u64_nonneg by lia.
  assert (traverse_option reg_decode_u64 (nc_expires_at n) = Ok (nc_expires_at n)) as ->.
  { destruct (nc_expires_at n) as [e|]; [|done]. specialize (Hex e eq_refl).
    simpl. by rewrite reg_decode_u64_nonneg by lia. }
  assert ((now <? created_at)
    || match nc_expires_at n with Some value => value <=? created_at | None => false end = false) as ->.
  { apply orb_false_iff. split; [apply Z.ltb_ge; lia|].
    destruct (nc_expires_at n) as [e|]; [|done]. specialize (Hex e eq_refl). apply Z.leb_gt. lia. }
  rewrite (bool_decide_false ("active"%string = "tombstoned"%string)) by done.
  rewrite (bool_decide_true ("active"%string = "active"%string)) by done.
  cbn [andb null]. unfold hydrate_active, decode_public_key. cbn [cn_client_pubkey
    cn_wallet_service_pubkey cn_encryption cn_budget_limit_sat cn_maximum_fee_sat
    cn_budget_interval cn_fee_policy].
  destruct (cv_client n Hv) as [-> ->], (cv_wallet n Hv) as [-> ->]. cbn [Nat.eqb negb].
  rewrite bool_decide_false by apply (cv_distinct n Hv).
  assert (str_to_encryption (encryption_to_str (nc_encryption n)) = Ok (nc_encryption n)) as ->
    by (by destruct (nc_encryption n)).
  rewrite Hms, Hlen, Hrel.
  assert (Nat.eqb (length (cp_methods (nc_policy n))) 0 = false) as ->.
  { apply Nat.eqb_neq. intros ?%length_zero_iff_nil. by apply (cv_some_method n Hv). }
  pose proof (cv_count n Hv) as Hc.
  assert (Nat.eqb (length (nc_relays n)) 0
    || (MAX_CONNECTION_RELAYS <? Z.of_nat (length (nc_relays n))) = false) as ->.
  { apply orb_false_iff. split; [apply Nat.eqb_neq; lia|apply Z.ltb_ge; lia]. }
  rewrite !reg_decode_u64_nonneg by lia.
  assert (str_to_interval (interval_to_str (interval (cp_budget (nc_policy n))))
    = Ok (interval (cp_budget (nc_policy n)))) as -> by (by destruct (interval _)).
  assert (str_to_fee_policy fee maxfee = Ok (fee_policy (cp_budget (nc_policy n)))) as ->.
  { unfold encode_fee_policy in Hfee. destruct (fee_policy _) as [m|].
    - destruct (reg_sqlite_u64 m) as [m'|] eqn:Em; [|done]. injection Hfee as <- <-.
      apply reg_sqlite_u64_Ok in Em as [-> _]. done.
    - by injection Hfee as <- <-. }
  unfold ConnectionPolicy_new. rewrite Hbt. do 3 f_equal.
  by destruct (nc_policy n) as [? [? ? ?]].
Qed.

Lemma hydrate_other n created_at used now row d d' c :
  inserted n created_at used now row d d' -> cn_id c <> nc_id n ->
  hydrate_stored_connection d' c = hydrate_stored_connection d c.
Proof.
  intros Hins Hne. apply hydrate_stored_connection_ext.
  - rewrite (ins_methods _ _ _ _ _ _ _ Hins), select_app.
    rewrite (select_none _ (_ <$> _)); [by rewrite app_nil_r|].
    intros r (m & -> & _)%list_elem_of_fmap. by apply bool_decide_eq_false_2.
  - rewrite (ins_relays _ _ _ _ _ _ _ Hins), select_app.
    rewrite (select_none _ (relay_rows _ _)); [by rewrite app_nil_r|].
    intros r (Ho & _)%elem_of_relay_rows. apply bool_decide_eq_false_2. congruence.
Qed.

Lemma inserted_wf n created_at used now row d d' :
  inserted n created_at used now row d d' -> registry_wf d -> connection_valid n ->
  registry_wf d'.
Proof.
  intros Hins Hwf Hv. pose proof Hwf as [[Hchk [Hnd1 Hnd2]] Hm Hr Hcan Hrr Hl].
  destruct (ins_row _ _ _ _ _ _ _ Hins) as (fee & maxfee & _ & Hrow).
  pose proof (ins_connections _ _ _ _ _ _ _ Hins) as Hconn.
  assert (forall id, owner_active d id -> owner_active d' id) as Hkeep.
  { intros id (c & Hc & ? & ?). exists c. rewrite Hconn. split; [|done].
    apply elem_of_app; by left. }
  assert (owner_active d' (nc_id n)) as Hnew.
  { exists row. rewrite Hconn, Hrow. split; [|done]. apply elem_of_app; right.
    by apply list_elem_of_singleton. }
  split.
  - rewrite Hconn. split_and!.
    + apply Forall_app. split; [done|]. constructor; [|done]. by eapply ins_check.
    + rewrite fmap_app. apply NoDup_app. split_and!; [done| |apply NoDup_singleton].
      intros k (c & -> & Hc)%list_elem_of_fmap Hk. apply list_elem_of_singleton in Hk.
      destruct (ins_fresh _ _ _ _ _ _ _ Hins c Hc) as [Hne _]. rewrite Hrow in Hk. done.
    + rewrite fmap_app. apply NoDup_app. split_and!; [done| |apply NoDup_singleton].
      intros k (c & -> & Hc)%list_elem_of_fmap Hk. apply list_elem_of_singleton in Hk.
      destruct (ins_fresh _ _ _ _ _ _ _ Hins c Hc) as [_ Hne]. rewrite Hrow in Hk. done.
  - rewrite (ins_methods _ _ _ _ _ _ _ Hins).
    intros m [Hin|(x & -> & _)%list_elem_of_fmap]%elem_of_app; [by apply Hkeep, Hm|done].
  - rewrite (ins_relays _ _ _ _ _ _ _ Hins).
    intros r [Hin|(Ho & _)%elem_of_relay_rows]%elem_of_app; [by apply Hkeep, Hr|by rewrite Ho].
  - rewrite (ins_relays _ _ _ _ _ _ _ Hins).
    intros r [Hin|(_ & Hu & _)%elem_of_relay_rows]%elem_of_app; [by apply Hcan|].
    pose proof (cv_canonical n Hv) as Hall. rewrite Forall_forall in Hall. auto.
  - by apply (ins_relay_rows _ _ _ _ _ _ _ Hins).
  - rewrite Hconn. intros c [Hc|Hc]%elem_of_app.
    + rewrite (hydrate_other n created_at used now row d d' c); [auto|done|].
      by apply (ins_fresh _ _ _ _ _ _ _ Hins c Hc).
    + apply list_elem_of_singleton in Hc as ->. eexists. by eapply inserted_loads.
Qed.

(** What a committed revocation wrote. *)
Record tombstoned (id : string) (expected now : Z) (r : ConnectionRow) (d d' : Database) : Prop := {
  ts_find : find_key cn_id id (connections d) = Some r;
  ts_was : cn_status r = "active" /\ cn_revision r = expected /\ cn_created_at r <= now;
  ts_check : connection_check (tombstone_row (expected + 1) now r) = true;
  ts_bounds : expected + 1 <= i64_max /\ now <= i64_max;
  ts_connections : forall id', find_key cn_id id' (connections d')
    = if bool_decide (id' = id) then Some (tombstone_row (expected + 1) now r)
      else find_key cn_id id' (connections d);
  ts_rows : connections d' = (fun c => if bool_decide (cn_id c = id)
    then tombstone_row (expected + 1) now c else c) <$> connections d;
  ts_methods : connection_methods d'
    = (delete_where (fun m => bool_decide (cm_connection_id m = id)) (connection_methods d)).1;
  ts_relays : connection_relays d'
    = (delete_where (fun l => bool_decide (rl_owner l = id)) (connection_relays d)).1;
  ts_removal : upsert_registration
    (mkRegistrationRow id (expected + 1) 0 (cn_client_pubkey r) (cn_wallet_service_pubkey r) 0 now now)
    (wake_registration_outbox d) = Some (wake_registration_outbox d');
  ts_wake_relays : wake_registration_relays d' = insert_or_ignore relay_check relay_clash
    (select (fun l => bool_decide (rl_owner l = id)) (connection_relays d)) (wake_registration_relays d);
  ts_periods : budget_periods d' = budget_periods d;
  ts_attempts : payment_attempts d' = payment_attempts d;
  ts_events : wake_events d' = wake_events d;
}.

Lemma find_replaced row t id :
  find_key wo_connection_id id ((fun x => if registration_clash row x then row else x) <$> t)
  = if bool_decide (id = wo_connection_id row)
    then if exists_row (registration_clash row) t then Some row else None
    else find_key wo_connection_id id t.
Proof.
  induction t as [|x t IH]; [by case_bool_decide|]. rewrite fmap_cons, !find_key_cons.
  unfold exists_row in *. simpl. rewrite IH.
  change (registration_clash row x) with (bool_decide (wo_connection_id row = wo_connection_id x)).
  destruct (decide (wo_connection_id row = wo_connection_id x)) as [H1|H1].
  - rewrite (bool_decide_true (_ = wo_connection_id x)) by done. simpl.
    destruct (decide (id = wo_connection_id row)) as [H2|H2].
    + by rewrite !bool_decide_true by congruence.
    + by rewrite !bool_decide_false by congruence.
  - rewrite (bool_decide_false (wo_connection_id row = wo_connection_id x)) by done. simpl.
    destruct (decide (id = wo_connection_id row)) as [H2|H2].
    + by rewrite (bool_decide_false (wo_connection_id x = id)), bool_decide_true by congruence.
    + by rewrite (bool_decide_false (id = wo_connection_id row)) by done.
Qed.

(** An upsert leaves the row of every other connection. *)
Lemma upsert_find row t t' : upsert_registration row t = Some t' ->
  registration_check row = true
  /\ forall id, find_key wo_connection_id id t'
       = if bool_decide (id = wo_connection_id row) then Some row else find_key wo_connection_id id t.
Proof.
  unfold upsert_registration. intros H.
  destruct (exists_row (registration_clash row) t) eqn:E.
  - destruct (update_where _ _ _ t) as [[t1 n]|] eqn:Hu; [|done]. injection H as <-.
    pose proof (update_where_Some _ _ _ _ _ _ Hu) as (-> & _ & Hok).
    pose proof E as (r0 & Hin & Hcl)%exists_row_true. split; [eauto|]. intros id.
    by rewrite find_replaced, E.
  - apply insert_row_Some in H as (-> & Hok & _). split; [done|]. intros id. rewrite find_key_app.
    destruct (decide (id = wo_connection_id row)) as [->|Hid].
    + assert (find_key wo_connection_id (wo_connection_id row) t = None) as ->.
      { apply find_key_None. intros (x & Hx & Hin)%list_elem_of_fmap.
        rewrite exists_row_false in E. specialize (E x Hin).
        apply bool_decide_eq_false_1 in E. congruence. }
      by rewrite !bool_decide_true.
    + rewrite !bool_decide_false by congruence. by destruct (find_key wo_connection_id id t).
Qed.

Lemma queue_removal_Some id next now d outbox r :
  queue_registration_removal id next now d = Some outbox ->
  query_row (fun c => bool_decide (cn_id c = id)) (connections d) = Some r ->
  upsert_registration
    (mkRegistrationRow id next 0 (cn_client_pubkey r) (cn_wallet_service_pubkey r) 0 now now)
    (wake_registration_outbox d) = Some outbox.
Proof.
  intros H Hq. unfold queue_registration_removal in H. rewrite Hq in H.
  apply query_row_Some in Hq as [_ Hid%bool_decide_eq_true_1]. by subst id.
Qed.

Lemma tombstone_connection_Ok id expected now d t d' :
  connections_wf (connections d) -> tombstone_connection id expected now d = Ok (t, d') ->
  t = mkConnectionTombstone id (expected + 1) now
  /\ exists r, tombstoned id expected now r d d'.
Proof.
  intros [Hchk [Hnd _]] H. unfold tombstone_connection in H.
  destruct (reg_sqlite_u64 expected) as [e'|] eqn:E1; [|done].
  apply reg_sqlite_u64_Ok in E1 as [-> He].
  destruct (revision_next expected) as [next|] eqn:E2; [|done]. cbn [map_err] in H.
  apply ok_or_Ok, checked_add_u64_Some in E2 as [-> _].
  destruct (reg_sqlite_u64 (expected + 1)) as [nx|] eqn:E3; [|done].
  apply reg_sqlite_u64_Ok in E3 as [-> Hnext].
  destruct (reg_sqlite_u64 now) as [nw|] eqn:E4; [|done].
  apply reg_sqlite_u64_Ok in E4 as [-> Hnow].
  fold (find_key cn_id id (connections d)) in H.
  destruct (find_key cn_id id (connections d)) as [r|] eqn:Hf; [|done]. cbn [ok_or] in H.
  destruct (bool_decide (cn_status r = "tombstoned")) eqn:Hs1; [done|].
  destruct (negb (bool_decide (cn_status r = "active"))) eqn:Hs2; [done|].
  destruct (negb (cn_revision r =? expected)) eqn:Hrev; [done|].
  destruct (now <? cn_created_at r) eqn:Hcr; [done|]. bool_to_prop.
  set (p := fun c => bool_decide (cn_id c = id) && bool_decide (cn_status c = "active")
                     && (cn_revision c =? expected)) in *.
  destruct (update_where connection_check p _ (connections d)) as [[conns n]|] eqn:Hu; [|done].
  cbn [ok_or] in H. destruct (negb (Nat.eqb n 1)) eqn:Hn; [done|].
  destruct (queue_registration_removal _ _ _ _) as [outbox|] eqn:Hq; [|done].
  cbn [ok_or] in H. injection H as <- <-. split; [done|]. exists r.
  pose proof (find_key_Some _ _ _ _ Hf) as [Hin Hid].
  assert (p r = true) as Hpr.
  { unfold p. rewrite Hid, Hs2, Hrev, Z.eqb_refl, !bool_decide_true; done. }
  assert (forall c, c ∈ connections d -> p c = bool_decide (cn_id c = id)) as Hp.
  { intros c Hc. destruct (bool_decide (cn_id c = id)) eqn:Hcid.
    - apply bool_decide_eq_true_1 in Hcid.
      assert (c = r) as ->; [|done].
      apply (NoDup_key_inj cn_id (connections d)); [done..|congruence].
    - unfold p. by rewrite Hcid. }
  assert (forall id', find_key cn_id id' conns
    = if bool_decide (id' = id) then Some (tombstone_row (expected + 1) now r)
      else find_key cn_id id' (connections d)) as Hconns.
  { intros id'. rewrite (find_key_update cn_id _ _ _ _ _ _ id' Hu) by done.
    destruct (find_key cn_id id' (connections d)) as [c|] eqn:Hc.
    - destruct (find_key_Some _ _ _ _ Hc) as [Hcin Hcid]. simpl. rewrite Hp, Hcid by done.
      case_bool_decide as Heq; [|done]. subst id'. congruence.
    - case_bool_decide as Heq; [|done]. subst id'. congruence. }
  split; cbn [connections connection_methods connection_relays wake_registration_outbox
    budget_periods payment_attempts wake_events set_connection_relays set_connection_methods
    set_wake_registration_relays set_wake_registration_outbox set_connections]; try done.
  - apply update_where_Some in Hu as (_ & _ & Hok). auto.
  - apply update_where_Some in Hu as (-> & _ & _). apply list_fmap_ext. intros i c Hc.
    rewrite Hp; [done|]. by eapply list_elem_of_lookup_2.
  - eapply queue_removal_Some in Hq.
    2:{ cbn [connections set_connections]. fold (find_key cn_id id conns).
        rewrite Hconns, bool_decide_true; done. }
    exact Hq.
Qed.

Lemma tombstone_row_loads d d' id expected now r s :
  tombstoned id expected now r d d' -> hydrate_stored_connection d r = Ok s ->
  hydrate_stored_connection d' (tombstone_row (expected + 1) now r)
  = Ok (Stored_Tombstoned (mkConnectionTombstone id (expected + 1) now)).
Proof.
  intros Ht Hs. pose proof (find_key_Some _ _ _ _ (ts_find _ _ _ _ _ _ Ht)) as [_ Hid].
  pose proof (check_row_nonneg _ (ts_check _ _ _ _ _ _ Ht)) as (Hrev & _ & _ & Hcr & Hex).
  cbn in Hrev, Hcr, Hex. unfold hydrate_stored_connection in *.
  cbn -[hydrate_active reg_decode_u64 Z.ltb Z.leb Z.add]. rewrite Hid in *.
  destruct (ConnectionId_parse id) as [id'|] eqn:Hp; [|done]. apply ConnectionId_parse_id in Hp as ->.
  cbn [map_err]. rewrite !reg_decode_u64_nonneg by lia.
  assert (traverse_option reg_decode_u64 (cn_expires_at r) = Ok (cn_expires_at r)) as ->.
  { destruct (cn_expires_at r) as [e|]; [|done]. specialize (Hex e eq_refl).
    simpl. by rewrite reg_decode_u64_nonneg by lia. }
  assert ((now <? cn_created_at r)
    || match cn_expires_at r with Some value => value <=? cn_created_at r | None => false end = false) as ->.
  { apply orb_false_iff. split; [apply Z.ltb_ge; lia|].
    destruct (cn_expires_at r) as [e|]; [|done]. specialize (Hex e eq_refl). apply Z.leb_gt. lia. }
  rewrite (bool_decide_true ("tombstoned"%string = "tombstoned"%string)) by done.
  by rewrite Z.eqb_refl.
Qed.

Lemma tombstone_other_loads d d' id expected now r c :
  tombstoned id expected now r d d' -> cn_id c <> id ->
  hydrate_stored_connection d' c = hydrate_stored_connection d c.
Proof.
  intros Ht Hne. apply hydrate_stored_connection_ext.
  - rewrite (ts_methods _ _ _ _ _ _ Ht). apply select_delete_other.
    intros m _ ->%bool_decide_eq_true_1. by apply bool_decide_eq_false_2.
  - rewrite (ts_relays _ _ _ _ _ _ Ht). apply select_delete_other.
    intros m _ ->%bool_decide_eq_true_1. by apply bool_decide_eq_false_2.
Qed.

Lemma tombstoned_wf id expected now r d d' :
  tombstoned id expected now r d d' -> registry_wf d -> registry_wf d'.
Proof.
  intros Ht [[Hchk [Hnd1 Hnd2]] Hm Hr Hcan Hrr Hl].
  pose proof (find_key_Some _ _ _ _ (ts_find _ _ _ _ _ _ Ht)) as [Hrin Hrid].
  pose proof (ts_rows _ _ _ _ _ _ Ht) as Hrows.
  assert (forall c, c ∈ connections d -> cn_id c = id -> c = r) as Honly.
  { intros c Hc Hid. apply (NoDup_key_inj cn_id (connections d)); [done..|congruence]. }
  assert (forall id', id' <> id -> owner_active d id' -> owner_active d' id') as Hkeep.
  { intros id' Hne (c & Hc & Hid & Hs). exists c. rewrite Hrows. split; [|done].
    apply list_elem_of_fmap. exists c. by rewrite bool_decide_false by congruence. }
  split.
  - rewrite Hrows. split_and!.
    + apply Forall_fmap, Forall_forall. intros c Hc. simpl. case_bool_decide as Hid.
      * rewrite (Honly c Hc Hid). by eapply ts_check.
      * rewrite Forall_forall in Hchk. auto.
    + rewrite <- list_fmap_compose. rewrite (list_fmap_ext _ cn_id); [done|].
      intros k c _. simpl. by case_bool_decide.
    + rewrite <- list_fmap_compose.
      rewrite (list_fmap_ext _ (fun c => (cn_client_pubkey c, cn_wallet_service_pubkey c))); [done|].
      intros k c _. simpl. by case_bool_decide.
  - rewrite (ts_methods _ _ _ _ _ _ Ht).
    intros m [Hin Hno%bool_decide_eq_false_1]%elem_of_delete. apply Hkeep; [done|auto].
  - rewrite (ts_relays _ _ _ _ _ _ Ht).
    intros m [Hin Hno%bool_decide_eq_false_1]%elem_of_delete. apply Hkeep; [done|auto].
  - rewrite (ts_relays _ _ _ _ _ _ Ht). intros m [Hin _]%elem_of_delete. auto.
  - rewrite (ts_relays _ _ _ _ _ _ Ht). by apply delete_relays_wf.
  - rewrite Hrows. intros c0 (c & -> & Hc)%list_elem_of_fmap. case_bool_decide as Hid.
    + rewrite (Honly c Hc Hid). destruct (Hl r Hrin) as [s Hs].
      eexists. by eapply tombstone_row_loads.
    + erewrite tombstone_other_loads; [auto|exact Ht|done].
Qed.

(** Registry transactions on validated connections. *)
Inductive registry_step : Database -> Database -> Prop :=
| step_insert n now c d d' :
    connection_valid n -> insert_connection n now d = Ok (c, d') -> registry_step d d'
| step_import n created used now c d d' :
    connection_valid n -> import_connection n created used now d = Ok (c, d') ->
    registry_step d d'
| step_tombstone id expected now t d d' :
    tombstone_connection id expected now d = Ok (t, d') -> registry_step d d'.

Lemma import_connection_Ok n created used now d c d' :
  import_connection n created used now d = Ok (c, d') ->
  insert_connection_state n created used now d = Ok (c, d')
  /\ created <= now /\ used <= limit_sat (cp_budget (nc_policy n))
  /\ (0 < used -> allows (nc_policy n) PayInvoice = true).
Proof.
  unfold import_connection. intros H.
  destruct ((now <? created) || (limit_sat (cp_budget (nc_policy n)) <? used)
    || ((0 <? used) && negb (allows (nc_policy n) PayInvoice))) eqn:E; [done|].
  apply orb_false_elim in E as [[E1 E2]%orb_false_elim E3].
  apply Z.ltb_ge in E1, E2. split_and!; [done..|].
  intros Hu. apply Z.ltb_lt in Hu. rewrite Hu in E3. simpl in E3. by apply negb_false_iff in E3.
Qed.

Lemma registry_step_cases d d' :
  registry_step d d' -> connections_wf (connections d) ->
  (exists n created used now row, connection_valid n /\ inserted n created used now row d d')
  \/ (exists id expected now r, tombstoned id expected now r d d').
Proof.
  intros Hs Hwf. destruct Hs as [n now c d d' Hv H|n created used now c d d' Hv H|id ex now t d d' H].
  - apply insert_connection_state_Ok in H as (_ & row & H). left. eauto 10.
  - apply import_connection_Ok in H as (H & _).
    apply insert_connection_state_Ok in H as (_ & row & H). left. eauto 10.
  - apply tombstone_connection_Ok in H as (_ & r & H); [|done]. right. eauto 10.
Qed.

Lemma registry_step_wf d d' : registry_step d d' -> registry_wf d -> registry_wf d'.
Proof.
  intros Hs Hwf. destruct (registry_step_cases d d' Hs (rw_connections d Hwf))
    as [(n & cr & u & now & row & Hv & H)|(id & ex & now & r & H)].
  - by eapply inserted_wf.
  - by eapply tombstoned_wf.
Qed.

(** A tombstoned row never changes again. *)
Lemma registry_steps_keep_tombstone d d' r :
  rtc registry_step d d' -> registry_wf d -> r ∈ connections d -> cn_status r = "tombstoned" ->
  registry_wf d' /\ r ∈ connections d'.
Proof.
  induction 1 as [d|d d1 d' Hstep _ IH]; intros Hwf Hr Hs; [done|].
  apply IH; [by eapply registry_step_wf| |done].
  destruct (registry_step_cases d d1 Hstep (rw_connections d Hwf))
    as [(n & cr & u & now & row & Hv & H)|(id & ex & now & r0 & H)].
  - rewrite (ins_connections _ _ _ _ _ _ _ H). apply elem_of_app; by left.
  - rewrite (ts_rows _ _ _ _ _ _ H). apply list_elem_of_fmap. exists r. split; [|done].
    case_bool_decide as Hid; [|done]. exfalso.
    pose proof (find_key_Some _ _ _ _ (ts_find _ _ _ _ _ _ H)) as [Hin0 Hid0].
    assert (r = r0) as ->.
    { destruct (rw_connections d Hwf) as [_ [Hnd _]].
      apply (NoDup_key_inj cn_id (connections d)); [done..|congruence]. }
    destruct (ts_was _ _ _ _ _ _ H) as [Ha _]. congruence.
Qed.

Lemma load_connection_find d id r s :
  find_key cn_id id (connections d) = Some r -> hydrate_stored_connection d r = Ok s ->
  load_connection id d = Ok (Some s).
Proof.
  intros Hf Hs. unfold load_connection. fold (find_key cn_id id (connections d)).
  rewrite Hf. simpl. by rewrite Hs.
Qed.

Lemma insert_reused d n created used now c :
  c ∈ connections d ->
  cn_id c = nc_id n \/ (cn_client_pubkey c = nc_client_pubkey n
                       /\ cn_wallet_service_pubkey c = nc_wallet_service_pubkey n) ->
  is_ok (insert_connection_state n created used now d) = false.
Proof.
  intros Hc Hsame. destruct (insert_connection_state n created used now d) as [[c' d']|] eqn:E; [|done].
  apply insert_connection_state_Ok in E as (_ & row & H).
  destruct (ins_fresh _ _ _ _ _ _ _ H c Hc) as [Hne1 Hne2].
  destruct Hsame as [?|[? ?]]; [done|]. exfalso. apply Hne2. congruence.
Qed.
End RegistryLemmas.

Section RegistryQueries.
Context `{L : UrlLib} `{LL : !UrlLaws L} `{NK : NostrKeys}.

Lemma with_expiration_valid n e : connection_valid n -> connection_valid (with_expiration e n).
Proof. by intros []. Qed.

Lemma from_host_strings_valid id ck wk urls ms budget enc wp n :
  NewConnection_from_host_strings id ck wk urls (ConnectionPolicy_new ms budget) enc wp = Ok n ->
  connection_valid n /\ nc_id n = id /\ Hex32_from_hex ck = Ok (nc_client_pubkey n)
  /\ Hex32_from_hex wk = Ok (nc_wallet_service_pubkey n)
  /\ collect_results SecureRelayUrl_parse urls = Ok (nc_relays n)
  /\ nc_policy n = ConnectionPolicy_new ms budget /\ nc_encryption n = enc
  /\ nc_expires_at n = None.
Proof.
  unfold NewConnection_from_host_strings. intros H.
  destruct (ConnectionId_parse id) as [id'|] eqn:E1; [|done]. cbn [map_err] in H.
  pose proof (ConnectionId_parse_id _ _ E1) as ->.
  destruct (Hex32_from_hex ck) as [ck'|] eqn:E2; [|done]. cbn [map_err] in H.
  destruct (Hex32_from_hex wk) as [wk'|] eqn:E3; [|done]. cbn [map_err] in H.
  destruct (collect_results SecureRelayUrl_parse urls) as [rs|] eqn:E4; [|done]. cbn [map_err] in H.
  unfold NewConnection_new in H.
  destruct (bool_decide (ck' = wk') || _ || _ || _ || _ || _ || _) eqn:E5; [done|].
  destruct (negb (Nat.eqb (length (remove_dups rs)) (length rs))) eqn:E6; [done|].
  injection H as <-. split; [|done].
  apply orb_false_elim in E5 as [E5 Hm]. apply orb_false_elim in E5 as [E5 Hmax].
  apply orb_false_elim in E5 as [E5 _]. apply orb_false_elim in E5 as [E5 Hne].
  apply orb_false_elim in E5 as [E5 Hw]. apply orb_false_elim in E5 as [Hd Hc].
  assert (forall v h, Hex32_from_hex v = Ok h -> length h = 32%nat) as Hlen.
  { intros v h Hv. unfold Hex32_from_hex in Hv.
    destruct (negb (str_len v =? HEX_32_LENGTH)) eqn:El; [done|].
    apply negb_false_iff, Z.eqb_eq in El. unfold str_len, HEX_32_LENGTH in El.
    assert (length (as_bytes v) = 64%nat) as Hb by (rewrite as_bytes_length; lia).
    apply decode_pairs_spec in Hv. rewrite Hb in Hv. by destruct Hv. }
  split; cbn [nc_id nc_client_pubkey nc_wallet_service_pubkey nc_relays nc_policy].
  - done.
  - split; [eauto|by apply negb_false_iff].
  - split; [eauto|by apply negb_false_iff].
  - by apply bool_decide_eq_false_1 in Hd.
  - apply collect_results_Forall2 in E4. apply Forall_forall. intros r Hr.
    apply list_elem_of_lookup in Hr as [i Hi].
    destruct (Forall2_lookup_r _ _ _ _ _ E4 Hi) as (s & _ & Hs).
    by eapply SecureRelayUrl_parse_canonical.
  - apply Z.ltb_ge in Hmax. apply Nat.eqb_neq in Hne. lia.
  - apply negb_false_iff, Nat.eqb_eq in E6.
    assert (remove_dups rs ≡ₚ rs) as <-; [|apply NoDup_remove_dups].
    apply submseteq_length_Permutation; [|lia].
    apply NoDup_submseteq; [apply NoDup_remove_dups|]. intros x. by rewrite elem_of_remove_dups.
  - apply btree_methods_idem.
  - apply Nat.eqb_neq in Hm. intros Hnil. by rewrite Hnil in Hm.
Qed.

Lemma decode_public_key_Ok v k : decode_public_key v = Ok k -> k = v.
Proof. unfold decode_public_key. intros H. repeat case_match; by simplify_eq. Qed.

(** The fields that a loaded connection shares with its row. *)
Lemma hydrate_fields d r s :
  hydrate_stored_connection d r = Ok s ->
  match s with
  | Stored_Active c =>
      cn_status r = "active" /\ ac_id c = cn_id r /\ ac_revision c = cn_revision r
      /\ ac_created_at c = cn_created_at r /\ ac_expires_at c = cn_expires_at r
      /\ ac_client_pubkey c = cn_client_pubkey r
      /\ ac_wallet_service_pubkey c = cn_wallet_service_pubkey r
      /\ load_relays d (cn_id r) = Ok (ac_relays c)
  | Stored_Tombstoned t =>
      cn_status r = "tombstoned" /\ ct_id t = cn_id r /\ ct_revision t = cn_revision r
  end.
Proof.
  unfold hydrate_stored_connection, reg_decode_u64. intros H.
  destruct (ConnectionId_parse (cn_id r)) as [id|] eqn:Hid; [|done]. cbn [map_err] in H.
  apply ConnectionId_parse_id in Hid as ->.
  destruct (ok_or Reg_CorruptData (u64_try_from (cn_revision r))) as [rev|] eqn:E1; [|done].
  destruct (ok_or Reg_CorruptData (u64_try_from (cn_created_at r))) as [cr|] eqn:E2; [|done].
  destruct (traverse_option _ (cn_expires_at r)) as [ex|] eqn:E3; [|done].
  destruct (ok_or Reg_CorruptData (u64_try_from (cn_updated_at r))) as [up|] eqn:E4; [|done].
  assert (ex = cn_expires_at r) as ->.
  { destruct (cn_expires_at r) as [e|]; simpl in E3; [|by injection E3].
    destruct (ok_or Reg_CorruptData (u64_try_from e)) as [e'|] eqn:Ee; [|done].
    use_results. congruence. }
  use_results.
  destruct (_ || match cn_expires_at r with Some v => v <=? cn_created_at r | None => false end); [done|].
  destruct (bool_decide (cn_status r = "tombstoned")) eqn:Hs.
  - apply bool_decide_eq_true_1 in Hs. inv_run H; use_results; done.
  - destruct (bool_decide (cn_status r = "active") && null (cn_tombstoned_at r)) eqn:Ha; [|done].
    apply andb_prop in Ha as [Ha _]. apply bool_decide_eq_true_1 in Ha.
    destruct (hydrate_active _ _ _ _ _ _ _) as [c|] eqn:Hc; [|done]. injection H as <-.
    unfold hydrate_active in Hc.
    destruct (load_relays d (cn_id r)) as [relays|] eqn:Hr; [|inv_run Hc; done].
    destruct (decode_public_key (cn_client_pubkey r)) as [ck|] eqn:Hck; [|done].
    destruct (decode_public_key (cn_wallet_service_pubkey r)) as [wk|] eqn:Hwk; [|done].
    apply decode_public_key_Ok in Hck as ->. apply decode_public_key_Ok in Hwk as ->.
    by inv_run Hc.
Qed.

Lemma find_loads d id r :
  registry_wf d -> find_key cn_id id (connections d) = Some r ->
  exists s, hydrate_stored_connection d r = Ok s /\ load_connection id d = Ok (Some s)
    /\ cn_id r = id /\ connection_check r = true.
Proof.
  intros Hwf Hf. destruct (find_key_Some _ _ _ _ Hf) as [Hin Hid].
  destruct (rw_loads d Hwf r Hin) as [s Hs].
  destruct (rw_connections d Hwf) as [Hchk _]. rewrite Forall_forall in Hchk.
  exists s. split_and!; [done| |done|auto]. by eapply load_connection_find.
Qed.

Lemma tombstone_row_check now next r :
  connection_check r = true -> cn_created_at r <= now -> 0 <= next ->
  connection_check (tombstone_row next now r) = true.
Proof.
  unfold connection_check. rewrite !andb_true_iff.
  intros ((((((((((((((H1 & H2) & H3) & H4) & H5) & H6) & H7) & H8) & H9) & H10) & H11) & H12) & H13) & H14) & H15) Hnow Hnext.
  cbn [cn_id cn_revision cn_status cn_client_pubkey cn_wallet_service_pubkey cn_encryption
    cn_budget_limit_sat cn_budget_interval cn_fee_policy cn_maximum_fee_sat cn_created_at
    cn_updated_at cn_tombstoned_at cn_expires_at tombstone_row].
  split_and!; try done; [by apply Z.leb_le|by apply Z.leb_le|].
  apply orb_true_iff. right. by rewrite bool_decide_true.
Qed.

Lemma queue_removal_total id next now d r :
  query_row (fun c => bool_decide (cn_id c = id)) (connections d) = Some r ->
  length (cn_client_pubkey r) = 32%nat -> length (cn_wallet_service_pubkey r) = 32%nat ->
  0 <= next -> 0 <= now ->
  exists outbox, queue_registration_removal id next now d = Some outbox.
Proof.
  intros Hq Hc Hw Hnext Hnow. unfold queue_registration_removal, upsert_registration. rewrite Hq.
  set (removal := mkRegistrationRow _ _ _ _ _ _ _ _).
  assert (registration_check removal = true) as Hok.
  { unfold registration_check, removal, blob_length, between. simpl. rewrite Hc, Hw.
    rewrite (proj2 (Z.leb_le 0 next) Hnext), (proj2 (Z.leb_le 0 now) Hnow). done. }
  destruct (exists_row (registration_clash removal) (wake_registration_outbox d)) eqn:E.
  - unfold update_where. replace (forallb _ _) with true; [simpl; eauto|].
    symmetry. apply forallb_forall. auto.
  - exists (wake_registration_outbox d ++ [removal]). apply insert_row_Some.
    split_and!; [done..|]. by apply exists_row_false.
Qed.

(** Nothing fails once the guards of a revocation passed. *)
Lemma tombstone_total d id rev now r x :
  registry_wf d -> find_key cn_id id (connections d) = Some r -> cn_revision r = rev ->
  cn_status r = "active" -> cn_created_at r <= now -> 0 <= rev ->
  (let? (conns, updated) := ok_or Reg_DatabaseUnavailable (update_where connection_check
     (fun r => bool_decide (cn_id r = id) && bool_decide (cn_status r = "active")
               && (cn_revision r =? rev)) (tombstone_row (rev + 1) now) (connections d)) in
   if negb (Nat.eqb updated 1) then Err Reg_StaleRevision
   else
   let d := set_connections conns d in
   let? outbox := ok_or Reg_DatabaseUnavailable (queue_registration_removal id (rev + 1) now d) in
   let d := set_wake_registration_outbox outbox d in
   let mine := fun r : RelayRow string => bool_decide (rl_owner r = id) in
   let d := set_wake_registration_relays
     (insert_or_ignore relay_check relay_clash (select mine (connection_relays d))
        (wake_registration_relays d)) d in
   let d := set_connection_methods
     (delete_where (fun r => bool_decide (cm_connection_id r = id)) (connection_methods d)).1 d in
   let d := set_connection_relays (delete_where mine (connection_relays d)).1 d in
   Ok (mkConnectionTombstone id (rev + 1) now, d)) <> Err x.
Proof.
  intros Hwf Hf Hrev Hst Hcr Hpos.
  destruct (find_key_Some _ _ _ _ Hf) as [Hin Hid].
  destruct (rw_connections d Hwf) as [Hchk [Hnd _]]. rewrite Forall_forall in Hchk.
  set (p := fun c => bool_decide (cn_id c = id) && bool_decide (cn_status c = "active")
                     && (cn_revision c =? rev)).
  assert (p r = true) as Hp.
  { unfold p. rewrite Hid, Hst, Hrev, Z.eqb_refl, !bool_decide_true; done. }
  assert (forall c, p c = true -> cn_id c = id) as Hpid.
  { intros c H. unfold p in H. rewrite !andb_true_iff, bool_decide_eq_true in H. tauto. }
  assert (select p (connections d) = [r]) as Hsel.
  { apply (select_unique cn_id); [done..|]. intros c _ Hc. rewrite (Hpid c Hc). congruence. }
  pose proof (Hchk r Hin) as Hc. pose proof (check_row_nonneg r Hc) as (Hr0 & _ & _ & Hc0 & _).
  pose proof (tombstone_row_check now (rev + 1) r Hc Hcr ltac:(lia)) as Hok.
  unfold update_where. rewrite Hsel. cbn [forallb]. rewrite Hok. cbn [andb ok_or length Nat.eqb negb].
  set (conns := _ <$> connections d).
  assert (query_row (fun c => bool_decide (cn_id c = id)) conns = Some (tombstone_row (rev + 1) now r)) as Hq.
  { apply (query_row_unique cn_id); [| | |].
    - unfold conns. rewrite <- list_fmap_compose.
      rewrite (list_fmap_ext _ cn_id); [done|]. intros i c _. simpl. by destruct (p c).
    - unfold conns. apply list_elem_of_fmap. exists r. by rewrite Hp.
    - by apply bool_decide_eq_true_2.
    - intros c _ Hcid%bool_decide_eq_true_1. simpl. congruence. }
  unfold connection_check in Hc. rewrite !andb_true_iff in Hc.
  destruct (queue_removal_total id (rev + 1) now (set_connections conns d) _ Hq) as [outbox ->];
    simpl; try lia; [| |done].
  - destruct Hc as ((((((((((((((_ & _) & _) & H) & _) & _) & _) & _) & _) & _) & _) & _) & _) & _) & _).
    apply Z.eqb_eq in H. lia.
  - destruct Hc as ((((((((((((((_ & _) & _) & _) & H) & _) & _) & _) & _) & _) & _) & _) & _) & _) & _).
    apply Z.eqb_eq in H. lia.
Qed.
End RegistryQueries.

(** ** Properties *)

Section RegistryProperties.
Context `{L : UrlLib} `{LL : !UrlLaws L} `{NK : NostrKeys}.

(** A new connection is accepted exactly when its keys are distinct valid
    public keys, it lists between one relay and both relay bounds, no relay
    twice, and grants a method; nothing about it is changed. *)
Theorem NewConnection_new_spec id ck wk relays policy enc wp :
  NewConnection_new id ck wk relays policy enc wp
    = Ok (mkNewConnection id ck wk relays policy enc None)
  /\ ck <> wk /\ public_key_from_slice_ok ck = true /\ public_key_from_slice_ok wk = true
  /\ 1 <= Z.of_nat (length relays) <= Z.min (maximum_relays_per_connection wp) 8
  /\ NoDup relays /\ cp_methods policy <> []
  \/ NewConnection_new id ck wk relays policy enc wp = Err Reg_InvalidConnection
     /\ ~ (ck <> wk /\ public_key_from_slice_ok ck = true /\ public_key_from_slice_ok wk = true
           /\ 1 <= Z.of_nat (length relays) <= Z.min (maximum_relays_per_connection wp) 8
           /\ NoDup relays /\ cp_methods policy <> []).
Proof.
  assert (negb (Nat.eqb (length (remove_dups relays)) (length relays)) = false <-> NoDup relays) as Hdup.
  { rewrite negb_false_iff, Nat.eqb_eq. split.
    - intros Hlen. assert (remove_dups relays ≡ₚ relays) as <-; [|apply NoDup_remove_dups].
      apply submseteq_length_Permutation; [|lia].
      apply NoDup_submseteq; [apply NoDup_remove_dups|]. intros x. by rewrite elem_of_remove_dups.
    - intros Hnd. apply Permutation_length, NoDup_Permutation; [apply NoDup_remove_dups|done|].
      intros x. by rewrite elem_of_remove_dups. }
  assert (Nat.eqb (length (cp_methods policy)) 0 = false <-> cp_methods policy <> []) as Hm.
  { rewrite Nat.eqb_neq. by destruct (cp_methods policy). }
  unfold NewConnection_new, MAX_CONNECTION_RELAYS.
  match goal with |- context [if ?b then _ else _] => destruct b eqn:E1 end.
  - right. split; [done|]. intros (H1 & H2 & H3 & H4 & H5 & H6).
    rewrite bool_decide_false, H2, H3 in E1 by done. apply Hm in H6. rewrite H6 in E1.
    cbn [negb orb] in E1. rewrite orb_false_r in E1.
    apply orb_prop in E1 as [[E1|E1%Z.ltb_lt]%orb_prop|E1%Z.ltb_lt]; [|lia..].
    apply Nat.eqb_eq in E1. lia.
  - destruct (negb (Nat.eqb (length (remove_dups relays)) (length relays))) eqn:E2.
    + right. split; [done|]. intros (_ & _ & _ & _ & H5 & _). apply Hdup in H5. congruence.
    + left. rewrite !orb_false_iff in E1. destruct E1 as ((((((E1 & E3) & E4) & E5) & E6) & E7) & E8).
      bool_to_prop. apply Nat.eqb_neq in E5. split_and!; try done; [lia|lia|tauto|tauto].
Qed.

(** C19: A host-supplied connection that is imported loads back, by id and by keys,
    as exactly what was approved: the same keys, relays in order, methods,
    budget, encryption and expiration, at revision 0.  Other connections are
    untouched and the registry invariant is kept, so nothing ever loads as
    corrupt. *)
Theorem import_load_roundtrip d id ck wk urls ms budget enc wp n expires created used now c d'
    (Hwf : registry_wf d)
    (Hn : NewConnection_from_host_strings id ck wk urls (ConnectionPolicy_new ms budget) enc wp = Ok n)
    (Himp : import_connection (with_expiration expires n) created used now d = Ok (c, d')) :
  load_connection id d' = Ok (Some (Stored_Active c))
  /\ load_active_connection_by_keys (ac_client_pubkey c) (ac_wallet_service_pubkey c) d' = Ok (Some c)
  /\ Hex32_from_hex ck = Ok (ac_client_pubkey c)
  /\ Hex32_from_hex wk = Ok (ac_wallet_service_pubkey c)
  /\ collect_results SecureRelayUrl_parse urls = Ok (ac_relays c)
  /\ c = mkActiveConnection id 0 (ac_client_pubkey c) (ac_wallet_service_pubkey c) (ac_relays c)
           (ConnectionPolicy_new ms budget) enc created expires now
  /\ (forall id', id' <> id -> load_connection id' d' = load_connection id' d)
  /\ registry_wf d'.
Proof.
  destruct (from_host_strings_valid _ _ _ _ _ _ _ _ _ Hn)
    as (Hv & Hid & Hck & Hwk & Hurls & Hpol & Henc & _).
  apply (with_expiration_valid n expires) in Hv.
  apply import_connection_Ok in Himp as (Hins & _).
  apply insert_connection_state_Ok in Hins as (-> & row & Hins).
  pose proof (inserted_loads _ _ _ _ _ _ _ Hins Hwf Hv) as Hload.
  pose proof (inserted_wf _ _ _ _ _ _ _ Hins Hwf Hv) as Hwf'.
  destruct (ins_row _ _ _ _ _ _ _ Hins) as (fee & maxfee & _ & Hrow).
  pose proof (ins_connections _ _ _ _ _ _ _ Hins) as Hconn.
  destruct (rw_connections d' Hwf') as [_ [Hnd1 Hnd2]].
  assert (row ∈ connections d') as Hin.
  { rewrite Hconn. apply elem_of_app; right. by apply list_elem_of_singleton. }
  cbn [ac_client_pubkey ac_wallet_service_pubkey ac_relays] in *.
  cbn [with_expiration nc_id nc_client_pubkey nc_wallet_service_pubkey nc_relays nc_policy
    nc_encryption nc_expires_at] in *.
  split_and!; try done.
  - eapply load_connection_find; [|exact Hload].
    apply find_key_unique; [done|]. split; [done|]. rewrite Hrow. simpl. done.
  - unfold load_active_connection_by_keys, hydrate_active_row.
    erewrite (query_row_unique (fun c => (cn_client_pubkey c, cn_wallet_service_pubkey c)) _ _ row);
      [|done|done| |].
    + cbn [traverse_option]. rewrite Hload. done.
    + rewrite Hrow. simpl. rewrite !bool_decide_true; done.
    + intros r' _ Hr'. rewrite !andb_true_iff, !bool_decide_eq_true in Hr'.
      destruct Hr' as [[_ ->] ->]. by rewrite Hrow.
  - congruence.
  - intros id' Hne. unfold load_connection.
    fold (find_key cn_id id' (connections d')) (find_key cn_id id' (connections d)).
    rewrite Hconn, find_key_app. rewrite (bool_decide_false (cn_id row = id'))
      by (rewrite Hrow; simpl; congruence).
    destruct (find_key cn_id id' (connections d)) as [r|] eqn:Hf; [|done].
    apply find_key_Some in Hf as [_ Hr]. simpl.
    by rewrite (hydrate_other _ _ _ _ _ _ _ r Hins) by (simpl; congruence).
Qed.

(** Revocation decides every case by what is stored: unknown, already
    tombstoned, stale revision, or a clock before the creation are refused;
    otherwise it commits. *)
Theorem tombstone_decides d id rev now
    (Hwf : registry_wf d) (Hrev : 0 <= rev < i64_max) (Hnow : 0 <= now <= i64_max) :
  match load_connection id d with
  | Err _ => False
  | Ok None => tombstone_connection id rev now d = Err Reg_NotFound
  | Ok (Some (Stored_Tombstoned _)) =>
      tombstone_connection id rev now d = Err Reg_AlreadyTombstoned
  | Ok (Some (Stored_Active c)) =>
      if negb (ac_revision c =? rev) then tombstone_connection id rev now d = Err Reg_StaleRevision
      else if now <? ac_created_at c
      then tombstone_connection id rev now d = Err Reg_ValueOutOfRange
      else exists d', tombstone_connection id rev now d
             = Ok (mkConnectionTombstone id (rev + 1) now, d')
             /\ load_connection id d' = Ok (Some (Stored_Tombstoned (mkConnectionTombstone id (rev + 1) now)))
             /\ find_key wo_connection_id id (wake_registration_outbox d')
                = Some (mkRegistrationRow id (rev + 1) 0 (ac_client_pubkey c)
                          (ac_wallet_service_pubkey c) 0 now now)
             /\ registry_wf d'
  end.
Proof.
  assert (reg_sqlite_u64 rev = Ok rev) as E1 by (apply reg_sqlite_u64_Ok; lia).
  assert (reg_sqlite_u64 (rev + 1) = Ok (rev + 1)) as E2 by (apply reg_sqlite_u64_Ok; lia).
  assert (reg_sqlite_u64 now = Ok now) as E3 by (apply reg_sqlite_u64_Ok; lia).
  assert (revision_next rev = Ok (rev + 1)) as E4.
  { unfold revision_next. apply ok_or_Ok, checked_add_u64_Some. unfold u64_max, i64_max in *. lia. }
  destruct (tombstone_connection id rev now d) as [[t d']|x] eqn:Ht.
  - apply tombstone_connection_Ok in Ht as (-> & r & Ht); [|by apply rw_connections].
    pose proof (ts_find _ _ _ _ _ _ Ht) as Hf.
    destruct (find_loads d id r Hwf Hf) as (s & Hs & -> & Hid & Hc).
    destruct (ts_was _ _ _ _ _ _ Ht) as (Hst & Hr & Hcre).
    apply hydrate_fields in Hs as Hfields.
    destruct s as [c|]; [|destruct Hfields; congruence].
    destruct Hfields as (_ & _ & -> & -> & _ & -> & -> & _).
    rewrite Hr, Z.eqb_refl, (proj2 (Z.ltb_ge _ _) Hcre). cbn [negb].
    exists d'. split_and!;
      [done| |by rewrite (proj2 (upsert_find _ _ _ (ts_removal _ _ _ _ _ _ Ht))), bool_decide_true
      |by eapply tombstoned_wf].
    eapply load_connection_find.
    + rewrite (ts_connections _ _ _ _ _ _ Ht), bool_decide_true; done.
    + by eapply tombstone_row_loads.
  - unfold tombstone_connection in Ht. rewrite E1, E4 in Ht. cbn [map_err] in Ht.
    rewrite E2, E3 in Ht. fold (find_key cn_id id (connections d)) in Ht.
    destruct (find_key cn_id id (connections d)) as [r|] eqn:Hf.
    2:{ cbn [ok_or] in Ht. unfold load_connection.
        fold (find_key cn_id id (connections d)). rewrite Hf. simpl. congruence. }
    destruct (find_loads d id r Hwf Hf) as (s & Hs & -> & Hid & Hc).
    apply hydrate_fields in Hs. destruct s as [c|t].
    2:{ destruct Hs as (Hst & _). cbn [ok_or] in Ht.
        rewrite (bool_decide_true (cn_status r = "tombstoned")) in Ht by done. congruence. }
    destruct Hs as (Hst & _ & -> & -> & _). cbn [ok_or] in Ht.
    rewrite (bool_decide_false (cn_status r = "tombstoned")) in Ht by (by rewrite Hst).
    rewrite (bool_decide_true (cn_status r = "active")) in Ht by done. cbn [negb] in Ht.
    destruct (negb (cn_revision r =? rev)) eqn:Hr; [congruence|].
    destruct (now <? cn_created_at r) eqn:Hcr; [congruence|]. exfalso.
    apply Z.ltb_ge in Hcr. apply negb_false_iff, Z.eqb_eq in Hr.
    eapply (tombstone_total d id rev now r); [exact Hwf|exact Hf|exact Hr|exact Hst|exact Hcr|lia|exact Ht].
Qed.

(** C18: Revocation is permanent: after a tombstone, whatever connections are
    inserted, imported or revoked later, the id loads as that tombstone, no
    revision of it is active, it owns no method and no relay, and neither its
    id nor its key pair can be registered again. *)
Theorem revocation_is_permanent d id rev now t d1 d2
    (Hwf : registry_wf d) (Ht : tombstone_connection id rev now d = Ok (t, d1))
    (Hsteps : rtc registry_step d1 d2) :
  load_connection id d2 = Ok (Some (Stored_Tombstoned t))
  /\ (forall r, 0 <= r <= i64_max -> is_connection_revision_active id r d2 = Ok false)
  /\ (forall m, m ∈ connection_methods d2 -> cm_connection_id m <> id)
  /\ (forall l, l ∈ connection_relays d2 -> rl_owner l <> id)
  /\ exists row, find_key cn_id id (connections d) = Some row
     /\ forall n created used later,
          nc_id n = id \/ (nc_client_pubkey n = cn_client_pubkey row
                          /\ nc_wallet_service_pubkey n = cn_wallet_service_pubkey row) ->
          is_ok (import_connection n created used later d2) = false.
Proof.
  apply tombstone_connection_Ok in Ht as (-> & r & Ht); [|by apply rw_connections].
  pose proof (tombstoned_wf _ _ _ _ _ _ Ht Hwf) as Hwf1.
  pose proof (ts_find _ _ _ _ _ _ Ht) as Hf. pose proof (find_key_Some _ _ _ _ Hf) as [Hin Hid].
  set (row := tombstone_row (rev + 1) now r).
  assert (find_key cn_id id (connections d1) = Some row) as Hf1
    by (rewrite (ts_connections _ _ _ _ _ _ Ht), bool_decide_true; done).
  destruct (find_key_Some _ _ _ _ Hf1) as [Hin1 Hid1].
  destruct (registry_steps_keep_tombstone d1 d2 row Hsteps Hwf1 Hin1 eq_refl) as [Hwf2 Hin2].
  destruct (rw_connections d2 Hwf2) as [_ [Hnd2 _]].
  assert (forall c, c ∈ connections d2 -> cn_id c = id -> c = row) as Honly.
  { intros c Hc Hcid. apply (NoDup_key_inj cn_id (connections d2)); [done..|congruence]. }
  assert (find_key cn_id id (connections d2) = Some row) as Hf2 by (by apply find_key_unique).
  assert (~ owner_active d2 id) as Hna.
  { intros (c & Hc & Hcid & Hs). by rewrite (Honly c Hc Hcid) in Hs. }
  split_and!.
  - destruct (find_loads d2 id row Hwf2 Hf2) as (s & Hs & -> & _).
    unfold hydrate_stored_connection in Hs.
    destruct (ConnectionId_parse (cn_id row)) as [id'|] eqn:Hp; [|done].
    apply ConnectionId_parse_id in Hp as ->. rewrite Hid1 in Hs. cbn [map_err] in Hs.
    unfold row, tombstone_row, reg_decode_u64 in Hs.
    cbn [cn_revision cn_created_at cn_updated_at cn_expires_at cn_status cn_tombstoned_at] in Hs.
    rewrite (bool_decide_true ("tombstoned"%string = "tombstoned"%string)) in Hs by done.
    cbn [ok_or] in Hs. inv_run Hs; use_results; done.
  - intros v Hv. unfold is_connection_revision_active.
    rewrite (proj2 (reg_sqlite_u64_Ok v v)) by lia. f_equal.
    apply exists_row_false. intros c Hc. apply not_true_iff_false.
    rewrite !andb_true_iff, !bool_decide_eq_true. intros [[Hcid _] Hs].
    by rewrite (Honly c Hc Hcid) in Hs.
  - intros m Hm Hmid. apply Hna. rewrite <- Hmid. by apply (rw_methods d2).
  - intros l Hl Hlid. apply Hna. rewrite <- Hlid. by apply (rw_relays d2).
  - exists r. split; [done|]. intros n created used later Hsame.
    unfold import_connection. destruct (_ || _ || _); [done|].
    eapply insert_reused; [exact Hin2|]. rewrite Hid1. unfold row. simpl.
    destruct Hsame as [?|[? ?]]; auto.
Qed.

Lemma load_relays_stored d id relays :
  registry_wf d -> load_relays d id = Ok relays ->
  forall relay, relay ∈ relays <->
    exists r, r ∈ connection_relays d /\ rl_owner r = id /\ rl_relay_url r = relay.
Proof.
  intros Hwf H relay. unfold load_relays in H.
  set (mine := select _ _) in H.
  assert (collect_results (fun r => map_err (fun _ => Reg_CorruptData) (SecureRelayUrl_parse (rl_relay_url r)))
    (order_by (fun a b => rl_position a ?= rl_position b) mine)
    = Ok (rl_relay_url <$> order_by (fun a b => rl_position a ?= rl_position b) mine)) as Heq.
  { rewrite <- (list_fmap_id (order_by _ mine)) at 1. apply collect_results_map.
    intros r Hr. rewrite (order_by_Permutation _ mine) in Hr. apply elem_of_select in Hr as [Hr _].
    simpl. by rewrite (rw_canonical d Hwf r Hr). }
  rewrite H in Heq. injection Heq as ->.
  assert (forall r, r ∈ order_by (fun a b => rl_position a ?= rl_position b) mine <->
    r ∈ connection_relays d /\ rl_owner r = id) as Hm.
  { intros r. rewrite (order_by_Permutation _ mine). unfold mine.
    by rewrite elem_of_select, bool_decide_eq_true. }
  rewrite list_elem_of_fmap. setoid_rewrite Hm. naive_solver.
Qed.

(** The relay gate before any network access: a relay is approved for a wallet
    key exactly when some unexpired active connection of that wallet key allows
    it. *)
Theorem relay_gate d wallet relay now
    (Hwf : registry_wf d) (Hnow : 0 <= now <= i64_max) :
  exists approved, is_relay_approved_for_wallet wallet relay now d = Ok approved
  /\ (approved = true <-> exists id c, load_active_connection id d = Ok (Some c)
       /\ ac_wallet_service_pubkey c = wallet /\ allows_relay c relay = true
       /\ is_expired_at c now = false).
Proof.
  unfold is_relay_approved_for_wallet. rewrite (proj2 (reg_sqlite_u64_Ok now now)) by lia.
  eexists. split; [done|]. rewrite exists_row_true.
  destruct (rw_connections d Hwf) as [_ [Hnd _]].
  split.
  - intros (r & Hr & Hp). rewrite !andb_true_iff, !bool_decide_eq_true, exists_row_true in Hp.
    destruct Hp as [[[Hs Hw] Hex] (l & Hl & Hlp)].
    rewrite andb_true_iff, !bool_decide_eq_true in Hlp. destruct Hlp as [Ho Hu].
    assert (find_key cn_id (cn_id r) (connections d) = Some r) as Hf by (by apply find_key_unique).
    destruct (find_loads d (cn_id r) r Hwf Hf) as (s & Hsl & Hload & _).
    apply hydrate_fields in Hsl. destruct s as [c|t]; [|destruct Hsl; congruence].
    destruct Hsl as (_ & _ & _ & _ & Hce & _ & Hcw & Hrel).
    exists (cn_id r), c. unfold load_active_connection. rewrite Hload. split_and!; [done|congruence| |].
    + unfold allows_relay. apply bool_decide_eq_true. eapply load_relays_stored; eauto.
    + unfold is_expired_at. rewrite Hce. destruct (cn_expires_at r) as [e|]; [|done].
      simpl in Hex. apply Z.ltb_lt in Hex. by apply Z.leb_gt.
  - intros (id & c & Hload & Hw & Ha & Hex). unfold load_active_connection, load_connection in Hload.
    fold (find_key cn_id id (connections d)) in Hload.
    destruct (find_key cn_id id (connections d)) as [r|] eqn:Hf; [|done].
    destruct (find_loads d id r Hwf Hf) as (s & Hsl & _ & Hid & _). simpl in Hload.
    rewrite Hsl in Hload. destruct s as [c'|]; [|done]. injection Hload as <-.
    apply hydrate_fields in Hsl. destruct Hsl as (Hs & _ & _ & _ & Hce & _ & Hcw & Hrel).
    exists r. split; [by apply find_key_Some in Hf as [? _]|].
    rewrite !andb_true_iff, !bool_decide_eq_true, exists_row_true. split_and!; [done|congruence| |].
    + unfold is_expired_at in Hex. rewrite Hce in Hex. destruct (cn_expires_at r) as [e|]; [|done].
      apply Z.leb_gt in Hex. by apply Z.ltb_lt.
    + unfold allows_relay in Ha. apply bool_decide_eq_true in Ha.
      apply (load_relays_stored d (cn_id r) (ac_relays c') Hwf Hrel) in Ha as (l & Hl & Ho & Hu).
      exists l. split; [done|]. by rewrite !bool_decide_true.
Qed.

(** The listing returns exactly the active connections, each as it loads on its
    own, in creation order. *)
Theorem list_active_connections_spec d (Hwf : registry_wf d) :
  exists l, list_active_connections d = Ok l
  /\ (forall c, c ∈ l <-> load_active_connection (ac_id c) d = Ok (Some c))
  /\ StronglySorted (fun a b => ac_created_at a <= ac_created_at b) l.
Proof.
  unfold list_active_connections. set (rows := order_by _ _).
  destruct (rw_connections d Hwf) as [_ [Hnd _]].
  assert (forall r, r ∈ rows <-> r ∈ connections d /\ cn_status r = "active") as Hrows.
  { intros r. unfold rows. rewrite (order_by_Permutation _ (select _ _)), elem_of_select.
    by rewrite bool_decide_eq_true. }
  assert (exists l, collect_results (hydrate_active_row d) rows = Ok l) as [l Hl].
  { apply collect_results_total. intros r [Hr Hs]%Hrows. destruct (rw_loads d Hwf r Hr) as [s Hl].
    pose proof (hydrate_fields d r s Hl) as Hf. unfold hydrate_active_row. rewrite Hl.
    destruct s; [done|destruct Hf; congruence]. }
  exists l. split; [done|]. apply collect_results_Forall2 in Hl.
  assert (forall r c, hydrate_active_row d r = Ok c ->
    hydrate_stored_connection d r = Ok (Stored_Active c)) as Hact.
  { intros r c H. unfold hydrate_active_row in H.
    destruct (hydrate_stored_connection d r) as [[c'|]|]; [|done..]. by injection H as ->. }
  split.
  - intros c. split.
    + intros (i & Hi)%list_elem_of_lookup.
      destruct (Forall2_lookup_r _ _ _ _ _ Hl Hi) as (r & Hri & Hrc).
      apply Hact in Hrc. pose proof (hydrate_fields d r _ Hrc) as (_ & Hid & _).
      apply list_elem_of_lookup_2, Hrows in Hri as [Hr _].
      unfold load_active_connection. rewrite Hid.
      rewrite (load_connection_find d (cn_id r) r (Stored_Active c)); [done| |done].
      by apply find_key_unique.
    + intros H. unfold load_active_connection, load_connection in H.
      fold (find_key cn_id (ac_id c) (connections d)) in H.
      destruct (find_key cn_id (ac_id c) (connections d)) as [r|] eqn:Hf; [|done]. simpl in H.
      destruct (hydrate_stored_connection d r) as [s|] eqn:Hs; [|done].
      destruct s as [c'|]; [|done]. injection H as ->.
      pose proof (hydrate_fields d r _ Hs) as (Hst & _). apply find_key_Some in Hf as [Hr _].
      assert (r ∈ rows) as (i & Hi)%list_elem_of_lookup by (by apply Hrows).
      destruct (Forall2_lookup_l _ _ _ _ _ Hl Hi) as (c'' & Hci & Hrc).
      apply Hact in Hrc. rewrite Hs in Hrc. injection Hrc as ->. by eapply list_elem_of_lookup_2.
  - apply (read_sorted (fun r c => hydrate_active_row d r = Ok c) cn_created_at ac_created_at rows);
      [|done|apply order_by_key; intros; apply text_cmp_total].
    intros r c Hrc. by destruct (hydrate_fields d r _ (Hact _ _ Hrc)) as (_ & _ & _ & ? & _).
Qed.
End RegistryProperties.

(** ** Concrete runs

    A URL library that accepts every non-empty graphic text as a [wss] URL with a host,
    and a key check that accepts every key. *)

Definition sample_urls : UrlLib := {|
  Url := string;
  url_parse := fun s => if string_is_empty s || negb (forallb (fun b => (33 <=? b) && (b <=? 126)) (as_bytes s))
                        then None else Some s;
  url_scheme := fun _ => "wss"%string;
  url_host_str := fun _ => Some "relay"%string;
  url_username := fun _ => EmptyString;
  url_password := fun _ => None;
  url_fragment := fun _ => None;
  url_to_string := fun u => u |}.
Definition sample_keys : NostrKeys := {| public_key_from_slice_ok := fun _ => true |}.

Lemma sample_parse_Some s u : @url_parse sample_urls s = Some u ->
  u = s /\ s <> EmptyString /\ Forall (fun b => 33 <= b <= 126) (as_bytes s).
Proof.
  cbn. destruct (string_is_empty s) eqn:E1; [done|]. cbn [orb].
  destruct (forallb _ (as_bytes s)) eqn:E2; [|done]. intros [= <-]. split_and!; [done|by intros ->|].
  apply Forall_forall. intros b Hb. apply list_elem_of_In in Hb. rewrite forallb_forall in E2.
  specialize (E2 b Hb). cbn beta in E2. lia.
Qed.
Lemma sample_url_laws : UrlLaws sample_urls.
Proof. split; intros s u H; destruct (sample_parse_Some s u H) as (-> & H1 & _); [exact H|exact H1]. Qed.

Definition sample_budget : BudgetPolicy := mkBudgetPolicy 1000 Daily (CountTowardBudget 10).
Definition sample_wake_policy : WakePolicy := mkWakePolicy (from_secs 600) (from_secs 30) (from_secs 86400) 65536 2.
Definition client_hex : string := Hex32_to_hex (repeat 1 32).
Definition wallet_hex : string := Hex32_to_hex (repeat 2 32).
Definition sample_new (expires : option Z) : NewConnection :=
  mkNewConnection "c1" (repeat 1 32) (repeat 2 32) ["wss://a"; "wss://b"]%string
    (ConnectionPolicy_new [PayInvoice; GetInfo] sample_budget) Nip44V2 expires.
Definition sample_active : ActiveConnection :=
  mkActiveConnection "c1" 0 (repeat 1 32) (repeat 2 32) ["wss://a"; "wss://b"]%string
    (ConnectionPolicy_new [PayInvoice; GetInfo] sample_budget) Nip44V2 100 (Some 500000) 200.
(** The connection imported at 200 with 40 satoshis of its budget used. *)
Definition imported_database : Database :=
  run (@import_connection (sample_new (Some 500000)) 100 40 200 empty_database).
Definition revoked_database : Database := run (tombstone_connection "c1" 0 300 imported_database).

Lemma empty_registry_wf {U : UrlLib} {N : NostrKeys} : registry_wf empty_database.
Proof.
  split; try (by split_and!; constructor); intros x Hx; by apply elem_of_nil in Hx.
Qed.

Lemma imported_step : @registry_step sample_urls sample_keys empty_database imported_database.
Proof.
  eapply (@step_import _ _ (sample_new (Some 500000)) 100 40 200 sample_active); [|by vm_compute].
  apply (@with_expiration_valid sample_urls sample_keys (sample_new None) (Some 500000)).
  eapply (@from_host_strings_valid sample_urls sample_url_laws sample_keys "c1" client_hex wallet_hex
    ["wss://a"; "wss://b"]%string [PayInvoice; GetInfo] sample_budget Nip44V2 sample_wake_policy).
  by vm_compute.
Qed.

Lemma imported_registry_wf : @registry_wf sample_urls sample_keys imported_database.
Proof.
  eapply (@registry_step_wf sample_urls sample_keys empty_database); [apply imported_step|].
  apply empty_registry_wf.
Qed.

Lemma import_load_roundtrip_witness :
  @load_connection sample_urls sample_keys "c1" imported_database
  = Ok (Some (Stored_Active sample_active)).
Proof.
  apply (@import_load_roundtrip sample_urls sample_url_laws sample_keys empty_database "c1"
    client_hex wallet_hex ["wss://a"; "wss://b"]%string [PayInvoice; GetInfo] sample_budget Nip44V2
    sample_wake_policy (sample_new None) (Some 500000) 100 40 200 sample_active imported_database);
    [apply empty_registry_wf|by vm_compute..].
Defined.

Lemma tombstone_decides_witness :
  exists d, tombstone_connection "c1" 0 300 imported_database
            = Ok (mkConnectionTombstone "c1" 1 300, d).
Proof.
  assert (0 <= 0 < i64_max) as H1 by (by vm_compute).
  assert (0 <= 300 <= i64_max) as H2 by (by vm_compute).
  pose proof (@tombstone_decides sample_urls sample_keys imported_database "c1" 0 300
    imported_registry_wf H1 H2) as H.
  change (@load_connection sample_urls sample_keys "c1" imported_database)
    with (@Ok RegistryError _ (Some (Stored_Active sample_active))) in H.
  destruct H as (d & H & _). exists d. exact H.
Defined.

Lemma revocation_is_permanent_witness :
  @load_connection sample_urls sample_keys "c1" revoked_database
    = Ok (Some (Stored_Tombstoned (mkConnectionTombstone "c1" 1 300)))
  /\ is_connection_revision_active "c1" 0 revoked_database = Ok false.
Proof.
  assert (tombstone_connection "c1" 0 300 imported_database
    = Ok (mkConnectionTombstone "c1" 1 300, revoked_database)) as Ht by (by vm_compute).
  destruct (@revocation_is_permanent sample_urls sample_keys imported_database "c1" 0 300
    _ _ revoked_database imported_registry_wf Ht (rtc_refl _ _)) as (H1 & H2 & _).
  split; [exact H1|]. apply H2. clear. by vm_compute.
Defined.

Lemma relay_gate_witness :
  exists approved, is_relay_approved_for_wallet (repeat 2 32) "wss://b" 250 imported_database = Ok approved
  /\ (approved = true <-> exists id c, @load_active_connection sample_urls sample_keys id imported_database
       = Ok (Some c) /\ ac_wallet_service_pubkey c = repeat 2 32 /\ allows_relay c "wss://b" = true
       /\ is_expired_at c 250 = false).
Proof.
  apply (@relay_gate sample_urls sample_keys imported_database (repeat 2 32) "wss://b" 250);
    [apply imported_registry_wf|by vm_compute].
Defined.

Lemma list_active_connections_spec_witness :
  exists l, @list_active_connections sample_urls sample_keys imported_database = Ok l
  /\ (forall c, c ∈ l <-> @load_active_connection sample_urls sample_keys (ac_id c) imported_database = Ok (Some c))
  /\ StronglySorted (fun a b => ac_created_at a <= ac_created_at b) l.
Proof.
  apply (@list_active_connections_spec sample_urls sample_keys imported_database imported_registry_wf).
Defined.
