(* ===== verification/Registration.v ===== *)
(** * The wake-registration outbox

    Models [wake_registration.rs]: per connection, the latest state the wake
    provider must observe, with its retry bookkeeping.  The registry writes it
    when a connection is created or revoked. *)
From S2P Require Import Prelude Sqlite Types Policy Host Schema Ledger Registry.
#[local] Open Scope Z_scope.

Definition MAX_WAKE_REGISTRATION_BATCH : Z := 100.
Definition MAX_REGISTRATION_RELAYS : Z := 8.

Inductive WakeRegistrationError : Type :=
| Wr_DatabaseUnavailable | Wr_CorruptData | Wr_ValueOutOfRange | Wr_InvalidBatchSize
| Wr_StaleChange | Wr_InvalidRetryDelay.

#[export] Instance WakeRegistrationError_eq_dec : EqDecision WakeRegistrationError.
Proof. solve_decision. Defined.

Record WakeRegistrationChange := mkWakeRegistrationChange {
  wr_connection_id : ConnectionId;
  wr_connection_revision : ConnectionRevision;
  wr_enabled : bool;
  wr_client_pubkey : PublicKey;
  wr_wallet_service_pubkey : PublicKey;
  wr_relays : list string;
  wr_attempt_count : Z;
  wr_available_at : UnixTimestamp;
  wr_updated_at : UnixTimestamp;
}.

Definition wr_sqlite_u64 (value : Z) : Result WakeRegistrationError Z :=
  ok_or Wr_ValueOutOfRange (i64_try_from value).
Definition wr_decode_u64 (value : Z) : Result WakeRegistrationError Z :=
  ok_or Wr_CorruptData (u64_try_from value).

(** A [bool] bound as an SQL parameter. *)
Definition sql_bool (b : bool) : Z := if b then 1 else 0.

(** [WakeLedger::next_wake_registration_at]. *)
Definition next_wake_registration_at (d : Database)
  : Result WakeRegistrationError (option UnixTimestamp) :=
  traverse_option wr_decode_u64 (sql_min wo_available_at (wake_registration_outbox d)).

(** The upsert of one active connection. *)
Definition refreshed_row (enabled : bool) (now_sql : Z) (c : ConnectionRow) : RegistrationRow :=
  mkRegistrationRow (cn_id c) (cn_revision c) (sql_bool enabled) (cn_client_pubkey c)
    (cn_wallet_service_pubkey c) 0 now_sql now_sql.

(** [INSERT ... SELECT ... ON CONFLICT DO UPDATE], a row at a time. *)
Fixpoint upsert_registrations (rows : list RegistrationRow) (t : list RegistrationRow)
  : option (list RegistrationRow) :=
  match rows with
  | [] => Some t
  | row :: rows' => upsert_registration row t ≫= upsert_registrations rows'
  end.

(** [WakeLedger::requeue_active_wake_registrations_with_state]: the number of
    rows written. *)
Definition requeue_active_wake_registrations_with_state (enabled : bool) (now : UnixTimestamp)
  : Tx WakeRegistrationError nat := fun d =>
  let? now_sql := wr_sqlite_u64 now in
  let active := select (fun c => bool_decide (cn_status c = "active")) (connections d) in
  if exists_row (fun c => now_sql <? cn_updated_at c) active then Err Wr_ValueOutOfRange
  else
  let? outbox := ok_or Wr_DatabaseUnavailable
    (upsert_registrations (refreshed_row enabled now_sql <$> active) (wake_registration_outbox d)) in
  let d := set_wake_registration_outbox outbox d in
  let owned := fun r : RelayRow string => bool_decide (rl_owner r ∈ cn_id <$> active) in
  let kept := (delete_where owned (wake_registration_relays d)).1 in
  let? relays := ok_or Wr_DatabaseUnavailable
    (insert_rows relay_check relay_clash (select owned (connection_relays d)) kept) in
  Ok (length active, set_wake_registration_relays relays d).

Definition requeue_active_wake_registrations (now : UnixTimestamp) : Tx WakeRegistrationError nat :=
  requeue_active_wake_registrations_with_state true now.

Section Registration.
Context `{L : UrlLib} `{NK : NostrKeys}.

Definition wr_decode_public_key (value : list Z) : Result WakeRegistrationError PublicKey :=
  if negb (Nat.eqb (length value) 32) then Err Wr_CorruptData
  else if negb (public_key_from_slice_ok value) then Err Wr_CorruptData
  else Ok value.

Definition hydrate_change (d : Database) (row : RegistrationRow)
  : Result WakeRegistrationError WakeRegistrationChange :=
  let? id := map_err (fun _ => Wr_CorruptData) (ConnectionId_parse (wo_connection_id row)) in
  let? revision := wr_decode_u64 (wo_connection_revision row) in
  let? enabled := (if wo_desired_enabled row =? 0 then Ok false
                   else if wo_desired_enabled row =? 1 then Ok true else Err Wr_CorruptData) in
  let? client := wr_decode_public_key (wo_client_pubkey row) in
  let? wallet := wr_decode_public_key (wo_wallet_service_pubkey row) in
  if bool_decide (client = wallet) then Err Wr_CorruptData
  else
  let? attempts := ok_or Wr_CorruptData (u32_try_from (wo_attempt_count row)) in
  let? available_at := wr_decode_u64 (wo_available_at row) in
  let? updated_at := wr_decode_u64 (wo_updated_at row) in
  let? relays := collect_results
    (fun r => map_err (fun _ => Wr_CorruptData) (SecureRelayUrl_parse (rl_relay_url r)))
    (order_by (fun a b => rl_position a ?= rl_position b)
      (select (fun r => bool_decide (rl_owner r = id)) (wake_registration_relays d))) in
  if Nat.eqb (length relays) 0 || (MAX_REGISTRATION_RELAYS <? Z.of_nat (length relays))
  then Err Wr_CorruptData
  else Ok (mkWakeRegistrationChange id revision enabled client wallet relays attempts
             available_at updated_at).

(** The rows a pass examines, in its order. *)
Definition due_registrations (now_sql limit_ : Z) (d : Database) : list RegistrationRow :=
  limit limit_
    (order_by (fun a b => then_cmp (wo_available_at a ?= wo_available_at b)
                            (text_cmp (wo_connection_id a) (wo_connection_id b)))
      (select (fun r => wo_available_at r <=? now_sql) (wake_registration_outbox d))).

(** [WakeLedger::load_due_wake_registrations]. *)
Definition load_due_wake_registrations (now : UnixTimestamp) (maximum_rows : Z) (d : Database)
  : Result WakeRegistrationError (list WakeRegistrationChange) :=
  if (maximum_rows =? 0) || (MAX_WAKE_REGISTRATION_BATCH <? maximum_rows) then Err Wr_InvalidBatchSize
  else
  let? now_sql := wr_sqlite_u64 now in
  let? limit_ := ok_or Wr_InvalidBatchSize (i64_try_from maximum_rows) in
  collect_results (hydrate_change d) (due_registrations now_sql limit_ d).

End Registration.

(** The row a change was read from, not superseded since. *)
Definition is_change (change : WakeRegistrationChange) (revision updated_at : Z) (r : RegistrationRow)
  : bool :=
  bool_decide (wo_connection_id r = wr_connection_id change)
  && (wo_connection_revision r =? revision)
  && (wo_desired_enabled r =? sql_bool (wr_enabled change))
  && (wo_attempt_count r =? wr_attempt_count change)
  && (wo_updated_at r =? updated_at).

(** [WakeLedger::acknowledge_wake_registration]; the relays of the row go with it
    by [ON DELETE CASCADE]. *)
Definition acknowledge_wake_registration (change : WakeRegistrationChange)
  : Tx WakeRegistrationError unit := fun d =>
  let? revision := wr_sqlite_u64 (wr_connection_revision change) in
  let? updated_at := wr_sqlite_u64 (wr_updated_at change) in
  let removed := select (is_change change revision updated_at) (wake_registration_outbox d) in
  let d' := set_wake_registration_outbox
    (delete_where (is_change change revision updated_at) (wake_registration_outbox d)).1
    (set_wake_registration_relays
      (delete_where (fun r => bool_decide (rl_owner r ∈ wo_connection_id <$> removed))
         (wake_registration_relays d)).1 d) in
  if Nat.eqb (length removed) 1 then Ok (tt, d') else Err Wr_StaleChange.

(** [WakeLedger::retry_wake_registration]. *)
Definition retry_wake_registration (change : WakeRegistrationChange) (now : UnixTimestamp)
    (delay : Duration) : Tx WakeRegistrationError unit := fun d =>
  let seconds := duration_as_secs delay in
  if duration_is_zero delay || (seconds =? 0) then Err Wr_InvalidRetryDelay
  else if now <? wr_updated_at change then Err Wr_ValueOutOfRange
  else
  let? available_at := ok_or Wr_ValueOutOfRange (checked_add_u64 now seconds) in
  let? revision := wr_sqlite_u64 (wr_connection_revision change) in
  let? previous_updated_at := wr_sqlite_u64 (wr_updated_at change) in
  let? available_sql := wr_sqlite_u64 available_at in
  let? now_sql := wr_sqlite_u64 now in
  let? (outbox, updated) := ok_or Wr_DatabaseUnavailable (update_where registration_check
    (fun r => is_change change revision previous_updated_at r && (wo_attempt_count r <? 2147483647))
    (fun r => mkRegistrationRow (wo_connection_id r) (wo_connection_revision r)
                (wo_desired_enabled r) (wo_client_pubkey r) (wo_wallet_service_pubkey r)
                (wo_attempt_count r + 1) available_sql now_sql) (wake_registration_outbox d)) in
  if Nat.eqb updated 1 then Ok (tt, set_wake_registration_outbox outbox d) else Err Wr_StaleChange.

(** ** Transactions of the outbox *)

Inductive registration_step : Database -> Database -> Prop :=
| step_requeue enabled now n d d' :
    requeue_active_wake_registrations_with_state enabled now d = Ok (n, d') ->
    registration_step d d'
| step_acknowledge_registration change d d' :
    acknowledge_wake_registration change d = Ok (tt, d') -> registration_step d d'
| step_retry_registration change now delay d d' :
    duration delay -> retry_wake_registration change now delay d = Ok (tt, d') -> registration_step d d'.

(** The row queued for a connection, and the relays stored for one. *)
Definition queued_for (id : string) (d : Database) : option RegistrationRow :=
  find_key wo_connection_id id (wake_registration_outbox d).
Definition own_relays (id : string) (t : list (RelayRow string)) : list (RelayRow string) :=
  select (fun r => bool_decide (rl_owner r = id)) t.

(** The rows an operation on [change] can touch: at most the one queued for its
    connection, and only while it is the state [change] was read from. *)
Definition settles (change : WakeRegistrationChange) (r : RegistrationRow) : bool :=
  is_change change (wr_connection_revision change) (wr_updated_at change) r.

Lemma settles_id change r : settles change r = true -> wo_connection_id r = wr_connection_id change.
Proof.
  unfold settles, is_change. rewrite !andb_true_iff, bool_decide_eq_true. by intros [[[[-> _] _] _] _].
Qed.

(** ** Lemmas *)

Lemma wr_sqlite_u64_Ok v w : wr_sqlite_u64 v = Ok w <-> w = v /\ v <= i64_max.
Proof. unfold wr_sqlite_u64. rewrite ok_or_Ok. apply i64_try_from_Some. Qed.

Lemma wr_decode_u64_nonneg v : 0 <= v -> wr_decode_u64 v = Ok v.
Proof. intros. unfold wr_decode_u64. apply ok_or_Ok, u64_try_from_Some. lia. Qed.

Lemma elem_of_own_relays id t r : r ∈ own_relays id t <-> r ∈ t /\ rl_owner r = id.
Proof. unfold own_relays. by rewrite elem_of_select, bool_decide_eq_true. Qed.

Lemma own_relays_none id t : (forall r, r ∈ t -> rl_owner r <> id) -> own_relays id t = [].
Proof. intros H. apply select_none. intros r Hr. by apply bool_decide_eq_false_2, H. Qed.

Lemma own_relays_all id t : (forall r, r ∈ t -> rl_owner r = id) -> own_relays id t = t.
Proof. intros H. apply select_all. intros r Hr. by apply bool_decide_eq_true_2, H. Qed.

Lemma own_relays_app id t t' : own_relays id (t ++ t') = own_relays id t ++ own_relays id t'.
Proof. apply select_app. Qed.

Lemma own_relays_delete id p t :
  (forall r, r ∈ t -> rl_owner r = id -> p r = false) ->
  own_relays id (delete_where p t).1 = own_relays id t.
Proof.
  intros H. apply select_delete_other. intros r Hr Ho%bool_decide_eq_true_1. auto.
Qed.

Lemma own_relays_deleted id p t :
  (forall r, r ∈ t -> rl_owner r = id -> p r = true) -> own_relays id (delete_where p t).1 = [].
Proof.
  intros H. apply own_relays_none. intros r [Hr Hp]%elem_of_delete Ho. rewrite H in Hp; done.
Qed.

(** Choosing the rows of an owner among the chosen. *)
Lemma own_relays_select id p t :
  (forall r, r ∈ t -> rl_owner r = id -> p r = true) ->
  own_relays id (select p t) = own_relays id t.
Proof.
  unfold own_relays, select. induction t as [|r t IH]; intros H; [done|]. simpl.
  assert (forall x, x ∈ t -> rl_owner x = id -> p x = true) as H'
    by (intros; apply H; [by apply list_elem_of_further|done]).
  specialize (H r (list_elem_of_here _ _)).
  destruct (decide (rl_owner r = id)) as [Ho|Ho].
  - rewrite (bool_decide_true (rl_owner r = id)), H by done. simpl. rewrite bool_decide_true by done.
    by rewrite IH.
  - rewrite (bool_decide_false (rl_owner r = id)) by done. destruct (p r); simpl; [|by apply IH].
    rewrite (bool_decide_false (rl_owner r = id)) by done. by apply IH.
Qed.

Lemma upsert_wf row t t' : upsert_registration row t = Some t' -> outbox_wf t -> outbox_wf t'.
Proof.
  unfold upsert_registration. intros H [H1 H2]. destruct (exists_row (registration_clash row) t).
  - destruct (update_where _ _ _ t) as [[t1 n]|] eqn:Hu; [|done]. injection H as <-. split.
    + by eapply update_where_Forall; [exact Hu|exact H1|].
    + apply update_where_Some in Hu as (-> & _ & _).
      rewrite <- list_fmap_compose, (list_fmap_ext _ wo_connection_id); [done|].
      intros i x _. simpl. destruct (registration_clash row x) eqn:Hx; [|done].
      by apply bool_decide_eq_true_1 in Hx.
  - split.
    + by apply (insert_row_Forall _ _ _ _ _ _ H).
    + eapply insert_row_key; [exact H| |done]. intros r' Hr. by apply bool_decide_eq_true_2.
Qed.

Lemma upsert_all rows t t' : upsert_registrations rows t = Some t' ->
  NoDup (wo_connection_id <$> rows) -> outbox_wf t ->
  outbox_wf t' /\ Forall (fun r => registration_check r = true) rows
  /\ forall id, find_key wo_connection_id id t'
       = match find_key wo_connection_id id rows with
         | Some row => Some row | None => find_key wo_connection_id id t end.
Proof.
  revert t; induction rows as [|row rows IH]; intros t; simpl; [by intros [= <-]|].
  destruct (upsert_registration row t) as [t1|] eqn:E; [|done]. simpl. intros H [Hn Hnd]%NoDup_cons Hwf.
  destruct (upsert_find _ _ _ E) as [Hok Hfind].
  destruct (IH t1 H Hnd (upsert_wf _ _ _ E Hwf)) as (Hwf' & Hall & Hfind').
  split_and!; [done|by constructor|]. intros id. rewrite Hfind', find_key_cons, Hfind.
  destruct (decide (id = wo_connection_id row)) as [->|Hne].
  - rewrite !bool_decide_true by done. by rewrite (proj2 (find_key_None _ _ _) Hn).
  - by rewrite !bool_decide_false by congruence.
Qed.

Section RegistrationLemmas.
Context `{L : UrlLib} `{NK : NostrKeys}.

Lemma wr_decode_key v : length v = 32%nat -> public_key_from_slice_ok v = true ->
  wr_decode_public_key v = Ok v.
Proof. intros H1 H2. unfold wr_decode_public_key. by rewrite H1, H2. Qed.

(** What a stored active connection gives the row queued for it. *)
Lemma active_parts d c s :
  hydrate_stored_connection d c = Ok s -> cn_status c = "active" ->
  ConnectionId_parse (cn_id c) = Ok (cn_id c)
  /\ wr_decode_public_key (cn_client_pubkey c) = Ok (cn_client_pubkey c)
  /\ wr_decode_public_key (cn_wallet_service_pubkey c) = Ok (cn_wallet_service_pubkey c)
  /\ cn_client_pubkey c <> cn_wallet_service_pubkey c
  /\ exists relays, load_relays d (cn_id c) = Ok relays
     /\ Nat.eqb (length relays) 0 || (MAX_CONNECTION_RELAYS <? Z.of_nat (length relays)) = false.
Proof.
  unfold hydrate_stored_connection. intros H Ha.
  destruct (ConnectionId_parse (cn_id c)) as [id|] eqn:Hid; [|done].
  pose proof (ConnectionId_parse_id _ _ Hid) as ->. cbn [map_err] in H.
  rewrite Ha in H. rewrite (bool_decide_false ("active"%string = "tombstoned"%string)) in H by done.
  rewrite (bool_decide_true ("active"%string = "active"%string)) in H by done.
  destruct (reg_decode_u64 (cn_revision c)) as [rev|]; [|done].
  destruct (reg_decode_u64 (cn_created_at c)) as [cr|]; [|done].
  destruct (traverse_option _ (cn_expires_at c)) as [ex|]; [|done].
  destruct (reg_decode_u64 (cn_updated_at c)) as [up|]; [|done].
  destruct (_ || match ex with Some v => v <=? cr | None => false end); [done|].
  destruct (null (cn_tombstoned_at c)); [|done]. cbn [andb] in H.
  destruct (hydrate_active d c (cn_id c) rev cr up ex) as [a|] eqn:Hh; [|done].
  unfold hydrate_active in Hh.
  destruct (decode_public_key (cn_client_pubkey c)) as [ck|] eqn:Hck; [|done].
  destruct (decode_public_key (cn_wallet_service_pubkey c)) as [wk|] eqn:Hwk; [|done].
  pose proof (decode_public_key_Ok _ _ Hck) as ->. pose proof (decode_public_key_Ok _ _ Hwk) as ->.
  destruct (bool_decide (cn_client_pubkey c = cn_wallet_service_pubkey c)) eqn:Hne; [done|].
  apply bool_decide_eq_false_1 in Hne.
  assert (forall v, decode_public_key v = Ok v -> wr_decode_public_key v = Ok v) as Hdec.
  { unfold decode_public_key, wr_decode_public_key. intros v Hv. by repeat case_match. }
  destruct (str_to_encryption (cn_encryption c)) as [en|]; [|done].
  destruct (load_methods d (cn_id c)) as [ms|]; [|done].
  destruct (Nat.eqb (length ms) 0); [done|].
  destruct (load_relays d (cn_id c)) as [relays|] eqn:Hr; [|done].
  destruct (Nat.eqb (length relays) 0 || _) eqn:Hc; [done|].
  split_and!; [done|by apply Hdec|by apply Hdec|done|]. by exists relays.
Qed.

(** Loading a change reads the row and the relays stored for its connection. *)
Lemma hydrate_change_ext d d' w :
  own_relays (wo_connection_id w) (wake_registration_relays d')
    = own_relays (wo_connection_id w) (wake_registration_relays d) ->
  hydrate_change d' w = hydrate_change d w.
Proof.
  intros H. unfold hydrate_change. unfold own_relays in H.
  destruct (ConnectionId_parse (wo_connection_id w)) as [id|] eqn:Hid; [|done].
  apply ConnectionId_parse_id in Hid as ->. cbn [map_err]. by rewrite H.
Qed.

Lemma hydrate_change_Ok d w change :
  hydrate_change d w = Ok change ->
  wr_connection_id change = wo_connection_id w
  /\ wr_connection_revision change = wo_connection_revision w
  /\ sql_bool (wr_enabled change) = wo_desired_enabled w
  /\ wr_client_pubkey change = wo_client_pubkey w
  /\ wr_wallet_service_pubkey change = wo_wallet_service_pubkey w
  /\ wr_attempt_count change = wo_attempt_count w
  /\ wr_available_at change = wo_available_at w /\ wr_updated_at change = wo_updated_at w
  /\ 1 <= Z.of_nat (length (wr_relays change)) <= MAX_REGISTRATION_RELAYS.
Proof.
  unfold hydrate_change, wr_decode_u64, wr_decode_public_key. intros H.
  destruct (ConnectionId_parse (wo_connection_id w)) as [id|] eqn:Hid; [|done].
  apply ConnectionId_parse_id in Hid as ->. cbn [map_err] in H.
  destruct (ok_or Wr_CorruptData (u64_try_from (wo_connection_revision w))) as [rev|] eqn:E1; [|done].
  destruct (if wo_desired_enabled w =? 0 then _ else _) as [en|] eqn:E2; [|done].
  assert (sql_bool en = wo_desired_enabled w) as Hen.
  { destruct (wo_desired_enabled w =? 0) eqn:Ea;
      [injection E2 as <-; apply Z.eqb_eq in Ea; by rewrite Ea|].
    destruct (wo_desired_enabled w =? 1) eqn:Eb; [|done].
    injection E2 as <-. apply Z.eqb_eq in Eb. by rewrite Eb. }
  destruct (if negb _ then _ else if negb (public_key_from_slice_ok (wo_client_pubkey w)) then _ else _)
    as [ck|] eqn:E3; [|done].
  destruct (if negb _ then _ else if negb (public_key_from_slice_ok (wo_wallet_service_pubkey w)) then _ else _)
    as [wk|] eqn:E4; [|done].
  assert (ck = wo_client_pubkey w) as -> by (repeat case_match; by simplify_eq).
  assert (wk = wo_wallet_service_pubkey w) as -> by (repeat case_match; by simplify_eq).
  destruct (bool_decide _); [done|].
  destruct (ok_or _ (u32_try_from _)) as [n|] eqn:E5; [|done].
  assert (n = wo_attempt_count w) as ->.
  { clear H. apply ok_or_Ok in E5. unfold u32_try_from in E5.
    by destruct ((0 <=? wo_attempt_count w) && (wo_attempt_count w <=? u32_max)); simplify_eq. }
  destruct (ok_or _ (u64_try_from (wo_available_at w))) as [av|] eqn:E6; [|done].
  destruct (ok_or _ (u64_try_from (wo_updated_at w))) as [up|] eqn:E7; [|done].
  destruct (collect_results _ _) as [relays|] eqn:E8; [|done].
  destruct (Nat.eqb (length relays) 0 || _) eqn:E9; [done|]. injection H as <-.
  apply orb_false_elim in E9 as [E9 E10]. apply Nat.eqb_neq in E9. apply Z.ltb_ge in E10.
  use_results. simpl. split_and!; try done; lia.
Qed.

(** A row queued with the relays of an active connection loads. *)
Lemma active_row_loads d d' c s w :
  hydrate_stored_connection d c = Ok s -> cn_status c = "active" ->
  registration_check w = true -> wo_connection_id w = cn_id c ->
  wo_client_pubkey w = cn_client_pubkey c -> wo_wallet_service_pubkey w = cn_wallet_service_pubkey c ->
  own_relays (cn_id c) (wake_registration_relays d') = own_relays (cn_id c) (connection_relays d) ->
  is_ok (hydrate_change d' w) = true.
Proof.
  intros Hs Ha Hck Hid Hc Hw Hrel.
  destruct (active_parts d c s Hs Ha) as (Hp & Hkc & Hkw & Hne & relays & Hload & Hcount).
  unfold registration_check in Hck. check_to_prop_in Hck.
  destruct Hck as ((((((H1 & H2) & _) & _) & H3) & H4) & H5).
  unfold hydrate_change. rewrite Hid, Hc, Hw, Hp. cbn [map_err].
  rewrite (wr_decode_u64_nonneg _ H1), (wr_decode_u64_nonneg _ H4), (wr_decode_u64_nonneg _ H5).
  rewrite Hkc, Hkw, (bool_decide_false (cn_client_pubkey c = _)) by done.
  assert (exists b, (if wo_desired_enabled w =? 0 then Ok false
    else if wo_desired_enabled w =? 1 then Ok true else Err Wr_CorruptData) = Ok b) as [b ->].
  { destruct (Z.eqb_spec (wo_desired_enabled w) 0); [eauto|].
    destruct (Z.eqb_spec (wo_desired_enabled w) 1); [eauto|lia]. }
  assert (u32_try_from (wo_attempt_count w) = Some (wo_attempt_count w)) as ->.
  { unfold u32_try_from, u32_max.
    by rewrite (proj2 (Z.leb_le _ _)), (proj2 (Z.leb_le _ _)) by lia. }
  cbn [ok_or]. fold (own_relays (cn_id c) (wake_registration_relays d')). rewrite Hrel.
  unfold load_relays in Hload. fold (own_relays (cn_id c) (connection_relays d)) in Hload.
  apply collect_results_Forall2 in Hload as Hf.
  assert (collect_results (fun r => map_err (fun _ => Wr_CorruptData) (SecureRelayUrl_parse (rl_relay_url r)))
    (order_by (fun a b0 => rl_position a ?= rl_position b0) (own_relays (cn_id c) (connection_relays d)))
    = Ok relays) as ->.
  { apply collect_results_Forall2. eapply Forall2_impl; [exact Hf|]. intros r u Hu.
    apply map_err_Ok. by apply map_err_Ok in Hu. }
  change MAX_REGISTRATION_RELAYS with MAX_CONNECTION_RELAYS. by rewrite Hcount.
Qed.

(** ** The invariant *)

(** The row [w] is the state the connection [c] wants its provider to hold. *)
Record describes (d : Database) (w : RegistrationRow) (c : ConnectionRow) : Prop := {
  de_revision : wo_connection_revision w = cn_revision c;
  de_client : wo_client_pubkey w = cn_client_pubkey c;
  de_wallet : wo_wallet_service_pubkey w = cn_wallet_service_pubkey c;
  de_removal : cn_status c = "tombstoned" -> wo_desired_enabled w = 0;
  de_relays : cn_status c = "active" ->
    own_relays (cn_id c) (wake_registration_relays d) = own_relays (cn_id c) (connection_relays d);
  de_loads : is_ok (hydrate_change d w) = true;
}.

Record registration_wf (d : Database) : Prop := {
  gw_rows : outbox_wf (wake_registration_outbox d);
  gw_relays : forall r, r ∈ wake_registration_relays d -> is_Some (queued_for (rl_owner r) d);
  gw_describes : forall id w, queued_for id d = Some w ->
    exists c, find_key cn_id id (connections d) = Some c /\ describes d w c;
}.

Lemma queued_row d id w : registration_wf d -> queued_for id d = Some w ->
  wo_connection_id w = id /\ registration_check w = true.
Proof.
  intros [[Hck _] _ _] [Hin Hid]%find_key_Some. rewrite Forall_forall in Hck. auto.
Qed.

(** Only the tables of connections, relays and registrations matter. *)
Lemma describes_ext d d' w c :
  own_relays (cn_id c) (connection_relays d') = own_relays (cn_id c) (connection_relays d) ->
  own_relays (cn_id c) (wake_registration_relays d') = own_relays (cn_id c) (wake_registration_relays d) ->
  wo_connection_id w = cn_id c -> describes d w c -> describes d' w c.
Proof.
  intros Hc Hw Hid [D1 D2 D3 D4 D5 D6]. split; try done.
  - intros Ha. rewrite Hc, Hw. auto.
  - rewrite <- D6. f_equal. apply hydrate_change_ext. by rewrite Hid.
Qed.

Lemma registration_ext d d' :
  connections d' = connections d -> connection_relays d' = connection_relays d ->
  wake_registration_outbox d' = wake_registration_outbox d ->
  wake_registration_relays d' = wake_registration_relays d ->
  registration_wf d -> registration_wf d'.
Proof.
  intros Hc Hr Ho Hw Hwf. pose proof Hwf as [G1 G2 G3]. unfold queued_for in *.
  split; unfold queued_for; rewrite ?Hc, ?Ho, ?Hw; auto. intros id w Hq.
  destruct (queued_row d id w Hwf Hq) as [Hid _]. destruct (G3 id w Hq) as (c & Hf & Hd).
  exists c. split; [done|]. apply (describes_ext d); rewrite ?Hr, ?Hw; try done.
  apply find_key_Some in Hf as [_ ?]. congruence.
Qed.

Lemma inserted_registration n created used now row d d' :
  inserted n created used now row d d' -> registry_wf d' ->
  registration_wf d -> registration_wf d'.
Proof.
  intros Hins Hreg Hwf. pose proof Hwf as [G1 G2 G3].
  destruct (ins_outbox _ _ _ _ _ _ _ Hins) as (Ho & Hck & Hnew).
  set (w0 := mkRegistrationRow _ _ _ _ _ _ _ _) in *.
  destruct (ins_row _ _ _ _ _ _ _ Hins) as (fee & mf & _ & Hrow).
  pose proof (ins_connections _ _ _ _ _ _ _ Hins) as Hconn.
  assert (forall id, queued_for id d' = match queued_for id d with Some w => Some w
    | None => if bool_decide (nc_id n = id) then Some w0 else None end) as Hq.
  { intros id. unfold queued_for. by rewrite Ho, find_key_app. }
  assert (queued_for (nc_id n) d = None) as Hqn.
  { apply find_key_None. intros (x & Hx & Hin)%list_elem_of_fmap. by apply (Hnew x Hin). }
  assert (forall r, r ∈ wake_registration_relays d -> rl_owner r <> nc_id n) as Hno.
  { intros r Hr Heq. destruct (G2 r Hr) as [w Hw]. congruence. }
  pose proof (ins_wake_relays _ _ _ _ _ _ _ Hins) as Hwr. fold (own_relays (nc_id n) (connection_relays d')) in Hwr.
  split.
  - rewrite Ho. destruct G1 as [C1 C2]. split; [apply Forall_app; split; [done|by constructor]|].
    rewrite fmap_app. apply NoDup_app. split_and!; [done| |apply NoDup_singleton].
    intros k (x & -> & Hx)%list_elem_of_fmap Hk%list_elem_of_singleton. by apply (Hnew x Hx).
  - rewrite Hwr. intros r [Hr|[_ Hr]%elem_of_own_relays]%elem_of_app; rewrite Hq.
    + destruct (G2 r Hr) as [w ->]. eauto.
    + rewrite Hr, Hqn, bool_decide_true by done. eauto.
  - intros id w Hid. rewrite Hq in Hid. destruct (queued_for id d) as [w1|] eqn:Hq1.
    + injection Hid as ->. destruct (queued_row d id w Hwf Hq1) as [Hwid _].
      destruct (G3 id w Hq1) as (c & Hf & Hd). exists c.
      pose proof (find_key_Some _ _ _ _ Hf) as [Hin Hcid].
      assert (cn_id c <> nc_id n) as Hne by (by apply (ins_fresh _ _ _ _ _ _ _ Hins c Hin)).
      split; [rewrite Hconn, find_key_app; by rewrite Hf|].
      apply (describes_ext d); [| |congruence|done].
      * rewrite (ins_relays _ _ _ _ _ _ _ Hins), own_relays_app, (own_relays_none _ (relay_rows _ _));
          [by rewrite app_nil_r|]. intros r (Hr & _)%elem_of_relay_rows. congruence.
      * rewrite Hwr, own_relays_app, (own_relays_none _ (own_relays _ _)); [by rewrite app_nil_r|].
        intros r [_ Hr]%elem_of_own_relays. congruence.
    + case_bool_decide as Heq; [|done]. injection Hid as <-. subst id. exists row.
      assert (row ∈ connections d') as Hin
        by (rewrite Hconn; apply elem_of_app; right; by apply list_elem_of_singleton).
      assert (cn_id row = nc_id n) as Hrid by (by rewrite Hrow).
      assert (own_relays (cn_id row) (wake_registration_relays d')
        = own_relays (cn_id row) (connection_relays d')) as Hsame.
      { rewrite Hrid, Hwr, own_relays_app, (own_relays_none _ (wake_registration_relays d)) by done.
        apply own_relays_all. by intros r [_ ?]%elem_of_own_relays. }
      split; [apply (find_key_unique cn_id); [by apply (rw_connections d' Hreg)|done]|].
      destruct (rw_loads d' Hreg row Hin) as [s Hs].
      split; try (by rewrite Hrow); try done.
      apply (active_row_loads d' d' row s); first [exact Hsame|done|by rewrite Hrow].
Qed.

(** The relays a revocation leaves queued are those the connection had. *)
Lemma tombstoned_relays id ex now r0 d d' :
  tombstoned id ex now r0 d d' -> registry_wf d -> registration_wf d ->
  own_relays id (wake_registration_relays d') = own_relays id (connection_relays d)
  /\ (forall id', id' <> id -> own_relays id' (wake_registration_relays d')
        = own_relays id' (wake_registration_relays d))
  /\ forall r, r ∈ wake_registration_relays d' -> r ∈ wake_registration_relays d \/ rl_owner r = id.
Proof.
  intros Ht Hreg [G1 G2 G3]. pose proof (ts_find _ _ _ _ _ _ Ht) as Hf.
  pose proof (find_key_Some _ _ _ _ Hf) as [_ Hid].
  pose proof (ts_wake_relays _ _ _ _ _ _ Ht) as Hw.
  destruct (queued_for id d) as [w|] eqn:Hq.
  - destruct (G3 id w Hq) as (c & Hc & Hd). assert (c = r0) as -> by congruence.
    pose proof (de_relays _ _ _ Hd (proj1 (ts_was _ _ _ _ _ _ Ht))) as Hsame. rewrite Hid in Hsame.
    rewrite insert_or_ignore_clash in Hw.
    + rewrite Hw. split_and!; [done|done|by left].
    + fold (own_relays id (connection_relays d)). rewrite <- Hsame. intros r [Hr _]%elem_of_own_relays. exists r. split; [done|].
      unfold relay_clash. by rewrite !bool_decide_true.
  - assert (forall r, r ∈ wake_registration_relays d -> rl_owner r <> id) as Hno.
    { intros r Hr Heq. destruct (G2 r Hr) as [w Hw']. congruence. }
    rewrite (insert_or_ignore_rows _ _ _ _ _ (insert_own_relays _ _ _ (rw_relay_rows d Hreg) Hno)) in Hw.
    fold (own_relays id (connection_relays d)) in Hw. rewrite Hw. split_and!.
    + rewrite own_relays_app, (own_relays_none id (wake_registration_relays d)) by done.
      apply own_relays_all. by intros r [_ ?]%elem_of_own_relays.
    + intros id' Hne. rewrite own_relays_app, (own_relays_none id' (own_relays _ _)); [by rewrite app_nil_r|].
      intros r [_ Hr]%elem_of_own_relays. congruence.
    + intros r [Hr|[_ Hr]%elem_of_own_relays]%elem_of_app; auto.
Qed.

Lemma tombstoned_registration id ex now r0 d d' :
  tombstoned id ex now r0 d d' -> registry_wf d -> registration_wf d -> registration_wf d'.
Proof.
  intros Ht Hreg Hwf. pose proof Hwf as [G1 G2 G3].
  destruct (tombstoned_relays _ _ _ _ _ _ Ht Hreg Hwf) as (Hown & Hother & Hrows).
  destruct (upsert_find _ _ _ (ts_removal _ _ _ _ _ _ Ht)) as [Hck Hfind]. cbn in Hfind.
  pose proof (find_key_Some _ _ _ _ (ts_find _ _ _ _ _ _ Ht)) as [Hin0 Hid0].
  split.
  - by apply (upsert_wf _ _ _ (ts_removal _ _ _ _ _ _ Ht)).
  - intros r Hr. unfold queued_for. rewrite Hfind. destruct (Hrows r Hr) as [Hr'|Hr'].
    + destruct (G2 r Hr') as [w Hw]. unfold queued_for in Hw. rewrite Hw. case_bool_decide; eauto.
    + rewrite bool_decide_true by done. eauto.
  - intros id' w Hq. unfold queued_for in Hq. rewrite Hfind in Hq.
    rewrite (ts_connections _ _ _ _ _ _ Ht). case_bool_decide as Heq.
    + injection Hq as <-. eexists. split; [done|]. split; try done.
      destruct (rw_loads d Hreg r0 Hin0) as [s Hs].
      apply (active_row_loads d d' r0 s); try done; [by apply (ts_was _ _ _ _ _ _ Ht)|by rewrite Hid0].
    + destruct (queued_row d id' w Hwf Hq) as [Hwid _]. destruct (G3 id' w Hq) as (c & Hf & Hd).
      exists c. split; [done|]. apply find_key_Some in Hf as [_ Hcid].
      apply (describes_ext d); [| |congruence|done].
      * rewrite (ts_relays _ _ _ _ _ _ Ht). apply own_relays_delete.
        intros r _ Hr. apply bool_decide_eq_false_2. congruence.
      * apply Hother. congruence.
Qed.

(** A refreshed registration replaces the row of every active connection. *)
Record requeued (enabled : bool) (now : Z) (n : nat) (d d' : Database) : Prop := {
  rq_count : n = length (select (fun c => bool_decide (cn_status c = "active")) (connections d));
  rq_core : exists o w, d' = set_wake_registration_relays w (set_wake_registration_outbox o d);
  rq_rows : outbox_wf (wake_registration_outbox d');
  rq_active : forall c, c ∈ connections d -> cn_status c = "active" ->
    cn_updated_at c <= now /\ queued_for (cn_id c) d' = Some (refreshed_row enabled now c)
    /\ registration_check (refreshed_row enabled now c) = true
    /\ own_relays (cn_id c) (wake_registration_relays d') = own_relays (cn_id c) (connection_relays d);
  rq_other : forall id, (forall c, c ∈ connections d -> cn_status c = "active" -> cn_id c <> id) ->
    queued_for id d' = queued_for id d
    /\ own_relays id (wake_registration_relays d') = own_relays id (wake_registration_relays d);
}.

Lemma requeue_Ok enabled now d n d' :
  connections_wf (connections d) -> outbox_wf (wake_registration_outbox d) ->
  requeue_active_wake_registrations_with_state enabled now d = Ok (n, d') ->
  requeued enabled now n d d'.
Proof.
  intros [_ [Hnd _]] Hwf H. unfold requeue_active_wake_registrations_with_state in H.
  destruct (wr_sqlite_u64 now) as [now'|] eqn:E1; [|done]. apply wr_sqlite_u64_Ok in E1 as [-> Hnow].
  set (active := select (fun c => bool_decide (cn_status c = "active")) (connections d)) in *.
  destruct (exists_row _ active) eqn:E2; [done|]. rewrite exists_row_false in E2.
  destruct (upsert_registrations _ _) as [outbox|] eqn:E3; [|done]. cbn [ok_or] in H.
  destruct (insert_rows _ _ _ _) as [relays|] eqn:E4; [|done]. cbn [ok_or] in H. injection H as <- <-.
  assert (forall c, c ∈ active <-> c ∈ connections d /\ cn_status c = "active") as Hact.
  { intros c. unfold active. by rewrite elem_of_select, bool_decide_eq_true. }
  assert (NoDup (cn_id <$> active)) as Hnda.
  { eapply sublist_NoDup; [exact Hnd|]. apply fmap_sublist, select_sublist. }
  assert (wo_connection_id <$> (refreshed_row enabled now <$> active) = cn_id <$> active) as Hids.
  { rewrite <- list_fmap_compose. by apply list_fmap_ext. }
  destruct (upsert_all _ _ _ E3 ltac:(by rewrite Hids) Hwf) as (Hwf' & Hck & Hfind).
  apply insert_rows_Some in E4 as (-> & _). cbn [connection_relays set_wake_registration_outbox].
  set (owned := fun r : RelayRow string => bool_decide (rl_owner r ∈ cn_id <$> active)) in *.
  split; cbn [wake_registration_outbox wake_registration_relays set_wake_registration_relays
    set_wake_registration_outbox]; try done.
  - by eexists _, _.
  - intros c Hc Hs. assert (c ∈ active) as Hin by (by apply Hact).
    assert (refreshed_row enabled now c ∈ refreshed_row enabled now <$> active) as Hrin
      by (by apply list_elem_of_fmap_2).
    rewrite Forall_forall in Hck. split_and!.
    + specialize (E2 c Hin). by apply Z.ltb_ge in E2.
    + unfold queued_for. cbn. rewrite Hfind.
      assert (find_key wo_connection_id (cn_id c) (refreshed_row enabled now <$> active)
        = Some (refreshed_row enabled now c)) as ->; [|done].
      apply find_key_unique; [by rewrite Hids|done].
    + auto.
    + assert (forall r, rl_owner r = cn_id c -> owned r = true) as Ho.
      { intros r Hr. apply bool_decide_eq_true_2. rewrite Hr. by apply list_elem_of_fmap_2. }
      rewrite own_relays_app, own_relays_deleted by auto. simpl. apply own_relays_select. auto.
  - intros id Hno. assert (id ∉ cn_id <$> active) as Hni.
    { intros (c & -> & [Hc Hs]%Hact)%list_elem_of_fmap. by apply (Hno c). }
    assert (forall r, rl_owner r = id -> owned r = false) as Ho.
    { intros r Hr. apply bool_decide_eq_false_2. by rewrite Hr. }
    split.
    + unfold queued_for. cbn. rewrite Hfind, (proj2 (find_key_None _ _ _)); [done|]. by rewrite Hids.
    + rewrite own_relays_app, own_relays_delete, (own_relays_none id (select owned _));
        [by rewrite app_nil_r| |by auto].
      intros r [_ Hr]%elem_of_select Heq. rewrite Ho in Hr; done.
Qed.

Lemma requeued_registration enabled now n d d' :
  requeued enabled now n d d' -> registry_wf d -> registration_wf d -> registration_wf d'.
Proof.
  intros [_ (o & wr & Hcore) Hrows Hact Hoth] Hreg Hwf. pose proof Hwf as [G1 G2 G3].
  pose proof (rw_connections d Hreg) as [_ [Hnd _]].
  assert (connections d' = connections d /\ connection_relays d' = connection_relays d)
    as [Hc Hr] by (by subst d').
  assert (forall id, (exists c, c ∈ connections d /\ cn_status c = "active" /\ cn_id c = id)
    \/ (forall c, c ∈ connections d -> cn_status c = "active" -> cn_id c <> id)) as Hcase.
  { intros id. destruct (find_key cn_id id (connections d)) as [c|] eqn:Hf.
    - destruct (find_key_Some _ _ _ _ Hf) as [Hin Hid].
      destruct (decide (cn_status c = "active")) as [Ha|Ha]; [left; eauto|right].
      intros c' Hc' Ha' Hid'. apply Ha.
      assert (c' = c) as <- by (apply (NoDup_key_inj cn_id (connections d)); [done..|congruence]). done.
    - right. intros c Hin _ Hid. apply find_key_None in Hf. apply Hf. rewrite <- Hid.
      by apply list_elem_of_fmap_2. }
  split; [done| |].
  - intros r Hrin. destruct (Hcase (rl_owner r)) as [(c & Hin & Ha & <-)|Hno].
    + destruct (Hact c Hin Ha) as (_ & -> & _). eauto.
    + destruct (Hoth _ Hno) as [-> Hown]. apply G2.
      assert (r ∈ own_relays (rl_owner r) (wake_registration_relays d)) as Hx.
      { rewrite <- Hown. by apply elem_of_own_relays. }
      by apply elem_of_own_relays in Hx as [? _].
  - intros id w Hq. destruct (Hcase id) as [(c & Hin & Ha & <-)|Hno].
    + destruct (Hact c Hin Ha) as (_ & Hq' & Hck & Hown).
      assert (w = refreshed_row enabled now c) as -> by congruence.
      exists c. rewrite Hc. split; [by apply find_key_unique|]. split; try done; [congruence|by rewrite Hr|].
      destruct (rw_loads d Hreg c Hin) as [s Hs]. by apply (active_row_loads d d' c s).
    + destruct (Hoth _ Hno) as [Hq' Hown]. rewrite Hq' in Hq.
      destruct (queued_row d id w Hwf Hq) as [Hwid _]. destruct (G3 id w Hq) as (c & Hf & Hd).
      exists c. rewrite Hc. split; [done|]. apply find_key_Some in Hf as [_ Hcid].
      apply (describes_ext d); [by rewrite Hr| |congruence|done]. by rewrite Hcid.
Qed.

(** The two ways a change is settled. *)
Record acknowledged (change : WakeRegistrationChange) (d d' : Database) : Prop := {
  ak_current : exists w, queued_for (wr_connection_id change) d = Some w /\ settles change w = true;
  ak_core : exists o w, d' = set_wake_registration_outbox o (set_wake_registration_relays w d);
  ak_rows : outbox_wf (wake_registration_outbox d');
  ak_queued : forall id, queued_for id d'
    = if bool_decide (id = wr_connection_id change) then None else queued_for id d;
  ak_relays : forall id, own_relays id (wake_registration_relays d')
    = if bool_decide (id = wr_connection_id change) then []
      else own_relays id (wake_registration_relays d);
}.

Definition retried_row (now delay : Z) (w : RegistrationRow) : RegistrationRow :=
  mkRegistrationRow (wo_connection_id w) (wo_connection_revision w) (wo_desired_enabled w)
    (wo_client_pubkey w) (wo_wallet_service_pubkey w) (wo_attempt_count w + 1) (now + delay) now.

Record retried (change : WakeRegistrationChange) (now delay : Z) (d d' : Database) : Prop := {
  rt_current : exists w, queued_for (wr_connection_id change) d = Some w /\ settles change w = true
    /\ queued_for (wr_connection_id change) d' = Some (retried_row now delay w);
  rt_core : exists o, d' = set_wake_registration_outbox o d;
  rt_rows : outbox_wf (wake_registration_outbox d');
  rt_other : forall id, id <> wr_connection_id change -> queued_for id d' = queued_for id d;
}.

(** Both statements touch the queued row of the change or nothing. *)
Lemma settles_count change (q : RegistrationRow -> bool) d :
  outbox_wf (wake_registration_outbox d) ->
  length (select (fun r => settles change r && q r) (wake_registration_outbox d))
  = match queued_for (wr_connection_id change) d with
    | Some w => if settles change w && q w then 1%nat else 0%nat
    | None => 0%nat
    end.
Proof.
  intros [_ Hnd]. apply (select_key_count wo_connection_id); [done|].
  intros r [Hr _]%andb_prop. by apply settles_id.
Qed.

Lemma acknowledge_registration_run change d :
  outbox_wf (wake_registration_outbox d) ->
  wr_connection_revision change <= i64_max -> wr_updated_at change <= i64_max ->
  match acknowledge_wake_registration change d with
  | Ok (_, d') => acknowledged change d d'
  | Err x => x = Wr_StaleChange
      /\ forall w, queued_for (wr_connection_id change) d = Some w -> settles change w = false
  end.
Proof.
  intros Hwf Hrev Hup. unfold acknowledge_wake_registration.
  rewrite (proj2 (wr_sqlite_u64_Ok _ _) (conj eq_refl Hrev)),
    (proj2 (wr_sqlite_u64_Ok _ _) (conj eq_refl Hup)).
  change (is_change change (wr_connection_revision change) (wr_updated_at change)) with (settles change).
  pose proof (settles_count change (fun _ => true) d Hwf) as Hn.
  rewrite (select_ext _ (settles change)) in Hn by (intros; apply andb_true_r).
  cbv zeta. rewrite Hn. destruct Hwf as [Hck Hnd].
  destruct (queued_for (wr_connection_id change) d) as [w|] eqn:Hq; [|by split].
  rewrite andb_true_r. destruct (settles change w) eqn:Hs; cbn [Nat.eqb].
  2:{ split; [done|]. intros w' [= <-]. done. }
  destruct (find_key_Some _ _ _ _ Hq) as [Hin Hid].
  assert (select (settles change) (wake_registration_outbox d) = [w]) as Hsel.
  { apply (select_unique wo_connection_id); [done..|]. intros r _ Hr%settles_id. congruence. }
  assert (forall r, r ∈ wake_registration_outbox d ->
    settles change r = bool_decide (wo_connection_id r = wr_connection_id change)) as Hiff.
  { intros r Hr. case_bool_decide as Hrid.
    - assert (r = w) as ->; [|done].
      apply (NoDup_key_inj wo_connection_id (wake_registration_outbox d)); [done..|congruence].
    - apply not_true_iff_false. by intros ?%settles_id. }
  split; cbn [wake_registration_outbox wake_registration_relays set_wake_registration_outbox
    set_wake_registration_relays].
  - eauto.
  - by eexists _, _.
  - split; auto with nwc.
  - intros id. unfold queued_for. cbn [wake_registration_outbox set_wake_registration_outbox].
    rewrite find_key_delete by done.
    destruct (find_key wo_connection_id id (wake_registration_outbox d)) as [r|] eqn:Hr;
      [|by case_bool_decide].
    destruct (find_key_Some _ _ _ _ Hr) as [Hrin Hrid]. rewrite (Hiff r Hrin), Hrid. done.
  - intros id. rewrite Hsel. change (wo_connection_id <$> [w]) with [wo_connection_id w].
    case_bool_decide as Heq.
    + apply own_relays_deleted. intros r _ Hr. apply bool_decide_eq_true_2, list_elem_of_singleton. congruence.
    + apply own_relays_delete. intros r _ Hr. apply bool_decide_eq_false_2.
      rewrite list_elem_of_singleton. congruence.
Qed.

(** The arguments a retry is refused for, whatever is queued. *)
Definition retry_arguments (change : WakeRegistrationChange) (now : UnixTimestamp) (delay : Duration)
  : option WakeRegistrationError :=
  if duration_as_secs delay =? 0 then Some Wr_InvalidRetryDelay
  else if (now <? wr_updated_at change) || (i64_max <? now + duration_as_secs delay)
  then Some Wr_ValueOutOfRange else None.

Lemma settles_row change w : settles change w = true ->
  wo_connection_id w = wr_connection_id change
  /\ wo_connection_revision w = wr_connection_revision change
  /\ wo_desired_enabled w = sql_bool (wr_enabled change)
  /\ wo_attempt_count w = wr_attempt_count change /\ wo_updated_at w = wr_updated_at change.
Proof.
  unfold settles, is_change. rewrite !andb_true_iff, bool_decide_eq_true, !Z.eqb_eq.
  by intros [[[[? ?] ?] ?] ?].
Qed.

Lemma retry_registration_run change now delay d :
  outbox_wf (wake_registration_outbox d) -> duration delay ->
  wr_connection_revision change <= i64_max -> wr_updated_at change <= i64_max ->
  match retry_wake_registration change now delay d with
  | Ok (_, d') => retry_arguments change now delay = None
      /\ retried change now (duration_as_secs delay) d d'
  | Err x => match retry_arguments change now delay with
      | Some y => x = y
      | None => x = Wr_StaleChange /\ forall w, queued_for (wr_connection_id change) d = Some w ->
          settles change w = false \/ 2147483647 <= wo_attempt_count w
      end
  end.
Proof.
  intros Hwf [Hd _] Hrev Hup. unfold retry_wake_registration, retry_arguments.
  set (secs := duration_as_secs delay).
  assert (0 <= secs) as Hsecs by (by apply Z.div_pos).
  assert (duration_is_zero delay || (secs =? 0) = (secs =? 0)) as ->.
  { unfold duration_is_zero. destruct (Z.eqb_spec delay 0) as [E|]; [|done].
    unfold secs, duration_as_secs. by rewrite E. }
  destruct (Z.eqb_spec secs 0) as [|Hs0]; [done|].
  destruct (Z.ltb_spec now (wr_updated_at change)) as [|Hnow]; [done|]. cbn [orb].
  rewrite (proj2 (wr_sqlite_u64_Ok _ _) (conj eq_refl Hrev)),
    (proj2 (wr_sqlite_u64_Ok _ _) (conj eq_refl Hup)).
  destruct (Z.ltb_spec i64_max (now + secs)) as [Hbig|Hsmall].
  { destruct (checked_add_u64 now secs) as [a|] eqn:Ea; [|done].
    apply checked_add_u64_Some in Ea as [-> _]. cbn [ok_or].
    destruct (wr_sqlite_u64 (now + secs)) as [b|] eqn:Eb;
      [apply wr_sqlite_u64_Ok in Eb; lia|].
    unfold wr_sqlite_u64 in Eb. destruct (i64_try_from _); simpl in Eb; by simplify_eq. }
  rewrite (proj2 (checked_add_u64_Some now secs (now + secs))).
  2:{ split; [done|]. unfold i64_max, u64_max in *. lia. }
  cbn [ok_or]. rewrite (proj2 (wr_sqlite_u64_Ok _ _) (conj eq_refl Hsmall)).
  rewrite (proj2 (wr_sqlite_u64_Ok now now)) by lia.
  change (is_change change (wr_connection_revision change) (wr_updated_at change)) with (settles change).
  pose proof (settles_count change (fun r => wo_attempt_count r <? 2147483647) d Hwf) as Hn.
  pose proof Hwf as [Hck Hnd]. rewrite Forall_forall in Hck.
  destruct (update_where _ _ _ _) as [[t n]|] eqn:Hu.
  2:{ exfalso. unfold update_where in Hu. destruct (forallb _ _) eqn:Hall; [done|].
      apply not_true_iff_false in Hall. apply Hall, forallb_forall.
      intros r [Hin [Hs Ha]%andb_prop]%list_elem_of_In%elem_of_select.
      specialize (Hck r Hin). pose proof (settles_row _ _ Hs) as (_ & _ & _ & _ & Hup').
      unfold registration_check in *. check_to_prop_in Hck. bool_to_prop. check_to_prop.
      cbn. destruct Hck as ((((((? & ?) & ?) & ?) & ?) & ?) & ?). split_and!; try done; lia. }
  cbn [ok_or]. pose proof (update_where_Some _ _ _ _ _ _ Hu) as (_ & -> & _). rewrite Hn.
  destruct (queued_for (wr_connection_id change) d) as [w|] eqn:Hq; [|by split].
  destruct (settles change w && (wo_attempt_count w <? 2147483647)) eqn:Hs; cbn [Nat.eqb].
  2:{ split; [done|]. intros w' [= <-]. apply andb_false_iff in Hs as [?|?%Z.ltb_ge]; auto. }
  split; [done|]. split; cbn [wake_registration_outbox set_wake_registration_outbox].
  - exists w. split_and!; [done|by apply andb_prop in Hs as [? _]|].
    unfold queued_for in *. cbn [wake_registration_outbox set_wake_registration_outbox].
    rewrite (find_key_update wo_connection_id _ _ _ _ _ _ _ Hu), Hq by done. simpl. by rewrite Hs.
  - by eexists.
  - split; [eapply update_where_Forall; [exact Hu|by apply Hwf|done]|].
    by rewrite (update_where_key wo_connection_id _ _ _ _ _ _ Hu).
  - intros id Hne. unfold queued_for. cbn [wake_registration_outbox set_wake_registration_outbox].
    rewrite (find_key_update wo_connection_id _ _ _ _ _ _ _ Hu) by done.
    destruct (find_key wo_connection_id id (wake_registration_outbox d)) as [r|] eqn:Hr; [|done].
    simpl. destruct (settles change r) eqn:Hsr; [|done]. apply settles_id in Hsr.
    apply find_key_Some in Hr as [_ ?]. congruence.
Qed.

Lemma hydrate_retried d w now delay :
  is_ok (hydrate_change d w) = true -> registration_check (retried_row now delay w) = true ->
  is_ok (hydrate_change d (retried_row now delay w)) = true.
Proof.
  intros H Hck. unfold registration_check in Hck. check_to_prop_in Hck.
  destruct Hck as ((((((H1 & _) & _) & _) & H3) & H4) & H5). cbn in H1, H3, H4, H5.
  unfold hydrate_change in *. cbn [retried_row wo_connection_id wo_connection_revision
    wo_desired_enabled wo_client_pubkey wo_wallet_service_pubkey wo_attempt_count
    wo_available_at wo_updated_at].
  destruct (ConnectionId_parse (wo_connection_id w)) as [id|]; [|done]. cbn [map_err] in *.
  destruct (wr_decode_u64 (wo_connection_revision w)); [|done].
  destruct (if wo_desired_enabled w =? 0 then _ else _); [|done].
  destruct (wr_decode_public_key (wo_client_pubkey w)) as [ck|]; [|done].
  destruct (wr_decode_public_key (wo_wallet_service_pubkey w)) as [wk|]; [|done].
  destruct (bool_decide (ck = wk)); [done|].
  assert (u32_try_from (wo_attempt_count w + 1) = Some (wo_attempt_count w + 1)) as ->.
  { unfold u32_try_from, u32_max. by rewrite (proj2 (Z.leb_le _ _)), (proj2 (Z.leb_le _ _)) by lia. }
  rewrite (wr_decode_u64_nonneg _ H4), (wr_decode_u64_nonneg _ H5). cbn [ok_or].
  destruct (ok_or _ (u32_try_from (wo_attempt_count w))); [|done].
  destruct (wr_decode_u64 (wo_available_at w)); [|done]. destruct (wr_decode_u64 (wo_updated_at w)); [|done].
  destruct (collect_results _ _) as [relays|]; [|done]. by destruct (Nat.eqb (length relays) 0 || _).
Qed.

Lemma acknowledged_registration change d d' :
  acknowledged change d d' -> registration_wf d -> registration_wf d'.
Proof.
  intros [_ (o & wr & Hcore) Hrows Hq Hrel] Hwf. pose proof Hwf as [G1 G2 G3].
  assert (connections d' = connections d /\ connection_relays d' = connection_relays d)
    as [Hc Hr] by (by subst d').
  split; [done| |].
  - intros r Hin. assert (r ∈ own_relays (rl_owner r) (wake_registration_relays d')) as Hx
      by (by apply elem_of_own_relays).
    rewrite Hrel in Hx. rewrite Hq. case_bool_decide; [by apply elem_of_nil in Hx|].
    apply elem_of_own_relays in Hx as [? _]. by apply G2.
  - intros id w Hw. rewrite Hq in Hw. case_bool_decide as Hne; [done|].
    destruct (queued_row d id w Hwf Hw) as [Hwid _]. destruct (G3 id w Hw) as (c & Hf & Hd).
    exists c. rewrite Hc. split; [done|]. apply find_key_Some in Hf as [_ Hcid].
    apply (describes_ext d); [by rewrite Hr| |congruence|done].
    by rewrite Hrel, bool_decide_false by congruence.
Qed.

Lemma retried_registration change now delay d d' :
  retried change now delay d d' -> registration_wf d -> registration_wf d'.
Proof.
  intros [(w & Hw & Hs & Hw') (o & Hcore) Hrows Hother] Hwf. pose proof Hwf as [G1 G2 G3].
  assert (connections d' = connections d /\ connection_relays d' = connection_relays d
    /\ wake_registration_relays d' = wake_registration_relays d) as (Hc & Hr & Hwr) by (by subst d').
  assert (forall x, hydrate_change d' x = hydrate_change d x) as Hext
    by (intros; apply hydrate_change_ext; by rewrite Hwr).
  split; [done| |].
  - rewrite Hwr. intros r [x Hx]%G2. destruct (decide (rl_owner r = wr_connection_id change)) as [->|Hne].
    + rewrite Hw'. eauto.
    + rewrite Hother by done. eauto.
  - intros id x Hx. destruct (decide (id = wr_connection_id change)) as [->|Hne].
    + assert (x = retried_row now delay w) as -> by congruence.
      destruct (G3 _ w Hw) as (c & Hf & [D1 D2 D3 D4 D5 D6]). exists c. rewrite Hc. split; [done|].
      split; try done; [by rewrite Hr, Hwr|]. rewrite Hext. apply hydrate_retried; [done|].
      apply find_key_Some in Hw' as [Hin _]. destruct Hrows as [Hck _]. rewrite Forall_forall in Hck. auto.
    + rewrite Hother in Hx by done. destruct (queued_row d id x Hwf Hx) as [Hwid _].
      destruct (G3 id x Hx) as (c & Hf & Hd). exists c. rewrite Hc. split; [done|].
      apply find_key_Some in Hf as [_ Hcid].
      apply (describes_ext d); [by rewrite Hr|by rewrite Hwr|congruence|done].
Qed.

Lemma acknowledge_registration_Ok change d d' :
  outbox_wf (wake_registration_outbox d) -> acknowledge_wake_registration change d = Ok (tt, d') ->
  acknowledged change d d'.
Proof.
  intros Hrows H.
  assert (wr_connection_revision change <= i64_max /\ wr_updated_at change <= i64_max) as [H1 H2].
  { unfold acknowledge_wake_registration in H.
    destruct (wr_sqlite_u64 (wr_connection_revision change)) eqn:E1; [|done].
    destruct (wr_sqlite_u64 (wr_updated_at change)) eqn:E2; [|done].
    apply wr_sqlite_u64_Ok in E1 as [_ ?], E2 as [_ ?]. done. }
  pose proof (acknowledge_registration_run change d Hrows H1 H2) as Hrun. by rewrite H in Hrun.
Qed.

Lemma retry_registration_Ok change now delay d d' :
  outbox_wf (wake_registration_outbox d) -> duration delay ->
  retry_wake_registration change now delay d = Ok (tt, d') ->
  retried change now (duration_as_secs delay) d d'.
Proof.
  intros Hrows Hd H.
  assert (wr_connection_revision change <= i64_max /\ wr_updated_at change <= i64_max) as [H1 H2].
  { unfold retry_wake_registration in H. destruct (_ || _); [done|].
    destruct (now <? wr_updated_at change); [done|]. destruct (ok_or _ (checked_add_u64 _ _)); [|done].
    destruct (wr_sqlite_u64 (wr_connection_revision change)) eqn:E1; [|done].
    destruct (wr_sqlite_u64 (wr_updated_at change)) eqn:E2; [|done].
    apply wr_sqlite_u64_Ok in E1 as [_ ?], E2 as [_ ?]. done. }
  pose proof (retry_registration_run change now delay d Hrows Hd H1 H2) as Hrun.
  rewrite H in Hrun. by destruct Hrun.
Qed.

(** Every transaction of the outbox, by what it did. *)
Inductive registration_effect (d d' : Database) : Prop :=
| re_requeued enabled now n : requeued enabled now n d d' -> registration_effect d d'
| re_acknowledged change : acknowledge_wake_registration change d = Ok (tt, d') ->
    acknowledged change d d' -> registration_effect d d'
| re_retried change now delay : retried change now delay d d' -> registration_effect d d'.

Lemma registration_step_effect d d' :
  registration_step d d' -> registry_wf d -> registration_wf d -> registration_effect d d'.
Proof.
  intros Hs Hreg [Hrows _ _].
  destruct Hs as [enabled now n d d' H|change d d' H|change now delay d d' Hd H].
  - eapply re_requeued, requeue_Ok; [apply (rw_connections d Hreg)|done|exact H].
  - by eapply (re_acknowledged _ _ change), acknowledge_registration_Ok.
  - eapply re_retried, retry_registration_Ok; [exact Hrows|exact Hd|exact H].
Qed.

Lemma registration_step_wf d d' :
  registration_step d d' -> registry_wf d -> registration_wf d -> registration_wf d'.
Proof.
  intros Hs Hreg Hwf. destruct (registration_step_effect d d' Hs Hreg Hwf).
  - by eapply requeued_registration.
  - by eapply acknowledged_registration.
  - by eapply retried_registration.
Qed.

(** ** Properties *)

(** The change is still what its connection waits to have applied. *)
Definition current (change : WakeRegistrationChange) (d : Database) : bool :=
  match queued_for (wr_connection_id change) d with Some w => settles change w | None => false end.

Lemma settled_once change d' :
  registration_wf d' ->
  (forall w, queued_for (wr_connection_id change) d' = Some w -> settles change w = false) ->
  wr_connection_revision change <= i64_max -> wr_updated_at change <= i64_max ->
  acknowledge_wake_registration change d' = Err Wr_StaleChange.
Proof.
  intros [Hrows _ _] Hno H1 H2.
  pose proof (acknowledge_registration_run change d' Hrows H1 H2) as H.
  destruct (acknowledge_wake_registration change d') as [[u d2]|x].
  - destruct (ak_current _ _ _ H) as (w & Hw & Hs). rewrite (Hno w Hw) in Hs. done.
  - by destruct H as [-> _].
Qed.

(** What is read from a queued row is current. *)
Lemma hydrated_current d w change :
  queued_for (wo_connection_id w) d = Some w -> hydrate_change d w = Ok change -> current change d = true.
Proof.
  intros Hq He. destruct (hydrate_change_Ok d w change He) as (E1 & E2 & E3 & _ & _ & E6 & _ & E8 & _).
  unfold current. rewrite E1, Hq. unfold settles, is_change.
  by rewrite E1, E2, E3, E6, E8, bool_decide_true, !Z.eqb_refl.
Qed.

(** A provider state is settled by the change it was read as, and by no other: the
    acknowledgement removes the row and the retry defers it exactly when the
    change is current, otherwise both are refused as stale and write nothing;
    the row of every other connection stays, and a settled change cannot be
    settled again. *)
Theorem registration_settlement change now delay d
    (Hwf : registration_wf d) (Hd : duration delay)
    (Hrev : wr_connection_revision change <= i64_max) (Hup : wr_updated_at change <= i64_max) :
  let id := wr_connection_id change in
  let settled d' := registration_wf d' /\ (forall other, other <> id -> queued_for other d' = queued_for other d)
    /\ acknowledge_wake_registration change d' = Err Wr_StaleChange in
  (match acknowledge_wake_registration change d with
   | Ok (_, d') => current change d = true /\ queued_for id d' = None /\ settled d'
   | Err x => current change d = false /\ x = Wr_StaleChange
   end)
  /\ match retry_wake_registration change now delay d with
      | Ok (_, d') => current change d = true /\ retry_arguments change now delay = None /\ settled d'
          /\ exists w, queued_for id d = Some w
             /\ queued_for id d' = Some (retried_row now (duration_as_secs delay) w)
      | Err x => match retry_arguments change now delay with
          | Some y => x = y
          | None => x = Wr_StaleChange
              /\ (current change d = true -> wr_attempt_count change = 2147483647)
          end
      end.
Proof.
  pose proof Hwf as [Hrows _ _]. unfold current. split.
  - pose proof (acknowledge_registration_run change d Hrows Hrev Hup) as Hr.
    destruct (acknowledge_wake_registration change d) as [[u d']|x].
    + pose proof (acknowledged_registration _ _ _ Hr Hwf) as Hwf'.
      destruct Hr as [(w & Hw & Hs) _ _ Hq _]. rewrite Hw, Hs, Hq, bool_decide_true by done.
      split_and!; try done; [intros o Ho; by rewrite Hq, bool_decide_false|].
      apply (settled_once change); auto. by rewrite Hq, bool_decide_true.
    + destruct Hr as [-> Hno]. destruct (queued_for _ d) as [w|]; auto.
  - pose proof (retry_registration_run change now delay d Hrows Hd Hrev Hup) as Hr.
    destruct (retry_wake_registration change now delay d) as [[u d']|x].
    + destruct Hr as [Ha Hr]. pose proof (retried_registration _ _ _ _ _ Hr Hwf) as Hwf'.
      destruct Hr as [(w & Hw & Hs & Hw') _ _ Hother]. rewrite Hw, Hs.
      split_and!; try done; [|by exists w].
      apply (settled_once change); auto. rewrite Hw'. intros w' [= <-].
      apply not_true_iff_false. intros (_ & _ & _ & Hn & _)%settles_row.
      apply settles_row in Hs as (_ & _ & _ & Hn' & _). cbn in Hn. lia.
    + destruct (retry_arguments change now delay); [done|]. destruct Hr as [-> Hno]. split; [done|].
      destruct (queued_for _ d) as [w|] eqn:Hw; [|done]. intros Hs.
      destruct (Hno w eq_refl) as [?|Hmax]; [congruence|].
      destruct (queued_row d _ w Hwf Hw) as [_ Hck]. unfold registration_check in Hck.
      check_to_prop_in Hck. apply settles_row in Hs as (_ & _ & _ & <- & _).
      destruct Hck as (((_ & H3) & _) & _). lia.
Qed.

(** The worker never starves and never stalls: a pass loads exactly as many changes
    as are due, up to its limit and in the order they became available; each is
    the current state of a stored connection with at least one relay, a removal
    if that connection is revoked; and whatever the limit left out became
    available no earlier than what was loaded. *)
Theorem due_registrations_load d now maximum
    (Hwf : registration_wf d) (Hnow : now <= i64_max)
    (Hmax : 1 <= maximum <= MAX_WAKE_REGISTRATION_BATCH) :
  let due := select (fun w => wo_available_at w <=? now) (wake_registration_outbox d) in
  exists changes, load_due_wake_registrations now maximum d = Ok changes
  /\ length changes = Nat.min (Z.to_nat maximum) (length due)
  /\ StronglySorted (fun a b => wr_available_at a <= wr_available_at b) changes
  /\ (forall change, change ∈ changes ->
       current change d = true /\ wr_available_at change <= now
       /\ 1 <= Z.of_nat (length (wr_relays change)) <= MAX_REGISTRATION_RELAYS
       /\ exists c, find_key cn_id (wr_connection_id change) (connections d) = Some c
          /\ wr_connection_revision change = cn_revision c
          /\ wr_client_pubkey change = cn_client_pubkey c
          /\ wr_wallet_service_pubkey change = cn_wallet_service_pubkey c
          /\ (cn_status c = "tombstoned" -> wr_enabled change = false))
  /\ (forall change w, change ∈ changes -> w ∈ due ->
       (forall other, other ∈ changes -> wr_connection_id other <> wo_connection_id w) ->
       wr_available_at change <= wo_available_at w).
Proof.
  intros due. pose proof Hwf as [[Hck Hnd] _ G3]. unfold load_due_wake_registrations.
  unfold MAX_WAKE_REGISTRATION_BATCH, MAX_REGISTRATION_RELAYS in *.
  rewrite (proj2 (Z.eqb_neq maximum 0)), (proj2 (Z.ltb_ge 100 maximum)) by lia. cbn [orb].
  rewrite (proj2 (wr_sqlite_u64_Ok _ _) (conj eq_refl Hnow)).
  rewrite (proj2 (i64_try_from_Some maximum maximum)) by (unfold i64_max; lia). cbn [ok_or].
  set (sorted := order_by (fun a b => then_cmp (wo_available_at a ?= wo_available_at b)
    (text_cmp (wo_connection_id a) (wo_connection_id b))) due).
  change (due_registrations now maximum d) with (limit maximum sorted).
  assert (sorted ≡ₚ due) as Hperm by apply order_by_Permutation.
  assert (StronglySorted (fun a b => wo_available_at a <= wo_available_at b) sorted) as Hs
    by (apply order_by_key; intros; apply text_cmp_total).
  assert (forall w, w ∈ limit maximum sorted -> w ∈ due) as Hlim
    by (intros w Hw; rewrite <- Hperm; eapply elem_of_limit, Hw).
  assert (forall w, w ∈ due -> queued_for (wo_connection_id w) d = Some w /\ wo_available_at w <= now) as Hdue.
  { intros w [Hin Hav%Z.leb_le]%elem_of_select. split; [|done]. by apply find_key_unique. }
  destruct (collect_results_total (hydrate_change d) (limit maximum sorted)) as [changes Hl].
  { intros w Hw%Hlim%Hdue. destruct Hw as [Hq _]. by destruct (G3 _ _ Hq) as (c & _ & []). }
  exists changes. split; [done|]. apply collect_results_Forall2 in Hl.
  assert (forall change, change ∈ changes -> exists w, w ∈ limit maximum sorted
    /\ hydrate_change d w = Ok change) as Hread.
  { intros change (i & Hi)%list_elem_of_lookup. destruct (Forall2_lookup_r _ _ _ _ _ Hl Hi) as (w & Hw & He).
    exists w. split; [by eapply list_elem_of_lookup_2|done]. }
  split_and!.
  - rewrite <- (Forall2_length _ _ _ Hl). unfold limit. by rewrite length_take, Hperm.
  - apply (read_sorted _ wo_available_at wr_available_at _ _ (fun w c H => proj1 (proj2 (proj2 (proj2
      (proj2 (proj2 (proj2 (hydrate_change_Ok d w c H)))))))) Hl).
    by apply limit_sorted.
  - intros change Hc. destruct (Hread change Hc) as (w & Hw & He). apply Hlim, Hdue in Hw as [Hq Hav].
    destruct (hydrate_change_Ok d w change He) as (E1 & E2 & E3 & E4 & E5 & E6 & E7 & E8 & E9).
    destruct (G3 _ _ Hq) as (c & Hf & [D1 D2 D3 D4 _ _]). rewrite E1. split_and!.
    + by eapply hydrated_current.
    + lia.
    + apply E9.
    + apply E9.
    + exists c. split_and!; [done|congruence..|]. intros Ht. specialize (D4 Ht).
      rewrite <- E3 in D4. by destruct (wr_enabled change).
  - intros change w Hc Hw Hno. destruct (Hread change Hc) as (w0 & Hw0 & He).
    destruct (hydrate_change_Ok d w0 change He) as (_ & _ & _ & _ & _ & _ & -> & _).
    apply (limit_first wo_available_at maximum sorted); [done|done|by rewrite Hperm|].
    intros Hin. apply list_elem_of_lookup in Hin as [i Hi].
    destruct (Forall2_lookup_l _ _ _ _ _ Hl Hi) as (c & Hci & Hh).
    apply (Hno c); [by eapply list_elem_of_lookup_2|]. by apply hydrate_change_Ok in Hh as [? _].
Qed.

Lemma empty_registration_wf : registration_wf empty_database.
Proof. by split; [split; constructor|intros r ?%elem_of_nil|]. Qed.

End RegistrationLemmas.

(** ** A run of the model *)

Lemma imported_registration_wf : @registration_wf sample_urls sample_keys imported_database.
Proof.
  pose proof imported_step as Hs. pose proof (@empty_registry_wf sample_urls sample_keys) as H0.
  destruct (registry_step_cases _ _ Hs (rw_connections _ H0))
    as [(n & cr & u & now & row & _ & H)|(id & ex & now & r & H)].
  - eapply inserted_registration; [exact H|apply imported_registry_wf|apply empty_registration_wf].
  - by pose proof (ts_find _ _ _ _ _ _ H).
Qed.

Definition sample_change : WakeRegistrationChange :=
  mkWakeRegistrationChange "c1" 0 true (repeat 1 32) (repeat 2 32) ["wss://a"; "wss://b"]
    0 200 200.

Lemma registration_settlement_witness :
  @current sample_change imported_database = true
  /\ exists d', acknowledge_wake_registration sample_change imported_database = Ok (tt, d')
     /\ acknowledge_wake_registration sample_change d' = Err Wr_StaleChange.
Proof.
  destruct (@registration_settlement sample_urls sample_keys sample_change 201 (from_secs 5)
    imported_database imported_registration_wf) as [H _]; [by vm_compute|done..|].
  destruct (acknowledge_wake_registration sample_change imported_database) as [[[] d']|x] eqn:E.
  - destruct H as (H1 & _ & _ & _ & H2). split; [exact H1|]. exists d'. by split.
  - clear H. vm_compute in E. discriminate E.
Defined.

Lemma due_registrations_load_witness :
  exists changes, @load_due_wake_registrations sample_urls sample_keys 200 10 imported_database = Ok changes
    /\ length changes = 1%nat.
Proof.
  destruct (@due_registrations_load sample_urls sample_keys imported_database 200 10
    imported_registration_wf) as (changes & H & Hn & _); [done|by split|].
  exists changes. split; [exact H|]. rewrite Hn. by vm_compute.
Defined.
