(* ===== verification/NostrValidation.v ===== *)
(** * Validation of request events

    Models [nostr_validation.rs]: the checks an untrusted Nostr event passes
    before it is decrypted, the decryption bound to the connection's keys, and
    the response event bound to the request.  The [nostr] crate (event JSON,
    identifiers and signatures, NIP-04 and NIP-44) is the interface [NostrLib];
    its encryption draws randomness, which is an argument here. *)
From Stdlib Require Import String.
From S2P Require Import Prelude Types Policy Host Ledger Registry.
#[local] Open Scope Z_scope.

Class NostrLib := {
  NostrEvent : Type;
  NostrTag : Type;
  event_from_json : string -> option NostrEvent;
  event_verify : NostrEvent -> bool;
  event_id : NostrEvent -> list Z;
  event_pubkey : NostrEvent -> list Z;
  event_created_at : NostrEvent -> Z;
  event_kind : NostrEvent -> Z;
  event_tags : NostrEvent -> list NostrTag;
  event_content : NostrEvent -> string;
  (** [tag.kind() == TagKind::p()] and [tag.content()]. *)
  tag_is_p : NostrTag -> bool;
  tag_content : NostrTag -> option string;
  (** [Tag::public_key], [Tag::event] and [Tag::custom]. *)
  tag_public_key : list Z -> NostrTag;
  tag_event : list Z -> NostrTag;
  tag_custom : string -> list string -> NostrTag;
  nostr_public_key_from_hex : string -> option (list Z);
  (** [SecretKey::from_slice(..).is_ok()] and [Keys::new(..).public_key()]. *)
  secret_key_ok : list Z -> bool;
  secret_public_key : list Z -> list Z;
  nip44_encrypt : list Z -> list Z -> string -> list Z -> option string;
  nip44_decrypt : list Z -> list Z -> string -> option string;
  nip04_encrypt : list Z -> list Z -> string -> list Z -> option string;
  nip04_decrypt : list Z -> list Z -> string -> option string;
  (** [EventBuilder::new(kind, content).tags(..).custom_created_at(..)
      .sign_with_keys(..)] as JSON. *)
  sign_event : Z -> string -> list NostrTag -> Z -> list Z -> list Z -> option string;
}.

(** The tag is a [p] tag of the key. *)
Definition names_key `{N : NostrLib} (k : list Z) (tag : NostrTag) : Prop :=
  tag_is_p tag = true /\ tag_content tag ≫= nostr_public_key_from_hex = Some k.

(** The shared secret of both ciphers is symmetric in the two key pairs.  A signed
    event parses back to what was signed, authored by the key that signed it and
    with a valid signature; the builder only drops [p] tags of the author.  The
    tags of keys and of events are what their names say. *)
Class NostrLaws (N : NostrLib) := {
  nip44_shared : forall a b m r c, secret_key_ok a = true -> secret_key_ok b = true ->
    nip44_encrypt a (secret_public_key b) m r = Some c ->
    nip44_decrypt b (secret_public_key a) c = Some m;
  nip04_shared : forall a b m r c, secret_key_ok a = true -> secret_key_ok b = true ->
    nip04_encrypt a (secret_public_key b) m r = Some c ->
    nip04_decrypt b (secret_public_key a) c = Some m;
  signed_event : forall kind content tags t a r json, secret_key_ok a = true ->
    Forall (fun tag => ~ names_key (secret_public_key a) tag) tags ->
    sign_event kind content tags t a r = Some json ->
    exists e, event_from_json json = Some e /\ event_verify e = true
      /\ event_pubkey e = secret_public_key a /\ event_kind e = kind /\ event_content e = content
      /\ event_tags e = tags /\ event_created_at e = t;
  key_tag : forall a, secret_key_ok a = true -> names_key (secret_public_key a) (tag_public_key (secret_public_key a));
  event_tag : forall e, tag_is_p (tag_event e) = false;
}.

(** [Kind::WalletConnectRequest], [Kind::WalletConnectResponse],
    [Kind::WalletConnectNotification] and the NIP-44 notification kind. *)
Definition KIND_REQUEST : Z := 23194.
Definition KIND_RESPONSE : Z := 23195.
Definition KIND_NOTIFICATION : Z := 23196.
Definition KIND_NOTIFICATION_NIP44 : Z := 23197.

Inductive NostrEventError : Type :=
| PayloadTooLarge | MalformedEvent | InvalidSignature | EventIdMismatch | UnexpectedKind
| UnexpectedAuthor | UnexpectedRecipient | InvalidCreatedAt | InvalidCiphertext
| InvalidSecretKey | SecretKeyMismatch | DecryptionFailed | PlaintextTooLarge
| ResponseBuildFailed.

#[export] Instance NostrEventError_eq_dec : EqDecision NostrEventError.
Proof. solve_decision. Defined.

Record ValidatedNwcEvent := mkValidatedNwcEvent {
  ve_id : EventId;
  ve_author : PublicKey;
  ve_wallet_service_pubkey : PublicKey;
  ve_created_at : UnixTimestamp;
  ve_encryption : NwcEncryption;
  ve_ciphertext : string;
  ve_maximum_plaintext_bytes : Z;
}.

(** ** Strings: [str::contains] and [str::split_once] *)

Definition contains (pattern s : string) : bool :=
  match String.index 0 pattern s with Some _ => true | None => false end.
Definition split_once (pattern s : string) : option (string * string) :=
  match String.index 0 pattern s with
  | Some n => Some (substring 0 n s,
                    substring (n + String.length pattern)
                      (String.length s - (n + String.length pattern)) s)
  | None => None
  end.

Definition iv_marker : string := "?iv=".

Definition ciphertext_matches (encryption : NwcEncryption) (content : string) : bool :=
  if string_is_empty content then false
  else match encryption with
       | Nip44V2 => negb (contains iv_marker content) && (132 <=? str_len content)
       | LegacyNip04 =>
           match split_once iv_marker content with
           | Some (ciphertext, initialization_vector) =>
               negb (string_is_empty ciphertext) && negb (string_is_empty initialization_vector)
               && negb (contains iv_marker initialization_vector)
           | None => false
           end
       end.

(** ** The validator *)

Section Validator.
Context `{N : NostrLib}.

(** The iterator of the [p] tags is advanced at most twice. *)
Definition has_exact_recipient (event : NostrEvent) (expected : PublicKey) : bool :=
  match List.filter tag_is_p (event_tags event) with
  | [recipient] =>
      match tag_content recipient ≫= nostr_public_key_from_hex with
      | Some public_key => bool_decide (public_key = expected)
      | None => false
      end
  | _ => false
  end.

Definition candidate_author (policy : WakePolicy) (event_json : string)
  : Result NostrEventError PublicKey :=
  if maximum_payload_bytes policy <? str_len event_json then Err PayloadTooLarge
  else let? event := ok_or MalformedEvent (event_from_json event_json) in Ok (event_pubkey event).

Definition validate_request_for_replay (policy : WakePolicy) (event_json : string)
    (expected_event_id : EventId) (expected_client_pubkey expected_wallet_service_pubkey : PublicKey)
    (encryption : NwcEncryption) : Result NostrEventError ValidatedNwcEvent :=
  if maximum_payload_bytes policy <? str_len event_json then Err PayloadTooLarge
  else
  let? event := ok_or MalformedEvent (event_from_json event_json) in
  if negb (event_verify event) then Err InvalidSignature
  else if negb (bool_decide (event_id event = expected_event_id)) then Err EventIdMismatch
  else if negb (event_kind event =? KIND_REQUEST) then Err UnexpectedKind
  else if negb (bool_decide (event_pubkey event = expected_client_pubkey)) then Err UnexpectedAuthor
  else if negb (has_exact_recipient event expected_wallet_service_pubkey) then Err UnexpectedRecipient
  else if negb (ciphertext_matches encryption (event_content event)) then Err InvalidCiphertext
  else Ok (mkValidatedNwcEvent (event_id event) (event_pubkey event) expected_wallet_service_pubkey
             (event_created_at event) encryption (event_content event)
             (maximum_payload_bytes policy)).

Definition validate_request (policy : WakePolicy) (event_json : string)
    (expected_event_id : EventId) (expected_client_pubkey expected_wallet_service_pubkey : PublicKey)
    (encryption : NwcEncryption) (now : UnixTimestamp) : Result NostrEventError ValidatedNwcEvent :=
  let? validated := validate_request_for_replay policy event_json expected_event_id
    expected_client_pubkey expected_wallet_service_pubkey encryption in
  if negb (accepts_event_time policy (ve_created_at validated) now) then Err InvalidCreatedAt
  else Ok validated.

(** [NwcSecretKey::nostr_secret] followed by the comparison of its public key. *)
Definition wallet_secret_for (wallet_secret : NwcSecretKey) (wallet_service_pubkey : PublicKey)
  : Result NostrEventError NwcSecretKey :=
  if negb (secret_key_ok wallet_secret) then Err InvalidSecretKey
  else if negb (bool_decide (secret_public_key wallet_secret = wallet_service_pubkey))
  then Err SecretKeyMismatch
  else Ok wallet_secret.

Definition encrypt_for (encryption : NwcEncryption) (secret : NwcSecretKey) (client : PublicKey)
    (plaintext : string) (entropy : list Z) : option string :=
  match encryption with
  | Nip44V2 => nip44_encrypt secret client plaintext entropy
  | LegacyNip04 => nip04_encrypt secret client plaintext entropy
  end.
Definition decrypt_from (encryption : NwcEncryption) (secret : NwcSecretKey) (client : PublicKey)
    (ciphertext : string) : option string :=
  match encryption with
  | Nip44V2 => nip44_decrypt secret client ciphertext
  | LegacyNip04 => nip04_decrypt secret client ciphertext
  end.

Definition decrypt (v : ValidatedNwcEvent) (wallet_secret : NwcSecretKey)
  : Result NostrEventError string :=
  let? secret := wallet_secret_for wallet_secret (ve_wallet_service_pubkey v) in
  let? plaintext := ok_or DecryptionFailed
    (decrypt_from (ve_encryption v) secret (ve_author v) (ve_ciphertext v)) in
  if ve_maximum_plaintext_bytes v <? str_len plaintext then Err PlaintextTooLarge
  else Ok plaintext.

Definition build_response_event (v : ValidatedNwcEvent) (wallet_secret : NwcSecretKey)
    (response_json : string) (created_at : UnixTimestamp) (entropy : list Z)
  : Result NostrEventError string :=
  if ve_maximum_plaintext_bytes v <? str_len response_json then Err PlaintextTooLarge
  else
  let? secret := wallet_secret_for wallet_secret (ve_wallet_service_pubkey v) in
  let? encrypted := ok_or ResponseBuildFailed
    (encrypt_for (ve_encryption v) secret (ve_author v) response_json entropy) in
  ok_or ResponseBuildFailed
    (sign_event KIND_RESPONSE encrypted [tag_public_key (ve_author v); tag_event (ve_id v)]
       created_at secret entropy).

End Validator.

(** ** Properties *)

Lemma split_once_contains s a b :
  split_once iv_marker s = Some (a, b) -> contains iv_marker s = true.
Proof. unfold split_once, contains. by destruct (String.index 0 iv_marker s). Qed.

(** The two encryption modes never accept the same content, so an event cannot
    be decrypted under a mode its connection did not negotiate. *)
Theorem ciphertext_modes_disjoint content :
  ciphertext_matches Nip44V2 content && ciphertext_matches LegacyNip04 content = false
  /\ (ciphertext_matches Nip44V2 content = true ->
      contains iv_marker content = false /\ 132 <= str_len content)
  /\ (ciphertext_matches LegacyNip04 content = true -> exists a b,
        split_once iv_marker content = Some (a, b) /\ a <> EmptyString /\ b <> EmptyString
        /\ contains iv_marker b = false).
Proof.
  unfold ciphertext_matches. destruct (string_is_empty content); [by split_and!|].
  assert (forall s, string_is_empty s = false -> s <> EmptyString) as Hne by (by intros s H ->).
  split_and!.
  - destruct (split_once iv_marker content) as [[a b]|] eqn:E; [|by rewrite andb_false_r].
    by rewrite (split_once_contains _ _ _ E).
  - intros [H1 H2]%andb_prop. apply negb_true_iff in H1. by apply Z.leb_le in H2.
  - destruct (split_once iv_marker content) as [[a b]|]; [|done].
    intros [[H1 H2]%andb_prop H3]%andb_prop. apply negb_true_iff in H1, H2, H3.
    exists a, b. split_and!; auto.
Qed.

Section Properties.
Context `{N : NostrLib} `{NL : !NostrLaws N}.

(** A request event is accepted exactly when it is within the payload bound,
    authentic, the event the wake named, an NWC request of the authorized client
    to exactly this wallet service, and encrypted in the negotiated mode; the
    result carries its own fields. *)
Theorem validate_request_spec policy json id client wallet encryption v :
  validate_request_for_replay policy json id client wallet encryption = Ok v
  <-> exists e, event_from_json json = Some e /\ str_len json <= maximum_payload_bytes policy
      /\ event_verify e = true /\ event_id e = id /\ event_kind e = KIND_REQUEST
      /\ event_pubkey e = client
      /\ (exists tag content, List.filter tag_is_p (event_tags e) = [tag]
            /\ tag_content tag = Some content /\ nostr_public_key_from_hex content = Some wallet)
      /\ ciphertext_matches encryption (event_content e) = true
      /\ v = mkValidatedNwcEvent id client wallet (event_created_at e) encryption (event_content e)
               (maximum_payload_bytes policy).
Proof.
  assert (forall e, has_exact_recipient e wallet = true <-> exists tag content,
    List.filter tag_is_p (event_tags e) = [tag] /\ tag_content tag = Some content
    /\ nostr_public_key_from_hex content = Some wallet) as Hrec.
  { intros e. unfold has_exact_recipient. split.
    - destruct (List.filter tag_is_p (event_tags e)) as [|tag [|]]; [done| |done].
      destruct (tag_content tag) as [content|] eqn:Ec; simpl; [|done].
      destruct (nostr_public_key_from_hex content) as [k|] eqn:Ek; [|done].
      intros ->%bool_decide_eq_true_1. by exists tag, content.
    - intros (tag & content & -> & -> & H). simpl. rewrite H. by apply bool_decide_eq_true_2. }
  unfold validate_request_for_replay. destruct (_ <? _) eqn:Es.
  { bool_to_prop. split; [done|]. intros (e & _ & ? & _). lia. }
  bool_to_prop. destruct (event_from_json json) as [e|]; simpl; [|by split; [done|intros (? & ? & _)]].
  setoid_rewrite <- Hrec. split.
  - destruct (event_verify e) eqn:E1; [|done].
    case_bool_decide as E2; [|done]. destruct (event_kind e =? KIND_REQUEST) eqn:E3; [|done].
    case_bool_decide as E4; [|done]. destruct (has_exact_recipient e wallet) eqn:E5; [|done].
    destruct (ciphertext_matches _ _) eqn:E6; [|done]. simpl. intros [= <-].
    apply Z.eqb_eq in E3. exists e. rewrite E2, E4. by split_and!.
  - intros (e' & [= <-] & _ & -> & <- & -> & <- & -> & -> & ->). simpl.
    by rewrite !bool_decide_true.
Qed.

(** The event that a response is: signed by the wallet key, of the response kind, to
    the client and no one else, naming the request it answers. *)
Definition answers (v : ValidatedNwcEvent) (now : UnixTimestamp) (e : NostrEvent) : Prop :=
  event_verify e = true /\ event_pubkey e = ve_wallet_service_pubkey v
  /\ event_kind e = KIND_RESPONSE /\ event_created_at e = now
  /\ has_exact_recipient e (ve_author v) = true /\ tag_event (ve_id v) ∈ event_tags e.

(** C31: What the client encrypted for the wallet is what the wallet decrypts, with
    the connection's secret only; and what the wallet answers parses as a response
    event with a valid signature of the wallet key, sent to exactly the author of
    the request and naming the request, whose content the client's secret
    decrypts to the response. *)
Theorem request_response_confidential v client_secret wallet_secret plaintext response now
    entropy entropy' event
    (Hc : secret_key_ok client_secret = true) (Hw : secret_key_ok wallet_secret = true)
    (Hauthor : ve_author v = secret_public_key client_secret)
    (Hother : ve_author v <> ve_wallet_service_pubkey v)
    (Hrequest : encrypt_for (ve_encryption v) client_secret (ve_wallet_service_pubkey v) plaintext entropy
                = Some (ve_ciphertext v))
    (Hsize : str_len plaintext <= ve_maximum_plaintext_bytes v)
    (Hresponse : build_response_event v wallet_secret response now entropy' = Ok event) :
  decrypt v wallet_secret = Ok plaintext
  /\ secret_public_key wallet_secret = ve_wallet_service_pubkey v
  /\ str_len response <= ve_maximum_plaintext_bytes v
  /\ exists e, event_from_json event = Some e /\ answers v now e
       /\ decrypt_from (ve_encryption v) client_secret (event_pubkey e) (event_content e) = Some response.
Proof.
  unfold build_response_event, decrypt, wallet_secret_for in *. rewrite Hw in *. simpl in *.
  destruct (_ <? str_len response) eqn:Er; [done|]. bool_to_prop.
  case_bool_decide as Hpk; [simpl in *|done].
  destruct (encrypt_for _ wallet_secret _ response entropy') as [c|] eqn:Ec; simpl in *; [|done].
  apply ok_or_Ok in Hresponse. unfold answers. rewrite <- Hpk, Hauthor in *.
  assert (decrypt_from (ve_encryption v) wallet_secret (secret_public_key client_secret)
    (ve_ciphertext v) = Some plaintext) as ->.
  { unfold encrypt_for, decrypt_from in *. destruct (ve_encryption v).
    - by eapply (nip44_shared client_secret wallet_secret).
    - by eapply (nip04_shared client_secret wallet_secret). }
  simpl. rewrite (proj2 (Z.ltb_ge _ _)) by lia. split_and!; [done..|].
  destruct (key_tag client_secret Hc) as [Hp Hk].
  eapply signed_event in Hresponse as (e & He & Hv & Ha & Hkind & Hcontent & Htags & Ht); [|done|].
  2:{ repeat constructor; intros [H1 H2]; [congruence|]. by rewrite event_tag in H1. }
  exists e. rewrite Hcontent, Htags. split_and!; try done; [|set_solver|rewrite Ha].
  - unfold has_exact_recipient. rewrite Htags. cbn [List.filter]. rewrite Hp, event_tag, Hk.
    by apply bool_decide_eq_true_2.
  - unfold encrypt_for, decrypt_from in *. destruct (ve_encryption v).
    + by eapply (nip44_shared wallet_secret client_secret).
    + by eapply (nip04_shared wallet_secret client_secret).
Qed.

End Properties.

(** ** A run of the model

    A toy codec: every text is an event of the client 1 for the wallet 2, and
    encryption is the identity. *)

Definition sample_ciphertext : string :=
  String.concat "" (repeat "0123456789ab"%string 12).

Definition sample_nostr : NostrLib := {|
  NostrEvent := string;
  NostrTag := string * option string;
  event_from_json := fun s => match s with EmptyString => None | _ => Some s end;
  event_verify := fun _ => true;
  event_id := fun _ => sample_event;
  event_pubkey := fun _ => repeat 1 32;
  event_created_at := fun _ => 240;
  event_kind := fun _ => KIND_REQUEST;
  event_tags := fun _ => [("p", Some wallet_hex); ("encryption", Some "nip44_v2")]%string;
  event_content := fun _ => sample_ciphertext;
  tag_is_p := fun t => bool_decide (t.1 = "p"%string);
  tag_content := snd;
  tag_public_key := fun k => ("p"%string, Some (Hex32_to_hex k));
  tag_event := fun k => ("e"%string, Some (Hex32_to_hex k));
  tag_custom := fun k vs => (k, head vs);
  nostr_public_key_from_hex := fun s => match Hex32_from_hex s with Ok k => Some k | Err _ => None end;
  secret_key_ok := fun s => Nat.eqb (length s) 32;
  secret_public_key := fun s => if bool_decide (s = repeat 8 32) then repeat 2 32 else repeat 1 32;
  nip44_encrypt := fun _ _ m _ => Some m;
  nip44_decrypt := fun _ _ c => Some c;
  nip04_encrypt := fun _ _ m _ => Some m;
  nip04_decrypt := fun _ _ c => Some c;
  sign_event := fun _ content _ _ _ _ => Some content |}.

(** The same codec for one exchange: the wallet 2 signs nothing but its answer to
    the client 1 at time 250, and every text is this answer. *)
Definition answer_tags : list (string * option string) :=
  [("p", Some (Hex32_to_hex (repeat 1 32))); ("e", Some (Hex32_to_hex sample_event))]%string.
Definition answering_nostr : NostrLib := {|
  NostrEvent := string;
  NostrTag := string * option string;
  event_from_json := fun s => Some s;
  event_verify := fun _ => true;
  event_id := fun _ => sample_event;
  event_pubkey := fun _ => repeat 2 32;
  event_created_at := fun _ => 250;
  event_kind := fun _ => KIND_RESPONSE;
  event_tags := fun _ => answer_tags;
  event_content := id;
  tag_is_p := fun t => bool_decide (t.1 = "p"%string);
  tag_content := snd;
  tag_public_key := fun k => ("p"%string, Some (Hex32_to_hex k));
  tag_event := fun k => ("e"%string, Some (Hex32_to_hex k));
  tag_custom := fun k vs => (k, head vs);
  nostr_public_key_from_hex := fun s => match Hex32_from_hex s with Ok k => Some k | Err _ => None end;
  secret_key_ok := fun s => Nat.eqb (length s) 32;
  secret_public_key := fun s => if bool_decide (s = repeat 8 32) then repeat 2 32 else repeat 1 32;
  nip44_encrypt := fun _ _ m _ => Some m;
  nip44_decrypt := fun _ _ c => Some c;
  nip04_encrypt := fun _ _ m _ => Some m;
  nip04_decrypt := fun _ _ c => Some c;
  sign_event := fun kind content tags t a _ =>
    if bool_decide (kind = KIND_RESPONSE) && bool_decide (tags = answer_tags) && bool_decide (t = 250)
       && bool_decide (a = repeat 8 32)
    then Some content else None |}.

Lemma answering_nostr_laws : NostrLaws answering_nostr.
Proof.
  split; try (simpl; intros; congruence).
  - intros kind content tags t a r json _ _ H. cbn [sign_event answering_nostr] in H.
    destruct (_ && _) eqn:E; [|discriminate H]. injection H as <-.
    rewrite !andb_true_iff, !bool_decide_eq_true in E. destruct E as [[[-> ->] ->] ->]. by exists content.
  - intros a _. unfold names_key. cbn [tag_is_p tag_public_key tag_content answering_nostr secret_public_key].
    destruct (bool_decide (a = _)); split; by vm_compute.
Qed.

Definition sample_request : ValidatedNwcEvent :=
  mkValidatedNwcEvent sample_event (repeat 1 32) (repeat 2 32) 240 Nip44V2 sample_ciphertext 65536.

Lemma ciphertext_modes_disjoint_witness :
  contains iv_marker sample_ciphertext = false /\ ciphertext_matches LegacyNip04 "ab?iv=cd" = true.
Proof.
  split; [|by vm_compute]. destruct (ciphertext_modes_disjoint sample_ciphertext) as (_ & H & _).
  apply H. by vm_compute.
Defined.

Lemma request_response_confidential_witness :
  @decrypt answering_nostr sample_request (repeat 8 32) = Ok sample_ciphertext
  /\ exists e, @event_from_json answering_nostr "{}" = Some e
       /\ @answers answering_nostr sample_request 250 e.
Proof.
  destruct (@request_response_confidential answering_nostr answering_nostr_laws sample_request (repeat 6 32)
    (repeat 8 32) sample_ciphertext "{}" 250 [] [] "{}"%string) as (H1 & _ & _ & e & H2 & H3 & _);
    [by vm_compute..|by vm_compute|by vm_compute|by vm_compute|].
  split; [exact H1|]. exists e. split; [exact H2|exact H3].
Defined.
