(* ===== verification/Invoices.v ===== *)
(** * Created invoices and sent payments

    Models the durable half of [invoice_notifications.rs]: the invoices the
    wallet created for a connection and the payments it sent for one, each with
    the relays its NIP-47 notification still has to reach.  Hashing of the
    trigger token ([sha256]) is a parameter. *)
From S2P Require Import Prelude Sqlite Types Policy Host Schema Ledger Registry.
#[local] Open Scope Z_scope.

Class Sha256 := { sha256_hex : list Z -> string }.

Definition MAX_INVOICE_BYTES : Z := 16384.
Definition MAX_DESCRIPTION_BYTES : Z := 4096.
Definition MAX_NOTIFICATION_EVENT_BYTES : Z := 128 * 1024.
Definition DEFAULT_BATCH_SIZE : Z := 20.
Definition SETTLEMENT_RECONCILIATION_GRACE_SECONDS : Z := 24 * 60 * 60.

Record TrackedNwcInvoice := mkTrackedNwcInvoice {
  ti_request_event_id : EventId;
  ti_payment_hash : PaymentHash;
  ti_connection_id : ConnectionId;
  ti_connection_revision : ConnectionRevision;
  ti_invoice : string;
  ti_description : option string;
  ti_amount : AmountMsat;
  ti_created_at : UnixTimestamp;
  ti_expires_at : UnixTimestamp;
  ti_notification_event_json : option string;
}.

Record TrackedNwcPayment := mkTrackedNwcPayment {
  tp_request_event_id : EventId;
  tp_payment_hash : PaymentHash;
  tp_connection_id : ConnectionId;
  tp_connection_revision : ConnectionRevision;
  tp_invoice : string;
  tp_amount : AmountMsat;
  tp_fee : AmountMsat;
  tp_preimage : PaymentPreimage;
  tp_created_at : UnixTimestamp;
  tp_settled_at : UnixTimestamp;
  tp_notification_event_json : option string;
}.

Record InvoiceSettlementMonitor := mkInvoiceSettlementMonitor {
  im_request_event_id : EventId;
  im_client_pubkey : PublicKey;
  im_wallet_service_pubkey : PublicKey;
  im_relays : list string;
  im_expires_at : UnixTimestamp;
  im_completed : bool;
  im_trigger_token_hash : string;
}.

(** [TrackedNwcInvoice::new] and [TrackedNwcPayment::new]. *)
Definition TrackedNwcInvoice_new (event_id : EventId) (hash : PaymentHash) (id : ConnectionId)
    (revision : ConnectionRevision) (invoice : string) (description : option string)
    (amount : AmountMsat) (created_at expires_at : UnixTimestamp) : TrackedNwcInvoice :=
  mkTrackedNwcInvoice event_id hash id revision invoice description amount created_at expires_at None.
Definition TrackedNwcPayment_new (event_id : EventId) (hash : PaymentHash) (c : ActiveConnection)
    (invoice : string) (amount fee : AmountMsat) (preimage : PaymentPreimage)
    (created_at settled_at : UnixTimestamp) : TrackedNwcPayment :=
  mkTrackedNwcPayment event_id hash (ac_id c) (ac_revision c) invoice amount fee preimage
    created_at settled_at None.

(** ** Rows *)

Definition fixed_bytes (v : list Z) : Result LedgerError (list Z) :=
  if Nat.eqb (length v) 32 then Ok v else Err DatabaseUnavailable.
Definition unsigned (v : Z) : Result LedgerError Z := ok_or DatabaseUnavailable (u64_try_from v).
Definition ledger_i64 (v : Z) : Result LedgerError Z := ok_or ValueOutOfRange (i64_try_from v).

Definition decode_invoice (r : InvoiceRow) : Result LedgerError TrackedNwcInvoice :=
  let? event := fixed_bytes (iv_request_event_id r) in
  let? hash := fixed_bytes (iv_payment_hash r) in
  let? id := map_err (fun _ => DatabaseUnavailable) (ConnectionId_parse (iv_connection_id r)) in
  let? revision := unsigned (iv_connection_revision r) in
  let? amount := unsigned (iv_amount_msat r) in
  let? created_at := unsigned (iv_created_at r) in
  let? expires_at := unsigned (iv_expires_at r) in
  Ok (mkTrackedNwcInvoice event hash id revision (iv_invoice r) (iv_description r) amount
        created_at expires_at (iv_notification_event_json r)).

Definition decode_sent_payment (r : SentPaymentRow) : Result LedgerError TrackedNwcPayment :=
  let? event := fixed_bytes (sp_request_event_id r) in
  let? hash := fixed_bytes (sp_payment_hash r) in
  let? preimage := fixed_bytes (sp_preimage r) in
  let? id := map_err (fun _ => DatabaseUnavailable) (ConnectionId_parse (sp_connection_id r)) in
  let? revision := unsigned (sp_connection_revision r) in
  let? amount := unsigned (sp_amount_msat r) in
  let? fee := unsigned (sp_fee_msat r) in
  let? created_at := unsigned (sp_created_at r) in
  let? settled_at := unsigned (sp_settled_at r) in
  Ok (mkTrackedNwcPayment event hash id revision (sp_invoice r) amount fee preimage
        created_at settled_at (sp_notification_event_json r)).

(** Column updates. *)
Definition iv_with_check (t : Z) (r : InvoiceRow) : InvoiceRow :=
  mkInvoiceRow (iv_request_event_id r) (iv_payment_hash r) (iv_connection_id r)
    (iv_connection_revision r) (iv_invoice r) (iv_description r) (iv_amount_msat r)
    (iv_created_at r) (iv_expires_at r) t (iv_notification_event_json r)
    (iv_notification_created_at r) (iv_completed_at r) (iv_settlement_trigger_token r).
Definition iv_with_event (json : string) (created_at : Z) (r : InvoiceRow) : InvoiceRow :=
  mkInvoiceRow (iv_request_event_id r) (iv_payment_hash r) (iv_connection_id r)
    (iv_connection_revision r) (iv_invoice r) (iv_description r) (iv_amount_msat r)
    (iv_created_at r) (iv_expires_at r) (iv_last_checked_at r) (Some json) (Some created_at)
    (iv_completed_at r) (iv_settlement_trigger_token r).
Definition iv_with_completed (t : Z) (r : InvoiceRow) : InvoiceRow :=
  mkInvoiceRow (iv_request_event_id r) (iv_payment_hash r) (iv_connection_id r)
    (iv_connection_revision r) (iv_invoice r) (iv_description r) (iv_amount_msat r)
    (iv_created_at r) (iv_expires_at r) (iv_last_checked_at r) (iv_notification_event_json r)
    (iv_notification_created_at r) (Some t) (iv_settlement_trigger_token r).
Definition sp_with_event (json : string) (r : SentPaymentRow) : SentPaymentRow :=
  mkSentPaymentRow (sp_request_event_id r) (sp_payment_hash r) (sp_connection_id r)
    (sp_connection_revision r) (sp_invoice r) (sp_amount_msat r) (sp_fee_msat r) (sp_preimage r)
    (sp_created_at r) (sp_settled_at r) (Some json) (sp_completed_at r).
Definition sp_with_completed (t : Z) (r : SentPaymentRow) : SentPaymentRow :=
  mkSentPaymentRow (sp_request_event_id r) (sp_payment_hash r) (sp_connection_id r)
    (sp_connection_revision r) (sp_invoice r) (sp_amount_msat r) (sp_fee_msat r) (sp_preimage r)
    (sp_created_at r) (sp_settled_at r) (sp_notification_event_json r) (Some t).
Definition rl_with_delivered {K} (t : Z) (r : RelayRow K) : RelayRow K :=
  mkRelayRow (rl_owner r) (rl_position r) (rl_relay_url r) (Some t).

(** ** Relay rows of a notification

    Both relay tables have the same statements. *)

(** The loop of [INSERT ... ON CONFLICT(request_event_id, position) DO NOTHING];
    [parent] is the foreign key. *)
Fixpoint insert_notification_relays (parent : EventId -> bool) (event_id : EventId) (position : Z)
    (relays : list string) (t : list (RelayRow (list Z))) : option (list (RelayRow (list Z))) :=
  match relays with
  | [] => Some t
  | relay :: rest =>
      insert_or_nothing notification_relay_check (fun r => parent (rl_owner r))
        (fun r r' => bool_decide (rl_owner r = rl_owner r') && (rl_position r =? rl_position r'))
        relay_clash (mkRelayRow event_id position relay None) t
      ≫= insert_notification_relays parent event_id (position + 1) rest
  end.

Definition undelivered (event_id : EventId) (r : RelayRow (list Z)) : bool :=
  bool_decide (rl_owner r = event_id) && null (rl_delivered_at r).

Definition undelivered_relays `{UrlLib} (event_id : EventId) (t : list (RelayRow (list Z)))
  : Result LedgerError (list string) :=
  collect_results (fun r => map_err (fun _ => CorruptData) (SecureRelayUrl_parse (rl_relay_url r)))
    (order_by (fun a b => rl_position a ?= rl_position b) (select (undelivered event_id) t)).

Definition acknowledge_relay (event_id : EventId) (relay : string) (delivered_at : Z)
    (t : list (RelayRow (list Z))) : Result LedgerError (list (RelayRow (list Z))) :=
  let? (t, _) := ok_or DatabaseUnavailable
    (update_where notification_relay_check
       (fun r => undelivered event_id r && bool_decide (rl_relay_url r = relay))
       (rl_with_delivered delivered_at) t) in
  Ok t.

(** [ON DELETE CASCADE]. *)
Definition drop_relays (event_ids : list EventId) (t : list (RelayRow (list Z)))
  : list (RelayRow (list Z)) :=
  (delete_where (fun r => bool_decide (rl_owner r ∈ event_ids)) t).1.

(** ** Sent payments *)

Definition event_is {R} (key : R -> list Z) (event_id : EventId) (r : R) : bool :=
  bool_decide (key r = event_id).

(** An [UPDATE] whose row count is not used. *)
Definition update_sent (p : SentPaymentRow -> bool) (f : SentPaymentRow -> SentPaymentRow)
    (d : Database) : Result LedgerError Database :=
  let? (t, _) := ok_or DatabaseUnavailable (update_where sent_payment_check p f (nwc_sent_payments d)) in
  Ok (set_nwc_sent_payments t d).
Definition update_invoices (p : InvoiceRow -> bool) (f : InvoiceRow -> InvoiceRow)
    (d : Database) : Result LedgerError Database :=
  let? (t, _) := ok_or DatabaseUnavailable (update_where invoice_check p f (nwc_created_invoices d)) in
  Ok (set_nwc_created_invoices t d).

Definition record_nwc_sent_payment (payment : TrackedNwcPayment) (relays : list string)
  : Tx LedgerError unit := fun d =>
  if string_is_empty (tp_invoice payment) || (MAX_INVOICE_BYTES <? str_len (tp_invoice payment))
  then Err CorruptData
  else
  let? revision := ledger_i64 (tp_connection_revision payment) in
  let? amount := ledger_i64 (tp_amount payment) in
  let? fee := ledger_i64 (tp_fee payment) in
  let? created_at := ledger_i64 (tp_created_at payment) in
  let? settled_at := ledger_i64 (tp_settled_at payment) in
  let? t := ok_or DatabaseUnavailable
    (insert_or_nothing sent_payment_check (fun r => connection_exists d (sp_connection_id r))
       (fun r r' => bool_decide (sp_request_event_id r = sp_request_event_id r'))
       sent_payment_clash
       (mkSentPaymentRow (tp_request_event_id payment) (tp_payment_hash payment)
          (tp_connection_id payment) revision (tp_invoice payment) amount fee (tp_preimage payment)
          created_at settled_at None None) (nwc_sent_payments d)) in
  let d := set_nwc_sent_payments t d in
  let? t := ok_or DatabaseUnavailable
    (insert_notification_relays
       (fun e => exists_row (event_is sp_request_event_id e) (nwc_sent_payments d))
       (tp_request_event_id payment) 0 relays (nwc_sent_payment_relays d)) in
  Ok (tt, set_nwc_sent_payment_relays t d).

(** [pending_nwc_sent_payments] and its variant for one wallet. *)
Definition sent_order (a b : SentPaymentRow) : comparison :=
  then_cmp (sp_created_at a ?= sp_created_at b)
    (memcmp (sp_request_event_id a) (sp_request_event_id b)).

Definition load_pending_sent (p : SentPaymentRow -> bool) (maximum : Z) (d : Database)
  : Result LedgerError (list TrackedNwcPayment) :=
  if (maximum =? 0) || (100 <? maximum) then Err InvalidPruneBatch
  else
  let? n := ledger_i64 maximum in
  collect_results decode_sent_payment
    (limit n (order_by sent_order
       (select (fun r => null (sp_completed_at r) && p r) (nwc_sent_payments d)))).

(** The [JOIN] with the connection of the exact revision. *)
Definition owned_by_wallet (d : Database) (wallet : PublicKey) (id : string) (revision : Z) : bool :=
  exists_row (fun c => bool_decide (cn_id c = id) && (cn_revision c =? revision)
                       && bool_decide (cn_wallet_service_pubkey c = wallet)) (connections d).

Definition pending_nwc_sent_payments (maximum : Z) (d : Database) :=
  load_pending_sent (fun _ => true) maximum d.
Definition pending_nwc_sent_payments_for_wallet (wallet : PublicKey) (maximum : Z) (d : Database) :=
  load_pending_sent (fun r => owned_by_wallet d wallet (sp_connection_id r) (sp_connection_revision r))
    maximum d.

Definition store_nwc_sent_notification_event (event_id : EventId) (proposed : string)
  : Tx LedgerError string := fun d =>
  if string_is_empty proposed || (MAX_NOTIFICATION_EVENT_BYTES <? str_len proposed)
  then Err ResponseTooLarge
  else
  let? d := update_sent
    (fun r => event_is sp_request_event_id event_id r && null (sp_completed_at r)
              && null (sp_notification_event_json r)) (sp_with_event proposed) d in
  let? r := ok_or ConnectionUnavailable
    (query_row (fun r => event_is sp_request_event_id event_id r && null (sp_completed_at r))
       (nwc_sent_payments d)) in
  let? canonical := ok_or DatabaseUnavailable (sp_notification_event_json r) in
  Ok (canonical, d).

Definition undelivered_nwc_sent_relays `{UrlLib} (event_id : EventId) (d : Database) :=
  undelivered_relays event_id (nwc_sent_payment_relays d).

Definition acknowledge_nwc_sent_relay (event_id : EventId) (relay : string)
    (delivered_at : UnixTimestamp) : Tx LedgerError unit := fun d =>
  let? delivered_at := ledger_i64 delivered_at in
  let? t := acknowledge_relay event_id relay delivered_at (nwc_sent_payment_relays d) in
  Ok (tt, set_nwc_sent_payment_relays t d).

Definition complete_nwc_sent_notification (event_id : EventId) (completed_at : UnixTimestamp)
  : Tx LedgerError unit := fun d =>
  let? completed_at := ledger_i64 completed_at in
  let? d := update_sent
    (fun r => event_is sp_request_event_id event_id r && not_null (sp_notification_event_json r)
              && null (sp_completed_at r)
              && negb (exists_row (undelivered event_id) (nwc_sent_payment_relays d)))
    (sp_with_completed completed_at) d in
  Ok (tt, d).

Definition discard_nwc_sent_payment (event_id : EventId) : Tx LedgerError unit := fun d =>
  let dropped := select (event_is sp_request_event_id event_id) (nwc_sent_payments d) in
  let d := set_nwc_sent_payments
    (delete_where (event_is sp_request_event_id event_id) (nwc_sent_payments d)).1 d in
  Ok (tt, set_nwc_sent_payment_relays
            (drop_relays (sp_request_event_id <$> dropped) (nwc_sent_payment_relays d)) d).

(** ** Created invoices *)

Definition load_nwc_invoice (event_id : EventId) (d : Database)
  : Result LedgerError (option TrackedNwcInvoice) :=
  traverse_option decode_invoice (find_key iv_request_event_id event_id (nwc_created_invoices d)).

(** [token] is the result of [getrandom::fill]. *)
Definition record_nwc_invoice (token : option (list Z)) (invoice : TrackedNwcInvoice)
    (relays : list string) : Tx LedgerError TrackedNwcInvoice := fun d =>
  if string_is_empty (ti_invoice invoice) || (MAX_INVOICE_BYTES <? str_len (ti_invoice invoice))
     || match ti_description invoice with
        | Some value => MAX_DESCRIPTION_BYTES <? str_len value
        | None => false
        end
     || (ti_amount invoice =? 0) || (ti_expires_at invoice <=? ti_created_at invoice)
  then Err CorruptData
  else
  let? revision := ledger_i64 (ti_connection_revision invoice) in
  let? amount := ledger_i64 (ti_amount invoice) in
  let? created_at := ledger_i64 (ti_created_at invoice) in
  let? expires_at := ledger_i64 (ti_expires_at invoice) in
  let? token := ok_or RandomnessUnavailable token in
  let? t := ok_or DatabaseUnavailable
    (insert_or_nothing invoice_check (fun r => connection_exists d (iv_connection_id r))
       (fun r r' => bool_decide (iv_request_event_id r = iv_request_event_id r'))
       invoice_clash
       (mkInvoiceRow (ti_request_event_id invoice) (ti_payment_hash invoice)
          (ti_connection_id invoice) revision (ti_invoice invoice) (ti_description invoice) amount
          created_at expires_at created_at None None None (Some token)) (nwc_created_invoices d)) in
  let d := set_nwc_created_invoices t d in
  let? found := load_nwc_invoice (ti_request_event_id invoice) d in
  let? existing := ok_or CorruptData found in
  if negb (bool_decide (ti_payment_hash existing = ti_payment_hash invoice))
     || negb (bool_decide (ti_connection_id existing = ti_connection_id invoice))
     || negb (ti_connection_revision existing =? ti_connection_revision invoice)
     || negb (bool_decide (ti_invoice existing = ti_invoice invoice))
  then Err ClaimMetadataMismatch
  else
  let? t := ok_or DatabaseUnavailable
    (insert_notification_relays
       (fun e => exists_row (event_is iv_request_event_id e) (nwc_created_invoices d))
       (ti_request_event_id invoice) 0 relays (nwc_invoice_notification_relays d)) in
  Ok (existing, set_nwc_invoice_notification_relays t d).

Definition load_nwc_invoice_by_encoded_invoice (invoice : string) (d : Database)
  : Result LedgerError (option TrackedNwcInvoice) :=
  if string_is_empty invoice || (MAX_INVOICE_BYTES <? str_len invoice) then Ok None
  else traverse_option decode_invoice
    (head (order_by (fun a b => then_cmp (iv_created_at b ?= iv_created_at a)
                                  (memcmp (iv_request_event_id a) (iv_request_event_id b)))
       (select (fun r => bool_decide (iv_invoice r = invoice)) (nwc_created_invoices d)))).

Definition load_nwc_invoice_by_payment_hash (hash : PaymentHash) (d : Database)
  : Result LedgerError (option TrackedNwcInvoice) :=
  traverse_option decode_invoice (find_key iv_payment_hash hash (nwc_created_invoices d)).

(** [pending_nwc_invoices] and its variant for one wallet. *)
Definition invoice_order (a b : InvoiceRow) : comparison :=
  then_cmp (iv_last_checked_at a ?= iv_last_checked_at b)
    (then_cmp (iv_created_at a ?= iv_created_at b)
       (memcmp (iv_request_event_id a) (iv_request_event_id b))).

Definition load_pending_invoices (p : InvoiceRow -> bool) (maximum : Z) (d : Database)
  : Result LedgerError (list TrackedNwcInvoice) :=
  if (maximum =? 0) || (100 <? maximum) then Err InvalidPruneBatch
  else
  let? n := ledger_i64 maximum in
  collect_results decode_invoice
    (limit n (order_by invoice_order
       (select (fun r => null (iv_completed_at r) && p r) (nwc_created_invoices d)))).

Definition pending_nwc_invoices (maximum : Z) (d : Database) :=
  load_pending_invoices (fun _ => true) maximum d.
Definition pending_nwc_invoices_for_wallet (wallet : PublicKey) (maximum : Z) (d : Database) :=
  load_pending_invoices
    (fun r => owned_by_wallet d wallet (iv_connection_id r) (iv_connection_revision r)) maximum d.

Definition pending_nwc_invoice (event_id : EventId) (d : Database)
  : Result LedgerError (option TrackedNwcInvoice) :=
  traverse_option decode_invoice
    (query_row (fun r => event_is iv_request_event_id event_id r && null (iv_completed_at r))
       (nwc_created_invoices d)).

(** [MAX(?2, last_checked_at + 1)]: an overflow becomes a REAL, which the STRICT
    table refuses. *)
Definition touch_nwc_invoice (event_id : EventId) (checked_at : UnixTimestamp)
  : Tx LedgerError unit := fun d =>
  let? checked_at := ledger_i64 checked_at in
  let mine := fun r => event_is iv_request_event_id event_id r && null (iv_completed_at r) in
  if exists_row (fun r => mine r && (i64_max <? iv_last_checked_at r + 1)) (nwc_created_invoices d)
  then Err DatabaseUnavailable
  else
  let? d := update_invoices mine
    (fun r => iv_with_check (Z.max checked_at (iv_last_checked_at r + 1)) r) d in
  Ok (tt, d).

Definition store_nwc_invoice_notification_event (event_id : EventId) (proposed : string)
    (created_at : UnixTimestamp) : Tx LedgerError string := fun d =>
  if string_is_empty proposed || (MAX_NOTIFICATION_EVENT_BYTES <? str_len proposed)
  then Err ResponseTooLarge
  else
  let? created_at := ledger_i64 created_at in
  let? d := update_invoices
    (fun r => event_is iv_request_event_id event_id r && null (iv_completed_at r)
              && null (iv_notification_event_json r)) (iv_with_event proposed created_at) d in
  let? r := ok_or ConnectionUnavailable
    (query_row (fun r => event_is iv_request_event_id event_id r && null (iv_completed_at r))
       (nwc_created_invoices d)) in
  let? canonical := ok_or DatabaseUnavailable (iv_notification_event_json r) in
  Ok (canonical, d).

Definition undelivered_nwc_invoice_relays `{UrlLib} (event_id : EventId) (d : Database) :=
  undelivered_relays event_id (nwc_invoice_notification_relays d).

Definition acknowledge_nwc_invoice_relay (event_id : EventId) (relay : string)
    (delivered_at : UnixTimestamp) : Tx LedgerError unit := fun d =>
  let? delivered_at := ledger_i64 delivered_at in
  let? t := acknowledge_relay event_id relay delivered_at (nwc_invoice_notification_relays d) in
  Ok (tt, set_nwc_invoice_notification_relays t d).

Definition complete_nwc_invoice_notification (event_id : EventId) (completed_at : UnixTimestamp)
  : Tx LedgerError unit := fun d =>
  let? completed_at := ledger_i64 completed_at in
  let? d := update_invoices
    (fun r => event_is iv_request_event_id event_id r && not_null (iv_notification_event_json r)
              && null (iv_completed_at r)
              && negb (exists_row (undelivered event_id) (nwc_invoice_notification_relays d)))
    (iv_with_completed completed_at) d in
  Ok (tt, d).

Definition expire_nwc_invoice (event_id : EventId) : Tx LedgerError unit := fun d =>
  let p := fun r => event_is iv_request_event_id event_id r && null (iv_notification_event_json r) in
  let dropped := select p (nwc_created_invoices d) in
  let d := set_nwc_created_invoices (delete_where p (nwc_created_invoices d)).1 d in
  Ok (tt, set_nwc_invoice_notification_relays
            (drop_relays (iv_request_event_id <$> dropped) (nwc_invoice_notification_relays d)) d).

(** [WakeLedger::nwc_invoice_monitor]. *)
Definition nwc_invoice_monitor `{UrlLib} `{Sha256} (event_id : EventId) (d : Database)
  : Result LedgerError (option InvoiceSettlementMonitor) :=
  match find_key iv_request_event_id event_id (nwc_created_invoices d) with
  | None => Ok None
  | Some i =>
  match query_row (fun c => bool_decide (cn_id c = iv_connection_id i)
                            && (cn_revision c =? iv_connection_revision i)) (connections d) with
  | None => Ok None
  | Some c =>
      let fixed := fun v => if Nat.eqb (length v) 32 then Ok v else Err CorruptData in
      let? token := ok_or DatabaseUnavailable (iv_settlement_trigger_token i) in
      let? relays := collect_results
        (fun r => map_err (fun _ => CorruptData) (SecureRelayUrl_parse (rl_relay_url r)))
        (order_by (fun a b => rl_position a ?= rl_position b)
           (select (fun r => bool_decide (rl_owner r = event_id)) (nwc_invoice_notification_relays d))) in
      let? request := fixed (iv_request_event_id i) in
      let? client := fixed (cn_client_pubkey c) in
      let? wallet := fixed (cn_wallet_service_pubkey c) in
      let? expires_at := ok_or CorruptData (u64_try_from (iv_expires_at i)) in
      Ok (Some (mkInvoiceSettlementMonitor request client wallet relays expires_at
                  (not_null (iv_completed_at i)) (sha256_hex token)))
  end
  end.
