(* ===== verification/Outbox.v ===== *)
(** * The settlement outbox as a state machine

    The tables of created invoices and of sent payments with the relays their
    notifications still have to reach: the constraints every transaction keeps,
    the abstract life of a notification ([Notice]) that the transactions of
    Invoices.v implement, and what never changes once it is stored. *)
From stdpp Require Import gmap strings.
From S2P Require Import Prelude Sqlite Types Policy Host Schema Ledger Registry Invoices.
#[local] Open Scope Z_scope.

(** ** The outbox transactions *)

Inductive outbox_step : Database -> Database -> Prop :=
| step_record_sent p relays d d' :
    record_nwc_sent_payment p relays d = Ok (tt, d') -> outbox_step d d'
| step_store_sent e json c d d' :
    store_nwc_sent_notification_event e json d = Ok (c, d') -> outbox_step d d'
| step_acknowledge_sent e relay now d d' :
    acknowledge_nwc_sent_relay e relay now d = Ok (tt, d') -> outbox_step d d'
| step_complete_sent e now d d' :
    complete_nwc_sent_notification e now d = Ok (tt, d') -> outbox_step d d'
| step_discard_sent e d d' :
    discard_nwc_sent_payment e d = Ok (tt, d') -> outbox_step d d'
| step_record_invoice token i relays i' d d' :
    record_nwc_invoice token i relays d = Ok (i', d') -> outbox_step d d'
| step_touch_invoice e now d d' :
    touch_nwc_invoice e now d = Ok (tt, d') -> outbox_step d d'
| step_store_invoice e json now c d d' :
    store_nwc_invoice_notification_event e json now d = Ok (c, d') -> outbox_step d d'
| step_acknowledge_invoice e relay now d d' :
    acknowledge_nwc_invoice_relay e relay now d = Ok (tt, d') -> outbox_step d d'
| step_complete_invoice e now d d' :
    complete_nwc_invoice_notification e now d = Ok (tt, d') -> outbox_step d d'
| step_expire_invoice e d d' :
    expire_nwc_invoice e d = Ok (tt, d') -> outbox_step d d'.

(** Two databases with the same metadata of connections. *)
Definition same_metadata (d d' : Database) : Prop :=
  connection_metadata d' = connection_metadata d /\ nwc_info_outbox d' = nwc_info_outbox d.

(** Two databases that agree outside the notification outboxes. *)
Definition same_core (d d' : Database) : Prop :=
  wake_events d' = wake_events d /\ connections d' = connections d
  /\ connection_methods d' = connection_methods d /\ connection_relays d' = connection_relays d
  /\ budget_periods d' = budget_periods d /\ payment_attempts d' = payment_attempts d
  /\ wake_registration_outbox d' = wake_registration_outbox d
  /\ wake_registration_relays d' = wake_registration_relays d /\ same_metadata d d'.

Lemma update_sent_core p f d d1 : update_sent p f d = Ok d1 -> same_core d d1.
Proof. unfold update_sent. intros H. inv_run H. by split_and!. Qed.

Lemma update_invoices_core p f d d1 : update_invoices p f d = Ok d1 -> same_core d d1.
Proof. unfold update_invoices. intros H. inv_run H. by split_and!. Qed.

Lemma outbox_step_core d d' : outbox_step d d' -> same_core d d'.
Proof.
  intros Hs.
  destruct Hs as [p relays d d' H|e json c d d' H|e relay now d d' H|e now d d' H|e d d' H
    |token i relays i' d d' H|e now d d' H|e json now c d d' H|e relay now d d' H|e now d d' H|e d d' H];
  unfold record_nwc_sent_payment, store_nwc_sent_notification_event, acknowledge_nwc_sent_relay,
    complete_nwc_sent_notification, discard_nwc_sent_payment, record_nwc_invoice, touch_nwc_invoice,
    store_nwc_invoice_notification_event, acknowledge_nwc_invoice_relay,
    complete_nwc_invoice_notification, expire_nwc_invoice in H;
  inv_run H; try (by split_and!); by eauto using update_sent_core, update_invoices_core.
Qed.

(** ** The constraints of the tables *)

Definition invoices_wf (t : list InvoiceRow) : Prop :=
  Forall (fun r => invoice_check r = true) t
  /\ NoDup (iv_request_event_id <$> t) /\ NoDup (iv_payment_hash <$> t).
Definition sent_wf (t : list SentPaymentRow) : Prop :=
  Forall (fun r => sent_payment_check r = true) t
  /\ NoDup (sp_request_event_id <$> t) /\ NoDup (sp_payment_hash <$> t).
Definition notice_relays_wf (owner_exists : list Z -> Prop) (t : list (RelayRow (list Z))) : Prop :=
  Forall (fun r => notification_relay_check r = true) t
  /\ NoDup ((fun r => (rl_owner r, rl_position r)) <$> t)
  /\ NoDup ((fun r => (rl_owner r, rl_relay_url r)) <$> t)
  /\ forall r, r ∈ t -> owner_exists (rl_owner r).

Record settlements_wf (d : Database) : Prop := {
  xw_invoices : invoices_wf (nwc_created_invoices d);
  xw_sent : sent_wf (nwc_sent_payments d);
  xw_invoice_relays : notice_relays_wf
    (fun e => e ∈ iv_request_event_id <$> nwc_created_invoices d) (nwc_invoice_notification_relays d);
  xw_sent_relays : notice_relays_wf
    (fun e => e ∈ sp_request_event_id <$> nwc_sent_payments d) (nwc_sent_payment_relays d);
}.

Lemma empty_settlements_wf : settlements_wf empty_database.
Proof. split; repeat split; try constructor; by intros r ?%elem_of_nil. Qed.

Definition same_settlements (d d' : Database) : Prop :=
  nwc_created_invoices d' = nwc_created_invoices d /\ nwc_sent_payments d' = nwc_sent_payments d
  /\ nwc_invoice_notification_relays d' = nwc_invoice_notification_relays d
  /\ nwc_sent_payment_relays d' = nwc_sent_payment_relays d /\ same_metadata d d'.

Lemma settlements_ext d d' : same_settlements d d' -> settlements_wf d -> settlements_wf d'.
Proof. intros (E1 & E2 & E3 & E4 & _) [W1 W2 W3 W4]. split; by rewrite ?E1, ?E2, ?E3, ?E4. Qed.

(** ** The life of a notification *)

Record Notice := mkNotice {
  nt_event : option string;
  nt_waiting : gset string;
  nt_completed : bool;
}.

Definition waiting (event_id : EventId) (t : list (RelayRow (list Z))) : gset string :=
  list_to_set (rl_relay_url <$> select (undelivered event_id) t).

Definition invoice_notice (e : EventId) (d : Database) : option Notice :=
  (fun r => mkNotice (iv_notification_event_json r) (waiting e (nwc_invoice_notification_relays d))
              (not_null (iv_completed_at r)))
  <$> find_key iv_request_event_id e (nwc_created_invoices d).
Definition sent_notice (e : EventId) (d : Database) : option Notice :=
  (fun r => mkNotice (sp_notification_event_json r) (waiting e (nwc_sent_payment_relays d))
              (not_null (sp_completed_at r)))
  <$> find_key sp_request_event_id e (nwc_sent_payments d).

(** What the transactions mean. *)
Definition notice_stored (proposed : string) (n : Notice) : Notice :=
  mkNotice (Some (default proposed (nt_event n))) (nt_waiting n) (nt_completed n).
Definition notice_acknowledged (relay : string) (n : Notice) : Notice :=
  mkNotice (nt_event n) (nt_waiting n ∖ {[relay]}) (nt_completed n).
Definition notice_completed (n : Notice) : Notice :=
  mkNotice (nt_event n) (nt_waiting n)
    (nt_completed n || is_some (nt_event n) && bool_decide (nt_waiting n = ∅)).
Definition notice_expired (n : Notice) : option Notice := if nt_event n then Some n else None.

(** A transaction never changes a stored event, and never takes back a
    completion; it forgets an invoice only while it has no event. *)
Definition notice_evolves (may_forget : bool) (n n' : option Notice) : Prop :=
  match n, n' with
  | None, _ => True
  | Some n, None => may_forget = true \/ nt_event n = None
  | Some n, Some n' => (forall j, nt_event n = Some j -> nt_event n' = Some j)
      /\ (nt_completed n = true -> nt_completed n' = true)
  end.

(** ** Lemmas *)

Lemma insert_or_nothing_Some {Row} check fk conflict clash (r : Row) t t' :
  insert_or_nothing check fk conflict clash r t = Some t' ->
  t' = t \/ insert_row (fun r => check r && fk r) clash r t = Some t'.
Proof. unfold insert_or_nothing. destruct (negb _); [done|]. destruct (exists_row _ _); [intros [= <-]|]; auto. Qed.

(** Relay tables. *)
Lemma notice_relays_owner (P Q : list Z -> Prop) t :
  (forall e, P e -> Q e) -> notice_relays_wf P t -> notice_relays_wf Q t.
Proof. intros H (H1 & H2 & H3 & H4). split_and!; auto. Qed.

Lemma insert_notice_relays parent e relays : forall position t t' (P : list Z -> Prop),
  insert_notification_relays parent e position relays t = Some t' ->
  (forall o, parent o = true -> P o) -> notice_relays_wf P t -> notice_relays_wf P t'.
Proof.
  induction relays as [|relay rest IH]; intros position t t' P H Hp Hwf; simpl in H; [by injection H as <-|].
  destruct (insert_or_nothing _ _ _ _ _ t) as [t1|] eqn:H1; [|done]. simpl in H.
  apply (IH _ _ _ _ H Hp). destruct Hwf as (W1 & W2 & W3 & W4).
  apply insert_or_nothing_Some in H1 as [->|H1]; [by split_and!|]. split_and!.
  - eapply insert_row_Forall; [exact H1| |done]. by intros [? _]%andb_prop.
  - eapply insert_row_key; [exact H1| |done]. intros r' [= Ho Hpos]. unfold relay_clash.
    by rewrite (bool_decide_true (rl_owner _ = _)), (bool_decide_true (rl_position _ = _)).
  - eapply insert_row_key; [exact H1| |done]. intros r' [= Ho Hpos]. unfold relay_clash.
    by rewrite (bool_decide_true (rl_owner _ = _)), (bool_decide_true (rl_relay_url _ = _)), orb_true_r.
  - apply insert_row_Some in H1 as (-> & [_ Hfk]%andb_prop & _).
    intros r [Hr| ->%list_elem_of_singleton]%elem_of_app; auto.
Qed.

Lemma acknowledge_relay_wf e relay now t t' P :
  acknowledge_relay e relay now t = Ok t' -> notice_relays_wf P t -> notice_relays_wf P t'.
Proof.
  unfold acknowledge_relay. intros H (W1 & W2 & W3 & W4).
  destruct (update_where _ _ _ t) as [[t1 n]|] eqn:Hu; [|done]. injection H as <-. split_and!.
  - eapply update_where_Forall; [exact Hu|done|]. auto.
  - by rewrite (update_where_key (fun r => (rl_owner r, rl_position r)) _ _ _ _ _ _ Hu).
  - by rewrite (update_where_key (fun r => (rl_owner r, rl_relay_url r)) _ _ _ _ _ _ Hu).
  - intros r Hr. destruct (elem_of_update _ _ _ _ _ _ _ Hu Hr) as (r0 & Hr0 & ->).
    destruct (_ && _); simpl; auto.
Qed.

Lemma drop_relays_wf owners t (P Q : list Z -> Prop) :
  (forall e, P e -> e ∉ owners -> Q e) -> notice_relays_wf P t -> notice_relays_wf Q (drop_relays owners t).
Proof.
  intros HPQ (W1 & W2 & W3 & W4). unfold drop_relays. split_and!.
  - by apply delete_where_Forall.
  - by apply delete_where_key.
  - by apply delete_where_key.
  - intros r [Hr Hd%bool_decide_eq_false_1]%elem_of_delete. auto.
Qed.

Lemma acknowledge_relay_waiting e relay now t t' e' :
  acknowledge_relay e relay now t = Ok t' ->
  waiting e' t' = if bool_decide (e' = e) then waiting e t ∖ {[relay]} else waiting e' t.
Proof.
  unfold acknowledge_relay. destruct (update_where _ _ _ t) as [[t1 n]|] eqn:Hu; [|done]. intros [= <-].
  apply update_where_Some in Hu as (-> & _ & _). apply set_eq. intros x. unfold waiting.
  assert (x ∈ (list_to_set (C := gset string) (rl_relay_url <$> select (undelivered e')
      ((fun r => if undelivered e r && bool_decide (rl_relay_url r = relay) then rl_with_delivered now r else r) <$> t)))
    <-> exists r, r ∈ t /\ rl_relay_url r = x /\ undelivered e' r = true
        /\ (undelivered e r && bool_decide (rl_relay_url r = relay) = false)) as ->.
  { rewrite elem_of_list_to_set, list_elem_of_fmap. setoid_rewrite elem_of_select.
    setoid_rewrite list_elem_of_fmap. split.
    - intros (r1 & -> & (r & -> & Hr) & Hun).
      destruct (undelivered e r && bool_decide (rl_relay_url r = relay)) eqn:E; [|eauto].
      unfold undelivered in Hun. simpl in Hun. by rewrite andb_false_r in Hun.
    - intros (r & Hr & <- & Hun & E). exists r. split; [done|]. split; [|done]. exists r. by rewrite E. }
  assert (forall e0, x ∈ (list_to_set (C := gset string) (rl_relay_url <$> select (undelivered e0) t))
    <-> exists r, r ∈ t /\ rl_relay_url r = x /\ undelivered e0 r = true) as Hmem.
  { intros e0. rewrite elem_of_list_to_set, list_elem_of_fmap. setoid_rewrite elem_of_select. naive_solver. }
  case_bool_decide as He.
  - subst e'. rewrite elem_of_difference, elem_of_singleton, Hmem. split.
    + intros (r & Hr & <- & Hun & E). rewrite Hun in E. simpl in E. apply bool_decide_eq_false_1 in E. eauto 6.
    + intros [(r & Hr & <- & Hun) Hne]. exists r. by rewrite Hun, bool_decide_false.
  - rewrite Hmem. split; [naive_solver|]. intros (r & Hr & Hx & Hun). exists r. split_and!; try done.
    unfold undelivered in *. apply andb_prop in Hun as [->%bool_decide_eq_true_1 _].
    by rewrite bool_decide_false.
Qed.

(** The [UPDATE]s of the notice tables. *)
Lemma update_invoices_Ok p f d d1 :
  (forall r, iv_request_event_id (f r) = iv_request_event_id r) ->
  (forall r, iv_payment_hash (f r) = iv_payment_hash r) ->
  update_invoices p f d = Ok d1 -> settlements_wf d ->
  settlements_wf d1 /\ d1 = set_nwc_created_invoices (nwc_created_invoices d1) d
  /\ forall e, find_key iv_request_event_id e (nwc_created_invoices d1)
               = (fun r => if p r then f r else r) <$> find_key iv_request_event_id e (nwc_created_invoices d).
Proof.
  intros Hk Hh H [[W1 [W2 W3]] W4 W5 W6]. unfold update_invoices in H.
  destruct (update_where _ _ _ _) as [[t n]|] eqn:Hu; [|done]. injection H as <-.
  split_and!; [|done|by intros e; apply (find_key_update iv_request_event_id _ _ _ _ _ _ e Hu)].
  split; try done; [split_and!|].
  - eapply update_where_Forall; [exact Hu|done|]. auto.
  - simpl. by rewrite (update_where_key iv_request_event_id _ _ _ _ _ _ Hu).
  - simpl. by rewrite (update_where_key iv_payment_hash _ _ _ _ _ _ Hu).
  - simpl. by rewrite (update_where_key iv_request_event_id _ _ _ _ _ _ Hu).
Qed.

Lemma update_sent_Ok p f d d1 :
  (forall r, sp_request_event_id (f r) = sp_request_event_id r) ->
  (forall r, sp_payment_hash (f r) = sp_payment_hash r) ->
  update_sent p f d = Ok d1 -> settlements_wf d ->
  settlements_wf d1 /\ d1 = set_nwc_sent_payments (nwc_sent_payments d1) d
  /\ forall e, find_key sp_request_event_id e (nwc_sent_payments d1)
               = (fun r => if p r then f r else r) <$> find_key sp_request_event_id e (nwc_sent_payments d).
Proof.
  intros Hk Hh H [W4 [W1 [W2 W3]] W5 W6]. unfold update_sent in H.
  destruct (update_where _ _ _ _) as [[t n]|] eqn:Hu; [|done]. injection H as <-.
  split_and!; [|done|by intros e; apply (find_key_update sp_request_event_id _ _ _ _ _ _ e Hu)].
  split; try done; [split_and!|].
  - eapply update_where_Forall; [exact Hu|done|]. auto.
  - simpl. by rewrite (update_where_key sp_request_event_id _ _ _ _ _ _ Hu).
  - simpl. by rewrite (update_where_key sp_payment_hash _ _ _ _ _ _ Hu).
  - simpl. by rewrite (update_where_key sp_request_event_id _ _ _ _ _ _ Hu).
Qed.

Lemma query_key {Row K} `{EqDecision K} (key : Row -> K) k q t : NoDup (key <$> t) ->
  query_row (fun r => bool_decide (key r = k) && q r) t
  = match find_key key k t with Some r => if q r then Some r else None | None => None end.
Proof.
  intros Hnd. destruct (find_key key k t) as [r|] eqn:Hf.
  - apply (find_key_unique _ _ _ _ Hnd) in Hf as [Hr Hk]. destruct (q r) eqn:Hq.
    + apply (query_row_unique key); [done|done|by rewrite bool_decide_true|].
      intros r' _ [?%bool_decide_eq_true_1 _]%andb_prop. congruence.
    + apply query_row_None. intros r' Hr'. apply andb_false_iff.
      destruct (bool_decide (key r' = k)) eqn:E; [right|by left]. apply bool_decide_eq_true_1 in E.
      pose proof (proj2 (find_key_unique key k t r Hnd) (conj Hr Hk)) as H1.
      pose proof (proj2 (find_key_unique key k t r' Hnd) (conj Hr' E)) as H2. congruence.
  - apply query_row_None. intros r Hr. apply find_key_None in Hf. rewrite bool_decide_false; [done|].
    intros <-. apply Hf. by apply list_elem_of_fmap_2.
Qed.

Lemma update_where_total {Row} ok (p : Row -> bool) f t :
  (forall r, r ∈ t -> p r = true -> ok (f r) = true) -> exists t' n, update_where ok p f t = Some (t', n).
Proof.
  intros H. unfold update_where. rewrite (proj2 (forallb_forall _ _)); [eauto|].
  intros r [Hr Hp]%list_elem_of_In%elem_of_select. auto.
Qed.

Lemma invoice_check_event r json now : invoice_check r = true -> iv_completed_at r = None ->
  str_len json <= 131072 -> invoice_check (iv_with_event json now r) = true.
Proof.
  unfold invoice_check. intros Hr Hc Hj. check_to_prop_in Hr. check_to_prop. simpl. destruct_and! Hr.
  split_and!; try done; [|right; eauto|by left]. intros ? [= <-]. by apply Z.leb_le.
Qed.

Lemma invoice_check_completed r now : invoice_check r = true -> not_null (iv_notification_event_json r) = true ->
  invoice_check (iv_with_completed now r) = true.
Proof.
  unfold invoice_check. intros Hr Hj. check_to_prop_in Hr. apply not_null_true in Hj. check_to_prop.
  simpl. destruct_and! Hr. split_and!; try done. by right.
Qed.

(** One notice is changed, and nothing outside the outbox. *)
Definition only_notice (e : EventId) (n : option Notice) (d d' : Database) : Prop :=
  same_core d d' /\ forall e', invoice_notice e' d' = if bool_decide (e' = e) then n else invoice_notice e' d.

Lemma only_notice_update e p f d d1 n :
  (forall r, iv_request_event_id (f r) = iv_request_event_id r) ->
  (forall r, iv_payment_hash (f r) = iv_payment_hash r) ->
  (forall r, p r = true -> iv_request_event_id r = e) ->
  update_invoices p f d = Ok d1 -> settlements_wf d ->
  (forall r, find_key iv_request_event_id e (nwc_created_invoices d) = Some r ->
     n = Some (mkNotice (iv_notification_event_json (if p r then f r else r))
           (waiting e (nwc_invoice_notification_relays d)) (not_null (iv_completed_at (if p r then f r else r))))) ->
  (invoice_notice e d = None -> n = None) -> only_notice e n d d1.
Proof.
  intros Hk Hh Hp Hu Hwf Hn Hnone. destruct (update_invoices_Ok p f d d1 Hk Hh Hu Hwf) as (_ & Hd & Hf).
  split; [by rewrite Hd|]. intros e'. unfold invoice_notice in *. rewrite Hf.
  replace (nwc_invoice_notification_relays d1) with (nwc_invoice_notification_relays d) by (by rewrite Hd).
  destruct (find_key iv_request_event_id e' (nwc_created_invoices d)) as [r|] eqn:Hr; simpl.
  - case_bool_decide as He; [subst e'; by rewrite (Hn r Hr)|].
    destruct (p r) eqn:Hpr; [|done]. apply find_key_Some in Hr as [_ Hr]. apply Hp in Hpr. congruence.
  - case_bool_decide as He; [subst e'|done]. rewrite Hr in Hnone. symmetry. by apply Hnone.
Qed.

Lemma update_invoices_total p f d : settlements_wf d ->
  (forall r, invoice_check r = true -> p r = true -> invoice_check (f r) = true) ->
  exists d1, update_invoices p f d = Ok d1.
Proof.
  intros [[Hck _] _ _ _] H. unfold update_invoices.
  destruct (update_where_total invoice_check p f (nwc_created_invoices d)) as (t & n & ->); [|by eexists].
  rewrite Forall_forall in Hck. auto.
Qed.

Lemma acknowledge_relay_total e relay now t P :
  notice_relays_wf P t -> exists t', acknowledge_relay e relay now t = Ok t'.
Proof.
  intros [Hck _]. unfold acknowledge_relay.
  destruct (update_where_total notification_relay_check
    (fun r => undelivered e r && bool_decide (rl_relay_url r = relay)) (rl_with_delivered now) t)
    as (t' & n & ->); [|by eexists].
  rewrite Forall_forall in Hck. intros r Hr _. by apply Hck in Hr.
Qed.

Lemma waiting_empty e t : exists_row (undelivered e) t = false <-> waiting e t = ∅.
Proof.
  unfold waiting. rewrite exists_row_false. split.
  - intros H. rewrite select_none; done.
  - intros H r Hr. apply not_true_iff_false. intros Hun.
    assert (rl_relay_url r ∈ (list_to_set (C := gset string) (rl_relay_url <$> select (undelivered e) t))) as Hin.
    { apply elem_of_list_to_set, list_elem_of_fmap_2, elem_of_select. done. }
    rewrite H in Hin. set_solver.
Qed.

Lemma store_invoice_notice e proposed now d :
  settlements_wf d -> 1 <= str_len proposed <= 131072 -> now <= i64_max ->
  match invoice_notice e d with
  | Some n =>
      if nt_completed n then store_nwc_invoice_notification_event e proposed now d = Err ConnectionUnavailable
      else exists d', store_nwc_invoice_notification_event e proposed now d
             = Ok (default proposed (nt_event n), d')
           /\ settlements_wf d' /\ only_notice e (Some (notice_stored proposed n)) d d'
  | None => store_nwc_invoice_notification_event e proposed now d = Err ConnectionUnavailable
  end.
Proof.
  intros Hwf Hlen Hnow. unfold store_nwc_invoice_notification_event, string_is_empty, MAX_NOTIFICATION_EVENT_BYTES.
  rewrite (proj2 (Z.eqb_neq _ _)), (proj2 (Z.ltb_ge _ _)) by lia. cbn [orb].
  assert (ledger_i64 now = Ok now) as ->.
  { unfold ledger_i64. by rewrite (proj2 (i64_try_from_Some now now) (conj eq_refl Hnow)). }
  set (p := fun r => _ && null (iv_notification_event_json r)).
  destruct (update_invoices_total p (iv_with_event proposed now) d Hwf) as [d1 Hu].
  { intros r Hck [[_ Hc]%andb_prop _]%andb_prop. apply invoice_check_event; [done| |lia].
    by apply null_true. }
  rewrite Hu. destruct (update_invoices_Ok p (iv_with_event proposed now) d d1 ltac:(done) ltac:(done) Hu Hwf) as (Hwf1 & _ & Hf).
  unfold event_is. rewrite (query_key iv_request_event_id) by apply Hwf1. rewrite Hf.
  pose proof (only_notice_update e p (iv_with_event proposed now) d d1) as Honly.
  unfold invoice_notice at 1. destruct (find_key iv_request_event_id e (nwc_created_invoices d)) as [r|] eqn:Hr; [|done].
  cbn [fmap option_fmap option_map nt_completed]. apply find_key_Some in Hr as Hk. destruct Hk as [_ Hk].
  assert (p r = null (iv_completed_at r) && null (iv_notification_event_json r)) as Hp.
  { unfold p, event_is. by rewrite bool_decide_true. }
  destruct (iv_completed_at r) as [t|] eqn:Hc; cbn [null not_null andb] in Hp |- *; [by rewrite Hp, Hc|].
  rewrite Hp. destruct (iv_notification_event_json r) as [j|] eqn:Hj; cbn [null]; simpl; rewrite ?Hc; simpl;
    rewrite ?Hj; simpl; (eexists; split; [reflexivity|split; [done|]]);
    (apply Honly; try done;
       [by intros r' [[?%bool_decide_eq_true_1 _]%andb_prop _]%andb_prop
       |intros r' Hr'; assert (r' = r) as -> by congruence; rewrite Hp; simpl; by rewrite ?Hj, ?Hc
       |unfold invoice_notice; by rewrite Hr]).
Qed.

Lemma ledger_i64_Ok now : now <= i64_max -> ledger_i64 now = Ok now.
Proof. intros H. unfold ledger_i64. by rewrite (proj2 (i64_try_from_Some now now) (conj eq_refl H)). Qed.

Lemma complete_invoice_notice e now d : settlements_wf d -> now <= i64_max ->
  exists d', complete_nwc_invoice_notification e now d = Ok (tt, d')
    /\ settlements_wf d' /\ only_notice e (notice_completed <$> invoice_notice e d) d d'.
Proof.
  intros Hwf Hnow. unfold complete_nwc_invoice_notification. rewrite ledger_i64_Ok by done.
  set (p := fun r => _ && negb (exists_row (undelivered e) _)).
  destruct (update_invoices_total p (iv_with_completed now) d Hwf) as [d1 Hu].
  { intros r Hck [[[_ Hj]%andb_prop _]%andb_prop _]%andb_prop. by apply invoice_check_completed. }
  rewrite Hu. destruct (update_invoices_Ok p (iv_with_completed now) d d1 ltac:(done) ltac:(done) Hu Hwf) as (Hwf1 & _ & _).
  eexists; split; [reflexivity|split; [done|]].
  apply (only_notice_update e p (iv_with_completed now)); try done.
  - by intros r [[[?%bool_decide_eq_true_1 _]%andb_prop _]%andb_prop _]%andb_prop.
  - intros r Hr. unfold invoice_notice. rewrite Hr. simpl. unfold notice_completed. simpl.
    apply find_key_Some in Hr as [_ Hk]. unfold p, event_is. rewrite (bool_decide_true (_ = e)) by done.
    cbn [andb]. assert (negb (exists_row (undelivered e) (nwc_invoice_notification_relays d))
      = bool_decide (waiting e (nwc_invoice_notification_relays d) = ∅)) as ->.
    { apply eq_true_iff_eq. by rewrite negb_true_iff, bool_decide_eq_true, waiting_empty. }
    destruct (iv_notification_event_json r) as [j|] eqn:Hj, (iv_completed_at r) as [t|] eqn:Hc,
      (bool_decide (waiting _ _ = ∅)); simpl; by rewrite ?Hj, ?Hc.
  - intros Hn. by rewrite Hn.
Qed.

Lemma acknowledge_invoice_notice e relay now d : settlements_wf d -> now <= i64_max ->
  exists d', acknowledge_nwc_invoice_relay e relay now d = Ok (tt, d')
    /\ settlements_wf d' /\ only_notice e (notice_acknowledged relay <$> invoice_notice e d) d d'.
Proof.
  intros [W1 W2 W3 W4] Hnow. unfold acknowledge_nwc_invoice_relay. rewrite ledger_i64_Ok by done.
  destruct (acknowledge_relay_total e relay now _ _ W3) as [t' Ht]. rewrite Ht.
  eexists; split; [reflexivity|split].
  - split; try done. by eapply acknowledge_relay_wf.
  - split; [by split_and!|]. intros e'. unfold invoice_notice. simpl.
    rewrite (acknowledge_relay_waiting e relay now _ _ e' Ht). case_bool_decide as He; [subst e'|done].
    by destruct (find_key iv_request_event_id e (nwc_created_invoices d)).
Qed.

Lemma drop_relays_waiting owners t e : e ∉ owners -> waiting e (drop_relays owners t) = waiting e t.
Proof.
  intros He. unfold waiting, drop_relays, delete_where. cbn [fst]. do 2 f_equal. unfold select.
  induction t as [|r t IH]; [done|]. simpl. destruct (bool_decide (rl_owner r ∈ owners)) eqn:E; simpl.
  - unfold undelivered at 2. apply bool_decide_eq_true_1 in E.
    rewrite bool_decide_false by (intros <-; done). exact IH.
  - by rewrite IH.
Qed.

Lemma delete_invoices_wf e p d : settlements_wf d ->
  (forall r, p r = true -> iv_request_event_id r = e) ->
  settlements_wf (set_nwc_invoice_notification_relays
    (drop_relays (iv_request_event_id <$> select p (nwc_created_invoices d)) (nwc_invoice_notification_relays d))
    (set_nwc_created_invoices (delete_where p (nwc_created_invoices d)).1 d)).
Proof.
  intros [[W1 [W2 W3]] W4 W5 W6] Hp. split; try done; simpl.
  - split_and!; [by apply delete_where_Forall|by apply (delete_where_key iv_request_event_id)
      |by apply (delete_where_key iv_payment_hash)].
  - eapply drop_relays_wf; [|exact W5]. intros k (r & -> & Hr)%list_elem_of_fmap Hno.
    apply list_elem_of_fmap_2, elem_of_select. split; [done|]. apply negb_true_iff.
    destruct (p r) eqn:E; [|done]. exfalso. apply Hno. by apply list_elem_of_fmap_2, elem_of_select.
Qed.

Lemma expire_invoice_notice e d : settlements_wf d ->
  exists d', expire_nwc_invoice e d = Ok (tt, d')
    /\ settlements_wf d' /\ only_notice e (invoice_notice e d ≫= notice_expired) d d'.
Proof.
  intros Hwf. unfold expire_nwc_invoice. set (p := fun r => _ && null (iv_notification_event_json r)).
  assert (forall r, p r = true -> iv_request_event_id r = e) as Hp
    by (by intros r [?%bool_decide_eq_true_1 _]%andb_prop).
  eexists; split; [reflexivity|split]; [exact (delete_invoices_wf e p d Hwf Hp)|].
  split; [by split_and!|]. intros e'. unfold invoice_notice. cbn [nwc_created_invoices nwc_invoice_notification_relays
    set_nwc_invoice_notification_relays set_nwc_created_invoices].
  destruct Hwf as [[_ [Hnd _]] _ _ _]. rewrite (find_key_delete iv_request_event_id) by done.
  case_bool_decide as He.
  - subst e'. destruct (find_key iv_request_event_id e (nwc_created_invoices d)) as [r|] eqn:Hr; [|done].
    apply (find_key_unique _ _ _ _ Hnd) in Hr as [Hr Hk]. unfold notice_expired. cbn [fmap option_fmap option_map mbind option_bind nt_event].
    assert (p r = null (iv_notification_event_json r)) as Hpr by (unfold p, event_is; by rewrite bool_decide_true).
    rewrite Hpr. destruct (iv_notification_event_json r) as [j|] eqn:Hj; [|done]. simpl. rewrite Hj.
    rewrite drop_relays_waiting; [done|]. intros (r' & Hk' & [Hr' Hp']%elem_of_select)%list_elem_of_fmap.
    assert (r' = r) as ->; [|by rewrite Hpr in Hp'].
    pose proof (proj2 (find_key_unique _ _ _ r' Hnd) (conj Hr' eq_refl)).
    pose proof (proj2 (find_key_unique _ _ _ r Hnd) (conj Hr eq_refl)). congruence.
  - destruct (find_key iv_request_event_id e' (nwc_created_invoices d)) as [r|] eqn:Hr; [|done].
    apply find_key_Some in Hr as [_ Hk]. destruct (p r) eqn:Hpr; [apply Hp in Hpr; congruence|]. simpl.
    rewrite drop_relays_waiting; [done|]. intros (r' & Hk' & [_ Hp'%Hp]%elem_of_select)%list_elem_of_fmap.
    congruence.
Qed.

Lemma store_invoice_Ok e proposed now d canonical d' : settlements_wf d ->
  store_nwc_invoice_notification_event e proposed now d = Ok (canonical, d') ->
  exists n, invoice_notice e d = Some n /\ nt_completed n = false /\ canonical = default proposed (nt_event n)
    /\ settlements_wf d' /\ only_notice e (Some (notice_stored proposed n)) d d'.
Proof.
  intros Hwf H.
  assert (1 <= str_len proposed <= 131072 /\ now <= i64_max) as [Hl Hn].
  { unfold store_nwc_invoice_notification_event, string_is_empty, MAX_NOTIFICATION_EVENT_BYTES in H.
    destruct (_ || _) eqn:E; [done|]. apply bind_Ok in H as (? & Hi & _). bool_to_prop.
    apply ok_or_Ok, i64_try_from_Some in Hi as [_ ?]. assert (0 <= str_len proposed) by (unfold str_len; lia). lia. }
  pose proof (store_invoice_notice e proposed now d Hwf Hl Hn) as Hs.
  destruct (invoice_notice e d) as [n|]; [|congruence]. destruct (nt_completed n) eqn:Hc; [congruence|].
  destruct Hs as (d2 & Hs & Hwf' & Ho). exists n. rewrite Hs in H. injection H as <- <-. by split_and!.
Qed.

Lemma store_sent_Ok e proposed d canonical d' : settlements_wf d ->
  store_nwc_sent_notification_event e proposed d = Ok (canonical, d') ->
  exists n, sent_notice e d' = Some n /\ nt_event n = Some canonical.
Proof.
  intros Hwf H. unfold store_nwc_sent_notification_event in H. destruct (_ || _); [done|].
  apply bind_Ok in H as (d1 & Hu & H). apply bind_Ok in H as (r & Hr%ok_or_Ok & H).
  apply bind_Ok in H as (c & Hc%ok_or_Ok & [= <- <-]).
  assert (settlements_wf d1) as Hwf1 by (by eapply update_sent_Ok; [..|exact Hu|]).
  unfold event_is in Hr. rewrite (query_key sp_request_event_id) in Hr by apply Hwf1.
  unfold sent_notice. destruct (find_key sp_request_event_id e (nwc_sent_payments d1)) as [r'|]; [|done].
  destruct (null _); [|done]. injection Hr as ->. eexists. split; [reflexivity|exact Hc].
Qed.

(** What the queues hold is stored. *)
Lemma fixed_bytes_Ok v b : fixed_bytes v = Ok b -> b = v.
Proof. unfold fixed_bytes. destruct (Nat.eqb _ _); by intros [= <-]. Qed.

Lemma pending_sent_rows p maximum d l : load_pending_sent p maximum d = Ok l ->
  forall x, x ∈ l -> exists r, r ∈ nwc_sent_payments d /\ sp_completed_at r = None /\ p r = true
    /\ decode_sent_payment r = Ok x.
Proof.
  intros H x Hx. unfold load_pending_sent in H. destruct (_ || _); [done|].
  apply bind_Ok in H as (n & _ & H%collect_results_Forall2).
  apply list_elem_of_lookup in Hx as [i Hi]. destruct (Forall2_lookup_r _ _ _ _ _ H Hi) as (r & Hr & Hd).
  apply list_elem_of_lookup_2, elem_of_limit in Hr. rewrite order_by_Permutation in Hr.
  apply elem_of_select in Hr as [Hr [Hn Hp]%andb_true_iff]. exists r. split_and!; [done| |done..].
  by destruct (sp_completed_at r).
Qed.

Lemma pending_invoice_rows p maximum d l : load_pending_invoices p maximum d = Ok l ->
  forall x, x ∈ l -> exists r, r ∈ nwc_created_invoices d /\ iv_completed_at r = None /\ p r = true
    /\ decode_invoice r = Ok x.
Proof.
  intros H x Hx. unfold load_pending_invoices in H. destruct (_ || _); [done|].
  apply bind_Ok in H as (n & _ & H%collect_results_Forall2).
  apply list_elem_of_lookup in Hx as [i Hi]. destruct (Forall2_lookup_r _ _ _ _ _ H Hi) as (r & Hr & Hd).
  apply list_elem_of_lookup_2, elem_of_limit in Hr. rewrite order_by_Permutation in Hr.
  apply elem_of_select in Hr as [Hr [Hn Hp]%andb_true_iff]. exists r. split_and!; [done| |done..].
  by destruct (iv_completed_at r).
Qed.

Lemma pending_invoice_row e d x : pending_nwc_invoice e d = Ok (Some x) ->
  exists r, r ∈ nwc_created_invoices d /\ iv_completed_at r = None /\ iv_request_event_id r = e
    /\ decode_invoice r = Ok x.
Proof.
  intros H. unfold pending_nwc_invoice in H. destruct (query_row _ _) as [r|] eqn:Hq; [|done].
  apply query_row_Some in Hq as [Hr [He Hn]%andb_true_iff]. simpl in H. apply bind_Ok in H as (y & Hd & [= <-]).
  exists r. split_and!; [done| | |done]; [by destruct (iv_completed_at r)|].
  unfold event_is in He. by apply bool_decide_eq_true_1 in He.
Qed.

Lemma decode_sent_Ok r x : decode_sent_payment r = Ok x ->
  tp_request_event_id x = sp_request_event_id r /\ tp_notification_event_json x = sp_notification_event_json r.
Proof.
  unfold decode_sent_payment. intros Hd.
  apply bind_Ok in Hd as (event & ->%fixed_bytes_Ok & Hd). do 8 (apply bind_Ok in Hd as (? & _ & Hd)).
  by injection Hd as <-.
Qed.

Lemma decode_invoice_Ok r x : decode_invoice r = Ok x ->
  ti_request_event_id x = iv_request_event_id r /\ ti_payment_hash x = iv_payment_hash r
  /\ ti_notification_event_json x = iv_notification_event_json r.
Proof.
  unfold decode_invoice. intros Hd.
  apply bind_Ok in Hd as (event & ->%fixed_bytes_Ok & Hd). apply bind_Ok in Hd as (hash & ->%fixed_bytes_Ok & Hd).
  do 5 (apply bind_Ok in Hd as (? & _ & Hd)). by injection Hd as <-.
Qed.

Lemma stored_sent_event r x d : settlements_wf d -> r ∈ nwc_sent_payments d -> decode_sent_payment r = Ok x ->
  forall json, tp_notification_event_json x = Some json ->
  exists n, sent_notice (tp_request_event_id x) d = Some n /\ nt_event n = Some json.
Proof.
  intros Hwf Hr [-> ->]%decode_sent_Ok json Hj. unfold sent_notice.
  rewrite (proj2 (find_key_unique sp_request_event_id _ _ r (proj1 (proj2 (xw_sent _ Hwf)))) (conj Hr eq_refl)).
  by eexists.
Qed.

Lemma stored_invoice_event r x d : settlements_wf d -> r ∈ nwc_created_invoices d -> decode_invoice r = Ok x ->
  forall json, ti_notification_event_json x = Some json ->
  exists n, invoice_notice (ti_request_event_id x) d = Some n /\ nt_event n = Some json.
Proof.
  intros Hwf Hr (-> & _ & ->)%decode_invoice_Ok json Hj. unfold invoice_notice.
  rewrite (proj2 (find_key_unique iv_request_event_id _ _ r (proj1 (proj2 (xw_invoices _ Hwf)))) (conj Hr eq_refl)).
  by eexists.
Qed.

(** The evolution of a notice is that of its row. *)
Definition row_evolves {Row} (may_forget : bool) (event : Row -> option string) (completed : Row -> option Z)
    (r : Row) (o : option Row) : Prop :=
  match o with
  | Some r' => (forall j, event r = Some j -> event r' = Some j)
      /\ (not_null (completed r) = true -> not_null (completed r') = true)
  | None => may_forget = true \/ event r = None
  end.

Lemma invoice_evolves d d' :
  (forall e r, find_key iv_request_event_id e (nwc_created_invoices d) = Some r ->
     row_evolves false iv_notification_event_json iv_completed_at r
       (find_key iv_request_event_id e (nwc_created_invoices d'))) ->
  forall e, notice_evolves false (invoice_notice e d) (invoice_notice e d').
Proof.
  intros H e. unfold invoice_notice. specialize (H e).
  destruct (find_key _ e (nwc_created_invoices d)) as [r|]; [|done]. specialize (H r eq_refl).
  by destruct (find_key _ e (nwc_created_invoices d')).
Qed.

Lemma sent_evolves d d' :
  (forall e r, find_key sp_request_event_id e (nwc_sent_payments d) = Some r ->
     row_evolves true sp_notification_event_json sp_completed_at r
       (find_key sp_request_event_id e (nwc_sent_payments d'))) ->
  forall e, notice_evolves true (sent_notice e d) (sent_notice e d').
Proof.
  intros H e. unfold sent_notice. specialize (H e).
  destruct (find_key _ e (nwc_sent_payments d)) as [r|]; [|done]. specialize (H r eq_refl).
  by destruct (find_key _ e (nwc_sent_payments d')).
Qed.

Record settles_on (d d' : Database) : Prop := {
  so_wf : settlements_wf d';
  so_invoices : forall e, notice_evolves false (invoice_notice e d) (invoice_notice e d');
  so_sent : forall e, notice_evolves true (sent_notice e d) (sent_notice e d');
}.

Lemma row_evolves_refl {Row} b event completed (r : Row) : row_evolves b event completed r (Some r).
Proof. by split. Qed.

Lemma invoice_rows_same d d' : nwc_created_invoices d' = nwc_created_invoices d ->
  forall e, notice_evolves false (invoice_notice e d) (invoice_notice e d').
Proof. intros H. apply invoice_evolves. rewrite H. intros e r ->. apply row_evolves_refl. Qed.
Lemma sent_rows_same d d' : nwc_sent_payments d' = nwc_sent_payments d ->
  forall e, notice_evolves true (sent_notice e d) (sent_notice e d').
Proof. intros H. apply sent_evolves. rewrite H. intros e r ->. apply row_evolves_refl. Qed.

Lemma same_settle_on d d' : same_settlements d d' -> settlements_wf d -> settles_on d d'.
Proof.
  intros Hs Hwf. split; [by eapply settlements_ext|apply invoice_rows_same, Hs|apply sent_rows_same, Hs].
Qed.

(** An update of a notice table. *)
Lemma update_invoices_settles p f d d1 :
  (forall r, iv_request_event_id (f r) = iv_request_event_id r) ->
  (forall r, iv_payment_hash (f r) = iv_payment_hash r) ->
  (forall r, p r = true -> row_evolves false iv_notification_event_json iv_completed_at r (Some (f r))) ->
  update_invoices p f d = Ok d1 -> settlements_wf d -> settles_on d d1.
Proof.
  intros Hk Hh He Hu Hwf. destruct (update_invoices_Ok p f d d1 Hk Hh Hu Hwf) as (Hwf1 & Hd & Hf).
  split; [done| |apply sent_rows_same; by rewrite Hd].
  apply invoice_evolves. intros e r Hr. rewrite Hf, Hr. cbn [fmap option_fmap option_map].
  destruct (p r) eqn:Hp; [by apply He|apply row_evolves_refl].
Qed.

Lemma update_sent_settles p f d d1 :
  (forall r, sp_request_event_id (f r) = sp_request_event_id r) ->
  (forall r, sp_payment_hash (f r) = sp_payment_hash r) ->
  (forall r, p r = true -> row_evolves true sp_notification_event_json sp_completed_at r (Some (f r))) ->
  update_sent p f d = Ok d1 -> settlements_wf d -> settles_on d d1.
Proof.
  intros Hk Hh He Hu Hwf. destruct (update_sent_Ok p f d d1 Hk Hh Hu Hwf) as (Hwf1 & Hd & Hf).
  split; [done|apply invoice_rows_same; by rewrite Hd|].
  apply sent_evolves. intros e r Hr. rewrite Hf, Hr. cbn [fmap option_fmap option_map].
  destruct (p r) eqn:Hp; [by apply He|apply row_evolves_refl].
Qed.

Lemma acknowledge_settles (sent : bool) e relay now d t :
  acknowledge_relay e relay now (if sent then nwc_sent_payment_relays d else nwc_invoice_notification_relays d) = Ok t ->
  settlements_wf d ->
  settles_on d (if sent then set_nwc_sent_payment_relays t d else set_nwc_invoice_notification_relays t d).
Proof.
  intros Ht [W1 W2 W3 W4]. destruct sent;
    (split; [split; try done; by eapply acknowledge_relay_wf|by apply invoice_rows_same|by apply sent_rows_same]).
Qed.

Lemma exists_event {Row} (key : Row -> list Z) e t :
  exists_row (event_is key e) t = true -> e ∈ key <$> t.
Proof.
  intros (r & Hr & <-%bool_decide_eq_true_1)%exists_row_true. by apply list_elem_of_fmap_2.
Qed.

(** An insertion into a notice table keeps the rows there. *)
Lemma insert_keeps {Row K} `{EqDecision K} (key : Row -> K) check fk conflict clash (r : Row) t t' :
  insert_or_nothing check fk conflict clash r t = Some t' ->
  (forall k, k ∈ key <$> t -> k ∈ key <$> t')
  /\ forall k x, find_key key k t = Some x -> find_key key k t' = Some x.
Proof.
  intros [->|(-> & _ & _)%insert_row_Some]%insert_or_nothing_Some; [by split|]. split.
  - intros k Hk. rewrite fmap_app. apply elem_of_app. by left.
  - intros k x Hx. by rewrite find_key_app, Hx.
Qed.

Lemma record_sent_settles p relays d d' :
  record_nwc_sent_payment p relays d = Ok (tt, d') -> settlements_wf d -> settles_on d d'.
Proof.
  unfold record_nwc_sent_payment. intros H [W1 [W2 [W3 W4]] W5 W6].
  destruct (_ || _); [done|]. do 5 (apply bind_Ok in H as (? & _ & H)).
  apply bind_Ok in H as (t & Ht%ok_or_Ok & H). apply bind_Ok in H as (t' & Ht'%ok_or_Ok & [= <-]).
  destruct (insert_keeps sp_request_event_id _ _ _ _ _ _ _ Ht) as [Hkey Hfind].
  split; [|by apply invoice_rows_same|].
  - split; try done; simpl.
    + apply insert_or_nothing_Some in Ht as [->|Ht]; [done|]. split_and!.
      * eapply insert_row_Forall; [exact Ht| |done]. by intros [? _]%andb_prop.
      * eapply insert_row_key; [exact Ht| |done]. intros r' Hr. unfold sent_payment_clash. by rewrite Hr, bool_decide_true.
      * eapply insert_row_key; [exact Ht| |done]. intros r' Hr. unfold sent_payment_clash.
        by rewrite Hr, (bool_decide_true (sp_payment_hash r' = _)), orb_true_r.
    + eapply insert_notice_relays; [exact Ht'|intros o Ho; exact (exists_event _ _ _ Ho)|].
      exact (notice_relays_owner _ _ _ Hkey W6).
  - apply sent_evolves. intros e r Hr. simpl. rewrite (Hfind e r Hr). apply row_evolves_refl.
Qed.

Lemma record_invoice_settles token i relays i' d d' :
  record_nwc_invoice token i relays d = Ok (i', d') -> settlements_wf d -> settles_on d d'.
Proof.
  unfold record_nwc_invoice. intros H [[W2 [W3 W4]] W1 W5 W6].
  destruct (_ || _); [done|]. do 5 (apply bind_Ok in H as (? & _ & H)).
  apply bind_Ok in H as (t & Ht%ok_or_Ok & H). do 2 (apply bind_Ok in H as (? & _ & H)).
  destruct (_ || _); [done|]. apply bind_Ok in H as (t' & Ht'%ok_or_Ok & [= <- <-]).
  destruct (insert_keeps iv_request_event_id _ _ _ _ _ _ _ Ht) as [Hkey Hfind].
  split; [| |by apply sent_rows_same].
  - split; try done; simpl.
    + apply insert_or_nothing_Some in Ht as [->|Ht]; [done|]. split_and!.
      * eapply insert_row_Forall; [exact Ht| |done]. by intros [? _]%andb_prop.
      * eapply insert_row_key; [exact Ht| |done]. intros r' Hr. unfold invoice_clash. by rewrite Hr, bool_decide_true.
      * eapply insert_row_key; [exact Ht| |done]. intros r' Hr. unfold invoice_clash.
        by rewrite Hr, (bool_decide_true (iv_payment_hash r' = _)), orb_true_r.
    + eapply insert_notice_relays; [exact Ht'|intros o Ho; exact (exists_event _ _ _ Ho)|].
      exact (notice_relays_owner _ _ _ Hkey W5).
  - apply invoice_evolves. intros e r Hr. simpl. rewrite (Hfind e r Hr). apply row_evolves_refl.
Qed.

Lemma discard_sent_settles e d d' :
  discard_nwc_sent_payment e d = Ok (tt, d') -> settlements_wf d -> settles_on d d'.
Proof.
  unfold discard_nwc_sent_payment. intros [= <-] [W1 [W2 [W3 W4]] W5 W6].
  split; [| by apply invoice_rows_same|].
  - split; try done; simpl.
    + split_and!; [by apply delete_where_Forall|by apply (delete_where_key sp_request_event_id)
        |by apply (delete_where_key sp_payment_hash)].
    + eapply drop_relays_wf; [|exact W6]. intros k (r & -> & Hr)%list_elem_of_fmap Hno.
      apply list_elem_of_fmap_2, elem_of_select. split; [done|]. apply negb_true_iff.
      destruct (event_is _ e r) eqn:E; [|done]. exfalso. apply Hno. by apply list_elem_of_fmap_2, elem_of_select.
  - apply sent_evolves. intros e' r Hr.
    cbn [nwc_sent_payments set_nwc_sent_payment_relays set_nwc_sent_payments].
    change (select _ _) with (delete_where (event_is sp_request_event_id e) (nwc_sent_payments d)).1.
    rewrite (find_key_delete sp_request_event_id), Hr by done.
    destruct (event_is _ e r); [by left|apply row_evolves_refl].
Qed.

(** The result of an update of the rows, as a transaction. *)
Lemma outbox_step_settles d d' : outbox_step d d' -> settlements_wf d -> settles_on d d'.
Proof.
  intros Hs Hwf.
  destruct Hs as [p relays d d' H|e json c d d' H|e relay now d d' H|e now d d' H|e d d' H
    |token i relays i' d d' H|e now d d' H|e json now c d d' H|e relay now d d' H|e now d d' H|e d d' H].
  - by eapply record_sent_settles.
  - unfold store_nwc_sent_notification_event in H. destruct (_ || _); [done|].
    apply bind_Ok in H as (d1 & Hu & H). do 2 (apply bind_Ok in H as (? & _ & H)). injection H as _ <-.
    eapply update_sent_settles; [..|exact Hu|done]; try done.
    intros r [_ Hj%null_true]%andb_prop. simpl. by rewrite Hj.
  - unfold acknowledge_nwc_sent_relay in H. apply bind_Ok in H as (? & _ & H).
    apply bind_Ok in H as (t & Ht & [= <-]). by eapply (acknowledge_settles true).
  - unfold complete_nwc_sent_notification in H. apply bind_Ok in H as (? & _ & H).
    apply bind_Ok in H as (d1 & Hu & [= <-]). by eapply update_sent_settles; [..|exact Hu|].
  - by eapply discard_sent_settles.
  - by eapply record_invoice_settles.
  - unfold touch_nwc_invoice in H. apply bind_Ok in H as (? & _ & H). destruct (exists_row _ _); [done|].
    apply bind_Ok in H as (d1 & Hu & [= <-]). by eapply update_invoices_settles; [..|exact Hu|].
  - unfold store_nwc_invoice_notification_event in H. destruct (_ || _); [done|].
    apply bind_Ok in H as (? & _ & H).
    apply bind_Ok in H as (d1 & Hu & H). do 2 (apply bind_Ok in H as (? & _ & H)). injection H as _ <-.
    eapply update_invoices_settles; [..|exact Hu|done]; try done.
    intros r [_ Hj%null_true]%andb_prop. simpl. by rewrite Hj.
  - unfold acknowledge_nwc_invoice_relay in H. apply bind_Ok in H as (? & _ & H).
    apply bind_Ok in H as (t & Ht & [= <-]). by eapply (acknowledge_settles false).
  - unfold complete_nwc_invoice_notification in H. apply bind_Ok in H as (? & _ & H).
    apply bind_Ok in H as (d1 & Hu & [= <-]). by eapply update_invoices_settles; [..|exact Hu|].
  - destruct (expire_invoice_notice e d Hwf) as (d1 & H1 & Hwf1 & _ & Hn).
    assert (d1 = d') as -> by congruence. split; [done| |].
    + intros e'. rewrite Hn. case_bool_decide as He; [subst e'|].
      * destruct (invoice_notice e d) as [n|]; [|done]. simpl. unfold notice_expired.
        destruct (nt_event n) eqn:E; simpl; [by rewrite E|by right].
      * by destruct (invoice_notice e' d).
    + apply sent_rows_same. by injection H as <-.
Qed.

(** ** Properties *)

(** The transactions on an invoice's notification implement its abstract life:
    the first stored event is the canonical one and every later proposal
    yields it; an acknowledged relay waits no more; the notification is
    completed exactly when it has an event and no relay waits; an invoice is
    forgotten only while it has no event.  No transaction touches another
    notification or another component, and each keeps the tables' constraints. *)
Theorem invoice_outbox_refines e d (Hwf : settlements_wf d) :
  (forall proposed now,
     match store_nwc_invoice_notification_event e proposed now d with
     | Ok (canonical, d') => exists n, invoice_notice e d = Some n /\ nt_completed n = false
         /\ canonical = default proposed (nt_event n)
         /\ settlements_wf d' /\ only_notice e (Some (notice_stored proposed n)) d d'
     | Err ResponseTooLarge => str_len proposed = 0 \/ 131072 < str_len proposed
     | Err ValueOutOfRange => i64_max < now
     | Err error => error = ConnectionUnavailable
         /\ forall n, invoice_notice e d = Some n -> nt_completed n = true
     end)
  /\ (forall relay now,
     match acknowledge_nwc_invoice_relay e relay now d with
     | Ok (_, d') => settlements_wf d' /\ only_notice e (notice_acknowledged relay <$> invoice_notice e d) d d'
     | Err error => error = ValueOutOfRange /\ i64_max < now
     end)
  /\ (forall now,
     match complete_nwc_invoice_notification e now d with
     | Ok (_, d') => settlements_wf d' /\ only_notice e (notice_completed <$> invoice_notice e d) d d'
     | Err error => error = ValueOutOfRange /\ i64_max < now
     end)
  /\ match expire_nwc_invoice e d with
     | Ok (_, d') => settlements_wf d' /\ only_notice e (invoice_notice e d ≫= notice_expired) d d'
     | Err _ => False
     end.
Proof.
  split_and!.
  - intros proposed now.
    destruct (Z.eq_dec (str_len proposed) 0) as [Hz|Hz].
    { unfold store_nwc_invoice_notification_event, string_is_empty. rewrite Hz. by left. }
    destruct (Z.lt_ge_cases 131072 (str_len proposed)) as [Hl|Hl].
    { unfold store_nwc_invoice_notification_event, MAX_NOTIFICATION_EVENT_BYTES.
      rewrite (proj2 (Z.ltb_lt (128 * 1024) _)), orb_true_r by lia. by right. }
    assert (0 <= str_len proposed) as Hpos by (unfold str_len; lia).
    destruct (Z.lt_ge_cases i64_max now) as [Hn|Hn].
    { unfold store_nwc_invoice_notification_event, MAX_NOTIFICATION_EVENT_BYTES, string_is_empty, ledger_i64, i64_try_from.
      rewrite (proj2 (Z.eqb_neq _ _)), (proj2 (Z.ltb_ge _ _)), (proj2 (Z.leb_gt now i64_max)) by lia. done. }
    pose proof (store_invoice_notice e proposed now d Hwf ltac:(lia) Hn) as H.
    destruct (invoice_notice e d) as [n|]; [|rewrite H; by split].
    destruct (nt_completed n) eqn:Hc; [rewrite H; split; [done|congruence]|].
    destruct H as (d' & -> & Hwf' & Hd). eauto 8.
  - intros relay now. destruct (Z.lt_ge_cases i64_max now) as [Hn|Hn].
    + unfold acknowledge_nwc_invoice_relay, ledger_i64, i64_try_from. by rewrite (proj2 (Z.leb_gt now i64_max)).
    + by destruct (acknowledge_invoice_notice e relay now d Hwf Hn) as (d' & -> & ?).
  - intros now. destruct (Z.lt_ge_cases i64_max now) as [Hn|Hn].
    + unfold complete_nwc_invoice_notification, ledger_i64, i64_try_from. by rewrite (proj2 (Z.leb_gt now i64_max)).
    + by destruct (complete_invoice_notice e now d Hwf Hn) as (d' & -> & ?).
  - by destruct (expire_invoice_notice e d Hwf) as (d' & -> & ?).
Qed.

(** ** A run of the model

    An invoice of the imported connection, for one relay. *)

Definition sample_tracked_invoice : TrackedNwcInvoice :=
  TrackedNwcInvoice_new (repeat 3 32) (repeat 6 32) "c1" 0 "lnbc1" None 1000 240 900.

Definition invoiced_database : Database :=
  match record_nwc_invoice (Some (repeat 4 32)) sample_tracked_invoice ["wss://a"%string] imported_database with
  | Ok (_, d) => d
  | Err _ => empty_database
  end.

Lemma imported_settlements_wf : settlements_wf imported_database.
Proof.
  apply (settlements_ext empty_database); [split_and!; by vm_compute|apply empty_settlements_wf].
Qed.

Lemma invoiced_step : exists i, record_nwc_invoice (Some (repeat 4 32)) sample_tracked_invoice
  ["wss://a"%string] imported_database = Ok (i, invoiced_database).
Proof.
  unfold invoiced_database.
  assert (is_ok (record_nwc_invoice (Some (repeat 4 32)) sample_tracked_invoice ["wss://a"%string]
    imported_database) = true) as H by (clear; by vm_compute).
  destruct (record_nwc_invoice _ _ _ _) as [[i d]|]; [by exists i|done].
Qed.

Lemma invoiced_settlements_wf : settlements_wf invoiced_database.
Proof. destruct invoiced_step as [i H]. by apply (record_invoice_settles _ _ _ _ _ _ H), imported_settlements_wf. Qed.

Lemma invoice_outbox_refines_witness :
  exists d', expire_nwc_invoice (repeat 3 32) invoiced_database = Ok (tt, d')
    /\ invoice_notice (repeat 3 32) invoiced_database <> None /\ invoice_notice (repeat 3 32) d' = None.
Proof.
  destruct (invoice_outbox_refines (repeat 3 32) invoiced_database invoiced_settlements_wf) as (_ & _ & _ & H).
  assert (exists w, invoice_notice (repeat 3 32) invoiced_database = Some (mkNotice None w false)) as [w Hw]
    by (clear; eexists; vm_compute; reflexivity).
  destruct (expire_nwc_invoice (repeat 3 32) invoiced_database) as [[[] d']|] eqn:He; [|destruct H].
  exists d'. destruct H as (_ & _ & H). specialize (H (repeat 3 32)). rewrite bool_decide_true, Hw in H by done.
  split; [reflexivity|]. split; [rewrite Hw; discriminate|exact H].
Defined.
