(* ===== verification/Accounting.v ===== *)
(** * Payment accounting

    Models [payment_accounting.rs]: the durable reservation of principal and
    maximum fee against a renewal period of the connection's budget, the
    initiation marker, the payment lifecycle, and the settlement, refund and
    release of a reservation. *)
From S2P Require Import Prelude Sqlite Types Policy Host Schema Ledger Registry.
#[local] Open Scope Z_scope.

Inductive PaymentAccountingError : Type :=
| Pay_DatabaseUnavailable
| Pay_CorruptData
| Pay_ValueOutOfRange
| Pay_ConnectionUnavailable
| Pay_InvalidAmount
| Pay_BudgetExceeded
| Pay_ReservationConflict
| Pay_TerminalStateConflict.

#[export] Instance PaymentAccountingError_eq_dec : EqDecision PaymentAccountingError.
Proof. solve_decision. Defined.

Inductive DurablePaymentState : Type :=
| State_Reserved | State_Pending | State_Succeeded | State_Failed.

#[export] Instance DurablePaymentState_eq_dec : EqDecision DurablePaymentState.
Proof. solve_decision. Defined.

Definition state_as_str (s : DurablePaymentState) : string :=
  match s with
  | State_Reserved => "reserved" | State_Pending => "pending"
  | State_Succeeded => "succeeded" | State_Failed => "failed"
  end.

Definition state_from_str (s : string) : Result PaymentAccountingError DurablePaymentState :=
  if bool_decide (s = "reserved") then Ok State_Reserved
  else if bool_decide (s = "pending") then Ok State_Pending
  else if bool_decide (s = "succeeded") then Ok State_Succeeded
  else if bool_decide (s = "failed") then Ok State_Failed
  else Err Pay_CorruptData.

Record PaymentAttempt := mkPaymentAttempt {
  at_event_id : EventId;
  at_payment_hash : PaymentHash;
  at_connection_id : ConnectionId;
  at_connection_revision : ConnectionRevision;
  at_period_started_at : UnixTimestamp;
  at_principal_sat : Z;
  at_fee_reserve_sat : Z;
  at_state : DurablePaymentState;
  at_actual_principal_sat : option Z;
  at_actual_fee_sat : option Z;
  at_charged_sat : option Z;
  at_authorization_exceeded : bool;
  at_initiated_at : option UnixTimestamp;
  at_legacy_initiation_ambiguous : bool;
  at_created_at : UnixTimestamp;
  at_updated_at : UnixTimestamp;
}.

Definition reserved_sat (a : PaymentAttempt) : Z := at_principal_sat a + at_fee_reserve_sat a.
Definition was_initiated (a : PaymentAttempt) : bool := is_some (at_initiated_at a).
Definition may_disclose_settlement (a : PaymentAttempt) : bool :=
  was_initiated a && negb (at_legacy_initiation_ambiguous a)
  && negb (bool_decide (at_state a = State_Reserved)).

(** [attempt.state = next; attempt.updated_at = now]. *)
Definition at_with_state (next : DurablePaymentState) (now : Z) (a : PaymentAttempt)
  : PaymentAttempt :=
  mkPaymentAttempt (at_event_id a) (at_payment_hash a) (at_connection_id a)
    (at_connection_revision a) (at_period_started_at a) (at_principal_sat a)
    (at_fee_reserve_sat a) next (at_actual_principal_sat a) (at_actual_fee_sat a)
    (at_charged_sat a) (at_authorization_exceeded a) (at_initiated_at a)
    (at_legacy_initiation_ambiguous a) (at_created_at a) now.
Definition at_with_initiated (now : Z) (a : PaymentAttempt) : PaymentAttempt :=
  mkPaymentAttempt (at_event_id a) (at_payment_hash a) (at_connection_id a)
    (at_connection_revision a) (at_period_started_at a) (at_principal_sat a)
    (at_fee_reserve_sat a) (at_state a) (at_actual_principal_sat a) (at_actual_fee_sat a)
    (at_charged_sat a) (at_authorization_exceeded a) (Some now)
    (at_legacy_initiation_ambiguous a) (at_created_at a) now.
Definition at_with_settlement (principal fee charged : Z) (exceeded : bool) (now : Z)
    (a : PaymentAttempt) : PaymentAttempt :=
  mkPaymentAttempt (at_event_id a) (at_payment_hash a) (at_connection_id a)
    (at_connection_revision a) (at_period_started_at a) (at_principal_sat a)
    (at_fee_reserve_sat a) State_Succeeded (Some principal) (Some fee)
    (Some charged) exceeded (at_initiated_at a)
    (at_legacy_initiation_ambiguous a) (at_created_at a) now.

Inductive PaymentReservationOutcome : Type :=
| Outcome_Reserved (a : PaymentAttempt)
| Outcome_Existing (a : PaymentAttempt)
| Outcome_AlreadyTracked (a : PaymentAttempt).

Record ConnectionBudget := mkConnectionBudget {
  cb_created_at : Z;
  cb_limit_sat : Z;
  cb_interval_seconds : option Z;
  cb_fee_reserve_sat : Z;
}.

(** ** Conversions *)

Definition pay_sqlite_u64 (v : Z) : Result PaymentAccountingError Z :=
  ok_or Pay_ValueOutOfRange (i64_try_from v).
Definition pay_decode_u64 (v : Z) : Result PaymentAccountingError Z :=
  ok_or Pay_CorruptData (u64_try_from v).
Definition fixed_32 (v : list Z) : Result PaymentAccountingError (list Z) :=
  if Nat.eqb (length v) 32 then Ok v else Err Pay_CorruptData.
Definition msat_to_sat_ceil (amount : AmountMsat) : Result PaymentAccountingError Z :=
  let? value := ok_or Pay_ValueOutOfRange (checked_add_u64 amount 999) in Ok (value / 1000).

Definition hydrate_attempt (r : PaymentAttemptRow) : Result PaymentAccountingError PaymentAttempt :=
  let? event_id := fixed_32 (pa_event_id r) in
  let? payment_hash := fixed_32 (pa_payment_hash r) in
  let? connection_id := map_err (fun _ => Pay_CorruptData) (ConnectionId_parse (pa_connection_id r)) in
  let? revision := pay_decode_u64 (pa_connection_revision r) in
  let? period := pay_decode_u64 (pa_period_started_at r) in
  let? principal := pay_decode_u64 (pa_principal_sat r) in
  let? fee_reserve := pay_decode_u64 (pa_fee_reserve_sat r) in
  let? state := state_from_str (pa_state r) in
  let? actual_principal := traverse_option pay_decode_u64 (pa_actual_principal_sat r) in
  let? actual_fee := traverse_option pay_decode_u64 (pa_actual_fee_sat r) in
  let? charged := traverse_option pay_decode_u64 (pa_charged_sat r) in
  let? initiated := traverse_option pay_decode_u64 (pa_initiated_at r) in
  let? created := pay_decode_u64 (pa_created_at r) in
  let? updated := pay_decode_u64 (pa_updated_at r) in
  if (updated <? created) || (created <? period) then Err Pay_CorruptData
  else if match initiated with Some t => t <? created | None => false end
  then Err Pay_CorruptData
  else
    let unsettled := null actual_principal && null actual_fee && null charged
                     && negb (pa_authorization_exceeded r) in
    let settled := not_null actual_principal && not_null actual_fee && not_null charged in
    if match state with
       | State_Reserved | State_Pending | State_Failed => unsettled
       | State_Succeeded => settled
       end
    then Ok (mkPaymentAttempt event_id payment_hash connection_id revision period principal
               fee_reserve state actual_principal actual_fee charged
               (pa_authorization_exceeded r) initiated (pa_legacy_initiation_ambiguous r)
               created updated)
    else Err Pay_CorruptData.

Definition load_attempt_by_event (d : Database) (event_id : EventId)
  : Result PaymentAccountingError (option PaymentAttempt) :=
  traverse_option hydrate_attempt (find_key pa_event_id event_id (payment_attempts d)).
Definition load_attempt_by_hash (d : Database) (payment_hash : PaymentHash)
  : Result PaymentAccountingError (option PaymentAttempt) :=
  traverse_option hydrate_attempt (find_key pa_payment_hash payment_hash (payment_attempts d)).

Definition load_payment_attempt_by_event (event_id : EventId) (d : Database) :=
  load_attempt_by_event d event_id.
Definition load_payment_attempt (payment_hash : PaymentHash) (d : Database) :=
  load_attempt_by_hash d payment_hash.

Definition validate_update_time (a : PaymentAttempt) (now : Z)
  : Result PaymentAccountingError unit :=
  if now <? at_updated_at a then Err Pay_ValueOutOfRange else Ok tt.
Definition ensure_attempt_initiated (a : PaymentAttempt) : Result PaymentAccountingError unit :=
  if was_initiated a then Ok tt else Err Pay_TerminalStateConflict.

(** ** Budgets *)

Definition load_connection_budget (d : Database) (c : ActiveConnection) (revision_sql now_sql : Z)
  : Result PaymentAccountingError ConnectionBudget :=
  let? r := ok_or Pay_ConnectionUnavailable
    (query_row (fun r => bool_decide (cn_id r = ac_id c) && (cn_revision r =? revision_sql)
       && bool_decide (cn_status r = "active")
       && null_or (fun e => now_sql <? e) (cn_expires_at r)
       && exists_row (fun m => bool_decide (cm_connection_id m = cn_id r)
                               && bool_decide (cm_method m = "pay_invoice"))
            (connection_methods d)) (connections d)) in
  let? created_at := pay_decode_u64 (cn_created_at r) in
  let? limit := pay_decode_u64 (cn_budget_limit_sat r) in
  let? maximum_fee := pay_decode_u64 (cn_maximum_fee_sat r) in
  let? interval_seconds :=
    if bool_decide (cn_budget_interval r = "never") then Ok None
    else if bool_decide (cn_budget_interval r = "hourly") then Ok (Some (60 * 60))
    else if bool_decide (cn_budget_interval r = "daily") then Ok (Some (24 * 60 * 60))
    else if bool_decide (cn_budget_interval r = "weekly") then Ok (Some (7 * 24 * 60 * 60))
    else if bool_decide (cn_budget_interval r = "monthly") then Ok (Some (30 * 24 * 60 * 60))
    else if bool_decide (cn_budget_interval r = "yearly") then Ok (Some (365 * 24 * 60 * 60))
    else Err Pay_CorruptData in
  let? fee_reserve :=
    if bool_decide (cn_fee_policy r = "count") then Ok maximum_fee
    else if bool_decide (cn_fee_policy r = "exclude") && (maximum_fee =? 0) then Ok 0
    else Err Pay_CorruptData in
  Ok (mkConnectionBudget created_at limit interval_seconds fee_reserve).

Definition period_start (b : ConnectionBudget) (now : Z) : Result PaymentAccountingError Z :=
  if now <? cb_created_at b then Err Pay_ValueOutOfRange
  else match cb_interval_seconds b with
       | None => Ok (cb_created_at b)
       | Some interval =>
           let periods := (now - cb_created_at b) / interval in
           let? elapsed := ok_or Pay_ValueOutOfRange (checked_mul_u64 periods interval) in
           ok_or Pay_ValueOutOfRange (checked_add_u64 (cb_created_at b) elapsed)
       end.

(** [UPDATE budget_periods SET used_sat, updated_at WHERE connection_id AND period]. *)
Definition set_period_used (key : string * Z) (used now : Z) (d : Database)
  : Result PaymentAccountingError Database :=
  let? (t, _) := ok_or Pay_DatabaseUnavailable
    (update_where budget_period_check (fun p => bool_decide (bp_key p = key))
       (fun p => mkBudgetPeriodRow (bp_connection_id p) (bp_period_started_at p)
                   (bp_limit_sat p) used now) (budget_periods d)) in
  Ok (set_budget_periods t d).

Definition adjust_period_used (a : PaymentAttempt) (old_contribution new_contribution now_sql : Z)
    (d : Database) : Result PaymentAccountingError Database :=
  let? period_sql := pay_sqlite_u64 (at_period_started_at a) in
  let key := (at_connection_id a, period_sql) in
  let? p := ok_or Pay_DatabaseUnavailable (find_key bp_key key (budget_periods d)) in
  let? used := pay_decode_u64 (bp_used_sat p) in
  let? next_used := ok_or Pay_CorruptData
    (checked_sub_u64 used old_contribution ≫= fun value => checked_add_u64 value new_contribution) in
  let? next_sql := pay_sqlite_u64 next_used in
  set_period_used key next_sql now_sql d.

(** An [UPDATE payment_attempts SET f WHERE p] whose row count is not used. *)
Definition update_attempts (p : PaymentAttemptRow -> bool)
    (f : PaymentAttemptRow -> PaymentAttemptRow) (d : Database)
  : Result PaymentAccountingError Database :=
  let? (t, _) := ok_or Pay_DatabaseUnavailable
    (update_where payment_attempt_check p f (payment_attempts d)) in
  Ok (set_payment_attempts t d).

(** ** Row updates *)

Definition pa_with_initiated (now : Z) (r : PaymentAttemptRow) : PaymentAttemptRow :=
  mkPaymentAttemptRow (pa_event_id r) (pa_payment_hash r) (pa_connection_id r)
    (pa_connection_revision r) (pa_period_started_at r) (pa_principal_sat r)
    (pa_fee_reserve_sat r) (pa_reserved_sat r) (pa_state r) (pa_actual_principal_sat r)
    (pa_actual_fee_sat r) (pa_charged_sat r) (pa_authorization_exceeded r) (pa_created_at r)
    now (pa_reconciliation_sequence r) (Some now) (pa_legacy_initiation_ambiguous r).
Definition pa_with_state (state : string) (now : Z) (r : PaymentAttemptRow) : PaymentAttemptRow :=
  mkPaymentAttemptRow (pa_event_id r) (pa_payment_hash r) (pa_connection_id r)
    (pa_connection_revision r) (pa_period_started_at r) (pa_principal_sat r)
    (pa_fee_reserve_sat r) (pa_reserved_sat r) state (pa_actual_principal_sat r)
    (pa_actual_fee_sat r) (pa_charged_sat r) (pa_authorization_exceeded r) (pa_created_at r)
    now (pa_reconciliation_sequence r) (pa_initiated_at r) (pa_legacy_initiation_ambiguous r).
Definition pa_with_settlement (principal fee charged : Z) (exceeded : bool) (now : Z)
    (r : PaymentAttemptRow) : PaymentAttemptRow :=
  mkPaymentAttemptRow (pa_event_id r) (pa_payment_hash r) (pa_connection_id r)
    (pa_connection_revision r) (pa_period_started_at r) (pa_principal_sat r)
    (pa_fee_reserve_sat r) (pa_reserved_sat r) "succeeded" (Some principal)
    (Some fee) (Some charged) exceeded (pa_created_at r)
    now (pa_reconciliation_sequence r) (pa_initiated_at r) (pa_legacy_initiation_ambiguous r).
Definition pa_with_sequence (sequence : Z) (r : PaymentAttemptRow) : PaymentAttemptRow :=
  mkPaymentAttemptRow (pa_event_id r) (pa_payment_hash r) (pa_connection_id r)
    (pa_connection_revision r) (pa_period_started_at r) (pa_principal_sat r)
    (pa_fee_reserve_sat r) (pa_reserved_sat r) (pa_state r) (pa_actual_principal_sat r)
    (pa_actual_fee_sat r) (pa_charged_sat r) (pa_authorization_exceeded r) (pa_created_at r)
    (pa_updated_at r) sequence (pa_initiated_at r) (pa_legacy_initiation_ambiguous r).

Definition hash_is (payment_hash : PaymentHash) (r : PaymentAttemptRow) : bool :=
  bool_decide (pa_payment_hash r = payment_hash).

(** ** Operations *)

(** [WakeLedger::reserve_payment]. *)
Definition reserve_payment (event_id : EventId) (payment_hash : PaymentHash) (c : ActiveConnection)
    (principal_sat : Z) (now : UnixTimestamp)
  : Tx PaymentAccountingError PaymentReservationOutcome := fun d =>
  if principal_sat =? 0 then Err Pay_InvalidAmount
  else
  let? now_sql := pay_sqlite_u64 now in
  let? revision_sql := pay_sqlite_u64 (ac_revision c) in
  let? principal_sql := pay_sqlite_u64 principal_sat in
  let? budget := load_connection_budget d c revision_sql now_sql in
  let? period_started_at := period_start budget now in
  let? by_event := load_attempt_by_event d event_id in
  match by_event with
  | Some existing =>
      if bool_decide (at_payment_hash existing = payment_hash)
         && bool_decide (at_connection_id existing = ac_id c)
         && (at_connection_revision existing =? ac_revision c)
         && (at_principal_sat existing =? principal_sat)
      then Ok (Outcome_Existing existing, d)
      else Err Pay_ReservationConflict
  | None =>
  let? by_hash := load_attempt_by_hash d payment_hash in
  match by_hash with
  | Some existing => Ok (Outcome_AlreadyTracked existing, d)
  | None =>
  let? period_sql := pay_sqlite_u64 period_started_at in
  let? limit_sql := pay_sqlite_u64 (cb_limit_sat budget) in
  let? fee_reserve_sql := pay_sqlite_u64 (cb_fee_reserve_sat budget) in
  let? reserved := ok_or Pay_ValueOutOfRange
    (checked_add_u64 principal_sat (cb_fee_reserve_sat budget)) in
  let? reserved_sql := pay_sqlite_u64 reserved in
  let maximum := default 0 (sql_max pa_reconciliation_sequence (payment_attempts d)) in
  let? next_sequence := ok_or Pay_ValueOutOfRange (checked_add_i64 maximum 1) in
  let key := (ac_id c, period_sql) in
  let? periods := ok_or Pay_DatabaseUnavailable
    (insert_or_nothing budget_period_check (fun p => connection_exists d (bp_connection_id p))
       budget_period_clash budget_period_clash
       (mkBudgetPeriodRow (ac_id c) period_sql limit_sql 0 now_sql) (budget_periods d)) in
  let d := set_budget_periods periods d in
  let? p := ok_or Pay_DatabaseUnavailable (find_key bp_key key (budget_periods d)) in
  if negb (bp_limit_sat p =? limit_sql) then Err Pay_CorruptData
  else
  let? used := pay_decode_u64 (bp_used_sat p) in
  let? next_used := ok_or Pay_ValueOutOfRange (checked_add_u64 used reserved) in
  if cb_limit_sat budget <? next_used then Err Pay_BudgetExceeded
  else
  let? next_sql := pay_sqlite_u64 next_used in
  let? d := set_period_used key next_sql now_sql d in
  let? attempts := ok_or Pay_DatabaseUnavailable
    (insert_row (fun r => payment_attempt_check r && period_exists d (pa_key r))
       payment_attempt_clash
       (mkPaymentAttemptRow event_id payment_hash (ac_id c) revision_sql period_sql principal_sql
          fee_reserve_sql reserved_sql "reserved" None None None false now_sql now_sql
          next_sequence None false) (payment_attempts d)) in
  Ok (Outcome_Reserved (mkPaymentAttempt event_id payment_hash (ac_id c) (ac_revision c)
        period_started_at principal_sat (cb_fee_reserve_sat budget) State_Reserved None None None
        false None false now now), set_payment_attempts attempts d)
  end
  end.

(** [WakeLedger::mark_payment_initiated]. *)
Definition mark_payment_initiated (payment_hash : PaymentHash) (now : UnixTimestamp)
  : Tx PaymentAccountingError PaymentAttempt := fun d =>
  let? now_sql := pay_sqlite_u64 now in
  let? loaded := load_attempt_by_hash d payment_hash in
  let? attempt := ok_or Pay_ReservationConflict loaded in
  let? _ := validate_update_time attempt now in
  if was_initiated attempt then Ok (attempt, d)
  else if negb (bool_decide (at_state attempt = State_Reserved)) then Err Pay_TerminalStateConflict
  else
  let? d := update_attempts
    (fun r => hash_is payment_hash r && bool_decide (pa_state r = "reserved")
              && null (pa_initiated_at r)) (pa_with_initiated now_sql) d in
  Ok (at_with_initiated now attempt, d).

(** [WakeLedger::release_uninitiated_payment]. *)
Definition release_uninitiated_payment (payment_hash : PaymentHash) (now : UnixTimestamp)
  : Tx PaymentAccountingError unit := fun d =>
  let? now_sql := pay_sqlite_u64 now in
  let? loaded := load_attempt_by_hash d payment_hash in
  let? attempt := ok_or Pay_ReservationConflict loaded in
  let? _ := validate_update_time attempt now in
  if negb (bool_decide (at_state attempt = State_Reserved)) || was_initiated attempt
  then Err Pay_TerminalStateConflict
  else
  let? d := adjust_period_used attempt (reserved_sat attempt) 0 now_sql d in
  let '(t, deleted) := delete_where
    (fun r => hash_is payment_hash r && bool_decide (pa_state r = "reserved")
              && null (pa_initiated_at r)) (payment_attempts d) in
  if negb (Nat.eqb deleted 1) then Err Pay_TerminalStateConflict
  else Ok (tt, set_payment_attempts t d).

(** [WakeLedger::transition_nonterminal]. *)
Definition transition_nonterminal (payment_hash : PaymentHash) (next : DurablePaymentState)
    (now : UnixTimestamp) : Tx PaymentAccountingError PaymentAttempt := fun d =>
  let? now_sql := pay_sqlite_u64 now in
  let? loaded := load_attempt_by_hash d payment_hash in
  let? attempt := ok_or Pay_ReservationConflict loaded in
  let? _ := validate_update_time attempt now in
  let? _ := ensure_attempt_initiated attempt in
  if negb (bool_decide (at_state attempt = State_Reserved)) then
    if bool_decide (at_state attempt = next) then Ok (attempt, d)
    else Err Pay_TerminalStateConflict
  else
  let? d := update_attempts
    (fun r => hash_is payment_hash r && bool_decide (pa_state r = "reserved"))
    (pa_with_state (state_as_str next) now_sql) d in
  Ok (at_with_state next now attempt, d).

Definition mark_payment_pending (payment_hash : PaymentHash) (now : UnixTimestamp)
  : Tx PaymentAccountingError PaymentAttempt :=
  transition_nonterminal payment_hash State_Pending now.

(** [WakeLedger::mark_payment_failed]. *)
Definition mark_payment_failed (payment_hash : PaymentHash) (now : UnixTimestamp)
  : Tx PaymentAccountingError PaymentAttempt := fun d =>
  let? now_sql := pay_sqlite_u64 now in
  let? loaded := load_attempt_by_hash d payment_hash in
  let? attempt := ok_or Pay_ReservationConflict loaded in
  let? _ := validate_update_time attempt now in
  let? _ := ensure_attempt_initiated attempt in
  match at_state attempt with
  | State_Succeeded => Err Pay_TerminalStateConflict
  | State_Failed => Ok (attempt, d)
  | State_Reserved | State_Pending =>
      let? d := adjust_period_used attempt (reserved_sat attempt) 0 now_sql d in
      let? d := update_attempts
        (fun r => hash_is payment_hash r && text_in (pa_state r) ["reserved"; "pending"])
        (pa_with_state "failed" now_sql) d in
      Ok (at_with_state State_Failed now attempt, d)
  end.

(** [WakeLedger::mark_payment_succeeded]. *)
Definition mark_payment_succeeded (payment_hash : PaymentHash) (actual_principal actual_fee : AmountMsat)
    (now : UnixTimestamp) : Tx PaymentAccountingError PaymentAttempt := fun d =>
  let? principal := msat_to_sat_ceil actual_principal in
  let? fee := msat_to_sat_ceil actual_fee in
  let? now_sql := pay_sqlite_u64 now in
  let? principal_sql := pay_sqlite_u64 principal in
  let? fee_sql := pay_sqlite_u64 fee in
  let? loaded := load_attempt_by_hash d payment_hash in
  let? attempt := ok_or Pay_ReservationConflict loaded in
  let? _ := validate_update_time attempt now in
  let? _ := ensure_attempt_initiated attempt in
  if bool_decide (at_state attempt = State_Succeeded) then
    if bool_decide (at_actual_principal_sat attempt = Some principal)
       && bool_decide (at_actual_fee_sat attempt = Some fee)
    then Ok (attempt, d)
    else Err Pay_TerminalStateConflict
  else
  let? c := ok_or Pay_DatabaseUnavailable
    (find_key cn_id (at_connection_id attempt) (connections d)) in
  let count_fees := bool_decide (cn_fee_policy c = "count") in
  let? charged :=
    if count_fees then ok_or Pay_ValueOutOfRange (checked_add_u64 principal fee) else Ok principal in
  let old_contribution :=
    match at_state attempt with State_Reserved | State_Pending => reserved_sat attempt | _ => 0 end in
  let? d := adjust_period_used attempt old_contribution charged now_sql d in
  let exceeded := (at_principal_sat attempt <? principal)
                  || (count_fees && (at_fee_reserve_sat attempt <? fee)) in
  let? charged_sql := pay_sqlite_u64 charged in
  let? d := update_attempts
    (fun r => hash_is payment_hash r && negb (bool_decide (pa_state r = "succeeded")))
    (pa_with_settlement principal_sql fee_sql charged_sql exceeded now_sql) d in
  Ok (at_with_settlement principal fee charged exceeded now attempt, d).

(** The rows the reconciler may examine. *)
Definition unresolved (r : PaymentAttemptRow) : bool :=
  text_in (pa_state r) ["reserved"; "pending"] && negb (pa_legacy_initiation_ambiguous r).

(** The loop that moves the examined attempts behind every other one. *)
Fixpoint requeue (position maximum : Z) (attempts : list PaymentAttempt) (d : Database)
  : Result PaymentAccountingError Database :=
  match attempts with
  | [] => Ok d
  | a :: rest =>
      let? sequence := ok_or Pay_ValueOutOfRange (checked_add_i64 maximum (position + 1)) in
      let? d := update_attempts
        (fun r => hash_is (at_payment_hash a) r && text_in (pa_state r) ["reserved"; "pending"])
        (pa_with_sequence sequence) d in
      requeue (position + 1) maximum rest d
  end.

(** [WakeLedger::load_unresolved_payment_attempts]. *)
Definition load_unresolved_payment_attempts (batch : Z)
  : Tx PaymentAccountingError (list PaymentAttempt * bool) := fun d =>
  let? fetch_limit := ok_or Pay_ValueOutOfRange
    (checked_add_u64 batch 1 ≫= i64_try_from) in
  let? limit_sql := ok_or Pay_ValueOutOfRange (i64_try_from batch) in
  let maximum := default 0 (sql_max pa_reconciliation_sequence (select unresolved (payment_attempts d))) in
  let? (maximum, d) :=
    if i64_max - limit_sql <? maximum then
      let? d := update_attempts unresolved (pa_with_sequence 0) d in Ok (0, d)
    else Ok (maximum, d) in
  let? attempts := collect_results hydrate_attempt
    (limit fetch_limit
      (order_by (fun a b => then_cmp (pa_reconciliation_sequence a ?= pa_reconciliation_sequence b)
                              (memcmp (pa_event_id a) (pa_event_id b)))
        (select unresolved (payment_attempts d)))) in
  let has_additional := batch <? Z.of_nat (length attempts) in
  let attempts := take (Z.to_nat batch) attempts in
  let? d := requeue 0 maximum attempts d in
  Ok (attempts, has_additional, d).

(** ** The ledger of a period

    What one attempt counts against its period, and what a period has spent. *)

Definition contribution (r : PaymentAttemptRow) : Z :=
  if text_in (pa_state r) ["reserved"; "pending"] then pa_reserved_sat r
  else default 0 (pa_charged_sat r).
Definition counted (k : string * Z) (r : PaymentAttemptRow) : Z :=
  if bool_decide (pa_key r = k) then contribution r else 0.
Definition period_spend (k : string * Z) (d : Database) : Z :=
  Zsum (counted k) (payment_attempts d).

(** Every period's counter is what was imported for it plus what its attempts
    count; rows satisfy their constraints, keys are unique, and every attempt
    has its period. *)
Record accounting_wf (base : string * Z -> Z) (d : Database) : Prop := {
  aw_periods : periods_wf (budget_periods d);
  aw_attempts : attempts_wf (payment_attempts d);
  aw_period_of : forall r, r ∈ payment_attempts d ->
    exists p, find_key bp_key (pa_key r) (budget_periods d) = Some p;
  aw_ids : forall r, r ∈ payment_attempts d ->
    ConnectionId_parse (pa_connection_id r) = Ok (pa_connection_id r);
  aw_i64 : forall r, r ∈ payment_attempts d -> pa_period_started_at r <= i64_max;
  aw_base : forall k, 0 <= base k;
  aw_spent : forall k p, find_key bp_key k (budget_periods d) = Some p ->
    bp_used_sat p = base k + period_spend k d;
  aw_used_i64 : forall k p, find_key bp_key k (budget_periods d) = Some p -> bp_used_sat p <= i64_max;
  aw_no_base : forall k, find_key bp_key k (budget_periods d) = None -> base k = 0;
}.

(** ** Lemmas: rows and attempts *)

Definition state_of (s : string) : DurablePaymentState :=
  if bool_decide (s = "reserved") then State_Reserved
  else if bool_decide (s = "pending") then State_Pending
  else if bool_decide (s = "succeeded") then State_Succeeded
  else State_Failed.

(** The attempt a well-formed row stands for. *)
Definition attempt_of (r : PaymentAttemptRow) : PaymentAttempt :=
  mkPaymentAttempt (pa_event_id r) (pa_payment_hash r) (pa_connection_id r)
    (pa_connection_revision r) (pa_period_started_at r) (pa_principal_sat r)
    (pa_fee_reserve_sat r) (state_of (pa_state r)) (pa_actual_principal_sat r)
    (pa_actual_fee_sat r) (pa_charged_sat r) (pa_authorization_exceeded r)
    (pa_initiated_at r) (pa_legacy_initiation_ambiguous r) (pa_created_at r) (pa_updated_at r).

(** The [CHECK] clauses of [payment_attempts] as a proposition. *)
Record attempt_columns (r : PaymentAttemptRow) : Prop := {
  ak_event : length (pa_event_id r) = 32%nat;
  ak_hash : length (pa_payment_hash r) = 32%nat;
  ak_revision : 0 <= pa_connection_revision r;
  ak_times : 0 <= pa_period_started_at r <= pa_created_at r;
  ak_updated : pa_created_at r <= pa_updated_at r;
  ak_principal : 0 <= pa_principal_sat r;
  ak_fee : 0 <= pa_fee_reserve_sat r;
  ak_reserved : pa_reserved_sat r = pa_principal_sat r + pa_fee_reserve_sat r;
  ak_state : pa_state r = state_as_str (state_of (pa_state r));
  ak_actual : forall v, pa_actual_principal_sat r = Some v -> 0 <= v;
  ak_actual_fee : forall v, pa_actual_fee_sat r = Some v -> 0 <= v;
  ak_charged : forall v, pa_charged_sat r = Some v -> 0 <= v;
  ak_sequence : 0 <= pa_reconciliation_sequence r;
  ak_initiated : forall t, pa_initiated_at r = Some t -> pa_created_at r <= t;
  ak_settled : if bool_decide (state_of (pa_state r) = State_Succeeded)
    then (exists a, pa_actual_principal_sat r = Some a) /\ (exists f, pa_actual_fee_sat r = Some f)
         /\ (exists c, pa_charged_sat r = Some c)
    else pa_actual_principal_sat r = None /\ pa_actual_fee_sat r = None
         /\ pa_charged_sat r = None /\ pa_authorization_exceeded r = false;
}.

Lemma state_of_str s : state_of (state_as_str s) = s.
Proof. by destruct s. Qed.

Lemma state_from_str_of s : state_from_str (state_as_str s) = Ok s.
Proof. by destruct s. Qed.

Lemma state_in s : text_in s ["reserved"; "pending"; "succeeded"; "failed"] = true ->
  s = state_as_str (state_of s).
Proof.
  rewrite text_in_true, !elem_of_cons, elem_of_nil. intros [->|[->|[->|[->|[]]]]]; done.
Qed.

Lemma open_state s : text_in (state_as_str s) ["reserved"; "pending"]
  = bool_decide (s = State_Reserved \/ s = State_Pending).
Proof. by destruct s. Qed.

Lemma payment_attempt_check_spec r : payment_attempt_check r = true <-> attempt_columns r.
Proof.
  unfold payment_attempt_check. check_to_prop.
  setoid_rewrite Z.leb_le.
  split.
  - intros ((((((((((((((((H1 & H2) & H3) & H4) & H5) & H6) & H7) & H8) & H9) & H10) & H11) & H12)
      & H13) & H14) & H15) & H16) & H17).
    pose proof (state_in _ H9) as Hs.
    split; try done; try lia.
    rewrite Hs, open_state in H15.
    destruct (state_of (pa_state r)); simpl in *; naive_solver.
  - intros [H1 H2 H3 H4 H5 H6 H7 H8 H9 H10 H11 H12 H13 H14 H15].
    assert (pa_state r ∈ ["reserved"; "pending"; "succeeded"; "failed"]%string).
    { rewrite H9. destruct (state_of (pa_state r)); set_solver. }
    split_and!; try done; try lia; [by apply text_in_true|].
    rewrite H9, open_state.
    destruct (state_of (pa_state r)); simpl in *; naive_solver.
Qed.

Lemma pay_decode_u64_nonneg v : 0 <= v -> pay_decode_u64 v = Ok v.
Proof.
  intros H. unfold pay_decode_u64, u64_try_from. by rewrite (proj2 (Z.leb_le 0 v) H).
Qed.

Lemma traverse_decode o : (forall v, o = Some v -> 0 <= v) ->
  traverse_option pay_decode_u64 o = Ok o.
Proof. intros H. destruct o as [v|]; simpl; [|done]. by rewrite pay_decode_u64_nonneg by auto. Qed.

Lemma hydrate_attempt_of r :
  attempt_columns r -> ConnectionId_parse (pa_connection_id r) = Ok (pa_connection_id r) ->
  hydrate_attempt r = Ok (attempt_of r).
Proof.
  intros [H1 H2 H3 H4 H5 H6 H7 H8 H9 H10 H11 H12 H13 H14 H15] Hid.
  unfold hydrate_attempt, fixed_32. rewrite H1, H2, Hid. cbn [Nat.eqb map_err].
  rewrite !pay_decode_u64_nonneg by lia. rewrite H9, state_from_str_of.
  rewrite !traverse_decode by (try done; intros v Hv; specialize (H14 v Hv); lia).
  rewrite (proj2 (Z.ltb_ge _ _) H5), (proj2 (Z.ltb_ge _ _) (proj2 H4)). cbn [orb].
  assert ((match pa_initiated_at r with Some t => t <? pa_created_at r | None => false end) = false) as ->.
  { destruct (pa_initiated_at r) as [t|]; [|done]. apply Z.ltb_ge. auto. }
  unfold attempt_of.
  destruct (state_of (pa_state r)); simpl in H15.
  1,2,4: by destruct H15 as (-> & -> & -> & ->).
  by destruct H15 as ([? ->] & [? ->] & [? ->]).
Qed.

Lemma pay_sqlite_u64_Ok v w : pay_sqlite_u64 v = Ok w <-> w = v /\ v <= i64_max.
Proof. unfold pay_sqlite_u64. by rewrite ok_or_Ok, i64_try_from_Some. Qed.

(** ** Lemmas: writes

    [write_attempt h f]: the attempt with hash [h] is replaced by [f]. *)

Definition only_hash (p : PaymentAttemptRow -> bool) (h : PaymentHash) : Prop :=
  forall r, p r = true -> pa_payment_hash r = h.

Lemma only_hash_and h q : only_hash (fun r => hash_is h r && q r) h.
Proof. intros r [H _]%andb_prop. by apply bool_decide_eq_true_1 in H. Qed.

Lemma hash_is_refl r h : pa_payment_hash r = h -> hash_is h r = true.
Proof. intros. by apply bool_decide_eq_true_2. Qed.

(** What replacing the attempt [r] by [r'] does to the table. *)
Record wrote_attempt (r r' : PaymentAttemptRow) (t t' : list PaymentAttemptRow) : Prop := {
  wa_wf : attempts_wf t';
  wa_find : forall h, find_key pa_payment_hash h t'
    = if bool_decide (h = pa_payment_hash r) then Some r' else find_key pa_payment_hash h t;
  wa_sum : forall g : PaymentAttemptRow -> Z, Zsum g t' = Zsum g t - g r + g r';
  wa_elem : forall x, x ∈ t' -> x = r' \/ x ∈ t;
  wa_rows : t' = (fun x => if bool_decide (pa_payment_hash x = pa_payment_hash r) then r' else x) <$> t;
}.

Lemma update_attempt_one p f d r :
  attempts_wf (payment_attempts d) -> r ∈ payment_attempts d -> p r = true ->
  only_hash p (pa_payment_hash r) -> payment_attempt_check (f r) = true ->
  pa_event_id (f r) = pa_event_id r -> pa_payment_hash (f r) = pa_payment_hash r ->
  exists t, update_attempts p f d = Ok (set_payment_attempts t d)
    /\ wrote_attempt r (f r) (payment_attempts d) t.
Proof.
  intros [Hchk [Hnde Hndh]] Hr Hp Honly Hok He Hh.
  assert (select p (payment_attempts d) = [r]) as Hsel.
  { apply (select_unique pa_payment_hash); [done..|]. intros r' _ Hr'. by apply Honly. }
  assert (forall x, x ∈ payment_attempts d ->
    p x = bool_decide (pa_payment_hash x = pa_payment_hash r)) as Hpx.
  { intros x Hx. destruct (bool_decide (pa_payment_hash x = pa_payment_hash r)) eqn:E.
    - apply bool_decide_eq_true_1 in E.
      assert (x = r) as ->; [|done]. by apply (NoDup_key_inj pa_payment_hash (payment_attempts d)).
    - destruct (p x) eqn:Epx; [|done]. apply Honly in Epx.
      by apply bool_decide_eq_false_1 in E. }
  assert (exists t, update_where payment_attempt_check p f (payment_attempts d) = Some (t, 1%nat)) as [t Hu].
  { unfold update_where. rewrite Hsel. cbn [forallb length]. rewrite Hok. cbn [andb]. eauto. }
  exists t. unfold update_attempts. rewrite Hu. split; [done|].
  pose proof Hu as Hsum. apply update_where_Some in Hu as (Ht & _ & _).
  assert (forall x, x ∈ payment_attempts d -> p x = true -> x = r) as Hxr.
  { intros x Hx Hpx'. apply (NoDup_key_inj pa_payment_hash (payment_attempts d)); [done..|]. by apply Honly. }
  assert (t = (fun x => if bool_decide (pa_payment_hash x = pa_payment_hash r) then f r else x)
    <$> payment_attempts d) as Hrows.
  { rewrite Ht. apply list_fmap_ext. intros i x Hx. apply list_elem_of_lookup_2 in Hx.
    rewrite <- (Hpx x Hx). destruct (p x) eqn:E; [|done]. by rewrite (Hxr x Hx E). }
  assert (forall K (key : PaymentAttemptRow -> K), key (f r) = key r -> key <$> t = key <$> payment_attempts d) as Hkey.
  { intros K key Hk. rewrite Ht, <- list_fmap_compose. apply list_fmap_ext.
    intros i x Hx. apply list_elem_of_lookup_2 in Hx. simpl.
    destruct (p x) eqn:E; [|done]. by rewrite (Hxr x Hx E). }
  split.
  - split; [|by rewrite !Hkey]. rewrite Hrows. apply Forall_fmap, Forall_forall.
    intros x Hx. simpl. case_bool_decide; [done|]. rewrite Forall_forall in Hchk. auto.
  - intros h. rewrite Hrows. by apply find_key_replace.
  - intros g. rewrite (Zsum_update g _ _ _ _ _ _ Hsum), Hsel. simpl. lia.
  - intros x. rewrite Hrows. intros (y & -> & Hy)%list_elem_of_fmap.
    case_bool_decide; auto.
  - done.
Qed.

(** Setting a period's counter. *)
Lemma set_period_used_one key used now d p :
  periods_wf (budget_periods d) -> find_key bp_key key (budget_periods d) = Some p ->
  0 <= used -> bp_period_started_at p <= now ->
  let p' := mkBudgetPeriodRow (bp_connection_id p) (bp_period_started_at p) (bp_limit_sat p) used now in
  exists t, set_period_used key used now d = Ok (set_budget_periods t d) /\ periods_wf t
    /\ forall k, find_key bp_key k t = if bool_decide (k = key) then Some p' else find_key bp_key k (budget_periods d).
Proof.
  intros [Hchk Hnd] Hf Hused Hnow p'. destruct (find_key_Some _ _ _ _ Hf) as [Hp Hk].
  rewrite Forall_forall in Hchk. pose proof (Hchk p Hp) as Hpc.
  assert (budget_period_check p' = true) as Hok.
  { unfold budget_period_check in *. rewrite !andb_true_iff, !Z.leb_le in *. simpl. lia. }
  set (q := fun x => bool_decide (bp_key x = key)).
  set (f := fun x => mkBudgetPeriodRow (bp_connection_id x) (bp_period_started_at x) (bp_limit_sat x) used now).
  assert (select q (budget_periods d) = [p]) as Hsel.
  { apply (select_unique bp_key); [done|done|by apply bool_decide_eq_true_2|].
    intros x _ ->%bool_decide_eq_true_1. done. }
  assert (exists t, update_where budget_period_check q f (budget_periods d) = Some (t, 1%nat)) as [t Hu].
  { unfold update_where. rewrite Hsel. cbn [forallb length]. change (f p) with p'. rewrite Hok. eauto. }
  exists t. unfold set_period_used. fold q f. rewrite Hu. split; [done|]. split.
  - split; [|by rewrite (update_where_key bp_key _ _ _ _ _ _ Hu)].
    eapply update_where_Forall; [exact Hu|by apply Forall_forall|done].
  - intros k. rewrite (find_key_update bp_key _ _ _ _ _ _ k Hu) by done.
    destruct (find_key bp_key k (budget_periods d)) as [x|] eqn:Hx.
    + destruct (find_key_Some _ _ _ _ Hx) as [Hxin Hxk]. simpl. unfold q. rewrite Hxk.
      case_bool_decide as Hd; [|done]. rewrite Hd, Hf in Hx. by injection Hx as <-.
    + case_bool_decide as Hd; [|done]. congruence.
Qed.

Lemma contribution_nonneg r : attempt_columns r -> 0 <= contribution r.
Proof.
  intros H. unfold contribution. case_match.
  - rewrite (ak_reserved r H). pose proof (ak_principal r H). pose proof (ak_fee r H). lia.
  - destruct (pa_charged_sat r) as [c|] eqn:E; simpl; [|lia]. by apply (ak_charged r H).
Qed.

Section Wf.
Context (base : string * Z -> Z).

Lemma attempt_row d r : accounting_wf base d -> r ∈ payment_attempts d ->
  attempt_columns r /\ hydrate_attempt r = Ok (attempt_of r).
Proof.
  intros Hwf Hr. destruct (aw_attempts base d Hwf) as [Hchk _]. rewrite Forall_forall in Hchk.
  pose proof (Hchk r Hr) as Hc. apply payment_attempt_check_spec in Hc. split; [done|].
  apply hydrate_attempt_of; [done|]. by apply (aw_ids base d Hwf).
Qed.

Lemma load_by_hash d h : accounting_wf base d ->
  load_attempt_by_hash d h = Ok (attempt_of <$> find_key pa_payment_hash h (payment_attempts d)).
Proof.
  intros Hwf. unfold load_attempt_by_hash.
  destruct (find_key pa_payment_hash h (payment_attempts d)) as [r|] eqn:E; [|done].
  apply find_key_Some in E as [Hr _]. destruct (attempt_row d r Hwf Hr) as [_ H].
  simpl. by rewrite H.
Qed.

Lemma load_by_event d e : accounting_wf base d ->
  load_attempt_by_event d e = Ok (attempt_of <$> find_key pa_event_id e (payment_attempts d)).
Proof.
  intros Hwf. unfold load_attempt_by_event.
  destruct (find_key pa_event_id e (payment_attempts d)) as [r|] eqn:E; [|done].
  apply find_key_Some in E as [Hr _]. destruct (attempt_row d r Hwf Hr) as [_ H].
  simpl. by rewrite H.
Qed.

Lemma spend_nonneg d k : accounting_wf base d -> 0 <= period_spend k d.
Proof.
  intros Hwf. apply Zsum_nonneg. intros r Hr. unfold counted. case_bool_decide; [|lia].
  apply contribution_nonneg. by apply (attempt_row d r Hwf Hr).
Qed.

(** A period's counter covers each of its attempts. *)
Lemma used_covers d r p : accounting_wf base d -> r ∈ payment_attempts d ->
  find_key bp_key (pa_key r) (budget_periods d) = Some p -> contribution r <= bp_used_sat p.
Proof.
  intros Hwf Hr Hp. rewrite (aw_spent base d Hwf _ _ Hp).
  pose proof (aw_base base d Hwf (pa_key r)).
  assert (counted (pa_key r) r <= period_spend (pa_key r) d) as H1.
  { apply Zsum_elem_le; [|done]. intros x Hx. unfold counted. case_bool_decide; [|lia].
    apply contribution_nonneg. by apply (attempt_row d x Hwf Hx). }
  unfold counted in H1. rewrite bool_decide_true in H1 by done. lia.
Qed.

(** Replacing an attempt whose contribution stays the same. *)
Lemma wrote_same_wf d r r' t :
  accounting_wf base d -> r ∈ payment_attempts d -> wrote_attempt r r' (payment_attempts d) t ->
  pa_key r' = pa_key r -> pa_connection_id r' = pa_connection_id r ->
  contribution r' = contribution r -> accounting_wf base (set_payment_attempts t d).
Proof.
  intros Hwf Hr Hw Hk Hc Hcon. destruct Hwf as [H1 H2 H3 H4 H5 H6 H7 H8 H9].
  assert (forall x, x ∈ t -> pa_key x = pa_key r \/ x ∈ payment_attempts d) as Hel.
  { intros x Hx. destruct (wa_elem _ _ _ _ Hw x Hx) as [->|?]; auto. }
  split; cbn [budget_periods payment_attempts set_payment_attempts]; try done.
  - apply (wa_wf _ _ _ _ Hw).
  - intros x Hx. destruct (wa_elem _ _ _ _ Hw x Hx) as [->|Hin]; [rewrite Hk|]; auto.
  - intros x Hx. destruct (wa_elem _ _ _ _ Hw x Hx) as [->|Hin]; [rewrite Hc|]; auto.
  - intros x Hx. destruct (wa_elem _ _ _ _ Hw x Hx) as [->|Hin]; [|auto].
    unfold pa_key in Hk. injection Hk as _ ->. auto.
  - intros k p Hp. rewrite (H7 k p Hp). unfold period_spend. cbn.
    rewrite (wa_sum _ _ _ _ Hw). unfold counted. rewrite Hk, Hcon. case_bool_decide; lia.
Qed.

(** Replacing an attempt together with its period's counter. *)
Lemma wrote_adjusted_wf d r r' p u now t tp :
  accounting_wf base d -> r ∈ payment_attempts d -> wrote_attempt r r' (payment_attempts d) t ->
  pa_key r' = pa_key r -> pa_connection_id r' = pa_connection_id r ->
  find_key bp_key (pa_key r) (budget_periods d) = Some p ->
  u = bp_used_sat p - contribution r + contribution r' -> u <= i64_max -> periods_wf tp ->
  (forall k, find_key bp_key k tp = if bool_decide (k = pa_key r)
     then Some (mkBudgetPeriodRow (bp_connection_id p) (bp_period_started_at p) (bp_limit_sat p) u now)
     else find_key bp_key k (budget_periods d)) ->
  accounting_wf base (set_payment_attempts t (set_budget_periods tp d)).
Proof.
  intros Hwf Hr Hw Hk Hc Hp Hu Hui Htp Hf. destruct Hwf as [H1 H2 H3 H4 H5 H6 H7 H8 H9].
  split; cbn [budget_periods payment_attempts set_payment_attempts set_budget_periods]; try done.
  - apply (wa_wf _ _ _ _ Hw).
  - intros x Hx. rewrite Hf. case_bool_decide; [eauto|].
    destruct (wa_elem _ _ _ _ Hw x Hx) as [->|Hin]; [congruence|auto].
  - intros x Hx. destruct (wa_elem _ _ _ _ Hw x Hx) as [->|Hin]; [rewrite Hc|]; auto.
  - intros x Hx. destruct (wa_elem _ _ _ _ Hw x Hx) as [->|Hin]; [|auto].
    unfold pa_key in Hk. injection Hk as _ ->. auto.
  - intros k q Hq. rewrite Hf in Hq. unfold period_spend. cbn.
    rewrite (wa_sum _ _ _ _ Hw). unfold counted at 2 3. rewrite Hk.
    case_bool_decide as Hd.
    + injection Hq as <-. subst k. simpl. rewrite (bool_decide_true (pa_key r = pa_key r)) by done.
      rewrite (H7 _ _ Hp) in Hu. fold (period_spend (pa_key r) d). lia.
    + rewrite (bool_decide_false (pa_key r = k)) by congruence. rewrite (H7 k q Hq).
      fold (period_spend k d). lia.
  - intros k q Hq. rewrite Hf in Hq. case_bool_decide; [|eauto]. by injection Hq as <-.
  - intros k Hk'. rewrite Hf in Hk'. case_bool_decide; [done|auto].
Qed.
End Wf.

(** ** Lemmas: transactions on one attempt *)

Definition contribution_of (o : option PaymentAttemptRow) : Z :=
  match o with Some r => contribution r | None => 0 end.

(** The transaction replaced the attempt [r] by [o] (or deleted it), moved its
    period's counter by the difference of what they count, and did nothing
    else. *)
Record replaced (base : string * Z -> Z) (r : PaymentAttemptRow) (o : option PaymentAttemptRow)
    (d d' : Database) : Prop := {
  rp_wf : accounting_wf base d';
  rp_find : forall h, find_key pa_payment_hash h (payment_attempts d')
    = if bool_decide (h = pa_payment_hash r) then o
      else find_key pa_payment_hash h (payment_attempts d);
  rp_used : forall k p', find_key bp_key k (budget_periods d') = Some p' ->
    exists p, find_key bp_key k (budget_periods d) = Some p
      /\ bp_limit_sat p' = bp_limit_sat p
      /\ bp_used_sat p' = bp_used_sat p
           + (if bool_decide (k = pa_key r) then contribution_of o - contribution r else 0);
  rp_frame : d' = set_payment_attempts (payment_attempts d')
                    (set_budget_periods (budget_periods d') d);
}.

Section Transactions.
Context (base : string * Z -> Z).

Lemma open_contribution r s : attempt_columns r -> state_of (pa_state r) = s ->
  s = State_Reserved \/ s = State_Pending -> contribution r = reserved_sat (attempt_of r).
Proof.
  intros Hc Hs Ho. unfold contribution. rewrite (ak_state r Hc), open_state, Hs.
  rewrite bool_decide_true by done. unfold reserved_sat, attempt_of. simpl. by apply ak_reserved.
Qed.

Lemma failed_contribution r : attempt_columns r -> state_of (pa_state r) = State_Failed ->
  contribution r = 0.
Proof.
  intros Hc Hs. unfold contribution. rewrite (ak_state r Hc), open_state, Hs.
  rewrite bool_decide_false by naive_solver.
  pose proof (ak_settled r Hc) as H. rewrite Hs in H. simpl in H.
  destruct H as (_ & _ & -> & _). done.
Qed.

Lemma adjust_period_used_total d r new now :
  accounting_wf base d -> r ∈ payment_attempts d -> pa_updated_at r <= now -> 0 <= new ->
  exists p, find_key bp_key (pa_key r) (budget_periods d) = Some p
  /\ contribution r <= bp_used_sat p
  /\ let u := bp_used_sat p - contribution r + new in
     if u <=? i64_max then
       exists tp, adjust_period_used (attempt_of r) (contribution r) new now d
                  = Ok (set_budget_periods tp d) /\ periods_wf tp
       /\ forall k, find_key bp_key k tp = if bool_decide (k = pa_key r)
            then Some (mkBudgetPeriodRow (bp_connection_id p) (bp_period_started_at p)
                         (bp_limit_sat p) u now)
            else find_key bp_key k (budget_periods d)
     else exists e, adjust_period_used (attempt_of r) (contribution r) new now d = Err e.
Proof.
  intros Hwf Hr Hnow Hnew. destruct (aw_period_of base d Hwf r Hr) as [p Hp].
  pose proof (used_covers base d r p Hwf Hr Hp) as Hcov. exists p. split_and!; [done..|].
  destruct (attempt_row base d r Hwf Hr) as [Hc _]. pose proof (contribution_nonneg r Hc) as Hn.
  pose proof (aw_i64 base d Hwf r Hr) as Hi.
  unfold adjust_period_used. cbn [at_period_started_at at_connection_id attempt_of].
  rewrite (proj2 (pay_sqlite_u64_Ok _ (pa_period_started_at r))) by done.
  fold (pa_key r). rewrite Hp. cbn [ok_or]. rewrite pay_decode_u64_nonneg by lia.
  unfold checked_sub_u64. rewrite (proj2 (Z.leb_le _ _) Hcov). simpl. unfold checked_add_u64.
  set (u := bp_used_sat p - contribution r + new).
  destruct (u <=? i64_max) eqn:Eu.
  - apply Z.leb_le in Eu. rewrite (proj2 (Z.leb_le u u64_max)) by (unfold u64_max, i64_max in *; lia).
    cbn [ok_or]. rewrite (proj2 (pay_sqlite_u64_Ok u u)) by done.
    destruct (find_key_Some _ _ _ _ Hp) as [Hpin Hpk].
    destruct (set_period_used_one (pa_key r) u now d p (aw_periods base d Hwf) Hp) as (tp & H1 & H2 & H3);
      [lia| |].
    { assert (bp_period_started_at p = pa_period_started_at r) as -> by (by injection Hpk).
      pose proof (ak_times r Hc). pose proof (ak_updated r Hc). lia. }
    exists tp. done.
  - apply Z.leb_gt in Eu. destruct (u <=? u64_max); cbn [ok_or]; [|eauto].
    unfold pay_sqlite_u64, i64_try_from. rewrite (proj2 (Z.leb_gt _ _) Eu). simpl. eauto.
Qed.

Lemma replaced_same d r r' t :
  accounting_wf base d -> r ∈ payment_attempts d -> wrote_attempt r r' (payment_attempts d) t ->
  pa_key r' = pa_key r -> contribution r' = contribution r ->
  replaced base r (Some r') d (set_payment_attempts t d).
Proof.
  intros Hwf Hr Hw Hk Hcon. split.
  - eapply wrote_same_wf; try done. by injection Hk.
  - apply (wa_find _ _ _ _ Hw).
  - intros k p' Hp'. exists p'. cbn in *. split_and!; [done..|].
    rewrite Hcon. case_bool_decide; lia.
  - cbn. by destruct d.
Qed.

Lemma replaced_adjusted d r r' p now t tp :
  accounting_wf base d -> r ∈ payment_attempts d -> wrote_attempt r r' (payment_attempts d) t ->
  pa_key r' = pa_key r -> find_key bp_key (pa_key r) (budget_periods d) = Some p ->
  periods_wf tp ->
  (forall k, find_key bp_key k tp = if bool_decide (k = pa_key r)
     then Some (mkBudgetPeriodRow (bp_connection_id p) (bp_period_started_at p) (bp_limit_sat p)
                  (bp_used_sat p - contribution r + contribution r') now)
     else find_key bp_key k (budget_periods d)) ->
  bp_used_sat p - contribution r + contribution r' <= i64_max ->
  replaced base r (Some r') d (set_payment_attempts t (set_budget_periods tp d)).
Proof.
  intros Hwf Hr Hw Hk Hp Htp Hf Hi. split.
  - eapply wrote_adjusted_wf; try done. by injection Hk.
  - apply (wa_find _ _ _ _ Hw).
  - intros k p'. cbn. rewrite Hf. case_bool_decide as Hd.
    + intros [= <-]. subst k. exists p. split_and!; [done..|]. simpl. lia.
    + intros Hp'. exists p'. split_and!; [done..|]. lia.
  - done.
Qed.

(** The guards every transition starts with. *)
Lemma with_state_check r s now :
  attempt_columns r -> pa_updated_at r <= now -> s <> State_Succeeded ->
  state_of (pa_state r) <> State_Succeeded ->
  payment_attempt_check (pa_with_state (state_as_str s) now r) = true.
Proof.
  intros [H1 H2 H3 H4 H5 H6 H7 H8 H9 H10 H11 H12 H13 H14 H15] Hnow Hs Hr.
  apply payment_attempt_check_spec. split; cbn; try done; try lia.
  - by rewrite state_of_str.
  - rewrite state_of_str. rewrite bool_decide_false in H15 by done. by rewrite bool_decide_false.
Qed.

Lemma attempt_of_with_state s now r :
  attempt_of (pa_with_state (state_as_str s) now r) = at_with_state s now (attempt_of r).
Proof. unfold attempt_of, at_with_state. cbn. by rewrite state_of_str. Qed.

Lemma mark_initiated_tx d h now : accounting_wf base d -> 0 <= now <= i64_max ->
  match find_key pa_payment_hash h (payment_attempts d) with
  | None => mark_payment_initiated h now d = Err Pay_ReservationConflict
  | Some r =>
      if now <? pa_updated_at r then mark_payment_initiated h now d = Err Pay_ValueOutOfRange
      else if was_initiated (attempt_of r) then mark_payment_initiated h now d = Ok (attempt_of r, d)
      else if negb (bool_decide (state_of (pa_state r) = State_Reserved))
      then mark_payment_initiated h now d = Err Pay_TerminalStateConflict
      else exists d', mark_payment_initiated h now d
             = Ok (at_with_initiated now (attempt_of r), d')
             /\ replaced base r (Some (pa_with_initiated now r)) d d'
  end.
Proof.
  intros Hwf Hnow. unfold mark_payment_initiated.
  rewrite (proj2 (pay_sqlite_u64_Ok now now)) by lia. rewrite (load_by_hash base) by done.
  destruct (find_key pa_payment_hash h (payment_attempts d)) as [r|] eqn:Hf; [|done].
  destruct (find_key_Some _ _ _ _ Hf) as [Hr Hh]. destruct (attempt_row base d r Hwf Hr) as [Hc _].
  cbn [fmap option_fmap option_map ok_or]. unfold validate_update_time.
  change (at_updated_at (attempt_of r)) with (pa_updated_at r).
  destruct (now <? pa_updated_at r) eqn:Hu; [done|]. apply Z.ltb_ge in Hu.
  destruct (was_initiated (attempt_of r)) eqn:Hi; [done|].
  change (at_state (attempt_of r)) with (state_of (pa_state r)).
  destruct (bool_decide (state_of (pa_state r) = State_Reserved)) eqn:Hs; cbn [negb]; [|done].
  apply bool_decide_eq_true_1 in Hs.
  assert (pa_state r = "reserved") as Hst by (by rewrite (ak_state r Hc), Hs).
  assert (pa_initiated_at r = None) as Hin.
  { unfold was_initiated in Hi. simpl in Hi. by destruct (pa_initiated_at r). }
  set (p := fun r => hash_is h r && bool_decide (pa_state r = "reserved") && null (pa_initiated_at r)).
  destruct (update_attempt_one p (pa_with_initiated now) d r (aw_attempts base d Hwf) Hr)
    as (t & -> & Hw); try done.
  - unfold p. by rewrite hash_is_refl, Hst, Hin.
  - intros x Hx. unfold p in Hx. rewrite !andb_true_iff in Hx. destruct Hx as [[Hx _] _].
    apply bool_decide_eq_true_1 in Hx. congruence.
  - destruct Hc as [H1 H2 H3 H4 H5 H6 H7 H8 H9 H10 H11 H12 H13 H14 H15].
    apply payment_attempt_check_spec. split; cbn; try done; try lia.
    intros t [= <-]. lia.
  - eexists. split; [done|]. by apply replaced_same.
Qed.

Lemma pending_tx d h now : accounting_wf base d -> 0 <= now <= i64_max ->
  match find_key pa_payment_hash h (payment_attempts d) with
  | None => mark_payment_pending h now d = Err Pay_ReservationConflict
  | Some r =>
      if now <? pa_updated_at r then mark_payment_pending h now d = Err Pay_ValueOutOfRange
      else if negb (was_initiated (attempt_of r))
      then mark_payment_pending h now d = Err Pay_TerminalStateConflict
      else match state_of (pa_state r) with
           | State_Pending => mark_payment_pending h now d = Ok (attempt_of r, d)
           | State_Reserved => exists d', mark_payment_pending h now d
               = Ok (at_with_state State_Pending now (attempt_of r), d')
               /\ replaced base r (Some (pa_with_state "pending" now r)) d d'
           | _ => mark_payment_pending h now d = Err Pay_TerminalStateConflict
           end
  end.
Proof.
  intros Hwf Hnow. unfold mark_payment_pending, transition_nonterminal.
  rewrite (proj2 (pay_sqlite_u64_Ok now now)) by lia. rewrite (load_by_hash base) by done.
  destruct (find_key pa_payment_hash h (payment_attempts d)) as [r|] eqn:Hf; [|done].
  destruct (find_key_Some _ _ _ _ Hf) as [Hr Hh]. destruct (attempt_row base d r Hwf Hr) as [Hc _].
  cbn [fmap option_fmap option_map ok_or]. unfold validate_update_time, ensure_attempt_initiated.
  change (at_updated_at (attempt_of r)) with (pa_updated_at r).
  destruct (now <? pa_updated_at r) eqn:Hu; [done|]. apply Z.ltb_ge in Hu.
  destruct (was_initiated (attempt_of r)) eqn:Hi; cbn [negb]; [|done].
  change (at_state (attempt_of r)) with (state_of (pa_state r)).
  destruct (state_of (pa_state r)) eqn:Hs; try done. cbn [bool_decide negb].
  rewrite (bool_decide_true (State_Reserved = State_Reserved)) by done. cbn [negb].
  assert (pa_state r = "reserved") as Hst by (by rewrite (ak_state r Hc), Hs).
  destruct (update_attempt_one (fun r => hash_is h r && bool_decide (pa_state r = "reserved"))
    (pa_with_state "pending" now) d r (aw_attempts base d Hwf) Hr) as (t & H1 & Hw); try done.
  - by rewrite hash_is_refl, Hst.
  - rewrite Hh. apply only_hash_and.
  - apply (with_state_check r State_Pending); [done|done|done|by rewrite Hs].
  - cbn [state_as_str]. rewrite H1. eexists. split; [done|]. apply replaced_same; try done.
    unfold contribution. cbn. by rewrite Hst.
Qed.

Lemma failed_tx d h now : accounting_wf base d -> 0 <= now <= i64_max ->
  match find_key pa_payment_hash h (payment_attempts d) with
  | None => mark_payment_failed h now d = Err Pay_ReservationConflict
  | Some r =>
      if now <? pa_updated_at r then mark_payment_failed h now d = Err Pay_ValueOutOfRange
      else if negb (was_initiated (attempt_of r))
      then mark_payment_failed h now d = Err Pay_TerminalStateConflict
      else match state_of (pa_state r) with
           | State_Succeeded => mark_payment_failed h now d = Err Pay_TerminalStateConflict
           | State_Failed => mark_payment_failed h now d = Ok (attempt_of r, d)
           | _ => exists d', mark_payment_failed h now d
               = Ok (at_with_state State_Failed now (attempt_of r), d')
               /\ replaced base r (Some (pa_with_state "failed" now r)) d d'
           end
  end.
Proof.
  intros Hwf Hnow. unfold mark_payment_failed.
  rewrite (proj2 (pay_sqlite_u64_Ok now now)) by lia. rewrite (load_by_hash base) by done.
  destruct (find_key pa_payment_hash h (payment_attempts d)) as [r|] eqn:Hf; [|done].
  destruct (find_key_Some _ _ _ _ Hf) as [Hr Hh]. destruct (attempt_row base d r Hwf Hr) as [Hc _].
  cbn [fmap option_fmap option_map ok_or]. unfold validate_update_time, ensure_attempt_initiated.
  change (at_updated_at (attempt_of r)) with (pa_updated_at r).
  destruct (now <? pa_updated_at r) eqn:Hu; [done|]. apply Z.ltb_ge in Hu.
  destruct (was_initiated (attempt_of r)) eqn:Hi; cbn [negb]; [|done].
  change (at_state (attempt_of r)) with (state_of (pa_state r)).
  assert (state_of (pa_state r) = State_Reserved \/ state_of (pa_state r) = State_Pending ->
    exists d', (let? d0 := adjust_period_used (attempt_of r) (reserved_sat (attempt_of r)) 0 now d in
      let? d1 := update_attempts
        (fun r0 => hash_is h r0 && text_in (pa_state r0) ["reserved"; "pending"])
        (pa_with_state "failed" now) d0 in
      Ok (at_with_state State_Failed now (attempt_of r), d1))
      = Ok (at_with_state State_Failed now (attempt_of r), d')
      /\ replaced base r (Some (pa_with_state "failed" now r)) d d') as Hopen.
  { intros Ho.
    rewrite <- (open_contribution r _ Hc eq_refl Ho).
    destruct (adjust_period_used_total d r 0 now Hwf Hr Hu ltac:(lia)) as (p & Hp & Hcov & Hadj).
    cbv zeta in Hadj. pose proof (contribution_nonneg r Hc).
    rewrite (proj2 (Z.leb_le (bp_used_sat p - contribution r + 0) i64_max)) in Hadj
      by (pose proof (aw_used_i64 base d Hwf _ p Hp); lia).
    destruct Hadj as (tp & -> & Htp & Hfp).
    assert (state_of (pa_state r) <> State_Succeeded) as Hns by (destruct Ho; congruence).
    destruct (update_attempt_one (fun r0 => hash_is h r0 && text_in (pa_state r0) ["reserved"; "pending"])
      (pa_with_state "failed" now) (set_budget_periods tp d) r (aw_attempts base d Hwf) Hr)
      as (t & H1 & Hw); try done.
    - rewrite hash_is_refl by done. rewrite (ak_state r Hc), open_state. by rewrite bool_decide_true.
    - rewrite Hh. apply only_hash_and.
    - by apply (with_state_check r State_Failed).
    - rewrite H1. eexists. split; [done|].
      assert (contribution (pa_with_state "failed" now r) = 0) as H0.
      { unfold contribution. cbn. pose proof (ak_settled r Hc) as H15.
        rewrite bool_decide_false in H15 by done. by destruct H15 as (_ & _ & -> & _). }
      eapply replaced_adjusted; try done; rewrite H0; [exact Hfp|].
      pose proof (aw_used_i64 base d Hwf _ p Hp). lia. }
  destruct (state_of (pa_state r)) eqn:Hs; try done; apply Hopen; auto.
Qed.
End Transactions.

Lemma with_settlement_check r principal fee charged exceeded now :
  attempt_columns r -> pa_updated_at r <= now -> 0 <= principal -> 0 <= fee -> 0 <= charged ->
  payment_attempt_check (pa_with_settlement principal fee charged exceeded now r) = true.
Proof.
  intros [H1 H2 H3 H4 H5 H6 H7 H8 H9 H10 H11 H12 H13 H14 H15] Hnow Hp Hf Hc.
  apply payment_attempt_check_spec. split; cbn; try done; try lia; try naive_solver.
Qed.

(** What a settlement charges, by the connection's fee policy. *)
Definition settlement_charge (count_fees : bool) (principal fee : Z) : Z :=
  if count_fees then principal + fee else principal.
Definition settlement_exceeds (count_fees : bool) (r : PaymentAttemptRow) (principal fee : Z) : bool :=
  (pa_principal_sat r <? principal) || (count_fees && (pa_fee_reserve_sat r <? fee)).

Lemma msat_to_sat_ceil_Ok a s :
  0 <= a -> msat_to_sat_ceil a = Ok s -> s = (a + 999) / 1000 /\ 0 <= s.
Proof.
  intros Ha. unfold msat_to_sat_ceil. intros H. inv_run H. use_results.
  split; [done|]. apply Z.div_pos; lia.
Qed.

Lemma succeeded_tx base d h ap af principal fee now :
  accounting_wf base d -> 0 <= now <= i64_max -> 0 <= ap -> 0 <= af ->
  msat_to_sat_ceil ap = Ok principal -> msat_to_sat_ceil af = Ok fee ->
  principal <= i64_max -> fee <= i64_max ->
  match find_key pa_payment_hash h (payment_attempts d) with
  | None => mark_payment_succeeded h ap af now d = Err Pay_ReservationConflict
  | Some r =>
      if now <? pa_updated_at r then mark_payment_succeeded h ap af now d = Err Pay_ValueOutOfRange
      else if negb (was_initiated (attempt_of r))
      then mark_payment_succeeded h ap af now d = Err Pay_TerminalStateConflict
      else if bool_decide (state_of (pa_state r) = State_Succeeded) then
        mark_payment_succeeded h ap af now d
        = if bool_decide (pa_actual_principal_sat r = Some principal)
             && bool_decide (pa_actual_fee_sat r = Some fee)
          then Ok (attempt_of r, d) else Err Pay_TerminalStateConflict
      else match find_key cn_id (pa_connection_id r) (connections d) with
      | None => mark_payment_succeeded h ap af now d = Err Pay_DatabaseUnavailable
      | Some c =>
        let count_fees := bool_decide (cn_fee_policy c = "count") in
        let charged := settlement_charge count_fees principal fee in
        let exceeded := settlement_exceeds count_fees r principal fee in
        exists p, find_key bp_key (pa_key r) (budget_periods d) = Some p
        /\ if bp_used_sat p - contribution r + charged <=? i64_max then
             exists d', mark_payment_succeeded h ap af now d
               = Ok (at_with_settlement principal fee charged exceeded now (attempt_of r), d')
             /\ replaced base r (Some (pa_with_settlement principal fee charged exceeded now r)) d d'
           else is_ok (mark_payment_succeeded h ap af now d) = false
      end
  end.
Proof.
  intros Hwf Hnow Hap Haf Ep Ef Hp64 Hf64. unfold mark_payment_succeeded. rewrite Ep, Ef.
  apply msat_to_sat_ceil_Ok in Ep as [_ Hp0]; [|done]. apply msat_to_sat_ceil_Ok in Ef as [_ Hf0]; [|done].
  rewrite (proj2 (pay_sqlite_u64_Ok now now)) by lia.
  rewrite (proj2 (pay_sqlite_u64_Ok principal principal)) by lia.
  rewrite (proj2 (pay_sqlite_u64_Ok fee fee)) by lia. rewrite (load_by_hash base) by done.
  destruct (find_key pa_payment_hash h (payment_attempts d)) as [r|] eqn:Hf; [|done].
  destruct (find_key_Some _ _ _ _ Hf) as [Hr Hh]. destruct (attempt_row base d r Hwf Hr) as [Hc _].
  cbn [fmap option_fmap option_map ok_or]. unfold validate_update_time, ensure_attempt_initiated.
  change (at_updated_at (attempt_of r)) with (pa_updated_at r).
  destruct (now <? pa_updated_at r) eqn:Hu; [done|]. apply Z.ltb_ge in Hu.
  destruct (was_initiated (attempt_of r)) eqn:Hi; cbn [negb]; [|done].
  change (at_state (attempt_of r)) with (state_of (pa_state r)).
  change (at_connection_id (attempt_of r)) with (pa_connection_id r).
  change (at_actual_principal_sat (attempt_of r)) with (pa_actual_principal_sat r).
  change (at_actual_fee_sat (attempt_of r)) with (pa_actual_fee_sat r).
  destruct (bool_decide (state_of (pa_state r) = State_Succeeded)) eqn:Hs; [done|].
  apply bool_decide_eq_false_1 in Hs.
  destruct (find_key cn_id (pa_connection_id r) (connections d)) as [c|] eqn:Hconn; [|done].
  cbn [ok_or]. cbv zeta.
  set (count_fees := bool_decide (cn_fee_policy c = "count")).
  set (charged := settlement_charge count_fees principal fee).
  set (exceeded := settlement_exceeds count_fees r principal fee).
  assert ((if count_fees then ok_or Pay_ValueOutOfRange (checked_add_u64 principal fee) else Ok principal)
    = Ok charged) as ->.
  { unfold charged, settlement_charge, checked_add_u64. destruct count_fees; [|done].
    rewrite (proj2 (Z.leb_le (principal + fee) u64_max)); [done|].
    unfold u64_max, i64_max in *; lia. }
  assert (0 <= charged) as Hch0 by (unfold charged, settlement_charge; destruct count_fees; lia).
  assert ((match state_of (pa_state r) with
    | State_Reserved | State_Pending => reserved_sat (attempt_of r) | _ => 0 end) = contribution r) as ->.
  { destruct (state_of (pa_state r)) eqn:E; try done.
    - symmetry. eapply open_contribution; eauto.
    - symmetry. eapply open_contribution; eauto.
    - symmetry. by apply failed_contribution. }
  destruct (adjust_period_used_total base d r charged now Hwf Hr Hu Hch0) as (p & Hp & Hcov & Hadj).
  exists p. split; [done|]. cbv zeta in Hadj. pose proof (contribution_nonneg r Hc).
  destruct (bp_used_sat p - contribution r + charged <=? i64_max) eqn:Eu.
  2:{ destruct Hadj as [e ->]. done. }
  apply Z.leb_le in Eu. destruct Hadj as (tp & -> & Htp & Hfp).
  rewrite (proj2 (pay_sqlite_u64_Ok charged charged)) by lia.
  destruct (update_attempt_one (fun r0 => hash_is h r0 && negb (bool_decide (pa_state r0 = "succeeded")))
    (pa_with_settlement principal fee charged exceeded now) (set_budget_periods tp d) r
    (aw_attempts base d Hwf) Hr) as (t & H1 & Hw); try done.
  - rewrite hash_is_refl by done. rewrite (ak_state r Hc).
    destruct (state_of (pa_state r)); done.
  - rewrite Hh. apply only_hash_and.
  - by apply with_settlement_check.
  - fold (settlement_exceeds count_fees r principal fee).
    change (at_principal_sat (attempt_of r)) with (pa_principal_sat r).
    change (at_fee_reserve_sat (attempt_of r)) with (pa_fee_reserve_sat r).
    fold (settlement_exceeds count_fees r principal fee). fold exceeded.
    rewrite H1. eexists. split; [done|].
    assert (contribution (pa_with_settlement principal fee charged exceeded now r) = charged) as Hcc
      by done.
    eapply replaced_adjusted; try done; rewrite Hcc; done.
Qed.

(** Releasing a reservation deletes the attempt and returns what it counted. *)
Lemma release_tx base d h now : accounting_wf base d -> 0 <= now <= i64_max ->
  match find_key pa_payment_hash h (payment_attempts d) with
  | None => release_uninitiated_payment h now d = Err Pay_ReservationConflict
  | Some r =>
      if now <? pa_updated_at r then release_uninitiated_payment h now d = Err Pay_ValueOutOfRange
      else if negb (bool_decide (state_of (pa_state r) = State_Reserved)) || was_initiated (attempt_of r)
      then release_uninitiated_payment h now d = Err Pay_TerminalStateConflict
      else exists d', release_uninitiated_payment h now d = Ok (tt, d')
             /\ replaced base r None d d'
  end.
Proof.
  intros Hwf Hnow. unfold release_uninitiated_payment.
  rewrite (proj2 (pay_sqlite_u64_Ok now now)) by lia. rewrite (load_by_hash base) by done.
  destruct (find_key pa_payment_hash h (payment_attempts d)) as [r|] eqn:Hf; [|done].
  destruct (find_key_Some _ _ _ _ Hf) as [Hr Hh]. destruct (attempt_row base d r Hwf Hr) as [Hc _].
  cbn [fmap option_fmap option_map ok_or]. unfold validate_update_time.
  change (at_updated_at (attempt_of r)) with (pa_updated_at r).
  destruct (now <? pa_updated_at r) eqn:Hu; [done|]. apply Z.ltb_ge in Hu.
  change (at_state (attempt_of r)) with (state_of (pa_state r)).
  destruct (negb (bool_decide (state_of (pa_state r) = State_Reserved)) || was_initiated (attempt_of r))
    eqn:Hs; [done|].
  apply orb_false_elim in Hs as [Hs Hi]. apply negb_false_iff, bool_decide_eq_true_1 in Hs.
  rewrite <- (open_contribution r _ Hc eq_refl) by auto.
  destruct (adjust_period_used_total base d r 0 now Hwf Hr Hu ltac:(lia)) as (p & Hp & Hcov & Hadj).
  cbv zeta in Hadj. pose proof (contribution_nonneg r Hc). pose proof (aw_used_i64 base d Hwf _ p Hp).
  rewrite (proj2 (Z.leb_le (bp_used_sat p - contribution r + 0) i64_max)) in Hadj by lia.
  destruct Hadj as (tp & -> & Htp & Hfp).
  assert (pa_state r = "reserved") as Hst by (by rewrite (ak_state r Hc), Hs).
  assert (pa_initiated_at r = None) as Hin.
  { unfold was_initiated in Hi. simpl in Hi. by destruct (pa_initiated_at r). }
  set (q := fun r => hash_is h r && bool_decide (pa_state r = "reserved") && null (pa_initiated_at r)).
  destruct (aw_attempts base d Hwf) as [Hchk [Hnde Hndh]].
  assert (q r = true) as Hq by (unfold q; by rewrite hash_is_refl, Hst, Hin).
  assert (only_hash q h) as Hqh.
  { intros x Hx. unfold q in Hx. rewrite !andb_true_iff in Hx. destruct Hx as [[Hx _] _].
    by apply bool_decide_eq_true_1 in Hx. }
  assert (select q (payment_attempts d) = [r]) as Hsel.
  { apply (select_unique pa_payment_hash); [done..|]. intros x _ Hx. rewrite Hh. by apply Hqh. }
  cbn [payment_attempts set_budget_periods]. unfold delete_where. rewrite Hsel. cbn [length Nat.eqb negb].
  eexists. split; [done|].
  set (t := select (fun r0 => negb (q r0)) (payment_attempts d)).
  assert (t = (delete_where q (payment_attempts d)).1) as Ht by done.
  assert (forall x, x ∈ t -> x ∈ payment_attempts d) as Hsub.
  { intros x. rewrite Ht, elem_of_delete. tauto. }
  assert (forall k, Zsum (counted k) t
    = Zsum (counted k) (payment_attempts d) - (if bool_decide (k = pa_key r) then contribution r else 0)) as Hsum.
  { intros k. rewrite Ht, Zsum_delete, Hsel. simpl. unfold counted at 2.
    rewrite (bool_decide_ext (pa_key r = k) (k = pa_key r)) by done. lia. }
  split; cbn [payment_attempts budget_periods set_payment_attempts set_budget_periods].
  - destruct Hwf as [H1 H2 H3 H4 H5 H6 H7 H8 H10].
    split; cbn [payment_attempts budget_periods set_payment_attempts set_budget_periods]; try done; try auto.
    + rewrite Ht. split_and!; auto with nwc.
    + intros x Hx. rewrite Hfp. case_bool_decide; eauto.
    + intros k p'. rewrite Hfp. unfold period_spend.
      cbn [payment_attempts set_payment_attempts set_budget_periods]. rewrite Hsum.
      case_bool_decide as Hk.
      * intros [= <-]. subst k. simpl. pose proof (H7 _ _ Hp) as H9. unfold period_spend in H9. lia.
      * intros Hp'. pose proof (H7 _ _ Hp') as H9. unfold period_spend in H9. lia.
    + intros k p'. rewrite Hfp. case_bool_decide; [|eauto]. intros [= <-]. simpl. lia.
    + intros k. rewrite Hfp. case_bool_decide; [done|auto].
  - intros h'. rewrite Ht, (find_key_delete pa_payment_hash h' q) by done.
    destruct (find_key pa_payment_hash h' (payment_attempts d)) as [x|] eqn:Hx.
    + destruct (find_key_Some _ _ _ _ Hx) as [Hxin Hxh].
      destruct (q x) eqn:Eq.
      * apply Hqh in Eq. by rewrite bool_decide_true by congruence.
      * case_bool_decide as Hd; [|done]. exfalso.
        assert (x = r) as ->; [|congruence].
        apply (NoDup_key_inj pa_payment_hash (payment_attempts d)); [done..|congruence].
    + by case_bool_decide.
  - intros k p'. rewrite Hfp. case_bool_decide as Hk.
    + intros [= <-]. subst k. exists p. split_and!; [done..|]. simpl. lia.
    + intros Hp'. exists p'. split_and!; [done..|]. lia.
  - done.
Qed.

(** ** Lemmas: budgets and periods *)

Lemma load_connection_budget_Ok d c rev now b :
  load_connection_budget d c rev now = Ok b ->
  exists r, r ∈ connections d /\ cn_id r = ac_id c /\ cn_revision r = rev
    /\ cn_status r = "active" /\ (forall e, cn_expires_at r = Some e -> now < e)
    /\ (exists m, m ∈ connection_methods d /\ cm_connection_id m = ac_id c
          /\ cm_method m = "pay_invoice")
    /\ cb_created_at b = cn_created_at r /\ cb_limit_sat b = cn_budget_limit_sat r
    /\ 0 <= cb_created_at b /\ 0 <= cb_limit_sat b /\ 0 <= cb_fee_reserve_sat b
    /\ (forall i, cb_interval_seconds b = Some i -> 3600 <= i)
    /\ cb_fee_reserve_sat b = (if bool_decide (cn_fee_policy r = "count") then cn_maximum_fee_sat r else 0).
Proof.
  unfold load_connection_budget, pay_decode_u64. intros H.
  destruct (query_row _ (connections d)) as [r|] eqn:Hq; [|done]. cbn [ok_or] in H.
  apply query_row_Some in Hq as [Hr Hp].
  rewrite !andb_true_iff, !bool_decide_eq_true, Z.eqb_eq, null_or_true, exists_row_true in Hp.
  destruct Hp as ((((Hid & Hrev) & Hst) & Hex) & (m & Hm & Hmp)).
  rewrite andb_true_iff, !bool_decide_eq_true in Hmp. setoid_rewrite Z.ltb_lt in Hex.
  destruct (ok_or Pay_CorruptData (u64_try_from (cn_created_at r))) as [cr|] eqn:E1; [|done].
  destruct (ok_or Pay_CorruptData (u64_try_from (cn_budget_limit_sat r))) as [li|] eqn:E2; [|done].
  destruct (ok_or Pay_CorruptData (u64_try_from (cn_maximum_fee_sat r))) as [fe|] eqn:E3; [|done].
  use_results.
  match type of H with (let? _ := ?x in _) = _ => destruct x as [iv|] eqn:E4; [|done] end.
  destruct (if bool_decide (cn_fee_policy r = "count") then _ else _) as [fr|] eqn:E5; [|done].
  injection H as <-. exists r. cbn.
  assert (forall i, iv = Some i -> 3600 <= i) as Hiv.
  { intros i ->. repeat case_match; simplify_eq; lia. }
  assert (0 <= fr /\ fr = (if bool_decide (cn_fee_policy r = "count") then cn_maximum_fee_sat r else 0)) as [Hfr1 Hfr2].
  { destruct (bool_decide (cn_fee_policy r = "count")); [by injection E5 as <-|].
    destruct (_ && _); [|done]. by injection E5 as <-. }
  split_and!; try done. destruct Hmp as [Hm1 Hm2]. exists m. split_and!; congruence || done.
Qed.

Lemma period_start_Ok b now start :
  period_start b now = Ok start -> 0 <= cb_created_at b ->
  (forall i, cb_interval_seconds b = Some i -> 3600 <= i) ->
  cb_created_at b <= start <= now
  /\ match cb_interval_seconds b with
     | None => start = cb_created_at b
     | Some i => now < start + i /\ exists n, 0 <= n /\ start = cb_created_at b + n * i
     end.
Proof.
  unfold period_start. intros H H0 Hi.
  destruct (now <? cb_created_at b) eqn:E; [done|]. apply Z.ltb_ge in E.
  destruct (cb_interval_seconds b) as [i|]; [|injection H as <-; lia].
  specialize (Hi i eq_refl). inv_run H. use_results.
  set (q := (now - cb_created_at b) / i) in *.
  pose proof (Z.mul_div_le (now - cb_created_at b) i ltac:(lia)).
  pose proof (Z.mul_succ_div_gt (now - cb_created_at b) i ltac:(lia)).
  assert (0 <= q) by (apply Z.div_pos; lia). fold q in H1, H2.
  split; [nia|]. split; [nia|]. exists q. lia.
Qed.

(** What a fresh reservation [r] does: it is inserted, and its period (created
    on first use) counts it within the limit. *)
Record reserved_new (base : string * Z -> Z) (limit : Z) (r : PaymentAttemptRow)
    (d d' : Database) : Prop := {
  rn_wf : accounting_wf base d';
  rn_find : forall h, find_key pa_payment_hash h (payment_attempts d')
    = if bool_decide (h = pa_payment_hash r) then Some r
      else find_key pa_payment_hash h (payment_attempts d);
  rn_other : forall k, k <> pa_key r ->
    find_key bp_key k (budget_periods d') = find_key bp_key k (budget_periods d);
  rn_period : exists p', find_key bp_key (pa_key r) (budget_periods d') = Some p'
    /\ bp_limit_sat p' = limit /\ bp_used_sat p' <= limit
    /\ match find_key bp_key (pa_key r) (budget_periods d) with
       | Some p => bp_limit_sat p = limit /\ bp_used_sat p' = bp_used_sat p + pa_reserved_sat r
       | None => bp_used_sat p' = pa_reserved_sat r
       end;
  rn_frame : d' = set_payment_attempts (payment_attempts d')
                    (set_budget_periods (budget_periods d') d);
}.

(** The row a reservation inserts. *)
Definition reservation_row (e h : list Z) (c : ActiveConnection) (start principal fee now sequence : Z)
  : PaymentAttemptRow :=
  mkPaymentAttemptRow e h (ac_id c) (ac_revision c) start principal fee (principal + fee)
    "reserved" None None None false now now sequence None false.

Definition next_sequence (d : Database) : Z :=
  default 0 (sql_max pa_reconciliation_sequence (payment_attempts d)) + 1.

(** The counter of a period before a reservation; 0 when it is created. *)
Definition used_before (k : string * Z) (d : Database) : Z :=
  match find_key bp_key k (budget_periods d) with Some p => bp_used_sat p | None => 0 end.
Definition limit_before (k : string * Z) (limit : Z) (d : Database) : Z :=
  match find_key bp_key k (budget_periods d) with Some p => bp_limit_sat p | None => limit end.

(** The period row exists after the insert-or-nothing. *)
Lemma open_period base d c start limit now :
  accounting_wf base d -> connection_exists d (ac_id c) = true -> 0 <= start <= now ->
  0 <= limit ->
  exists t p, insert_or_nothing budget_period_check (fun p => connection_exists d (bp_connection_id p))
      budget_period_clash budget_period_clash
      (mkBudgetPeriodRow (ac_id c) start limit 0 now) (budget_periods d) = Some t
  /\ periods_wf t /\ find_key bp_key (ac_id c, start) t = Some p
  /\ bp_used_sat p = used_before (ac_id c, start) d
  /\ bp_limit_sat p = limit_before (ac_id c, start) limit d
  /\ bp_period_started_at p = start
  /\ (forall k, k <> (ac_id c, start) -> find_key bp_key k t = find_key bp_key k (budget_periods d))
  /\ accounting_wf base (set_budget_periods t d).
Proof.
  intros Hwf Hconn Hstart Hlimit. set (k0 := (ac_id c, start)).
  set (row := mkBudgetPeriodRow (ac_id c) start limit 0 now).
  assert (budget_period_check row = true) as Hcheck.
  { unfold budget_period_check. simpl. rewrite !andb_true_iff, !Z.leb_le. lia. }
  unfold insert_or_nothing, used_before, limit_before. rewrite Hcheck. cbn [negb].
  destruct (find_key bp_key k0 (budget_periods d)) as [p|] eqn:Hf.
  - destruct (find_key_Some _ _ _ _ Hf) as [Hp Hk].
    replace (exists_row _ _) with true.
    2:{ symmetry. apply exists_row_true. exists p. split; [done|].
        apply bool_decide_eq_true_2. by rewrite Hk. }
    exists (budget_periods d), p. split_and!; try done.
    + apply (aw_periods base d Hwf).
    + unfold k0, bp_key in Hk. by injection Hk.
    + by destruct d.
  - assert (forall p, p ∈ budget_periods d -> bp_key p <> k0) as Hno.
    { intros p Hp Hk. apply find_key_None in Hf. apply Hf. rewrite <- Hk. by apply list_elem_of_fmap_2. }
    replace (exists_row _ _) with false.
    2:{ symmetry. apply exists_row_false. intros p Hp. apply bool_decide_eq_false_2.
        intros Heq. by apply (Hno p Hp). }
    assert (insert_row (fun p => budget_period_check p && connection_exists d (bp_connection_id p))
      budget_period_clash row (budget_periods d) = Some (budget_periods d ++ [row])) as Hins.
    { apply insert_row_Some. split_and!; [done| |].
      - by rewrite Hcheck.
      - intros p Hp. apply bool_decide_eq_false_2. intros Heq. by apply (Hno p Hp). }
    assert (forall k, find_key bp_key k (budget_periods d ++ [row])
      = if bool_decide (k = k0) then Some row else find_key bp_key k (budget_periods d)) as Hfind.
    { intros k. rewrite find_key_app. change (bp_key row) with k0.
      destruct (bool_decide (k = k0)) eqn:E.
      - apply bool_decide_eq_true_1 in E as ->. rewrite Hf. by rewrite bool_decide_true.
      - apply bool_decide_eq_false_1 in E. rewrite bool_decide_false by congruence.
        by destruct (find_key bp_key k (budget_periods d)). }
    assert (periods_wf (budget_periods d ++ [row])) as Hpw.
    { destruct (aw_periods base d Hwf) as [Hchk Hnd]. split.
      - eapply insert_row_Forall; [exact Hins| |done]. intros H. by apply andb_prop in H as [? _].
      - eapply insert_row_key; [exact Hins| |done]. intros r' Hr'. by apply bool_decide_eq_true_2. }
    exists (budget_periods d ++ [row]), row. split_and!; try done.
    + by rewrite Hfind, bool_decide_true.
    + intros k Hk. by rewrite Hfind, bool_decide_false.
    + destruct Hwf as [H1 H2 H3 H4 H5 H6 H7 H8 H9].
      split; cbn [budget_periods payment_attempts set_budget_periods]; try done.
      * intros r Hr. rewrite Hfind. case_bool_decide; [eauto|auto].
      * intros k p. rewrite Hfind. case_bool_decide as Hk; [|apply H7].
        intros [= <-]. subst k. simpl. rewrite (H9 k0 Hf).
        assert (period_spend k0 (set_budget_periods (budget_periods d ++ [row]) d) = 0) as ->; [|done].
        apply Zsum_zero. intros r Hr. unfold counted. case_bool_decide as Hk; [|done].
        destruct (H3 r Hr) as [p Hp]. congruence.
      * intros k p. rewrite Hfind. case_bool_decide; [|apply H8].
        intros [= <-]. simpl. unfold i64_max. lia.
      * intros k. rewrite Hfind. case_bool_decide; [done|apply H9].
Qed.

Lemma reservation_columns e h c start principal fee now sequence :
  length e = 32%nat -> length h = 32%nat -> 0 <= ac_revision c -> 0 <= start <= now ->
  0 <= principal -> 0 <= fee -> 0 <= sequence ->
  attempt_columns (reservation_row e h c start principal fee now sequence).
Proof. intros. split; cbn; try done; try lia. Qed.

Lemma sequence_bounds base d : accounting_wf base d ->
  0 <= default 0 (sql_max pa_reconciliation_sequence (payment_attempts d)).
Proof.
  intros Hwf. destruct (sql_max _ _) as [m|] eqn:E; simpl; [|lia].
  apply sql_max_Some in E as [(r & Hr & <-) _].
  destruct (attempt_row base d r Hwf Hr) as [Hc _]. by apply ak_sequence.
Qed.

(** Inserting a reservation whose period already counts it. *)
Lemma insert_reservation base d p tp r now :
  accounting_wf base d -> find_key bp_key (pa_key r) (budget_periods d) = Some p ->
  find_key pa_event_id (pa_event_id r) (payment_attempts d) = None ->
  find_key pa_payment_hash (pa_payment_hash r) (payment_attempts d) = None ->
  attempt_columns r -> ConnectionId_parse (pa_connection_id r) = Ok (pa_connection_id r) ->
  pa_period_started_at r <= i64_max -> contribution r = pa_reserved_sat r ->
  bp_used_sat p + pa_reserved_sat r <= i64_max -> periods_wf tp ->
  (forall k, find_key bp_key k tp = if bool_decide (k = pa_key r)
     then Some (mkBudgetPeriodRow (bp_connection_id p) (bp_period_started_at p) (bp_limit_sat p)
                  (bp_used_sat p + pa_reserved_sat r) now)
     else find_key bp_key k (budget_periods d)) ->
  insert_row (fun r => payment_attempt_check r && period_exists (set_budget_periods tp d) (pa_key r))
    payment_attempt_clash r (payment_attempts d) = Some (payment_attempts d ++ [r])
  /\ accounting_wf base (set_payment_attempts (payment_attempts d ++ [r]) (set_budget_periods tp d))
  /\ forall h, find_key pa_payment_hash h (payment_attempts d ++ [r])
       = if bool_decide (h = pa_payment_hash r) then Some r
         else find_key pa_payment_hash h (payment_attempts d).
Proof.
  intros Hwf Hp He Hh Hc Hid Hi Hcon Hu Htp Hf.
  assert (forall x, x ∈ payment_attempts d ->
    pa_event_id x <> pa_event_id r /\ pa_payment_hash x <> pa_payment_hash r) as Hfresh.
  { intros x Hx. apply find_key_None in He, Hh. split; intros Heq.
    - apply He. rewrite <- Heq. by apply list_elem_of_fmap_2.
    - apply Hh. rewrite <- Heq. by apply list_elem_of_fmap_2. }
  pose proof (proj2 (payment_attempt_check_spec r) Hc) as Hchk.
  assert (forall h, find_key pa_payment_hash h (payment_attempts d ++ [r])
    = if bool_decide (h = pa_payment_hash r) then Some r
      else find_key pa_payment_hash h (payment_attempts d)) as Hfind.
  { intros h. rewrite find_key_app. destruct (bool_decide (h = pa_payment_hash r)) eqn:E.
    - apply bool_decide_eq_true_1 in E as ->. rewrite Hh. by rewrite bool_decide_true.
    - apply bool_decide_eq_false_1 in E. rewrite bool_decide_false by congruence.
      by destruct (find_key pa_payment_hash h (payment_attempts d)). }
  split_and!; [|split|done].
  - apply insert_row_Some. split_and!; [done| |].
    + rewrite Hchk. simpl. unfold period_exists. cbn [budget_periods set_budget_periods].
      apply exists_row_true. specialize (Hf (pa_key r)). rewrite bool_decide_true in Hf by done.
      apply find_key_Some in Hf as [Hin Hk]. eexists. split; [exact Hin|]. by apply bool_decide_eq_true_2.
    + intros x Hx. destruct (Hfresh x Hx) as [Hx1 Hx2]. unfold payment_attempt_clash.
      by rewrite !bool_decide_false by congruence.
  - done.
  - cbn [payment_attempts set_payment_attempts]. destruct (aw_attempts base d Hwf) as [H1 [H2 H3]].
    split_and!; [apply Forall_app; split; [done|by repeat constructor]|..]; rewrite fmap_app; apply NoDup_app;
      (split_and!; [done| |apply NoDup_singleton]);
      intros k (x & -> & Hx)%list_elem_of_fmap Hk; apply list_elem_of_singleton in Hk;
      destruct (Hfresh x Hx); congruence.
  - intros x Hx. cbn [payment_attempts set_payment_attempts budget_periods set_budget_periods] in *.
    rewrite Hf. case_bool_decide as Hk; [eauto|].
    apply elem_of_app in Hx as [Hx| ->%list_elem_of_singleton]; [by apply (aw_period_of base d Hwf)|done].
  - intros x [Hx| ->%list_elem_of_singleton]%elem_of_app; [by apply (aw_ids base d Hwf)|done].
  - intros x [Hx| ->%list_elem_of_singleton]%elem_of_app; [by apply (aw_i64 base d Hwf)|done].
  - apply (aw_base base d Hwf).
  - intros k q. cbn [payment_attempts set_payment_attempts budget_periods set_budget_periods].
    rewrite Hf. unfold period_spend. cbn [payment_attempts set_payment_attempts]. rewrite Zsum_app.
    simpl. unfold counted at 2. rewrite (bool_decide_ext (pa_key r = k) (k = pa_key r)) by done.
    case_bool_decide as Hk.
    + intros [= <-]. subst k. simpl. pose proof (aw_spent base d Hwf _ _ Hp) as Hsp.
      unfold period_spend in Hsp. lia.
    + intros Hq. pose proof (aw_spent base d Hwf _ _ Hq) as Hsp. unfold period_spend in Hsp. lia.
  - intros k q. cbn [budget_periods set_payment_attempts set_budget_periods]. rewrite Hf.
    case_bool_decide; [|apply (aw_used_i64 base d Hwf)]. intros [= <-]. done.
  - intros k. cbn [budget_periods set_payment_attempts set_budget_periods]. rewrite Hf.
    case_bool_decide; [done|apply (aw_no_base base d Hwf)].
Qed.

(** Every branch of a reservation. *)
Definition reserve_spec (base : string * Z -> Z) (e h : list Z) (c : ActiveConnection)
    (principal now : Z) (b : ConnectionBudget) (start : Z) (d : Database)
    (m : Result PaymentAccountingError (PaymentReservationOutcome * Database)) : Prop :=
  match find_key pa_event_id e (payment_attempts d) with
  | Some r =>
      m = if bool_decide (pa_payment_hash r = h) && bool_decide (pa_connection_id r = ac_id c)
             && (pa_connection_revision r =? ac_revision c) && (pa_principal_sat r =? principal)
          then Ok (Outcome_Existing (attempt_of r), d) else Err Pay_ReservationConflict
  | None =>
  match find_key pa_payment_hash h (payment_attempts d) with
  | Some r => m = Ok (Outcome_AlreadyTracked (attempt_of r), d)
  | None =>
      let fee := cb_fee_reserve_sat b in
      let k := (ac_id c, start) in
      if negb (principal + fee <=? i64_max) || negb (next_sequence d <=? i64_max)
      then m = Err Pay_ValueOutOfRange
      else if negb (limit_before k (cb_limit_sat b) d =? cb_limit_sat b) then m = Err Pay_CorruptData
      else if cb_limit_sat b <? used_before k d + (principal + fee) then m = Err Pay_BudgetExceeded
      else let r := reservation_row e h c start principal fee now (next_sequence d) in
           exists d', m = Ok (Outcome_Reserved (attempt_of r), d')
             /\ reserved_new base (cb_limit_sat b) r d d'
  end
  end.

Lemma reserve_tx base d e h c principal now b start :
  accounting_wf base d -> 0 < principal <= i64_max -> 0 <= now <= i64_max ->
  0 <= ac_revision c <= i64_max -> length e = 32%nat -> length h = 32%nat ->
  ConnectionId_parse (ac_id c) = Ok (ac_id c) ->
  load_connection_budget d c (ac_revision c) now = Ok b -> period_start b now = Ok start ->
  cb_limit_sat b <= i64_max -> cb_fee_reserve_sat b <= i64_max ->
  reserve_spec base e h c principal now b start d (reserve_payment e h c principal now d).
Proof.
  intros Hwf Hp Hnow Hrev He Hh Hid Hb Hs Hlim64 Hfee64.
  destruct (load_connection_budget_Ok _ _ _ _ _ Hb) as (cr & Hcin & Hcid & _ & _ & _ & _ & _ & _
    & Hb0 & Hl0 & Hf0 & Hiv & _).
  destruct (period_start_Ok b now start Hs Hb0 Hiv) as [Hst _].
  unfold reserve_spec, reserve_payment.
  rewrite (proj2 (Z.eqb_neq principal 0)) by lia.
  rewrite (proj2 (pay_sqlite_u64_Ok now now)) by lia.
  rewrite (proj2 (pay_sqlite_u64_Ok (ac_revision c) (ac_revision c))) by lia.
  rewrite (proj2 (pay_sqlite_u64_Ok principal principal)) by lia.
  rewrite Hb, Hs, (load_by_event base), (load_by_hash base) by done.
  destruct (find_key pa_event_id e (payment_attempts d)) as [r|] eqn:Hfe; [done|].
  destruct (find_key pa_payment_hash h (payment_attempts d)) as [r|] eqn:Hfh; [done|].
  cbn [fmap option_fmap option_map].
  rewrite (proj2 (pay_sqlite_u64_Ok start start)) by lia.
  rewrite (proj2 (pay_sqlite_u64_Ok (cb_limit_sat b) (cb_limit_sat b))) by lia.
  rewrite (proj2 (pay_sqlite_u64_Ok (cb_fee_reserve_sat b) (cb_fee_reserve_sat b))) by lia.
  set (fee := cb_fee_reserve_sat b) in *.
  assert (checked_add_u64 principal fee = Some (principal + fee)) as ->.
  { apply checked_add_u64_Some. unfold u64_max, i64_max in *. lia. }
  assert (pay_sqlite_u64 (principal + fee) = if principal + fee <=? i64_max
    then Ok (principal + fee) else Err Pay_ValueOutOfRange) as Hres.
  { unfold pay_sqlite_u64, i64_try_from. by destruct (principal + fee <=? i64_max). }
  cbn [ok_or]. rewrite Hres. clear Hres.
  destruct (principal + fee <=? i64_max) eqn:Eres; cbn [negb orb]; [|done].
  apply Z.leb_le in Eres. pose proof (sequence_bounds base d Hwf) as Hseq.
  unfold next_sequence, checked_add_i64.
  destruct (default 0 _ + 1 <=? i64_max) eqn:Eseq; cbn [ok_or negb orb]; [|done].
  apply Z.leb_le in Eseq.
  set (k := (ac_id c, start)).
  assert (connection_exists d (ac_id c) = true) as Hconn.
  { apply exists_row_true. exists cr. split; [done|]. by apply bool_decide_eq_true_2. }
  destruct (open_period base d c start (cb_limit_sat b) now Hwf Hconn ltac:(lia) Hl0)
    as (tp0 & p & -> & Htp0 & Hfp & Hused & Hlimit & Hpst & Hother & Hwf0).
  cbn [ok_or budget_periods set_budget_periods]. fold k in Hfp, Hused, Hlimit, Hother |- *.
  rewrite Hfp. cbn [ok_or]. rewrite Hlimit.
  destruct (limit_before k (cb_limit_sat b) d =? cb_limit_sat b) eqn:Elim; cbn [negb]; [|done].
  apply Z.eqb_eq in Elim.
  assert (0 <= bp_used_sat p <= i64_max) as Hu0.
  { split; [|by apply (aw_used_i64 base _ Hwf0 k p Hfp)].
    rewrite (aw_spent base _ Hwf0 k p Hfp). pose proof (aw_base base d Hwf k).
    pose proof (spend_nonneg base _ k Hwf0). lia. }
  rewrite pay_decode_u64_nonneg by lia. rewrite Hused in Hu0 |- *.
  assert (checked_add_u64 (used_before k d) (principal + fee)
    = Some (used_before k d + (principal + fee))) as ->.
  { apply checked_add_u64_Some. unfold u64_max, i64_max in *. lia. }
  cbn [ok_or].
  destruct (cb_limit_sat b <? used_before k d + (principal + fee)) eqn:Ebud; [done|].
  apply Z.ltb_ge in Ebud. rewrite (proj2 (pay_sqlite_u64_Ok (used_before k d + (principal + fee))
    (used_before k d + (principal + fee)))) by lia.
  destruct (set_period_used_one k (used_before k d + (principal + fee)) now (set_budget_periods tp0 d) p)
    as (tp & -> & Htp & Hfind); [done|done|lia|lia|].
  set (r := reservation_row e h c start principal fee now
    (default 0 (sql_max pa_reconciliation_sequence (payment_attempts d)) + 1)).
  assert (attempt_columns r) as Hcols by (apply reservation_columns; first [done|lia]).
  destruct (insert_reservation base (set_budget_periods tp0 d) p tp r now)
    as (Hins & Hwf' & Hfh'); try done.
  - simpl. lia.
  - cbn. rewrite Hused. lia.
  - intros k'. rewrite Hfind. cbn. by rewrite Hused.
  - cbn [payment_attempts set_budget_periods] in *. unfold r, reservation_row in Hins.
    change (set_budget_periods tp (set_budget_periods tp0 d)) with (set_budget_periods tp d) in *.
    rewrite Hins. cbn [ok_or]. eexists. split; [done|].
    split; cbn [payment_attempts budget_periods set_payment_attempts set_budget_periods]; try done.
    + intros k' Hk'. rewrite Hfind, bool_decide_false by done. by apply Hother.
    + eexists. rewrite Hfind, bool_decide_true by done. split; [done|]. cbn. split_and!; [congruence|lia|].
      change (pa_key r) with k. unfold used_before, limit_before in *.
      destruct (find_key bp_key k (budget_periods d)) as [p0|]; [done|lia].
Qed.

(** ** Lemmas: the reconciliation queue *)

(** [r'] is [r] up to its place in the queue. *)
Definition same_attempt (r r' : PaymentAttemptRow) : Prop :=
  pa_with_sequence 0 r' = pa_with_sequence 0 r /\ 0 <= pa_reconciliation_sequence r'.

Lemma same_attempt_refl r : attempt_columns r -> same_attempt r r.
Proof. intros H. split; [done|]. by apply ak_sequence. Qed.

Lemma same_attempt_trans r1 r2 r3 : same_attempt r1 r2 -> same_attempt r2 r3 -> same_attempt r1 r3.
Proof. intros [H1 _] [H2 H3]. split; congruence. Qed.

Lemma same_attempt_columns r r' : same_attempt r r' -> attempt_columns r -> attempt_columns r'.
Proof.
  intros [Heq Hs] [H1 H2 H3 H4 H5 H6 H7 H8 H9 H10 H11 H12 H13 H14 H15].
  unfold pa_with_sequence in Heq. injection Heq.
  intros E1 E2 E3 E4 E5 E6 E7 E8 E9 E10 E11 E12 E13 E14 E15 E16 E17.
  split; rewrite ?E1, ?E2, ?E3, ?E4, ?E5, ?E6, ?E7, ?E8, ?E9, ?E10, ?E11, ?E12, ?E13, ?E14, ?E15,
    ?E16, ?E17; done.
Qed.

Lemma same_attempt_fields r r' : same_attempt r r' ->
  pa_event_id r' = pa_event_id r /\ pa_payment_hash r' = pa_payment_hash r
  /\ pa_key r' = pa_key r /\ contribution r' = contribution r
  /\ pa_connection_id r' = pa_connection_id r /\ unresolved r' = unresolved r
  /\ attempt_of r' = attempt_of r /\ pa_state r' = pa_state r.
Proof.
  intros [Heq _]. unfold pa_with_sequence in Heq. injection Heq.
  intros E1 E2 E3 E4 E5 E6 E7 E8 E9 E10 E11 E12 E13 E14 E15 E16 E17.
  unfold pa_key, contribution, unresolved, attempt_of.
  rewrite ?E1, ?E2, ?E3, ?E4, ?E5, ?E6, ?E7, ?E8, ?E9, ?E10, ?E11, ?E12, ?E13, ?E14, ?E15, ?E16, ?E17.
  done.
Qed.

Lemma resequenced_wf base d (g : PaymentAttemptRow -> PaymentAttemptRow) :
  accounting_wf base d -> (forall r, r ∈ payment_attempts d -> same_attempt r (g r)) ->
  accounting_wf base (set_payment_attempts (g <$> payment_attempts d) d).
Proof.
  intros Hwf Hg. pose proof Hwf as [H1 [H2 [H3 H4]] H5 H6 H7 H8 H9 H10 H11].
  assert (forall K (key : PaymentAttemptRow -> K),
    (forall r, r ∈ payment_attempts d -> key (g r) = key r) ->
    key <$> (g <$> payment_attempts d) = key <$> payment_attempts d) as Hkey.
  { intros K key Hk. rewrite <- list_fmap_compose. apply list_fmap_ext. intros i r Hr.
    apply list_elem_of_lookup_2 in Hr. simpl. auto. }
  assert (forall x, x ∈ g <$> payment_attempts d ->
    exists r, r ∈ payment_attempts d /\ same_attempt r x) as Hel.
  { intros x (r & -> & Hr)%list_elem_of_fmap. eauto. }
  split; cbn [payment_attempts budget_periods set_payment_attempts]; try done.
  - split_and!.
    + apply Forall_forall. intros x (r & Hr & Hs)%Hel. apply payment_attempt_check_spec.
      eapply same_attempt_columns; [exact Hs|]. by apply (attempt_row base d r Hwf).
    + rewrite Hkey; [done|]. intros r Hr. by apply same_attempt_fields, Hg.
    + rewrite Hkey; [done|]. intros r Hr. by apply same_attempt_fields, Hg.
  - intros x (r & Hr & Hs)%Hel. destruct (same_attempt_fields r x Hs) as (_ & _ & -> & _). auto.
  - intros x (r & Hr & Hs)%Hel. destruct (same_attempt_fields r x Hs) as (_ & _ & _ & _ & -> & _). auto.
  - intros x (r & Hr & Hs)%Hel. destruct (same_attempt_fields r x Hs) as (_ & _ & Hk & _).
    unfold pa_key in Hk. injection Hk as _ ->. auto.
  - intros k p Hp. rewrite (H9 k p Hp). f_equal. unfold period_spend. cbn.
    assert (forall l, (forall r, r ∈ l -> same_attempt r (g r)) ->
      Zsum (counted k) l = Zsum (counted k) (g <$> l)) as Hsum; [|by apply Hsum].
    intros l. induction l as [|r l IH]; intros Hl; [done|]. csimpl.
    rewrite IH by (intros; apply Hl; by apply list_elem_of_further). f_equal.
    destruct (same_attempt_fields r (g r) (Hl r (list_elem_of_here _ _))) as (_ & _ & Hk & Hc & _).
    unfold counted. by rewrite Hk, Hc.
Qed.

Lemma update_sequence_total base (p : PaymentAttemptRow -> bool) s d :
  accounting_wf base d -> 0 <= s ->
  let g := fun r => if p r then pa_with_sequence s r else r in
  update_attempts p (pa_with_sequence s) d = Ok (set_payment_attempts (g <$> payment_attempts d) d)
  /\ forall r, r ∈ payment_attempts d -> same_attempt r (g r).
Proof.
  intros Hwf Hs g.
  assert (forall r, r ∈ payment_attempts d -> same_attempt r (g r)) as Hg.
  { intros r Hr. unfold g. destruct (p r); [by split|].
    apply same_attempt_refl. by apply (attempt_row base d r Hwf). }
  split; [|done]. unfold update_attempts, update_where.
  replace (forallb _ _) with true; [done|]. symmetry. apply forallb_forall.
  intros r Hr. apply list_elem_of_In, elem_of_select in Hr as [Hr Hp].
  apply payment_attempt_check_spec. apply (same_attempt_columns r).
  - specialize (Hg r Hr). unfold g in Hg. by rewrite Hp in Hg.
  - by apply (attempt_row base d r Hwf).
Qed.

(** What the requeue loop writes to a row. *)
Fixpoint assigned (position maximum : Z) (attempts : list PaymentAttempt) (r : PaymentAttemptRow)
  : PaymentAttemptRow :=
  match attempts with
  | [] => r
  | a :: rest =>
      assigned (position + 1) maximum rest
        (if hash_is (at_payment_hash a) r && text_in (pa_state r) ["reserved"; "pending"]
         then pa_with_sequence (maximum + (position + 1)) r else r)
  end.

Lemma requeue_total base attempts : forall position maximum d,
  accounting_wf base d -> 0 <= position -> 0 <= maximum ->
  maximum + position + Z.of_nat (length attempts) <= i64_max ->
  requeue position maximum attempts d
    = Ok (set_payment_attempts (assigned position maximum attempts <$> payment_attempts d) d)
  /\ forall r, r ∈ payment_attempts d -> same_attempt r (assigned position maximum attempts r).
Proof.
  induction attempts as [|a rest IH]; intros position maximum d Hwf Hp Hm Hb; simpl.
  - split; [rewrite list_fmap_id; by destruct d|].
    intros r Hr. apply same_attempt_refl. by apply (attempt_row base d r Hwf).
  - simpl in Hb. unfold checked_add_i64.
    rewrite (proj2 (Z.leb_le (maximum + (position + 1)) i64_max)) by lia. cbn [ok_or].
    set (p := fun r => hash_is (at_payment_hash a) r && text_in (pa_state r) ["reserved"; "pending"]).
    destruct (update_sequence_total base p (maximum + (position + 1)) d Hwf ltac:(lia)) as [-> Hg].
    set (g := fun r => if p r then pa_with_sequence (maximum + (position + 1)) r else r) in *.
    pose proof (resequenced_wf base d g Hwf Hg) as Hwf'.
    destruct (IH (position + 1) maximum _ Hwf' ltac:(lia) Hm ltac:(lia)) as [-> Hs].
    cbn [payment_attempts set_payment_attempts] in *. split.
    + rewrite <- list_fmap_compose. done.
    + intros r Hr. eapply same_attempt_trans; [by apply Hg|]. apply Hs. by apply (list_elem_of_fmap_2 g).
Qed.

(** Rows outside the batch keep their place; rows of the batch go past [maximum]. *)
Lemma assigned_other attempts : forall position maximum r,
  (forall a, a ∈ attempts -> at_payment_hash a <> pa_payment_hash r) ->
  assigned position maximum attempts r = r.
Proof.
  induction attempts as [|a rest IH]; intros position maximum r Hno; simpl; [done|].
  assert (hash_is (at_payment_hash a) r = false) as ->.
  { apply bool_decide_eq_false_2. intros Heq. by apply (Hno a (list_elem_of_here _ _)). }
  apply IH. intros b Hb. by apply Hno, list_elem_of_further.
Qed.

Lemma assigned_ge attempts : forall position maximum r,
  pa_reconciliation_sequence r <= pa_reconciliation_sequence (assigned position maximum attempts r)
  \/ maximum + (position + 1) <= pa_reconciliation_sequence (assigned position maximum attempts r).
Proof.
  induction attempts as [|a rest IH]; intros position maximum r; simpl; [left; lia|].
  destruct (_ && _).
  - destruct (IH (position + 1) maximum (pa_with_sequence (maximum + (position + 1)) r)) as [H|H];
      simpl in H; right; lia.
  - destruct (IH (position + 1) maximum r) as [H|H]; [by left|right; lia].
Qed.

Lemma assigned_in attempts : forall position maximum r,
  (exists a, a ∈ attempts /\ at_payment_hash a = pa_payment_hash r) ->
  text_in (pa_state r) ["reserved"; "pending"] = true ->
  maximum + (position + 1) <= pa_reconciliation_sequence (assigned position maximum attempts r).
Proof.
  induction attempts as [|a rest IH]; intros position maximum r (x & Hx & Hh) Hs;
    [by apply elem_of_nil in Hx|]. simpl.
  destruct (hash_is (at_payment_hash a) r) eqn:E.
  - rewrite Hs. simpl.
    destruct (assigned_ge rest (position + 1) maximum (pa_with_sequence (maximum + (position + 1)) r))
      as [H|H]; simpl in H; lia.
  - simpl. apply elem_of_cons in Hx as [->|Hx].
    + by rewrite (hash_is_refl r (at_payment_hash a)) in E.
    + specialize (IH (position + 1) maximum r ltac:(eauto) Hs). lia.
Qed.

Lemma collect_hydrate base d rows :
  accounting_wf base d -> (forall r, r ∈ rows -> r ∈ payment_attempts d) ->
  collect_results hydrate_attempt rows = Ok (attempt_of <$> rows).
Proof.
  intros Hwf Hsub. rewrite <- (list_fmap_id rows) at 1. apply collect_results_map.
  intros r Hr. by apply (attempt_row base d r Hwf), Hsub.
Qed.

(** The queue order: oldest sequence first, then event id. *)
Definition queue_order (a b : PaymentAttemptRow) : comparison :=
  then_cmp (pa_reconciliation_sequence a ?= pa_reconciliation_sequence b)
    (memcmp (pa_event_id a) (pa_event_id b)).

Definition queue_maximum (d : Database) : Z :=
  default 0 (sql_max pa_reconciliation_sequence (select unresolved (payment_attempts d))).

(** The queue a pass reads: restarted from 0 when the numbers would run out. *)
Definition queue_start (batch : Z) (d : Database) : Z * Database :=
  if i64_max - batch <? queue_maximum d
  then (0, set_payment_attempts
             ((fun r => if unresolved r then pa_with_sequence 0 r else r) <$> payment_attempts d) d)
  else (queue_maximum d, d).

Lemma queue_maximum_bounds base d : accounting_wf base d ->
  0 <= queue_maximum d
  /\ forall r, r ∈ payment_attempts d -> unresolved r = true ->
       pa_reconciliation_sequence r <= queue_maximum d.
Proof.
  intros Hwf. unfold queue_maximum. destruct (sql_max _ _) as [m|] eqn:E; simpl.
  - apply sql_max_Some in E as [(r & Hr & <-) Hmax]. apply elem_of_select in Hr as [Hr _]. split.
    + destruct (attempt_row base d r Hwf Hr) as [Hc _]. by apply ak_sequence.
    + intros r' Hr' Hu. apply Hmax. by apply elem_of_select.
  - split; [lia|]. intros r Hr Hu. apply sql_max_None in E.
    assert (r ∈ select unresolved (payment_attempts d)) as Hin by (by apply elem_of_select).
    rewrite E in Hin. by apply elem_of_nil in Hin.
Qed.

Lemma queue_start_spec base batch d :
  accounting_wf base d -> 0 <= batch < i64_max ->
  let '(maximum, d0) := queue_start batch d in
  accounting_wf base d0 /\ 0 <= maximum /\ maximum + batch <= i64_max
  /\ (exists g, d0 = set_payment_attempts (g <$> payment_attempts d) d
        /\ forall r, r ∈ payment_attempts d -> same_attempt r (g r))
  /\ (forall r, r ∈ payment_attempts d0 -> unresolved r = true ->
       pa_reconciliation_sequence r <= maximum)
  /\ (let? (maximum, d) :=
        if i64_max - batch <? queue_maximum d then
          let? d := update_attempts unresolved (pa_with_sequence 0) d in Ok (0, d)
        else Ok (queue_maximum d, d) in Ok (maximum, d)) = Ok (maximum, d0).
Proof.
  intros Hwf Hb. unfold queue_start. destruct (queue_maximum_bounds base d Hwf) as [H0 Hmax].
  destruct (i64_max - batch <? queue_maximum d) eqn:E.
  - destruct (update_sequence_total base unresolved 0 d Hwf ltac:(lia)) as [-> Hg].
    split_and!; [by apply resequenced_wf|lia|lia|eauto| |done].
    intros r. cbn [payment_attempts set_payment_attempts].
    intros (x & -> & Hx)%list_elem_of_fmap. intros Hu. destruct (unresolved x) eqn:Ex; [done|congruence].
  - apply Z.ltb_ge in E. split_and!; [done|lia|lia| |done|done].
    exists id. split; [rewrite list_fmap_id; by destruct d|].
    intros r Hr. apply same_attempt_refl. by apply (attempt_row base d r Hwf).
Qed.

Lemma load_unresolved_tx base batch d :
  accounting_wf base d -> 0 <= batch < i64_max ->
  let '(maximum, d0) := queue_start batch d in
  let rows := limit (batch + 1) (order_by queue_order (select unresolved (payment_attempts d0))) in
  let attempts := take (Z.to_nat batch) (attempt_of <$> rows) in
  load_unresolved_payment_attempts batch d
  = Ok (attempts, batch <? Z.of_nat (length rows),
        set_payment_attempts (assigned 0 maximum attempts <$> payment_attempts d0) d0)
  /\ forall r, r ∈ payment_attempts d0 -> same_attempt r (assigned 0 maximum attempts r).
Proof.
  intros Hwf Hb. pose proof (queue_start_spec base batch d Hwf Hb) as Hq.
  destruct (queue_start batch d) as [maximum d0]. destruct Hq as (Hwf0 & Hm & Hmb & _ & _ & Hstart).
  unfold load_unresolved_payment_attempts. fold (queue_maximum d).
  assert (checked_add_u64 batch 1 ≫= i64_try_from = Some (batch + 1)) as ->.
  { unfold checked_add_u64. rewrite (proj2 (Z.leb_le (batch + 1) u64_max))
      by (unfold u64_max, i64_max in *; lia).
    simpl. apply i64_try_from_Some. lia. }
  assert (i64_try_from batch = Some batch) as -> by (apply i64_try_from_Some; lia).
  cbn [ok_or].
  match type of Hstart with (let? _ := ?x in _) = _ => destruct x as [[mx dx]|] eqn:Ex; [|done] end.
  injection Hstart as -> ->.
  set (rows := limit (batch + 1) (order_by queue_order (select unresolved (payment_attempts d0)))).
  fold queue_order. fold rows.
  rewrite (collect_hydrate base d0 rows) by
    (first [done|intros r Hr; apply elem_of_order_limit, elem_of_select in Hr; tauto]).
  rewrite length_fmap. set (attempts := take (Z.to_nat batch) (attempt_of <$> rows)).
  assert (Z.of_nat (length attempts) <= batch) as Hlen by (unfold attempts; rewrite length_take; lia).
  destruct (requeue_total base attempts 0 maximum d0 Hwf0 ltac:(lia) Hm ltac:(lia)) as [-> Hsame].
  done.
Qed.

Lemma load_unresolved_wf base batch d attempts more d' :
  accounting_wf base d -> 0 <= batch < i64_max ->
  load_unresolved_payment_attempts batch d = Ok (attempts, more, d') ->
  accounting_wf base d' /\ exists g, d' = set_payment_attempts (g <$> payment_attempts d) d
    /\ forall r, r ∈ payment_attempts d -> same_attempt r (g r).
Proof.
  intros Hwf Hb H. pose proof (load_unresolved_tx base batch d Hwf Hb) as Ht.
  pose proof (queue_start_spec base batch d Hwf Hb) as Hq.
  destruct (queue_start batch d) as [maximum d0]. destruct Hq as (Hwf0 & _ & _ & (g & Hd0 & Hg) & _ & _).
  destruct Ht as [Heq Hs]. rewrite H in Heq. injection Heq as -> _ ->.
  set (attempts := take (Z.to_nat batch) _) in *. set (f := assigned 0 maximum attempts) in *.
  split; [by apply resequenced_wf|]. exists (f ∘ g). subst d0.
  cbn [payment_attempts set_payment_attempts] in *. split.
  - rewrite list_fmap_compose. done.
  - intros r Hr. eapply same_attempt_trans; [by apply Hg|]. apply Hs. by apply list_elem_of_fmap_2.
Qed.

(** ** Steps

    The accounting transactions, by the host and by any process of the library,
    in any order. *)
Inductive accounting_step : Database -> Database -> Prop :=
| step_reserve e h c principal now o d d' :
    length e = 32%nat -> length h = 32%nat -> ConnectionId_parse (ac_id c) = Ok (ac_id c) ->
    u64 principal -> u64 now -> 0 <= ac_revision c ->
    reserve_payment e h c principal now d = Ok (o, d') -> accounting_step d d'
| step_initiated h now a d d' :
    u64 now -> mark_payment_initiated h now d = Ok (a, d') -> accounting_step d d'
| step_pending h now a d d' :
    u64 now -> mark_payment_pending h now d = Ok (a, d') -> accounting_step d d'
| step_failed h now a d d' :
    u64 now -> mark_payment_failed h now d = Ok (a, d') -> accounting_step d d'
| step_succeeded h principal fee now a d d' :
    u64 principal -> u64 fee -> u64 now ->
    mark_payment_succeeded h principal fee now d = Ok (a, d') -> accounting_step d d'
| step_release h now d d' :
    u64 now -> release_uninitiated_payment h now d = Ok (tt, d') -> accounting_step d d'
| step_load_unresolved batch attempts more d d' :
    0 <= batch < i64_max ->
    load_unresolved_payment_attempts batch d = Ok (attempts, more, d') -> accounting_step d d'.

(** What an attempt was reserved for. *)
Definition pa_terms (r : PaymentAttemptRow) : list Z * (string * Z) * Z * Z * Z :=
  (pa_event_id r, pa_key r, pa_connection_revision r, pa_principal_sat r, pa_fee_reserve_sat r).

(** What one accounting transaction may do to one attempt. *)
Definition attempt_evolves (r : option PaymentAttemptRow) (r' : option PaymentAttemptRow) : Prop :=
  match r, r' with
  | None, None => True
  | None, Some x' => pa_state x' = "reserved" /\ pa_initiated_at x' = None
  | Some x, None => pa_state x = "reserved" /\ pa_initiated_at x = None
  | Some x, Some x' =>
      pa_terms x' = pa_terms x /\ pa_reserved_sat x' = pa_reserved_sat x
      /\ (pa_initiated_at x <> None -> pa_initiated_at x' = pa_initiated_at x)
      /\ (pa_state x' = pa_state x /\ pa_charged_sat x' = pa_charged_sat x
          \/ pa_initiated_at x <> None /\
             (pa_state x = "reserved" /\ pa_state x' = "pending"
              \/ (pa_state x = "reserved" \/ pa_state x = "pending") /\ pa_state x' = "failed"
              \/ pa_state x <> "succeeded" /\ pa_state x' = "succeeded"))
  end.

Lemma attempt_evolves_refl o : attempt_evolves o o.
Proof. destruct o as [x|]; simpl; [|done]. split_and!; auto. Qed.

(** A settlement that may take a counter past its limit: the wallet reports
    more than was reserved, or settles a payment already refunded as failed. *)
Definition overrun (r : PaymentAttemptRow) (o : option PaymentAttemptRow) : Prop :=
  exists x, o = Some x /\ pa_state x = "succeeded"
    /\ (pa_state r = "failed" \/ pa_authorization_exceeded x = true).

Definition overruns (k : string * Z) (d d' : Database) : Prop :=
  exists h r, find_key pa_payment_hash h (payment_attempts d) = Some r /\ pa_key r = k
    /\ overrun r (find_key pa_payment_hash h (payment_attempts d')).

(** A counter may only grow within its limit, or by an overrun. *)
Definition spend_bounded (d d' : Database) : Prop :=
  forall k p', find_key bp_key k (budget_periods d') = Some p' ->
    bp_used_sat p' <= bp_limit_sat p'
    \/ (exists p, find_key bp_key k (budget_periods d) = Some p
          /\ bp_limit_sat p' = bp_limit_sat p /\ bp_used_sat p' <= bp_used_sat p)
    \/ overruns k d d'.

(** One transaction keeps the books with the same imported base, evolves every
    attempt within its lifecycle, and bounds what is spent. *)
Definition step_effect (base : string * Z -> Z) (d d' : Database) : Prop :=
  accounting_wf base d'
  /\ d' = set_payment_attempts (payment_attempts d') (set_budget_periods (budget_periods d') d)
  /\ (forall h, attempt_evolves (find_key pa_payment_hash h (payment_attempts d))
                  (find_key pa_payment_hash h (payment_attempts d')))
  /\ spend_bounded d d'.

Lemma spend_bounded_same d d' : budget_periods d' = budget_periods d -> spend_bounded d d'.
Proof. intros Heq k p' H. right. left. exists p'. rewrite Heq in H. split_and!; done. Qed.

Lemma step_effect_same base d : accounting_wf base d -> step_effect base d d.
Proof.
  intros. split_and!; [done|by destruct d| |by apply spend_bounded_same].
  intros h. apply attempt_evolves_refl.
Qed.

Lemma replaced_effect base r o d d' :
  replaced base r o d d' -> r ∈ payment_attempts d -> accounting_wf base d ->
  attempt_evolves (Some r) o -> contribution_of o <= contribution r \/ overrun r o ->
  step_effect base d d'.
Proof.
  intros [H1 H2 H3 H4] Hr Hwf He Hov.
  assert (find_key pa_payment_hash (pa_payment_hash r) (payment_attempts d) = Some r) as Hf.
  { destruct (aw_attempts base d Hwf) as [_ [_ Hnd]]. by apply find_key_unique. }
  split_and!; [done..| |].
  - intros h. rewrite H2. case_bool_decide as Hh; [|apply attempt_evolves_refl].
    subst h. by rewrite Hf.
  - intros k p' Hp'. destruct (H3 k p' Hp') as (p & Hp & Hl & Hu). right.
    case_bool_decide as Hk; [|left; exists p; split_and!; [done..|lia]]. subst k.
    destruct Hov as [Hle|Hov]; [left; exists p; split_and!; [done..|lia]|].
    right. exists (pa_payment_hash r), r. split_and!; [done..|]. by rewrite H2, bool_decide_true.
Qed.

Lemma initiated_some r : was_initiated (attempt_of r) = true -> pa_initiated_at r <> None.
Proof. unfold was_initiated. simpl. by destruct (pa_initiated_at r). Qed.

Lemma initiated_none r : was_initiated (attempt_of r) = false -> pa_initiated_at r = None.
Proof. unfold was_initiated. simpl. by destruct (pa_initiated_at r). Qed.

Lemma now_of_run now : u64 now -> now <= i64_max -> 0 <= now <= i64_max.
Proof. intros [? _]. lia. Qed.

(** A committed reservation passed every range check. *)
Lemma reserve_run e h c principal now d o d' base :
  accounting_wf base d -> 0 <= principal ->
  reserve_payment e h c principal now d = Ok (o, d') ->
  d' = d /\ match o with
            | Outcome_Reserved _ => False
            | Outcome_Existing a => exists r, r ∈ payment_attempts d /\ a = attempt_of r
                /\ pa_event_id r = e /\ pa_connection_id r = ac_id c
                /\ pa_connection_revision r = ac_revision c
            | Outcome_AlreadyTracked _ => True
            end
  \/ exists b start, load_connection_budget d c (ac_revision c) now = Ok b
    /\ period_start b now = Ok start /\ 0 < principal <= i64_max /\ now <= i64_max
    /\ ac_revision c <= i64_max /\ cb_limit_sat b <= i64_max /\ cb_fee_reserve_sat b <= i64_max
    /\ find_key pa_event_id e (payment_attempts d) = None
    /\ find_key pa_payment_hash h (payment_attempts d) = None.
Proof.
  intros Hwf Hp0 H. unfold reserve_payment in H.
  destruct (principal =? 0) eqn:E0; [done|]. apply Z.eqb_neq in E0.
  destruct (pay_sqlite_u64 now) as [now'|] eqn:E1; [|done]. apply pay_sqlite_u64_Ok in E1 as [-> Hnow].
  destruct (pay_sqlite_u64 (ac_revision c)) as [rev|] eqn:E2; [|done].
  apply pay_sqlite_u64_Ok in E2 as [-> Hrev].
  destruct (pay_sqlite_u64 principal) as [p'|] eqn:E3; [|done]. apply pay_sqlite_u64_Ok in E3 as [-> Hp].
  destruct (load_connection_budget d c (ac_revision c) now) as [b|] eqn:Hb; [|done].
  destruct (period_start b now) as [start|] eqn:Hs; [|done].
  rewrite (load_by_event base), (load_by_hash base) in H by done.
  destruct (find_key pa_event_id e (payment_attempts d)) as [r|] eqn:Hfe;
    cbn [fmap option_fmap option_map] in H.
  { left. destruct (_ && _ && _ && _) eqn:E; [|done]. injection H as <- <-. split; [done|].
    bool_to_prop. apply find_key_Some in Hfe as [Hin Hev]. by exists r. }
  destruct (find_key pa_payment_hash h (payment_attempts d)) as [r|] eqn:Hfh.
  { left. by injection H as <- <-. }
  destruct (pay_sqlite_u64 start) as [st|] eqn:E4; [|done].
  destruct (pay_sqlite_u64 (cb_limit_sat b)) as [lm|] eqn:E5; [|done].
  apply pay_sqlite_u64_Ok in E5 as [-> Hl].
  destruct (pay_sqlite_u64 (cb_fee_reserve_sat b)) as [fe|] eqn:E6; [|done].
  apply pay_sqlite_u64_Ok in E6 as [-> Hf].
  right. exists b, start. split_and!; try done; lia.
Qed.

Lemma reserved_new_effect base limit r d d' :
  reserved_new base limit r d d' -> find_key pa_payment_hash (pa_payment_hash r) (payment_attempts d) = None ->
  pa_state r = "reserved" -> pa_initiated_at r = None -> step_effect base d d'.
Proof.
  intros [H1 H2 H3 H4 H5] Hnone Hs Hi. split_and!; [done..| |].
  - intros h. rewrite H2.
    case_bool_decide as Hh; [|apply attempt_evolves_refl]. subst h. by rewrite Hnone.
  - intros k p' Hp'. destruct (decide (k = pa_key r)) as [->|Hk].
    + destruct H4 as (p0 & Hp0 & Hl & Hu & _). left. rewrite Hp' in Hp0. injection Hp0 as <-. lia.
    + rewrite (H3 k Hk) in Hp'. right. left. exists p'. split_and!; done.
Qed.

Lemma reserve_effect base e h c principal now o d d' :
  accounting_wf base d -> length e = 32%nat -> length h = 32%nat ->
  ConnectionId_parse (ac_id c) = Ok (ac_id c) -> u64 principal -> u64 now -> 0 <= ac_revision c ->
  reserve_payment e h c principal now d = Ok (o, d') -> step_effect base d d'.
Proof.
  intros Hwf He Hh Hid [Hp _] [Hn _] Hr H.
  destruct (reserve_run e h c principal now d o d' base Hwf Hp H)
    as [[-> _]|(b & start & Hb & Hs & Hp' & Hn' & Hr' & Hl & Hf & Hfe & Hfh)]; [by apply step_effect_same|].
  pose proof (reserve_tx base d e h c principal now b start Hwf Hp' ltac:(lia) ltac:(lia) He Hh Hid Hb Hs Hl Hf)
    as Ht.
  unfold reserve_spec in Ht. rewrite Hfe, Hfh, H in Ht. cbv zeta in Ht.
  destruct (_ || _); [done|]. destruct (negb _); [done|]. destruct (_ <? _); [done|].
  destruct Ht as (d0 & Heq & Hnew). injection Heq as _ <-.
  by eapply reserved_new_effect.
Qed.

(** A settlement within what was reserved counts no more than the reservation. *)
Lemma settlement_bounded r c principal fee now :
  attempt_columns r -> state_of (pa_state r) <> State_Succeeded ->
  let count_fees := bool_decide (cn_fee_policy c = "count") in
  let x := pa_with_settlement principal fee (settlement_charge count_fees principal fee)
             (settlement_exceeds count_fees r principal fee) now r in
  contribution x <= contribution r \/ overrun r (Some x).
Proof.
  intros Hc Hs count_fees x.
  destruct (decide (state_of (pa_state r) = State_Failed)) as [Hf|Hf].
  { right. exists x. split_and!; [done..|]. left. by rewrite (ak_state r Hc), Hf. }
  destruct (settlement_exceeds count_fees r principal fee) eqn:He.
  { right. exists x. split_and!; [done..|]. right. reflexivity. }
  left. unfold x. change (contribution (pa_with_settlement _ _ _ _ _ _))
    with (settlement_charge count_fees principal fee).
  assert (contribution r = pa_principal_sat r + pa_fee_reserve_sat r) as ->.
  { rewrite (open_contribution r _ Hc eq_refl); [done|]. destruct (state_of (pa_state r)); auto; done. }
  unfold settlement_exceeds in He. apply orb_false_elim in He as [He1 He2].
  apply Z.ltb_ge in He1. pose proof (ak_fee r Hc). unfold settlement_charge.
  destruct count_fees; simpl in He2; [apply Z.ltb_ge in He2|]; lia.
Qed.

(** *** Committed transactions *)

Lemma committed_now {A} (f : Z -> Result PaymentAccountingError A) now a :
  (let? n := pay_sqlite_u64 now in f n) = Ok a -> now <= i64_max.
Proof. destruct (pay_sqlite_u64 now) eqn:E; [|done]. by apply pay_sqlite_u64_Ok in E as [_ ?]. Qed.

Lemma initiated_run base h now a d d' :
  accounting_wf base d -> u64 now -> mark_payment_initiated h now d = Ok (a, d') ->
  exists r, find_key pa_payment_hash h (payment_attempts d) = Some r
    /\ (pa_initiated_at r <> None /\ d' = d
        \/ pa_initiated_at r = None /\ replaced base r (Some (pa_with_initiated now r)) d d').
Proof.
  intros Hwf Hn H. pose proof (committed_now _ _ _ H) as Hn'.
  pose proof (mark_initiated_tx base d h now Hwf (now_of_run now Hn Hn')) as Ht.
  destruct (find_key pa_payment_hash h (payment_attempts d)) as [r|]; [|congruence].
  exists r. split; [done|]. destruct (now <? pa_updated_at r); [congruence|].
  destruct (was_initiated (attempt_of r)) eqn:Hi.
  { rewrite H in Ht. injection Ht as _ <-. left. split; [by apply initiated_some|done]. }
  destruct (negb _); [congruence|]. destruct Ht as (d0 & Heq & Hrep). rewrite H in Heq.
  injection Heq as _ <-. right. split; [by apply initiated_none|done].
Qed.

Lemma pending_run base h now a d d' :
  accounting_wf base d -> u64 now -> mark_payment_pending h now d = Ok (a, d') ->
  exists r, find_key pa_payment_hash h (payment_attempts d) = Some r /\ pa_initiated_at r <> None
    /\ (d' = d \/ state_of (pa_state r) = State_Reserved
                  /\ replaced base r (Some (pa_with_state "pending" now r)) d d').
Proof.
  intros Hwf Hn H. pose proof (committed_now _ _ _ H) as Hn'.
  pose proof (pending_tx base d h now Hwf (now_of_run now Hn Hn')) as Ht.
  destruct (find_key pa_payment_hash h (payment_attempts d)) as [r|]; [|congruence].
  exists r. split; [done|]. destruct (now <? pa_updated_at r); [congruence|].
  destruct (was_initiated (attempt_of r)) eqn:Hi; cbn [negb] in Ht; [|congruence].
  split; [by apply initiated_some|]. destruct (state_of (pa_state r)); try congruence.
  - destruct Ht as (d0 & Heq & Hrep). rewrite H in Heq. injection Heq as _ <-. auto.
  - rewrite H in Ht. injection Ht as _ <-. by left.
Qed.

Lemma failed_run base h now a d d' :
  accounting_wf base d -> u64 now -> mark_payment_failed h now d = Ok (a, d') ->
  exists r, find_key pa_payment_hash h (payment_attempts d) = Some r /\ pa_initiated_at r <> None
    /\ (state_of (pa_state r) = State_Failed /\ d' = d
        \/ (state_of (pa_state r) = State_Reserved \/ state_of (pa_state r) = State_Pending)
           /\ replaced base r (Some (pa_with_state "failed" now r)) d d').
Proof.
  intros Hwf Hn H. pose proof (committed_now _ _ _ H) as Hn'.
  pose proof (failed_tx base d h now Hwf (now_of_run now Hn Hn')) as Ht.
  destruct (find_key pa_payment_hash h (payment_attempts d)) as [r|]; [|congruence].
  exists r. split; [done|]. destruct (now <? pa_updated_at r); [congruence|].
  destruct (was_initiated (attempt_of r)) eqn:Hi; cbn [negb] in Ht; [|congruence].
  split; [by apply initiated_some|]. destruct (state_of (pa_state r)); try congruence.
  1,2: destruct Ht as (d0 & Heq & Hrep); rewrite H in Heq; injection Heq as _ <-; auto.
  rewrite H in Ht. injection Ht as _ <-. by left.
Qed.

Lemma succeeded_run base h ap af now a d d' :
  accounting_wf base d -> u64 ap -> u64 af -> u64 now ->
  mark_payment_succeeded h ap af now d = Ok (a, d') ->
  exists r, find_key pa_payment_hash h (payment_attempts d) = Some r /\ pa_initiated_at r <> None
    /\ (state_of (pa_state r) = State_Succeeded /\ d' = d
        \/ state_of (pa_state r) <> State_Succeeded /\ exists c principal fee,
             let count_fees := bool_decide (cn_fee_policy c = "count") in
             replaced base r (Some (pa_with_settlement principal fee
               (settlement_charge count_fees principal fee)
               (settlement_exceeds count_fees r principal fee) now r)) d d').
Proof.
  intros Hwf [Hap _] [Haf _] Hn H. pose proof H as H0. unfold mark_payment_succeeded in H0.
  destruct (msat_to_sat_ceil ap) as [principal|] eqn:Ep; [|done].
  destruct (msat_to_sat_ceil af) as [fee|] eqn:Ef; [|done].
  pose proof (committed_now _ _ _ H0) as Hn'.
  destruct (pay_sqlite_u64 now) as [nw|]; [|done].
  destruct (pay_sqlite_u64 principal) as [ps|] eqn:Ep'; [|done]. apply pay_sqlite_u64_Ok in Ep' as [-> Hp64].
  destruct (pay_sqlite_u64 fee) as [fs|] eqn:Ef'; [|done]. apply pay_sqlite_u64_Ok in Ef' as [-> Hf64].
  clear H0.
  pose proof (succeeded_tx base d h ap af principal fee now Hwf (now_of_run now Hn Hn')
    Hap Haf Ep Ef Hp64 Hf64) as Ht.
  destruct (find_key pa_payment_hash h (payment_attempts d)) as [r|]; [|congruence].
  exists r. split; [done|]. destruct (now <? pa_updated_at r); [congruence|].
  destruct (was_initiated (attempt_of r)) eqn:Hi; cbn [negb] in Ht; [|congruence].
  split; [by apply initiated_some|].
  destruct (bool_decide (state_of (pa_state r) = State_Succeeded)) eqn:Hs.
  { apply bool_decide_eq_true_1 in Hs. rewrite H in Ht. destruct (_ && _); [|done].
    injection Ht as _ ->. by left. }
  apply bool_decide_eq_false_1 in Hs. right. split; [done|].
  destruct (find_key cn_id (pa_connection_id r) (connections d)) as [c|]; [|congruence].
  destruct Ht as (p & Hp & Ht). destruct (_ <=? i64_max).
  - destruct Ht as (d0 & Heq & Hrep). rewrite H in Heq. injection Heq as _ <-. by exists c, principal, fee.
  - by rewrite H in Ht.
Qed.

Lemma release_run base h now d d' :
  accounting_wf base d -> u64 now -> release_uninitiated_payment h now d = Ok (tt, d') ->
  exists r, find_key pa_payment_hash h (payment_attempts d) = Some r /\ pa_initiated_at r = None
    /\ state_of (pa_state r) = State_Reserved /\ replaced base r None d d'.
Proof.
  intros Hwf Hn H. pose proof (committed_now _ _ _ H) as Hn'.
  pose proof (release_tx base d h now Hwf (now_of_run now Hn Hn')) as Ht.
  destruct (find_key pa_payment_hash h (payment_attempts d)) as [r|]; [|congruence].
  exists r. split; [done|]. destruct (now <? pa_updated_at r); [congruence|].
  destruct (_ || was_initiated (attempt_of r)) eqn:Hs; [congruence|].
  destruct Ht as (d0 & Heq & Hrep). rewrite H in Heq. injection Heq as <-.
  apply orb_false_elim in Hs as [Hs Hi]. apply negb_false_iff, bool_decide_eq_true_1 in Hs.
  split_and!; [by apply initiated_none|done|done].
Qed.

(** *** Their effects *)

Lemma failed_effect base h now r d d' :
  accounting_wf base d -> find_key pa_payment_hash h (payment_attempts d) = Some r ->
  pa_initiated_at r <> None ->
  state_of (pa_state r) = State_Reserved \/ state_of (pa_state r) = State_Pending ->
  replaced base r (Some (pa_with_state "failed" now r)) d d' -> step_effect base d d'.
Proof.
  intros Hwf [Hr _]%find_key_Some Hi Ho Hrep. destruct (attempt_row base d r Hwf Hr) as [Hc _].
  apply (replaced_effect base _ _ _ _ Hrep Hr Hwf); simpl.
  - split_and!; try done. right. split; [done|]. right. left.
    rewrite (ak_state r Hc). destruct Ho as [-> | ->]; auto.
  - left. unfold contribution at 1. cbn. pose proof (ak_settled r Hc) as H15.
    rewrite bool_decide_false in H15 by (destruct Ho; congruence).
    destruct H15 as (_ & _ & -> & _). by apply contribution_nonneg.
Qed.

Lemma find_key_resequenced (g : PaymentAttemptRow -> PaymentAttemptRow) h l :
  (forall r, r ∈ l -> same_attempt r (g r)) ->
  find_key pa_payment_hash h (g <$> l) = g <$> find_key pa_payment_hash h l.
Proof.
  induction l as [|r l IH]; intros Hl; [done|]. rewrite fmap_cons, !find_key_cons.
  destruct (same_attempt_fields r (g r) (Hl r (list_elem_of_here _ _))) as (_ & -> & _).
  case_bool_decide; [done|]. apply IH. intros; apply Hl; by apply list_elem_of_further.
Qed.

Lemma resequenced_effect base (g : PaymentAttemptRow -> PaymentAttemptRow) d :
  accounting_wf base (set_payment_attempts (g <$> payment_attempts d) d) ->
  (forall r, r ∈ payment_attempts d -> same_attempt r (g r)) ->
  step_effect base d (set_payment_attempts (g <$> payment_attempts d) d).
Proof.
  intros Hwf' Hg. split_and!; [done|by destruct d| |by apply spend_bounded_same].
  intros h. cbn [payment_attempts set_payment_attempts]. rewrite find_key_resequenced by done.
  destruct (find_key pa_payment_hash h (payment_attempts d)) as [r|] eqn:Hf; [|done].
  apply find_key_Some in Hf as [Hr _]. simpl.
  destruct (Hg r Hr) as [Heq _]. unfold pa_with_sequence in Heq. injection Heq.
  intros E1 E2 E3 E4 E5 E6 E7 E8 E9 E10 E11 E12 E13 E14 E15 E16 E17. unfold pa_terms, pa_key. clear Heq.
  rewrite ?E1, ?E2, ?E3, ?E4, ?E5, ?E6, ?E7, ?E8, ?E9, ?E10, ?E11, ?E12, ?E13, ?E14, ?E15, ?E16, ?E17.
  split_and!; auto.
Qed.

Lemma accounting_step_effect base d d' :
  accounting_step d d' -> accounting_wf base d -> step_effect base d d'.
Proof.
  intros Hstep Hwf. destruct Hstep as [e h c principal now o d d' He Hh Hid Hp Hn Hr H
    |h now a d d' Hn H|h now a d d' Hn H|h now a d d' Hn H|h ap af now a d d' Hap Haf Hn H
    |h now d d' Hn H|batch attempts more d d' Hb H].
  - exact (reserve_effect base e h c principal now o d d' Hwf He Hh Hid Hp Hn Hr H).
  - destruct (initiated_run base h now a d d' Hwf Hn H) as (r & Hf & [[_ ->]|[Hi Hrep]]);
      [by apply step_effect_same|]. apply find_key_Some in Hf as [Hr _].
    apply (replaced_effect base _ _ _ _ Hrep Hr Hwf); simpl; [|by left].
    split_and!; try done; by left.
  - destruct (pending_run base h now a d d' Hwf Hn H) as (r & Hf & Hi & [->|[Hs Hrep]]);
      [by apply step_effect_same|]. apply find_key_Some in Hf as [Hr _].
    destruct (attempt_row base d r Hwf Hr) as [Hc _].
    apply (replaced_effect base _ _ _ _ Hrep Hr Hwf); simpl.
    + split_and!; try done. right. split; [done|]. left. by rewrite (ak_state r Hc), Hs.
    + left. unfold contribution. cbn. by rewrite (ak_state r Hc), Hs.
  - destruct (failed_run base h now a d d' Hwf Hn H) as (r & Hf & Hi & [[_ ->]|[Ho Hrep]]);
      [by apply step_effect_same|by eapply failed_effect].
  - destruct (succeeded_run base h ap af now a d d' Hwf Hap Haf Hn H)
      as (r & Hf & Hi & [[_ ->]|(Hs & c & principal & fee & Hrep)]); [by apply step_effect_same|].
    apply find_key_Some in Hf as [Hr _]. destruct (attempt_row base d r Hwf Hr) as [Hc _].
    apply (replaced_effect base _ _ _ _ Hrep Hr Hwf); simpl; [|by apply settlement_bounded].
    split_and!; try done. right. split; [done|]. right. right. split; [|done].
    rewrite (ak_state r Hc). by destruct (state_of (pa_state r)).
  - destruct (release_run base h now d d' Hwf Hn H) as (r & Hf & Hi & Hs & Hrep).
    apply find_key_Some in Hf as [Hr _]. destruct (attempt_row base d r Hwf Hr) as [Hc _].
    apply (replaced_effect base _ _ _ _ Hrep Hr Hwf); simpl; [|left; by apply contribution_nonneg].
    split; [by rewrite (ak_state r Hc), Hs|done].
  - destruct (load_unresolved_wf base batch d attempts more d' Hwf Hb H) as (Hwf' & g & -> & Hg).
    by apply resequenced_effect.
Qed.
