(* ===== verification/Metadata.v ===== *)
(** * Application metadata

    Models [application_metadata.rs]: the display metadata of a connection, the
    outbox of capability events its relays still wait for, and the accounting
    snapshot an application shows. *)
From stdpp Require Import strings.
From S2P Require Import Prelude Sqlite Types Text Policy Host Nwa Schema Ledger Registry Accounting.
#[local] Open Scope Z_scope.

#[export] Instance InfoRow_eq_dec : EqDecision InfoRow.
Proof. solve_decision. Defined.

Definition MAX_DISPLAY_NAME_BYTES : Z := 256.
Definition MAX_ICON_URL_BYTES : Z := 2048.

Record ApplicationConnectionMetadata := mkMetadata {
  am_display_name : string;
  am_icon_url : option string;
  am_pending_info_event_relays : list string;
}.

Record ConnectionBudgetUsage := mkUsage {
  us_spent_sat : Z;
  us_period_started_at : UnixTimestamp;
}.

Section Metadata.
Context `{L : UrlLib} `{P : !UrlParts L}.

Definition ApplicationConnectionMetadata_new (display_name : string) (icon_url : option string)
    (pending_info_event_relays : list string) : Result RegistryError ApplicationConnectionMetadata :=
  let display_name := of_chars (trim (chars display_name)) in
  if string_is_empty display_name || (MAX_DISPLAY_NAME_BYTES <? str_len display_name)
  then Err Reg_InvalidConnection
  else
  let? icon_url := traverse_option (fun icon =>
    if MAX_ICON_URL_BYTES <? str_len icon then Err Reg_InvalidConnection
    else ok_or Reg_InvalidConnection (validated_public_icon_url icon)) icon_url in
  let? pending_info_event_relays := collect_results (fun relay =>
    map_err (fun _ => Reg_InvalidConnection) (SecureRelayUrl_parse relay)) pending_info_event_relays in
  Ok (mkMetadata display_name icon_url pending_info_event_relays).

(** [INSERT INTO nwc_info_outbox ... ON CONFLICT DO NOTHING]. *)
Definition queue_info_event (d : Database) (row : InfoRow) (t : list InfoRow) : option (list InfoRow) :=
  insert_or_nothing info_check (fun r => connection_exists d (ni_connection_id r)) info_clash info_clash row t.

(** The loop over the relays of [upsert_application_metadata]. *)
Fixpoint queue_pending (connection_id : ConnectionId) (relays : list string) (d : Database)
  : Result LedgerError Database :=
  match relays with
  | [] => Ok d
  | relay :: rest =>
      if negb (exists_row (fun r => bool_decide (rl_owner r = connection_id)
                                    && bool_decide (rl_relay_url r = relay)) (connection_relays d))
      then Err CorruptData
      else
      let? t := ok_or DatabaseUnavailable
        (queue_info_event d (mkInfoRow connection_id relay) (nwc_info_outbox d)) in
      queue_pending connection_id rest (set_nwc_info_outbox t d)
  end.

(** The row that replaces or joins the metadata of its connection. *)
Definition upsert_metadata (d : Database) (row : MetadataRow) : option (list MetadataRow) :=
  if exists_row (metadata_clash row) (connection_metadata d)
  then fst <$> update_where metadata_check (metadata_clash row) (fun _ => row) (connection_metadata d)
  else insert_row (fun r => metadata_check r && connection_exists d (md_connection_id r)) metadata_clash row
         (connection_metadata d).

Definition upsert_application_metadata (connection_id : ConnectionId)
    (metadata : ApplicationConnectionMetadata) : Tx LedgerError unit := fun d =>
  if negb (exists_row (fun c => bool_decide (cn_id c = connection_id)
                                && bool_decide (cn_status c = "active")) (connections d))
  then Err CorruptData
  else
  let? t := ok_or DatabaseUnavailable (upsert_metadata d
    (mkMetadataRow connection_id (am_display_name metadata) (am_icon_url metadata))) in
  let? d := queue_pending connection_id (am_pending_info_event_relays metadata)
              (set_connection_metadata t d) in
  Ok (tt, d).

Definition application_metadata (connection_id : ConnectionId) (d : Database)
  : Result LedgerError (option ApplicationConnectionMetadata) :=
  match query_row (fun r => bool_decide (md_connection_id r = connection_id)) (connection_metadata d) with
  | None => Ok None
  | Some stored =>
      let relays := ni_relay_url <$> order_by (fun a b => text_cmp (ni_relay_url a) (ni_relay_url b))
        (select (fun r => bool_decide (ni_connection_id r = connection_id)) (nwc_info_outbox d)) in
      map_err (fun _ => CorruptData)
        (let? metadata := ApplicationConnectionMetadata_new (md_display_name stored) (md_icon_url stored)
                            relays in Ok (Some metadata))
  end.

Definition acknowledge_nwc_info_event (connection_id : ConnectionId) (relay_url : string)
  : Tx LedgerError unit := fun d =>
  let? relay := map_err (fun _ => CorruptData) (SecureRelayUrl_parse relay_url) in
  Ok (tt, set_nwc_info_outbox
        (delete_where (fun r => bool_decide (ni_connection_id r = connection_id)
                                && bool_decide (ni_relay_url r = relay)) (nwc_info_outbox d)).1 d).

(** The rows of the join of connections, their relays and their metadata. *)
Definition active_info_rows (d : Database) : list InfoRow :=
  c ← select (fun c => bool_decide (cn_status c = "active")) (connections d);
  r ← select (fun r => bool_decide (rl_owner r = cn_id c)) (connection_relays d);
  m ← select (fun m => bool_decide (md_connection_id m = cn_id c)) (connection_metadata d);
  [mkInfoRow (cn_id c) (rl_relay_url r)].

(** [INSERT ... SELECT ... ON CONFLICT DO NOTHING]. *)
Fixpoint queue_info_events (d : Database) (rows t : list InfoRow) : option (list InfoRow) :=
  match rows with
  | [] => Some t
  | row :: rest => queue_info_event d row t ≫= queue_info_events d rest
  end.

Definition requeue_active_nwc_info_events : Tx LedgerError nat := fun d =>
  let? t := ok_or DatabaseUnavailable (queue_info_events d (active_info_rows d) (nwc_info_outbox d)) in
  Ok ((length t - length (nwc_info_outbox d))%nat, set_nwc_info_outbox t d).

(** [now] is the system clock. *)
Definition current_budget_usage (connection : ActiveConnection) (now : Z) (d : Database)
  : Result LedgerError ConnectionBudgetUsage :=
  let created_at := ac_created_at connection in
  if now <? created_at then Err CorruptData
  else
  let? period_started_at := match interval_duration (interval (cp_budget (ac_policy connection))) with
    | Some duration => ok_or ValueOutOfRange (checked_add_u64 created_at
        ((now - created_at) / duration_as_secs duration * duration_as_secs duration))
    | None => Ok created_at
    end in
  let? period_sql := ok_or ValueOutOfRange (i64_try_from period_started_at) in
  let used := default 0 (bp_used_sat <$> query_row (fun p => bool_decide (bp_connection_id p = ac_id connection)
    && bool_decide (bp_period_started_at p = period_sql)) (budget_periods d)) in
  let? spent_sat := ok_or CorruptData (u64_try_from used) in
  Ok (mkUsage spent_sat period_started_at).

(** ** Lemmas *)

Section Laws.
Context `{LL : !UrlLaws L} `{PL : !UrlPartsLaws P}.

Lemma string_not_empty s : s <> EmptyString -> string_is_empty s = false.
Proof. intros H. destruct (string_is_empty s) eqn:E; [|done]. by apply string_is_empty_true in E. Qed.

(** A text of graphic characters has nothing to trim. *)
Lemma plain_trimmed s : Forall (fun b => 33 <= b <= 126) (as_bytes s) -> of_chars (trim (chars s)) = s.
Proof.
  intros Hs. assert (Forall (fun b => 0 <= b < 128) (as_bytes s)) as Ha.
  { eapply Forall_impl; [exact Hs|]. simpl. lia. }
  assert (forall c, c ∈ as_bytes s -> is_whitespace c = false) as Hw.
  { rewrite Forall_forall in Hs. intros c Hc%Hs. unfold is_whitespace, in_range. lia. }
  rewrite trim_id; [by apply ascii_of_chars| |]; unfold chars; rewrite (ascii_decode _ Ha); intros c rest Heq.
  - apply Hw. rewrite Heq. apply list_elem_of_here.
  - apply Hw. apply list_elem_of_In, in_rev. rewrite Heq. by left.
Qed.

(** A validated icon URL is validated as itself, as long as it is short enough. *)
Lemma icon_url_canonical raw icon :
  validated_public_icon_url raw = Some icon -> str_len icon <= 2048 ->
  validated_public_icon_url icon = Some icon /\ icon <> EmptyString.
Proof.
  unfold validated_public_icon_url, parse_icon_url. intros H Hlen.
  set (trimmed := of_chars (trim (chars raw))) in *.
  destruct (string_is_empty trimmed || (2048 <? str_len trimmed)); [done|].
  destruct (url_parse trimmed) as [u|] eqn:Hu; [|done].
  destruct (url_host_str u) as [host|] eqn:Hh; [|done].
  destruct (negb (public_https u host)) eqn:Hp; [done|]. simpl in H. injection H as <-.
  assert (url_scheme u = "https"%string) as Hs.
  { apply negb_false_iff in Hp. by destruct (public_https_true u host Hh Hp). }
  pose proof (url_nonempty _ _ Hu) as Hne. split; [|done].
  rewrite (plain_trimmed _ (url_plain_text _ _ Hu (or_introl Hs))), (string_not_empty _ Hne).
  rewrite (proj2 (Z.ltb_ge 2048 (str_len (url_to_string u)))) by lia. cbn [orb].
  by rewrite (url_reparse _ _ Hu), Hh, Hp.
Qed.

Definition stored_text (name : string) (icon : option string) : Prop :=
  ApplicationConnectionMetadata_new name icon [] = Ok (mkMetadata name icon []).

(** Validated metadata is validated as itself once it is stored. *)
Lemma metadata_stored_text name icon relays m :
  Forall scalar (chars name) -> ApplicationConnectionMetadata_new name icon relays = Ok m ->
  metadata_check (mkMetadataRow EmptyString (am_display_name m) (am_icon_url m)) = true ->
  stored_text (am_display_name m) (am_icon_url m)
  /\ Forall (fun r => SecureRelayUrl_parse r = Ok r) (am_pending_info_event_relays m).
Proof.
  unfold stored_text, ApplicationConnectionMetadata_new. intros Hsc H Hchk.
  set (shown := of_chars (trim (chars name))) in *.
  pass_guard H E1. apply bind_Ok in H as (icon' & Hicon & H). apply bind_Ok in H as (rs & Hrs & H).
  injection H as <-. cbn [am_display_name am_icon_url am_pending_info_event_relays] in *.
  assert (of_chars (trim (chars shown)) = shown) as Hshown.
  { unfold shown at 1. rewrite chars_of_chars; [by rewrite trim_idem|].
    rewrite Forall_forall in *. intros c Hc%trim_elem. auto. }
  split.
  - rewrite Hshown, E1.
    assert (traverse_option (fun icon => if MAX_ICON_URL_BYTES <? str_len icon then Err Reg_InvalidConnection
      else ok_or Reg_InvalidConnection (validated_public_icon_url icon)) icon' = Ok icon') as ->; [|done].
    destruct icon as [raw|]; simpl in Hicon; [|by injection Hicon as <-].
    destruct (MAX_ICON_URL_BYTES <? str_len raw); [done|].
    destruct (validated_public_icon_url raw) as [u|] eqn:Hu; [|done]. cbn in Hicon. injection Hicon as <-.
    unfold metadata_check in Hchk. cbn [md_icon_url null_or] in Hchk. apply andb_prop in Hchk as [_ Hb%between_true].
    destruct (icon_url_canonical _ _ Hu) as [Hc _]; [lia|]. simpl.
    unfold MAX_ICON_URL_BYTES. rewrite (proj2 (Z.ltb_ge 2048 (str_len u))) by lia. by rewrite Hc.
  - apply collect_results_Forall2 in Hrs. apply Forall_forall. intros r Hr.
    apply list_elem_of_lookup in Hr as [i Hi].
    destruct (Forall2_lookup_r _ _ _ _ _ Hrs Hi) as (s & _ & Hs).
    apply map_err_Ok in Hs. by eapply SecureRelayUrl_parse_canonical.
Qed.
(** ** The invariant *)

Record metadata_wf (d : Database) : Prop := {
  mw_unique : NoDup (md_connection_id <$> connection_metadata d);
  mw_text : forall r, r ∈ connection_metadata d -> stored_text (md_display_name r) (md_icon_url r);
  mw_owner : forall r, r ∈ connection_metadata d -> connection_exists d (md_connection_id r) = true;
  iw_unique : NoDup (nwc_info_outbox d);
  iw_canonical : forall r, r ∈ nwc_info_outbox d -> SecureRelayUrl_parse (ni_relay_url r) = Ok (ni_relay_url r);
  iw_owner : forall r, r ∈ nwc_info_outbox d -> connection_exists d (ni_connection_id r) = true;
}.

Lemma info_clash_true r r' : info_clash r r' = true <-> r = r'.
Proof.
  unfold info_clash. rewrite andb_true_iff, !bool_decide_eq_true.
  destruct r, r'; simpl. split; [by intros [-> ->]|by intros [= -> ->]].
Qed.

(** Queueing an event adds it unless it is queued. *)
Lemma queue_info_event_Some d row t t' :
  queue_info_event d row t = Some t' -> NoDup t ->
  NoDup t' /\ (forall r, r ∈ t' <-> r ∈ t \/ r = row)
  /\ (row ∈ t \/ connection_exists d (ni_connection_id row) = true)
  /\ length t' = (length t + if bool_decide (row ∈ t) then 0 else 1)%nat
  /\ (forall p, p row = false -> select p t' = select p t).
Proof.
  unfold queue_info_event, insert_or_nothing. intros H Hnd.
  destruct (negb (info_check row)); [done|].
  destruct (exists_row (info_clash row) t) eqn:E.
  - injection H as <-. apply exists_row_true in E as (r & Hr & ->%info_clash_true).
    rewrite bool_decide_true by done. split_and!; [done| |by left|lia|done].
    intros r'. split; [by left|]. by intros [| ->].
  - rewrite exists_row_false in E.
    assert (row ∉ t) as Hrow.
    { intros Hin. specialize (E row Hin). enough (true = false) by done. rewrite <- E. symmetry. by apply info_clash_true. }
    apply insert_row_Some in H as (-> & Hok & _). apply andb_prop in Hok as [_ Hfk].
    rewrite bool_decide_false by done. split_and!.
    + apply NoDup_app. split_and!; [done| |apply NoDup_singleton]. by intros r Hr ->%list_elem_of_singleton.
    + intros r. by rewrite elem_of_app, list_elem_of_singleton.
    + by right.
    + rewrite length_app. simpl. lia.
    + intros p Hp. rewrite select_app. unfold select at 2. simpl. by rewrite Hp, app_nil_r.
Qed.

Lemma connection_exists_info t d : connection_exists (set_nwc_info_outbox t d) = connection_exists d.
Proof. done. Qed.

(** The relays an upsert queues are approved ones, and all of them are queued. *)
Lemma queue_pending_Ok id relays : forall d d', queue_pending id relays d = Ok d' ->
  NoDup (nwc_info_outbox d) ->
  exists t, d' = set_nwc_info_outbox t d /\ NoDup t
    /\ (forall r, r ∈ t <-> r ∈ nwc_info_outbox d \/ exists relay, relay ∈ relays /\ r = mkInfoRow id relay)
    /\ (forall relay, relay ∈ relays -> exists r, r ∈ connection_relays d /\ rl_owner r = id /\ rl_relay_url r = relay)
    /\ (forall relay, relay ∈ relays -> mkInfoRow id relay ∈ nwc_info_outbox d \/ connection_exists d id = true)
    /\ (forall p, (forall relay, p (mkInfoRow id relay) = false) -> select p t = select p (nwc_info_outbox d)).
Proof.
  induction relays as [|relay rest IH]; intros d d' H Hnd; cbn [queue_pending] in H.
  { injection H as <-. exists (nwc_info_outbox d). split_and!; [by destruct d|done| | | |done].
    - intros r. split; [by left|]. by intros [|(? & ?%elem_of_nil & _)].
    - intros relay ?%elem_of_nil. done.
    - intros relay ?%elem_of_nil. done. }
  pass_guard H E. apply negb_false_iff, exists_row_true in E as (r0 & Hr0 & E). bool_to_prop.
  apply bind_Ok in H as (t1 & Ht1%ok_or_Ok & H).
  destruct (queue_info_event_Some _ _ _ _ Ht1 Hnd) as (Hnd1 & Hel1 & Hfk & _ & Hsel).
  destruct (IH _ _ H Hnd1) as (t & -> & Hnd2 & Hel & Happ & Hex & Hother). cbn [set_nwc_info_outbox nwc_info_outbox connection_relays] in *.
  exists t. split_and!; [done|done| | | |intros p Hp; by rewrite Hother, Hsel].
  - intros r. rewrite Hel, Hel1. split.
    + intros [[| ->]|(y & Hy & ->)]; [by left|right; exists relay; split; [apply list_elem_of_here|done]
        |right; exists y; split; [by apply list_elem_of_further|done]].
    + intros [|(y & [->|Hy]%elem_of_cons & ->)]; [by left; left|by left; right|right; eauto].
  - intros y [->|Hy]%elem_of_cons; [by exists r0|by apply Happ].
  - intros y [->|Hy]%elem_of_cons; [done|]. destruct (Hex y Hy) as [Hin|]; [|by right].
    apply Hel1 in Hin as [|[= ->]]; [by left|done].
Qed.
Definition metadata_of (id : string) (d : Database) : option MetadataRow :=
  find_key md_connection_id id (connection_metadata d).

Lemma metadata_clash_key row r : metadata_clash row r = bool_decide (md_connection_id r = md_connection_id row).
Proof. unfold metadata_clash. apply bool_decide_ext. by split. Qed.

Lemma upsert_metadata_Some d row t :
  upsert_metadata d row = Some t -> metadata_wf d ->
  metadata_check row = true /\ NoDup (md_connection_id <$> t)
  /\ (forall r, r ∈ t -> r = row \/ r ∈ connection_metadata d)
  /\ connection_exists d (md_connection_id row) = true
  /\ forall id, find_key md_connection_id id t
       = if bool_decide (id = md_connection_id row) then Some row else metadata_of id d.
Proof.
  unfold upsert_metadata. intros H Hwf. destruct (exists_row (metadata_clash row) (connection_metadata d)) eqn:E.
  - destruct (update_where _ _ _ _) as [[t1 n]|] eqn:Hu; [|done]. injection H as <-.
    pose proof (update_where_Some _ _ _ _ _ _ Hu) as (Ht & _ & Hok).
    apply exists_row_true in E as (r0 & Hr0 & Hcl). pose proof Hcl as Hk.
    rewrite metadata_clash_key in Hk. apply bool_decide_eq_true_1 in Hk.
    assert (t1 = (fun x => if bool_decide (md_connection_id x = md_connection_id r0) then row else x)
      <$> connection_metadata d) as ->.
    { rewrite Ht. apply list_fmap_ext. intros i x _. by rewrite metadata_clash_key, Hk. }
    split_and!; [by eapply Hok| | | |].
    + rewrite <- list_fmap_compose. rewrite (list_fmap_ext _ md_connection_id); [apply Hwf|].
      intros i x _. simpl. case_bool_decide; congruence.
    + intros r (x & -> & Hx)%list_elem_of_fmap. case_bool_decide; auto.
    + rewrite <- Hk. by apply Hwf.
    + intros id. rewrite find_key_replace by (apply Hwf || done || congruence). by rewrite Hk.
  - apply insert_row_Some in H as (-> & [Hok Hfk]%andb_prop & _). rewrite exists_row_false in E.
    assert (metadata_of (md_connection_id row) d = None) as Hnone.
    { apply find_key_None. intros (x & Hx & Hin)%list_elem_of_fmap. specialize (E x Hin).
      rewrite metadata_clash_key in E. apply bool_decide_eq_false_1 in E. congruence. }
    split_and!; [done| | |done|].
    + rewrite fmap_app. apply NoDup_app. split_and!; [apply Hwf| |apply NoDup_singleton].
      intros k Hk ->%list_elem_of_singleton. by apply find_key_None in Hnone.
    + intros r [Hr|Hr%list_elem_of_singleton]%elem_of_app; auto.
    + intros id. rewrite find_key_app. fold (metadata_of id d).
      destruct (decide (id = md_connection_id row)) as [->|Hid].
      * rewrite Hnone. by rewrite !bool_decide_true.
      * rewrite !bool_decide_false by congruence. by destruct (metadata_of id d).
Qed.

(** ** The transactions *)

(** What the connection [id] still has to tell its relays. *)
Definition info_pending (d : Database) (id relay : string) : Prop := mkInfoRow id relay ∈ nwc_info_outbox d.

Definition approved_relay (d : Database) (id relay : string) : Prop :=
  exists r, r ∈ connection_relays d /\ rl_owner r = id /\ rl_relay_url r = relay.

Lemma upsert_application_metadata_Ok id m d d' :
  upsert_application_metadata id m d = Ok (tt, d') -> metadata_wf d ->
  owner_active d id /\ (forall relay, relay ∈ am_pending_info_event_relays m -> approved_relay d id relay)
  /\ metadata_check (mkMetadataRow id (am_display_name m) (am_icon_url m)) = true
  /\ exists t o, d' = set_nwc_info_outbox o (set_connection_metadata t d)
     /\ NoDup (md_connection_id <$> t) /\ NoDup o
     /\ (forall r, r ∈ t -> r = mkMetadataRow id (am_display_name m) (am_icon_url m) \/ r ∈ connection_metadata d)
     /\ (forall x, find_key md_connection_id x t = if bool_decide (x = id)
           then Some (mkMetadataRow id (am_display_name m) (am_icon_url m)) else metadata_of x d)
     /\ (forall x relay, mkInfoRow x relay ∈ o <->
           info_pending d x relay \/ x = id /\ relay ∈ am_pending_info_event_relays m)
     /\ (forall x, x <> id -> select (fun r => bool_decide (ni_connection_id r = x)) o
                             = select (fun r => bool_decide (ni_connection_id r = x)) (nwc_info_outbox d)).
Proof.
  unfold upsert_application_metadata. intros H Hwf. pass_guard H E.
  apply negb_false_iff, exists_row_true in E as (c & Hc & E). bool_to_prop.
  apply bind_Ok in H as (t & Ht%ok_or_Ok & H). apply bind_Ok in H as (d1 & Hd1 & H). injection H as <-.
  destruct (upsert_metadata_Some _ _ _ Ht Hwf) as (Hck & Hnd & Hin & _ & Hfind).
  destruct (queue_pending_Ok _ _ _ _ Hd1) as (o & -> & Hndo & Hel & Happ & _ & Hother); [apply Hwf|].
  split_and!; [by exists c|exact Happ|done|]. exists t, o. split_and!; [done|done|done|done|done| |].
  - intros x relay. rewrite Hel. unfold info_pending. split.
    + intros [|(y & Hy & [= -> ->])]; auto.
    + intros [|[-> Hr]]; eauto.
  - intros x Hx. apply Hother. intros relay. by apply bool_decide_eq_false_2.
Qed.

Lemma elem_of_active_info_rows d id relay :
  mkInfoRow id relay ∈ active_info_rows d <->
  owner_active d id /\ approved_relay d id relay /\ id ∈ md_connection_id <$> connection_metadata d.
Proof.
  unfold active_info_rows, owner_active, approved_relay. rewrite list_elem_of_bind. split.
  - intros (c & Hrest & Hc). apply elem_of_select in Hc as [Hc Ha%bool_decide_eq_true_1].
    apply list_elem_of_bind in Hrest as (r & Hrest & Hr).
    apply elem_of_select in Hr as [Hr Ho%bool_decide_eq_true_1].
    apply list_elem_of_bind in Hrest as (m & Hrest & Hm).
    apply elem_of_select in Hm as [Hm Hid%bool_decide_eq_true_1].
    apply list_elem_of_singleton in Hrest as [= -> ->]. split_and!; [by exists c|by exists r|].
    apply list_elem_of_fmap. by exists m.
  - intros ((c & Hc & <- & Ha) & (r & Hr & Ho & <-) & (m & Hid & Hm)%list_elem_of_fmap).
    exists c. rewrite elem_of_select, bool_decide_eq_true. split; [|done].
    apply list_elem_of_bind. exists r. rewrite elem_of_select, bool_decide_eq_true. split; [|done].
    apply list_elem_of_bind. exists m. rewrite elem_of_select, bool_decide_eq_true. split; [|done].
    by apply list_elem_of_singleton.
Qed.

Lemma queue_info_events_Some d rows : forall t t',
  queue_info_events d rows t = Some t' -> NoDup t ->
  NoDup t' /\ (forall r, r ∈ t' <-> r ∈ t \/ r ∈ rows)
  /\ (forall r, r ∈ rows -> r ∈ t \/ connection_exists d (ni_connection_id r) = true)
  /\ (length t <= length t')%nat.
Proof.
  induction rows as [|row rows IH]; intros t t' H Hnd; cbn [queue_info_events] in H.
  { injection H as <-. split_and!; [done| | |lia]; intros r; [|by intros ?%elem_of_nil].
    split; [by left|]. by intros [|?%elem_of_nil]. }
  destruct (queue_info_event d row t) as [t1|] eqn:H1; [|done]. simpl in H.
  destruct (queue_info_event_Some _ _ _ _ H1 Hnd) as (Hnd1 & Hel1 & Hfk1 & Hlen1 & _).
  destruct (IH _ _ H Hnd1) as (Hnd2 & Hel2 & Hfk2 & Hlen2). split_and!; [done| | |case_bool_decide; lia].
  - intros r. rewrite Hel2, Hel1, elem_of_cons. tauto.
  - intros r [->|Hr]%elem_of_cons; [done|]. destruct (Hfk2 r Hr) as [Hin|]; [|by right].
    apply Hel1 in Hin as [| ->]; [by left|done].
Qed.

Lemma requeue_info_Ok n d d' : requeue_active_nwc_info_events d = Ok (n, d') -> metadata_wf d ->
  exists o, d' = set_nwc_info_outbox o d /\ NoDup o /\ length o = (length (nwc_info_outbox d) + n)%nat
    /\ forall id relay, mkInfoRow id relay ∈ o <-> info_pending d id relay
         \/ owner_active d id /\ approved_relay d id relay /\ id ∈ md_connection_id <$> connection_metadata d.
Proof.
  unfold requeue_active_nwc_info_events. intros H Hwf.
  apply bind_Ok in H as (o & Ho%ok_or_Ok & H). injection H as <- <-.
  destruct (queue_info_events_Some _ _ _ _ Ho) as (Hnd & Hel & _ & Hlen); [apply Hwf|].
  exists o. split_and!; [done|done|lia|]. intros id relay. by rewrite Hel, elem_of_active_info_rows.
Qed.

(** Transactions on metadata that was validated. *)
Inductive metadata_step : Database -> Database -> Prop :=
| step_metadata id name icon relays m d d' :
    Forall scalar (chars name) -> ApplicationConnectionMetadata_new name icon relays = Ok m ->
    upsert_application_metadata id m d = Ok (tt, d') -> metadata_step d d'
| step_acknowledge_info id relay d d' :
    acknowledge_nwc_info_event id relay d = Ok (tt, d') -> metadata_step d d'
| step_requeue_info n d d' :
    requeue_active_nwc_info_events d = Ok (n, d') -> metadata_step d d'.

Lemma metadata_step_tables d d' : metadata_step d d' -> metadata_wf d ->
  exists t o, d' = set_nwc_info_outbox o (set_connection_metadata t d).
Proof.
  intros Hs Hwf. destruct Hs as [id name icon relays m d d' _ _ H|id relay d d' H|n d d' H].
  - destruct (upsert_application_metadata_Ok _ _ _ _ H Hwf) as (_ & _ & _ & t & o & -> & _). eauto.
  - unfold acknowledge_nwc_info_event in H. apply bind_Ok in H as (r & _ & H). injection H as <-.
    exists (connection_metadata d), (delete_where (fun x => bool_decide (ni_connection_id x = id)
      && bool_decide (ni_relay_url x = r)) (nwc_info_outbox d)).1. by destruct d.
  - destruct (requeue_info_Ok _ _ _ H Hwf) as (o & -> & _). exists (connection_metadata d), o. by destruct d.
Qed.

Lemma owner_exists d id : owner_active d id -> connection_exists d id = true.
Proof. intros (c & Hc & Hid & _). apply exists_row_true. exists c. split; [done|]. by apply bool_decide_eq_true_2. Qed.

Lemma metadata_step_wf d d' : metadata_step d d' ->
  (forall r, r ∈ connection_relays d -> SecureRelayUrl_parse (rl_relay_url r) = Ok (rl_relay_url r)) ->
  metadata_wf d -> metadata_wf d'.
Proof.
  intros Hs Hcan Hwf. pose proof Hwf as [M1 M2 M3 I1 I2 I3].
  destruct Hs as [id name icon relays m d d' Hsc Hm H|id relay d d' H|n d d' H].
  - destruct (upsert_application_metadata_Ok _ _ _ _ H Hwf)
      as (Hact & Happ & Hck & t & o & -> & Hnd & Hndo & Hin & _ & Hel & _).
    destruct (metadata_stored_text _ _ _ _ Hsc Hm Hck) as [Htext Hrs]. rewrite Forall_forall in Hrs.
    split; cbn [connection_metadata nwc_info_outbox set_nwc_info_outbox set_connection_metadata connections].
    + done.
    + intros r [->|Hr]%Hin; [done|auto].
    + intros r [->|Hr]%Hin; [by apply owner_exists|by apply M3].
    + done.
    + intros [x y] [Hp|[-> Hy]]%Hel; simpl; [by apply I2 in Hp|auto].
    + intros [x y] [Hp|[-> Hy]]%Hel; simpl; [by apply (I3 _ Hp)|by apply owner_exists].
  - unfold acknowledge_nwc_info_event in H. apply bind_Ok in H as (u & _ & H). injection H as <-.
    split; cbn [connection_metadata nwc_info_outbox set_nwc_info_outbox]; try done.
    + eapply sublist_NoDup; [exact I1|apply select_sublist].
    + intros r [Hr _]%elem_of_delete. auto.
    + intros r [Hr _]%elem_of_delete. by apply I3.
  - destruct (requeue_info_Ok _ _ _ H Hwf) as (o & -> & Hndo & _ & Hel).
    split; cbn [connection_metadata nwc_info_outbox set_nwc_info_outbox]; try done.
    + intros [x y] [Hp|(_ & (r & Hr & _ & <-) & _)]%Hel; [by apply I2 in Hp|by apply Hcan].
    + intros [x y] [Hp|(Ha & _)]%Hel; [by apply (I3 _ Hp)|by apply owner_exists].
Qed.

(** ** What an application sees *)

Definition info_relays (id : string) (d : Database) : list string :=
  ni_relay_url <$> order_by (fun a b => text_cmp (ni_relay_url a) (ni_relay_url b))
    (select (fun r => bool_decide (ni_connection_id r = id)) (nwc_info_outbox d)).

Lemma elem_of_info_relays id relay d : relay ∈ info_relays id d <-> info_pending d id relay.
Proof.
  unfold info_relays, info_pending. rewrite order_by_Permutation, list_elem_of_fmap. split.
  - intros ([x y] & -> & [Hin <-%bool_decide_eq_true_1]%elem_of_select). done.
  - intros Hin. exists (mkInfoRow id relay). rewrite elem_of_select. split_and!; [done|done|].
    by apply bool_decide_eq_true_2.
Qed.

Lemma info_relays_NoDup id d : metadata_wf d -> NoDup (info_relays id d).
Proof.
  intros Hwf. unfold info_relays. rewrite order_by_Permutation. apply NoDup_fmap_2_strong.
  - intros [x y] [x' y'] [_ Hx%bool_decide_eq_true_1]%elem_of_select
      [_ Hx'%bool_decide_eq_true_1]%elem_of_select. simpl in *. congruence.
  - eapply sublist_NoDup; [apply (iw_unique d Hwf)|apply select_sublist].
Qed.

Lemma stored_metadata_new name icon relays :
  stored_text name icon -> Forall (fun r => SecureRelayUrl_parse r = Ok r) relays ->
  ApplicationConnectionMetadata_new name icon relays = Ok (mkMetadata name icon relays).
Proof.
  unfold stored_text, ApplicationConnectionMetadata_new. intros Ht Hr. pass_guard Ht E.
  apply bind_Ok in Ht as (icon' & Hicon & Ht). rewrite Hicon. cbn in Ht |- *. injection Ht as -> ->.
  rewrite <- (list_fmap_id relays) at 1. rewrite (collect_results_map _ _ id); [by rewrite list_fmap_id|].
  rewrite Forall_forall in Hr. intros r Hin. unfold id. by rewrite (Hr r Hin).
Qed.

(** Loading never fails on a well-formed database. *)
Lemma application_metadata_loads id d : metadata_wf d ->
  application_metadata id d = Ok ((fun r => mkMetadata (md_display_name r) (md_icon_url r) (info_relays id d))
    <$> metadata_of id d).
Proof.
  intros Hwf. unfold application_metadata, metadata_of, find_key. fold (info_relays id d).
  destruct (query_row _ _) as [r|] eqn:Hq; [|done].
  apply query_row_Some in Hq as [Hin _]. rewrite stored_metadata_new; [done|by apply Hwf|].
  apply Forall_forall. intros relay Hp%elem_of_info_relays. by apply (iw_canonical _ Hwf) in Hp.
Qed.

(** C38: Storing the validated metadata of an active connection and loading it gives it
    back, with the relays that still wait for the capability event: those that
    waited before and the new ones, each once, all approved by the connection.
    Every other connection loads as before. *)
Theorem metadata_roundtrip id name icon relays m d d'
    (Hwf : metadata_wf d) (Hname : Forall scalar (chars name))
    (Hm : ApplicationConnectionMetadata_new name icon relays = Ok m)
    (Hrun : upsert_application_metadata id m d = Ok (tt, d')) :
  owner_active d id
  /\ (exists pending, application_metadata id d' = Ok (Some (mkMetadata (am_display_name m) (am_icon_url m) pending))
      /\ NoDup pending
      /\ (forall relay, relay ∈ pending <-> info_pending d id relay \/ relay ∈ am_pending_info_event_relays m))
  /\ (forall relay, relay ∈ am_pending_info_event_relays m -> approved_relay d id relay)
  /\ (forall other, other <> id -> application_metadata other d' = application_metadata other d).
Proof.
  destruct (upsert_application_metadata_Ok _ _ _ _ Hrun Hwf)
    as (Hact & Happ & Hck & t & o & -> & Hnd & Hndo & Hin & Hfind & Hel & Hother).
  destruct (metadata_stored_text _ _ _ _ Hname Hm Hck) as [Htext Hrs]. rewrite Forall_forall in Hrs.
  set (d' := set_nwc_info_outbox o (set_connection_metadata t d)) in *.
  assert (metadata_wf d') as Hwf'.
  { destruct Hwf as [M1 M2 M3 I1 I2 I3]. split; cbn [d' connection_metadata nwc_info_outbox set_nwc_info_outbox
      set_connection_metadata]; [done| | |done| |].
    - intros r [->|Hr]%Hin; [done|auto].
    - intros r [->|Hr]%Hin; [by apply owner_exists|by apply M3].
    - intros [x y] [Hp|[-> Hy]]%Hel; simpl; [by apply I2 in Hp|auto].
    - intros [x y] [Hp|[-> Hy]]%Hel; simpl; [by apply (I3 _ Hp)|by apply owner_exists]. }
  split_and!; [done| |done|].
  - exists (info_relays id d'). split_and!; [|by apply info_relays_NoDup|].
    + rewrite (application_metadata_loads _ _ Hwf'). unfold metadata_of. cbn [d' connection_metadata
        set_nwc_info_outbox set_connection_metadata]. by rewrite Hfind, bool_decide_true.
    + intros relay. rewrite elem_of_info_relays. unfold info_pending at 1. cbn [d' nwc_info_outbox set_nwc_info_outbox].
      rewrite Hel. naive_solver.
  - intros other Ho. rewrite !application_metadata_loads by done. unfold metadata_of, info_relays.
    cbn [d' connection_metadata nwc_info_outbox set_nwc_info_outbox set_connection_metadata].
    by rewrite Hfind, bool_decide_false, Hother.
Qed.

(** A relay waits for its capability event until that very event is acknowledged. *)
Theorem pending_until_acknowledged id relay d d' (Hwf : metadata_wf d) (Hstep : metadata_step d d')
    (Hp : info_pending d id relay) :
  info_pending d' id relay
  \/ exists raw, SecureRelayUrl_parse raw = Ok relay /\ acknowledge_nwc_info_event id raw d = Ok (tt, d').
Proof.
  destruct Hstep as [id' name icon relays m d d' _ _ H|id' raw d d' H|n d d' H].
  - left. destruct (upsert_application_metadata_Ok _ _ _ _ H Hwf) as (_ & _ & _ & t & o & -> & _ & _ & _ & _ & Hel & _).
    apply Hel. by left.
  - pose proof H as Hack. unfold acknowledge_nwc_info_event in H.
    apply bind_Ok in H as (u & Hu%map_err_Ok & H). injection H as <-.
    destruct (decide (id' = id /\ u = relay)) as [[-> ->]|Hne]; [right; by exists raw|left].
    apply elem_of_delete. split; [done|]. simpl.
    apply andb_false_iff. rewrite !bool_decide_eq_false. apply not_and_l in Hne. naive_solver.
  - left. destruct (requeue_info_Ok _ _ _ H Hwf) as (o & -> & _ & _ & Hel). apply Hel. by left.
Qed.


(** The usage an application shows is what the accounting counts: the period that
    contains the clock, the same one a payment reserves in, with what was
    imported for it plus what its payments charge or hold. *)
Theorem usage_is_spend base connection now d usage (Hwf : accounting_wf base d)
    (Hcreated : u64 (ac_created_at connection)) (Hnow : u64 now)
    (Hrun : current_budget_usage connection now d = Ok usage) :
  let key := (ac_id connection, us_period_started_at usage) in
  period_start (mkConnectionBudget (ac_created_at connection) (limit_sat (cp_budget (ac_policy connection)))
      (duration_as_secs <$> interval_duration (interval (cp_budget (ac_policy connection)))) 0) now
    = Ok (us_period_started_at usage)
  /\ us_spent_sat usage = base key + period_spend key d.
Proof.
  cbv zeta. unfold current_budget_usage in Hrun. pass_guard Hrun E.
  apply bind_Ok in Hrun as (start & Hstart & Hrun). apply bind_Ok in Hrun as (sql & Hsql%ok_or_Ok & Hrun).
  apply bind_Ok in Hrun as (spent & Hspent%ok_or_Ok & Hrun). injection Hrun as <-. cbn [us_spent_sat us_period_started_at].
  split.
  - unfold period_start. cbn [cb_created_at cb_interval_seconds]. rewrite E. apply Z.ltb_ge in E.
    destruct (interval_duration (interval (cp_budget (ac_policy connection)))) as [dur|] eqn:Hi;
      [|by injection Hstart as ->].
    cbn [fmap option_fmap option_map]. apply ok_or_Ok, checked_add_u64_Some in Hstart as [-> Hmax].
    assert (0 < duration_as_secs dur) as Hdur.
    { by destruct (interval (cp_budget (ac_policy connection))); simpl in Hi; simplify_eq. }
    assert (checked_mul_u64 ((now - ac_created_at connection) / duration_as_secs dur) (duration_as_secs dur)
      = Some ((now - ac_created_at connection) / duration_as_secs dur * duration_as_secs dur)) as ->.
    { apply checked_mul_u64_Some. split; [done|]. destruct Hcreated, Hnow.
      pose proof (Z.mul_div_le (now - ac_created_at connection) _ Hdur). lia. }
    cbn. assert (checked_add_u64 (ac_created_at connection)
      ((now - ac_created_at connection) / duration_as_secs dur * duration_as_secs dur) = Some
      (ac_created_at connection + (now - ac_created_at connection) / duration_as_secs dur * duration_as_secs dur)) as ->;
      [|done]. by apply checked_add_u64_Some.
  - apply i64_try_from_Some in Hsql as [-> _]. apply u64_try_from_Some in Hspent as [-> _].
    assert (query_row (fun p => bool_decide (bp_connection_id p = ac_id connection)
      && bool_decide (bp_period_started_at p = start)) (budget_periods d)
      = find_key bp_key (ac_id connection, start) (budget_periods d)) as ->.
    { unfold find_key, query_row. f_equal. apply select_ext. intros p _. unfold bp_key.
      rewrite <- bool_decide_and. apply bool_decide_ext. split; [by intros [-> ->]|by intros [= -> ->]]. }
    destruct (find_key bp_key _ _) as [p|] eqn:Hf; [by apply (aw_spent base d Hwf)|].
    rewrite (aw_no_base base d Hwf _ Hf). symmetry. apply Zsum_zero. intros r Hr. unfold counted.
    case_bool_decide as Hk; [|done]. destruct (aw_period_of base d Hwf r Hr) as [p Hp]. congruence.
Qed.

End Laws.

End Metadata.
