(* ===== verification/AccountingProofs.v ===== *)
(** * Payment accounting: properties

    What the reservation, settlement, refund and release of payments promise,
    and the invariants of every history of accounting transactions. *)
From S2P Require Import Prelude Sqlite Types Policy Host Schema Ledger Registry Accounting.
#[local] Open Scope Z_scope.

Lemma accounting_steps_effect base d d' :
  rtc accounting_step d d' -> accounting_wf base d -> accounting_wf base d'.
Proof.
  induction 1 as [d|d d1 d' Hstep _ IH]; [done|]. intros Hwf. apply IH.
  by destruct (accounting_step_effect base d d1 Hstep Hwf).
Qed.

(** The renewal period starts at a whole number of intervals after the creation
    of the connection and contains [now], it is total from the creation on, the
    import of a connection picks the same period as its payments, and a later
    clock never falls into an earlier period. *)
Theorem period_start_spec i created now b
    (Hcreated : u64 created) (Hnow : u64 now)
    (Hb : cb_created_at b = created)
    (Hi : cb_interval_seconds b = duration_as_secs <$> interval_duration i) :
  (forall s, period_start b now = Ok s <-> imported_budget_period_start i created now = Ok s)
  /\ (is_ok (period_start b now) = true <-> created <= now)
  /\ (forall s, period_start b now = Ok s -> created <= s <= now
       /\ match cb_interval_seconds b with
          | None => s = created
          | Some secs => now < s + secs /\ exists n, 0 <= n /\ s = created + n * secs
          end)
  /\ (forall later s s', now <= later -> period_start b now = Ok s ->
       period_start b later = Ok s' -> s <= s').
Proof.
  destruct Hcreated as [Hc0 Hc1], Hnow as [Hn0 Hn1].
  assert (forall secs, cb_interval_seconds b = Some secs -> 3600 <= secs <= 31536000) as Hsecs.
  { intros secs. rewrite Hi. destruct i; simpl; intros; simplify_eq; vm_compute; split; discriminate. }
  assert (forall t, created <= t <= u64_max -> forall secs, cb_interval_seconds b = Some secs ->
    (t - created) / secs * secs <= t - created /\ 0 <= (t - created) / secs * secs) as Hdiv.
  { intros t Ht secs Hs. specialize (Hsecs secs Hs).
    pose proof (Z.mul_div_le (t - created) secs ltac:(lia)).
    pose proof (Z.div_pos (t - created) secs ltac:(lia) ltac:(lia)). nia. }
  split_and!.
  - intros s. unfold period_start, imported_budget_period_start. rewrite Hb, Hi.
    destruct (now <? created); [done|].
    destruct (interval_duration i) as [dur|]; simpl; [|by split; intros [= ->]].
    destruct (checked_mul_u64 _ _); simpl; [|done].
    destruct (checked_add_u64 _ _); simpl; [by split; intros [= ->]|done].
  - unfold period_start. rewrite Hb. destruct (now <? created) eqn:E.
    { apply Z.ltb_lt in E. split; [done|lia]. }
    apply Z.ltb_ge in E. split; [done|intros _].
    destruct (cb_interval_seconds b) as [secs|] eqn:Es; [|done].
    destruct (Hdiv now ltac:(lia) secs eq_refl) as [H1 H2].
    unfold checked_mul_u64. rewrite (proj2 (Z.leb_le _ u64_max)) by lia. cbn [ok_or].
    unfold checked_add_u64. by rewrite (proj2 (Z.leb_le _ u64_max)) by lia.
  - intros s Hs. rewrite <- Hb. apply period_start_Ok; [done|lia|].
    intros secs Hsec. specialize (Hsecs secs Hsec). lia.
  - intros later s s' Hle Hs Hs'.
    assert (forall secs, cb_interval_seconds b = Some secs -> 3600 <= secs) as Hpos
      by (intros secs Hsec; specialize (Hsecs secs Hsec); lia).
    apply period_start_Ok in Hs as [H0 Hs]; [|lia|done].
    apply period_start_Ok in Hs' as [H1 Hs']; [|lia|done].
    destruct (cb_interval_seconds b) as [secs|] eqn:Es; [|lia].
    destruct Hs as (_ & n & Hn & Hsn), Hs' as (Hlt & n' & Hn' & Hsn').
    specialize (Hpos secs eq_refl).
    destruct (decide (s <= s')); [done|]. exfalso.
    assert (n' + 1 <= n) by nia. assert (s' + secs <= s) by nia. lia.
Qed.

(** C3: Reserving a payment decides every case: the same event replays its own
    reservation or is refused when any of its terms changed, another event's
    payment is reported and never paid twice, the limit of the period is checked
    with the principal and the whole fee reserve, and only then is one attempt
    inserted and its period debited by exactly that amount. *)
Theorem reserve_payment_refines base d e h c principal now b start
    (Hwf : accounting_wf base d) (Hp : 0 < principal <= i64_max) (Hnow : 0 <= now <= i64_max)
    (Hrev : 0 <= ac_revision c <= i64_max) (He : length e = 32%nat) (Hh : length h = 32%nat)
    (Hid : ConnectionId_parse (ac_id c) = Ok (ac_id c))
    (Hb : load_connection_budget d c (ac_revision c) now = Ok b)
    (Hs : period_start b now = Ok start)
    (Hl : cb_limit_sat b <= i64_max) (Hf : cb_fee_reserve_sat b <= i64_max) :
  reserve_spec base e h c principal now b start d (reserve_payment e h c principal now d).
Proof. by apply reserve_tx. Qed.

(** A reservation is only ever granted to the exact active, unexpired revision
    of a connection that may pay invoices. *)
Theorem reservation_needs_authority e h c principal now d o d'
    (Hrun : reserve_payment e h c principal now d = Ok (o, d')) :
  exists r, r ∈ connections d /\ cn_id r = ac_id c /\ cn_revision r = ac_revision c
    /\ cn_status r = "active" /\ (forall t, cn_expires_at r = Some t -> now < t)
    /\ exists m, m ∈ connection_methods d /\ cm_connection_id m = ac_id c /\ cm_method m = "pay_invoice".
Proof.
  unfold reserve_payment in Hrun.
  destruct (principal =? 0); [done|].
  destruct (pay_sqlite_u64 now) as [n|] eqn:E1; [|done]. apply pay_sqlite_u64_Ok in E1 as [-> _].
  destruct (pay_sqlite_u64 (ac_revision c)) as [rev|] eqn:E2; [|done].
  apply pay_sqlite_u64_Ok in E2 as [-> _].
  destruct (pay_sqlite_u64 principal); [|done].
  destruct (load_connection_budget d c (ac_revision c) now) as [b|] eqn:Hb; [|done].
  apply load_connection_budget_Ok in Hb as (r & H1 & H2 & H3 & H4 & H5 & H6 & _). eauto 10.
Qed.

(** The steps before settlement: the initiation marker is written once, on an
    uninitiated reservation only; a payment becomes pending only after it was
    initiated; and neither moves a counter. *)
Theorem payment_progress base d h now (Hwf : accounting_wf base d) (Hnow : 0 <= now <= i64_max) :
  match find_key pa_payment_hash h (payment_attempts d) with
  | None => mark_payment_initiated h now d = Err Pay_ReservationConflict
            /\ mark_payment_pending h now d = Err Pay_ReservationConflict
  | Some r =>
      if now <? pa_updated_at r
      then mark_payment_initiated h now d = Err Pay_ValueOutOfRange
           /\ mark_payment_pending h now d = Err Pay_ValueOutOfRange
      else match pa_initiated_at r, state_of (pa_state r) with
      | None, State_Reserved =>
          mark_payment_pending h now d = Err Pay_TerminalStateConflict
          /\ exists d', mark_payment_initiated h now d = Ok (at_with_initiated now (attempt_of r), d')
             /\ replaced base r (Some (pa_with_initiated now r)) d d'
             /\ contribution (pa_with_initiated now r) = contribution r
      | None, _ => mark_payment_initiated h now d = Err Pay_TerminalStateConflict
                   /\ mark_payment_pending h now d = Err Pay_TerminalStateConflict
      | Some _, State_Reserved =>
          mark_payment_initiated h now d = Ok (attempt_of r, d)
          /\ exists d', mark_payment_pending h now d
               = Ok (at_with_state State_Pending now (attempt_of r), d')
             /\ replaced base r (Some (pa_with_state "pending" now r)) d d'
             /\ contribution (pa_with_state "pending" now r) = contribution r
      | Some _, State_Pending =>
          mark_payment_initiated h now d = Ok (attempt_of r, d)
          /\ mark_payment_pending h now d = Ok (attempt_of r, d)
      | Some _, _ => mark_payment_initiated h now d = Ok (attempt_of r, d)
                     /\ mark_payment_pending h now d = Err Pay_TerminalStateConflict
      end
  end.
Proof.
  pose proof (mark_initiated_tx base d h now Hwf Hnow) as H1.
  pose proof (pending_tx base d h now Hwf Hnow) as H2.
  destruct (find_key pa_payment_hash h (payment_attempts d)) as [r|] eqn:Hf; [|done].
  destruct (now <? pa_updated_at r); [done|]. unfold was_initiated in *. simpl in H1, H2.
  apply find_key_Some in Hf as [Hr _]. destruct (attempt_row base d r Hwf Hr) as [Hc _].
  destruct (pa_initiated_at r) as [t|]; simpl in H1, H2.
  - destruct (state_of (pa_state r)) eqn:Hs; try done. split; [done|].
    destruct H2 as (d' & H2 & H3). exists d'. split_and!; [done..|].
    unfold contribution. cbn. by rewrite (ak_state r Hc), Hs.
  - destruct (state_of (pa_state r)) eqn:Hs; try done. split; [done|].
    destruct H1 as (d' & H1 & H3). exists d'. by split_and!.
Qed.

(** Definitive failure and release return exactly what was reserved: a failure
    needs the initiation marker, keeps the attempt as failed and replays; a
    release needs the marker to be absent and deletes the attempt.  A settled
    payment can be neither refunded nor released. *)
Theorem payment_refund base d h now (Hwf : accounting_wf base d) (Hnow : 0 <= now <= i64_max) :
  match find_key pa_payment_hash h (payment_attempts d) with
  | None => mark_payment_failed h now d = Err Pay_ReservationConflict
            /\ release_uninitiated_payment h now d = Err Pay_ReservationConflict
  | Some r =>
      if now <? pa_updated_at r
      then mark_payment_failed h now d = Err Pay_ValueOutOfRange
           /\ release_uninitiated_payment h now d = Err Pay_ValueOutOfRange
      else match pa_initiated_at r, state_of (pa_state r) with
      | None, State_Reserved =>
          mark_payment_failed h now d = Err Pay_TerminalStateConflict
          /\ exists d', release_uninitiated_payment h now d = Ok (tt, d')
             /\ replaced base r None d d' /\ contribution r = pa_reserved_sat r
      | Some _, (State_Reserved | State_Pending) =>
          release_uninitiated_payment h now d = Err Pay_TerminalStateConflict
          /\ exists d', mark_payment_failed h now d
               = Ok (at_with_state State_Failed now (attempt_of r), d')
             /\ replaced base r (Some (pa_with_state "failed" now r)) d d'
             /\ contribution r = pa_reserved_sat r
             /\ contribution (pa_with_state "failed" now r) = 0
      | Some _, State_Failed =>
          mark_payment_failed h now d = Ok (attempt_of r, d)
          /\ release_uninitiated_payment h now d = Err Pay_TerminalStateConflict
      | _, _ => mark_payment_failed h now d = Err Pay_TerminalStateConflict
                /\ release_uninitiated_payment h now d = Err Pay_TerminalStateConflict
      end
  end.
Proof.
  pose proof (failed_tx base d h now Hwf Hnow) as H1.
  pose proof (release_tx base d h now Hwf Hnow) as H2.
  destruct (find_key pa_payment_hash h (payment_attempts d)) as [r|] eqn:Hf; [|done].
  destruct (now <? pa_updated_at r); [done|]. unfold was_initiated in *. simpl in H1, H2.
  apply find_key_Some in Hf as [Hr _]. destruct (attempt_row base d r Hwf Hr) as [Hc _].
  assert (forall s, state_of (pa_state r) = s -> s = State_Reserved \/ s = State_Pending ->
    contribution r = pa_reserved_sat r /\ contribution (pa_with_state "failed" now r) = 0) as Hcon.
  { intros s Hs Ho. split.
    - rewrite (open_contribution r s Hc Hs Ho). unfold reserved_sat. simpl. by rewrite (ak_reserved r Hc).
    - unfold contribution. cbn. pose proof (ak_settled r Hc) as H15.
      rewrite bool_decide_false in H15 by (destruct Ho; congruence). by destruct H15 as (_ & _ & -> & _). }
  destruct (pa_initiated_at r) as [t|]; simpl in H1, H2.
  - rewrite orb_true_r in H2. destruct (state_of (pa_state r)) eqn:Hs; try done; (split; [done|]);
      destruct H1 as (d' & H1 & H3); exists d'; destruct (Hcon _ eq_refl) as [-> ->]; auto.
  - destruct (state_of (pa_state r)) eqn:Hs; try done. split; [done|].
    destruct H2 as (d' & H2 & H3). exists d'. destruct (Hcon _ eq_refl) as [-> _]; auto.
Qed.

(** C20: Settlement charges what the wallet reports, fees included when the policy
    counts them, in place of the reservation; it reports a charge beyond the
    authorization instead of hiding it, replays an identical settlement, and
    refuses a contradicting one. *)
Theorem payment_settlement base d h ap af principal fee now
    (Hwf : accounting_wf base d) (Hnow : 0 <= now <= i64_max) (Hap : 0 <= ap) (Haf : 0 <= af)
    (Ep : msat_to_sat_ceil ap = Ok principal) (Ef : msat_to_sat_ceil af = Ok fee)
    (Hp : principal <= i64_max) (Hf : fee <= i64_max) :
  match find_key pa_payment_hash h (payment_attempts d) with
  | None => mark_payment_succeeded h ap af now d = Err Pay_ReservationConflict
  | Some r =>
      if now <? pa_updated_at r then mark_payment_succeeded h ap af now d = Err Pay_ValueOutOfRange
      else if negb (was_initiated (attempt_of r))
      then mark_payment_succeeded h ap af now d = Err Pay_TerminalStateConflict
      else if bool_decide (state_of (pa_state r) = State_Succeeded) then
        mark_payment_succeeded h ap af now d
        = if bool_decide (pa_actual_principal_sat r = Some principal)
             && bool_decide (pa_actual_fee_sat r = Some fee)
          then Ok (attempt_of r, d) else Err Pay_TerminalStateConflict
      else match find_key cn_id (pa_connection_id r) (connections d) with
      | None => mark_payment_succeeded h ap af now d = Err Pay_DatabaseUnavailable
      | Some c =>
        let count_fees := bool_decide (cn_fee_policy c = "count") in
        let charged := settlement_charge count_fees principal fee in
        let exceeded := settlement_exceeds count_fees r principal fee in
        exists p, find_key bp_key (pa_key r) (budget_periods d) = Some p
        /\ if bp_used_sat p - contribution r + charged <=? i64_max then
             exists d', mark_payment_succeeded h ap af now d
               = Ok (at_with_settlement principal fee charged exceeded now (attempt_of r), d')
             /\ replaced base r (Some (pa_with_settlement principal fee charged exceeded now r)) d d'
           else is_ok (mark_payment_succeeded h ap af now d) = false
      end
  end.
Proof. by apply succeeded_tx. Qed.

(** C1: The books balance: along any history of accounting transactions, by any
    process and in any order, every period's counter is the amount imported for
    it plus what its attempts count, with the constraints and keys intact. *)
Theorem books_balance base d d' (Hwf : accounting_wf base d) (Hsteps : rtc accounting_step d d') :
  accounting_wf base d'
  /\ forall k p, find_key bp_key k (budget_periods d') = Some p ->
       bp_used_sat p = base k + period_spend k d'.
Proof.
  pose proof (accounting_steps_effect base d d' Hsteps Hwf) as Hwf'.
  split; [done|]. by apply aw_spent.
Qed.

(** C2: The budget holds: as long as the wallet settles within what was reserved
    and never after reporting a failure, no history of accounting transactions
    takes a period beyond its limit. *)
Theorem budget_never_exceeded base d d'
    (Hwf : accounting_wf base d)
    (Hlimit : forall k p, find_key bp_key k (budget_periods d) = Some p ->
       bp_used_sat p <= bp_limit_sat p)
    (Hsteps : rtc (fun d1 d2 => accounting_step d1 d2 /\ forall k, ~ overruns k d1 d2) d d') :
  forall k p, find_key bp_key k (budget_periods d') = Some p -> bp_used_sat p <= bp_limit_sat p.
Proof.
  revert Hwf Hlimit. induction Hsteps as [d|d d1 d' [Hstep Hno] _ IH]; [done|].
  intros Hwf Hlimit. destruct (accounting_step_effect base d d1 Hstep Hwf) as (Hwf1 & _ & _ & Hb).
  apply IH; [done|]. intros k p Hp.
  destruct (Hb k p Hp) as [?|[(p0 & Hp0 & Hl & Hu)|Ho]]; [done| |by destruct (Hno k)].
  specialize (Hlimit k p0 Hp0). lia.
Qed.

(** C4: The payment lifecycle: an initiated attempt is never released and keeps its
    initiation time, event and period; a settled one stays settled with the same
    charge; whatever transactions follow. *)
Theorem payment_lifecycle base d d' h r
    (Hwf : accounting_wf base d) (Hsteps : rtc accounting_step d d')
    (Hr : find_key pa_payment_hash h (payment_attempts d) = Some r)
    (Hinit : pa_initiated_at r <> None) :
  exists r', find_key pa_payment_hash h (payment_attempts d') = Some r'
    /\ pa_terms r' = pa_terms r
    /\ pa_reserved_sat r' = pa_reserved_sat r /\ pa_initiated_at r' = pa_initiated_at r
    /\ (pa_state r = "succeeded" -> pa_state r' = "succeeded" /\ pa_charged_sat r' = pa_charged_sat r)
    /\ (pa_state r = "failed" -> pa_state r' = "failed" \/ pa_state r' = "succeeded")
    /\ (pa_state r = "pending" -> pa_state r' <> "reserved").
Proof.
  revert r Hr Hinit. induction Hsteps as [d|d d1 d' Hstep _ IH]; intros r Hr Hinit.
  { exists r. split_and!; auto. intros ->. done. }
  destruct (accounting_step_effect base d d1 Hstep Hwf) as (Hwf1 & _ & Hev & _).
  specialize (Hev h). rewrite Hr in Hev.
  destruct (find_key pa_payment_hash h (payment_attempts d1)) as [r1|] eqn:Hr1; simpl in Hev.
  2:{ destruct Hev as [_ Hno]. congruence. }
  destruct Hev as (He & Hres & Hini & Hst). specialize (Hini Hinit).
  destruct (IH Hwf1 r1 eq_refl ltac:(congruence))
    as (r' & Hr' & He' & Hres' & Hini' & Hsu & Hfa & Hpe).
  assert (exists a b, pa_state r1 = a /\ pa_state r = b) as (a & b & Ea & Eb) by eauto.
  exists r'. split_and!; try congruence.
  - intros Hs. destruct Hst as [[Hs1 Hch]|(_ & [[? ?]|[[[?|?] ?]|[? ?]]])]; try congruence.
    destruct (Hsu ltac:(congruence)) as [? ?]. split; congruence.
  - intros Hs. destruct Hst as [[Hs1 Hch]|(_ & [[? ?]|[[[?|?] ?]|[? ?]]])]; try congruence.
    + apply Hfa. congruence.
    + right. by apply Hsu.
  - intros Hs. destruct Hst as [[Hs1 Hch]|(_ & [[? ?]|[[[?|?] ?]|[? ?]]])]; try congruence.
    + apply Hpe. congruence.
    + destruct (Hfa ltac:(done)) as [-> | ->]; done.
    + destruct (Hsu ltac:(done)) as [-> _]; done.
Qed.

(** A pass over the queue, as [reconciliation_queue] states it. *)
Lemma load_unresolved_pass base d batch
    (Hwf : accounting_wf base d) (Hbatch : 0 <= batch < i64_max) :
  exists attempts more d' g,
    load_unresolved_payment_attempts batch d = Ok (attempts, more, d')
    /\ Z.of_nat (length attempts)
       = Z.min batch (Z.of_nat (length (select unresolved (payment_attempts d))))
    /\ more = (batch <? Z.of_nat (length (select unresolved (payment_attempts d))))
    /\ (forall a, a ∈ attempts ->
          exists r, r ∈ payment_attempts d /\ unresolved r = true /\ a = attempt_of r)
    /\ (more = false -> forall r, r ∈ payment_attempts d -> unresolved r = true ->
          attempt_of r ∈ attempts)
    /\ d' = set_payment_attempts (g <$> payment_attempts d) d
    /\ (forall r, r ∈ payment_attempts d -> same_attempt r (g r))
    /\ (forall r r', r ∈ payment_attempts d -> r' ∈ payment_attempts d ->
          unresolved r = true -> unresolved r' = true ->
          attempt_of r ∈ attempts -> attempt_of r' ∉ attempts ->
          pa_reconciliation_sequence (g r') < pa_reconciliation_sequence (g r)).
Proof.
  pose proof (load_unresolved_tx base batch d Hwf Hbatch) as Ht.
  pose proof (queue_start_spec base batch d Hwf Hbatch) as Hq.
  destruct (queue_start batch d) as [maximum d0].
  destruct Hq as (Hwf0 & _ & _ & (g & -> & Hg) & Hmax & _). destruct Ht as [Heq Hs].
  cbn [payment_attempts set_payment_attempts] in *.
  set (rows0 := g <$> payment_attempts d) in *.
  set (rows := limit (batch + 1) (order_by queue_order (select unresolved rows0))) in *.
  set (attempts := take (Z.to_nat batch) (attempt_of <$> rows)) in *.
  set (f := assigned 0 maximum attempts) in *.
  assert (length (select unresolved rows0) = length (select unresolved (payment_attempts d))) as Hlen.
  { apply select_length_fmap. intros r Hr.
    by destruct (same_attempt_fields r (g r) (Hg r Hr)) as (_ & _ & _ & _ & _ & -> & _). }
  assert (Z.of_nat (length rows)
    = Z.min (batch + 1) (Z.of_nat (length (select unresolved (payment_attempts d))))) as Hrows.
  { unfold rows, limit. rewrite length_take, order_by_Permutation, Hlen. lia. }
  exists attempts, (batch <? Z.of_nat (length (select unresolved (payment_attempts d)))),
    (set_payment_attempts ((f ∘ g) <$> payment_attempts d) d), (f ∘ g). split_and!.
  - rewrite Heq. unfold rows0. rewrite list_fmap_compose.
    replace (batch <? Z.of_nat (length rows))
      with (batch <? Z.of_nat (length (select unresolved (payment_attempts d)))); [done|].
    destruct (batch <? Z.of_nat (length rows)) eqn:E; bool_to_prop;
      [apply Z.ltb_lt|apply Z.ltb_ge]; lia.
  - unfold attempts. rewrite length_take, length_fmap. lia.
  - done.
  - intros a Ha. unfold attempts in Ha. apply elem_of_take in Ha as (i & Ha & _).
    apply list_elem_of_lookup_2, list_elem_of_fmap in Ha as (r0 & -> & Hr0).
    apply elem_of_order_limit, elem_of_select in Hr0 as [Hr0 Hu].
    apply list_elem_of_fmap in Hr0 as (r & -> & Hr). exists r.
    destruct (same_attempt_fields r (g r) (Hg r Hr)) as (_ & _ & _ & _ & _ & Hu' & -> & _).
    split_and!; congruence.
  - intros Hmore r Hr Hu. bool_to_prop. unfold attempts. rewrite take_ge by (rewrite length_fmap; lia).
    destruct (same_attempt_fields r (g r) (Hg r Hr)) as (_ & _ & _ & _ & _ & Eu & <- & _).
    apply list_elem_of_fmap_2. unfold rows, limit. rewrite take_ge.
    + rewrite order_by_Permutation. apply elem_of_select. split; [|congruence].
      by apply list_elem_of_fmap_2.
    + rewrite order_by_Permutation. lia.
  - done.
  - intros r Hr. eapply same_attempt_trans; [by apply Hg|]. apply Hs. by apply list_elem_of_fmap_2.
  - intros r r' Hr Hr' Hu Hu' Ha Ha'. simpl.
    destruct (same_attempt_fields r (g r) (Hg r Hr)) as (_ & Eh & _ & _ & _ & Eu & Ea & Es).
    destruct (same_attempt_fields r' (g r') (Hg r' Hr')) as (_ & Eh' & _ & _ & _ & Eu' & Ea' & _).
    assert (f (g r') = g r') as ->.
    { apply assigned_other. intros a Hin Hh. destruct Ha'. unfold attempts in Hin.
      apply elem_of_take in Hin as (i & Hin & Hi).
      assert (attempt_of r' = a) as ->; [|by eapply elem_of_take; eauto].
      apply list_elem_of_lookup_2, list_elem_of_fmap in Hin as (x & -> & Hx).
      apply elem_of_order_limit, elem_of_select in Hx as [Hx _]. rewrite <- Ea'. f_equal.
      destruct (aw_attempts base _ Hwf0) as (_ & _ & Hnd).
      apply (NoDup_key_inj pa_payment_hash rows0); [done|by apply list_elem_of_fmap_2|done|done]. }
    assert (maximum + (0 + 1) <= pa_reconciliation_sequence (f (g r))) as Hge.
    { apply assigned_in; [exists (attempt_of r); by split|].
      rewrite Es. unfold unresolved in Hu. by apply andb_prop in Hu as [? _]. }
    specialize (Hmax (g r') (list_elem_of_fmap_2 g _ _ Hr') ltac:(congruence)). lia.
Qed.

(** A pass of the reconciler always succeeds; it examines at most its batch, all
    of the unresolved attempts when they fit and reports more exactly when they
    do not; it changes nothing but queue positions, and moves what it examined
    behind every unresolved attempt it did not. *)
Theorem reconciliation_queue base d batch
    (Hwf : accounting_wf base d) (Hbatch : 0 <= batch < i64_max) :
  exists attempts more d' g,
    load_unresolved_payment_attempts batch d = Ok (attempts, more, d')
    /\ Z.of_nat (length attempts)
       = Z.min batch (Z.of_nat (length (select unresolved (payment_attempts d))))
    /\ more = (batch <? Z.of_nat (length (select unresolved (payment_attempts d))))
    /\ (forall a, a ∈ attempts ->
          exists r, r ∈ payment_attempts d /\ unresolved r = true /\ a = attempt_of r)
    /\ (more = false -> forall r, r ∈ payment_attempts d -> unresolved r = true ->
          attempt_of r ∈ attempts)
    /\ d' = set_payment_attempts (g <$> payment_attempts d) d
    /\ (forall r, r ∈ payment_attempts d -> same_attempt r (g r))
    /\ (forall r r', r ∈ payment_attempts d -> r' ∈ payment_attempts d ->
          unresolved r = true -> unresolved r' = true ->
          attempt_of r ∈ attempts -> attempt_of r' ∉ attempts ->
          pa_reconciliation_sequence (g r') < pa_reconciliation_sequence (g r)).
Proof. by apply (load_unresolved_pass base). Qed.

(** ** A run of the model

    The connection imported at 200 with 40 satoshis used: a payment of 500 with
    the 10 of its fee reserve is reserved, initiated and settled. *)

Definition sample_base (k : string * Z) : Z := if bool_decide (k = ("c1"%string, 100)) then 40 else 0.
Definition sample_hash : PaymentHash := repeat 9 32.
Definition reserve_sample (principal : Z) (d : Database) :=
  reserve_payment sample_event sample_hash sample_active principal 250 d.
Definition reserved_database : Database := run (reserve_sample 500 imported_database).
Definition initiated_database : Database :=
  run (mark_payment_initiated sample_hash 251 reserved_database).
Definition settled_database : Database :=
  run (mark_payment_succeeded sample_hash 500000 3000 260 initiated_database).

Lemma imported_accounting_wf : accounting_wf sample_base imported_database.
Proof.
  assert (forall k p, find_key bp_key k (budget_periods imported_database) = Some p ->
    k = ("c1"%string, 100) /\ bp_used_sat p = 40) as Hp.
  { intros k p H. apply find_key_Some in H as [H1 <-].
    assert (budget_periods imported_database
      = [mkBudgetPeriodRow "c1" 100 1000 40 200]) as E by (by vm_compute).
    rewrite E in H1. by apply list_elem_of_singleton in H1 as ->. }
  assert (payment_attempts imported_database = []) as Ha by (by vm_compute).
  split; rewrite ?Ha; try (intros r Hr; by apply elem_of_nil in Hr).
  - decide_concrete.
  - split_and!; constructor.
  - intros k. unfold sample_base. by case_bool_decide.
  - intros k p [-> ->]%Hp. unfold period_spend. by rewrite Ha.
  - intros k p [_ ->]%Hp. done.
  - intros k H. unfold sample_base. case_bool_decide as Hk; [|done]. subst k. by vm_compute in H.
Qed.

Lemma reserved_step : accounting_step imported_database reserved_database.
Proof.
  eapply (step_reserve sample_event sample_hash sample_active 500 250 (Outcome_Reserved _));
    first [by vm_compute|split; by vm_compute].
Qed.

Lemma settled_steps : rtc accounting_step reserved_database settled_database.
Proof.
  eapply rtc_l; [|apply rtc_once].
  - eapply (step_initiated sample_hash 251); [split; by vm_compute|by vm_compute].
  - eapply (step_succeeded sample_hash 500000 3000 260); [split; by vm_compute..|by vm_compute].
Qed.

Lemma reserved_accounting_wf : accounting_wf sample_base reserved_database.
Proof. eapply accounting_steps_effect; [by apply rtc_once, reserved_step|apply imported_accounting_wf]. Qed.

Lemma settled_accounting_wf : accounting_wf sample_base settled_database.
Proof. eapply accounting_steps_effect; [apply settled_steps|apply reserved_accounting_wf]. Qed.

(** A daily budget created at 100: at 86500 the second period starts. *)
Lemma period_start_spec_witness :
  period_start (mkConnectionBudget 100 1000 (Some 86400) 10) 86499 = Ok 100
  /\ forall s, imported_budget_period_start Daily 100 86500 = Ok s -> 100 <= s.
Proof.
  split; [by vm_compute|]. intros s Hs.
  destruct (period_start_spec Daily 100 86500 (mkConnectionBudget 100 1000 (Some 86400) 10))
    as (H1 & _ & H2 & _); [split; by vm_compute..|by vm_compute|by vm_compute|].
  apply H1, H2 in Hs. lia.
Defined.

Lemma reserve_payment_refines_witness :
  reserve_spec sample_base sample_event sample_hash sample_active 2000 250
    (mkConnectionBudget 100 1000 (Some 86400) 10) 100 imported_database (Err Pay_BudgetExceeded)
  /\ exists d', reserve_sample 500 imported_database
       = Ok (Outcome_Reserved (attempt_of (reservation_row sample_event sample_hash sample_active
               100 500 10 250 1)), d').
Proof.
  split.
  - apply (reserve_payment_refines sample_base imported_database sample_event sample_hash
      sample_active 2000 250 (mkConnectionBudget 100 1000 (Some 86400) 10) 100);
      [apply imported_accounting_wf|by vm_compute..].
  - eexists. by vm_compute.
Defined.

Lemma reservation_needs_authority_witness :
  exists r, r ∈ connections imported_database /\ cn_id r = "c1"%string /\ cn_status r = "active"%string.
Proof.
  destruct (reservation_needs_authority sample_event sample_hash sample_active 500 250
    imported_database _ reserved_database eq_refl) as (r & H1 & H2 & _ & H3 & _).
  exists r. split_and!; [exact H1|exact H2|exact H3].
Defined.

Lemma payment_progress_witness :
  mark_payment_pending sample_hash 251 reserved_database = Err Pay_TerminalStateConflict.
Proof.
  assert (0 <= 251 <= i64_max) as Hnow by (by vm_compute).
  pose proof (payment_progress sample_base reserved_database sample_hash 251
    reserved_accounting_wf Hnow) as H.
  destruct (find_key _ _ _) as [r|] eqn:E in H; [|vm_compute in E; discriminate].
  assert (r = reservation_row sample_event sample_hash sample_active 100 500 10 250 1) as ->
    by (vm_compute in E; injection E as <-; reflexivity).
  apply H.
Defined.

Lemma payment_refund_witness :
  exists d', release_uninitiated_payment sample_hash 251 reserved_database = Ok (tt, d')
  /\ forall k p', find_key bp_key k (budget_periods d') = Some p' -> exists p,
       find_key bp_key k (budget_periods reserved_database) = Some p
       /\ bp_used_sat p' = bp_used_sat p + (if bool_decide (k = ("c1"%string, 100)) then -510 else 0).
Proof.
  assert (0 <= 251 <= i64_max) as Hnow by (by vm_compute).
  pose proof (payment_refund sample_base reserved_database sample_hash 251
    reserved_accounting_wf Hnow) as H.
  destruct (find_key _ _ _) as [r|] eqn:E in H; [|vm_compute in E; discriminate].
  assert (r = reservation_row sample_event sample_hash sample_active 100 500 10 250 1) as ->
    by (vm_compute in E; injection E as <-; reflexivity).
  destruct H as (_ & d' & H & [_ _ H3 _] & _). exists d'. split; [exact H|].
  intros k p' Hp'. destruct (H3 k p' Hp') as (p & Hp & _ & Hu). exists p. split; [exact Hp|].
  exact Hu.
Defined.

Lemma initiated_accounting_wf : accounting_wf sample_base initiated_database.
Proof.
  eapply accounting_steps_effect; [apply rtc_once|apply reserved_accounting_wf].
  eapply (step_initiated sample_hash 251); [split; by vm_compute|by vm_compute].
Qed.

Lemma payment_settlement_witness :
  exists d', mark_payment_succeeded sample_hash 500000 3000 260 initiated_database
    = Ok (at_with_settlement 500 3 503 false 260
            (attempt_of (pa_with_initiated 251
               (reservation_row sample_event sample_hash sample_active 100 500 10 250 1))), d').
Proof.
  assert (0 <= 260 <= i64_max /\ 500 <= i64_max /\ 3 <= i64_max) as (H1 & H2 & H3) by (by vm_compute).
  assert (msat_to_sat_ceil 500000 = Ok 500 /\ msat_to_sat_ceil 3000 = Ok 3) as (H4 & H5) by (by vm_compute).
  pose proof (payment_settlement sample_base initiated_database sample_hash 500000 3000 500 3 260
    initiated_accounting_wf H1 ltac:(done) ltac:(done) H4 H5 H2 H3) as H.
  assert (find_key pa_payment_hash sample_hash (payment_attempts initiated_database)
    = Some (pa_with_initiated 251
              (reservation_row sample_event sample_hash sample_active 100 500 10 250 1))) as E
    by (clear; vm_compute; reflexivity).
  rewrite E in H. cbn [pa_updated_at pa_with_initiated] in H.
  change (260 <? 251) with false in H.
  assert (exists c, find_key cn_id "c1"%string (connections initiated_database) = Some c
    /\ cn_fee_policy c = "count"%string) as (c & Ec & Hc)
    by (clear; eexists; split; [vm_compute; reflexivity|reflexivity]).
  change (pa_connection_id _) with "c1"%string in H. rewrite Ec, Hc in H.
  assert (find_key bp_key ("c1"%string, 100) (budget_periods initiated_database)
    = Some (mkBudgetPeriodRow "c1" 100 1000 550 250)) as Ep by (clear; vm_compute; reflexivity).
  destruct H as (p & Hp & H). change (pa_key _) with ("c1"%string, 100) in Hp.
  rewrite Ep in Hp. injection Hp as <-. destruct H as (d' & H & _). exists d'. exact H.
Defined.

Lemma books_balance_witness :
  exists p, find_key bp_key ("c1"%string, 100) (budget_periods settled_database) = Some p
  /\ bp_used_sat p = 40 + 503.
Proof.
  assert (find_key bp_key ("c1"%string, 100) (budget_periods settled_database)
    = Some (mkBudgetPeriodRow "c1" 100 1000 543 260)) as Hp by (by vm_compute).
  eexists. split; [exact Hp|]. destruct (books_balance sample_base imported_database settled_database
    imported_accounting_wf (rtc_l _ _ _ _ reserved_step settled_steps)) as [_ H].
  rewrite (H _ _ Hp). clear. by vm_compute.
Defined.

Lemma budget_never_exceeded_witness :
  exists p, find_key bp_key ("c1"%string, 100) (budget_periods reserved_database) = Some p
  /\ bp_used_sat p <= bp_limit_sat p.
Proof.
  assert (find_key bp_key ("c1"%string, 100) (budget_periods reserved_database)
    = Some (mkBudgetPeriodRow "c1" 100 1000 550 250)) as Hp by (by vm_compute).
  eexists. split; [exact Hp|]. revert Hp.
  apply (budget_never_exceeded sample_base imported_database reserved_database).
  - apply imported_accounting_wf.
  - intros k p H. apply find_key_Some in H as [H _].
    assert (budget_periods imported_database
      = [mkBudgetPeriodRow "c1" 100 1000 40 200]) as E by (clear; by vm_compute).
    rewrite E in H. apply list_elem_of_singleton in H as ->. done.
  - apply rtc_once. split; [apply reserved_step|]. intros k (h & r & H & _).
    assert (payment_attempts imported_database = []) as E by (clear; by vm_compute).
    by rewrite E in H.
Defined.

Lemma payment_lifecycle_witness :
  exists r', find_key pa_payment_hash sample_hash (payment_attempts settled_database) = Some r'
    /\ pa_initiated_at r' = Some 251.
Proof.
  assert (rtc accounting_step initiated_database settled_database) as Hs.
  { apply rtc_once. eapply (step_succeeded sample_hash 500000 3000 260);
      [split; by vm_compute..|by vm_compute]. }
  destruct (payment_lifecycle sample_base initiated_database settled_database sample_hash
    (pa_with_initiated 251 (reservation_row sample_event sample_hash sample_active 100 500 10 250 1))
    initiated_accounting_wf Hs ltac:(clear; by vm_compute) ltac:(done)) as (r' & H1 & _ & _ & H2 & _).
  exists r'. split; [exact H1|exact H2].
Defined.

Lemma reconciliation_queue_witness :
  exists attempts more d', load_unresolved_payment_attempts 5 reserved_database
    = Ok (attempts, more, d') /\ length attempts = 1%nat /\ more = false.
Proof.
  assert (0 <= 5 < i64_max) as Hb by (by vm_compute).
  destruct (reconciliation_queue sample_base reserved_database 5 reserved_accounting_wf Hb)
    as (attempts & more & d' & g & H1 & H2 & H3 & _).
  assert (length (select unresolved (payment_attempts reserved_database)) = 1%nat) as E
    by (clear; by vm_compute).
  rewrite E in H2, H3. exists attempts, more, d'. split; [exact H1|].
  split; [simpl in H2; lia|exact H3].
Defined.
