(* ===== verification/Requests.v ===== *)
(** * NIP-47 requests and responses

    The data of NIP-47 the engine reads and writes (types of the [nostr] crate,
    whose JSON codec is the interface [Nip47Json]) and the pure conversions of
    [engine.rs] between them and the wallet's requests and results. *)
From S2P Require Import Prelude Types Policy Outcome Host Registry NostrValidation Invoices.
#[local] Open Scope Z_scope.

(** ** Protocol data *)

Inductive Method : Type :=
| Method_GetInfo | Method_GetBalance | Method_MakeInvoice | Method_PayInvoice
| Method_LookupInvoice | Method_ListTransactions
| Method_Unsupported (name : string).

Inductive ErrorCode : Type :=
| Code_NotImplemented | Code_Restricted | Code_NotFound | Code_Other | Code_Internal
| Code_QuotaExceeded | Code_RateLimited | Code_InsufficientBalance | Code_PaymentFailed.

#[export] Instance ErrorCode_eq_dec : EqDecision ErrorCode.
Proof. solve_decision. Defined.

Record Nip47MakeInvoice := mkNip47MakeInvoice {
  nmi_amount : Z;
  nmi_description : option string;
  nmi_description_hash : option string;
  nmi_expiry : option Z;
}.
Record Nip47PayInvoice := mkNip47PayInvoice {
  npi_invoice : string;
  npi_amount : option Z;
}.
Record Nip47LookupInvoice := mkNip47LookupInvoice {
  nli_payment_hash : option string;
  nli_invoice : option string;
}.
Record Nip47ListTransactions := mkNip47ListTransactions {
  nlt_from : option Z;
  nlt_until : option Z;
  nlt_limit : option Z;
  nlt_offset : option Z;
  nlt_unpaid : option bool;
  nlt_transaction_type : option TransactionDirection;
}.

Inductive RequestParams : Type :=
| Params_GetInfo
| Params_GetBalance
| Params_MakeInvoice (r : Nip47MakeInvoice)
| Params_PayInvoice (r : Nip47PayInvoice)
| Params_LookupInvoice (r : Nip47LookupInvoice)
| Params_ListTransactions (r : Nip47ListTransactions)
| Params_Unsupported.

Record Request := mkRequest { req_method : Method; req_params : RequestParams }.

Inductive TransactionState : Type := State_settled | State_pending | State_failed.

Record Nip47GetInfoResponse := mkNip47GetInfoResponse {
  gir_pubkey : option string;
  gir_methods : list Method;
  gir_notifications : list string;
}.
Record Nip47MakeInvoiceResponse := mkNip47MakeInvoiceResponse {
  mvr_invoice : string;
  mvr_payment_hash : string;
  mvr_description : option string;
  mvr_amount : Z;
  mvr_created_at : Z;
  mvr_expires_at : Z;
}.
Record Nip47Transaction := mkNip47Transaction {
  nt_transaction_type : TransactionDirection;
  nt_state : TransactionState;
  nt_preimage : option string;
  nt_payment_hash : string;
  nt_amount : Z;
  nt_fees_paid : Z;
  nt_created_at : Z;
  nt_settled_at : option Z;
}.
Inductive ResponseResult : Type :=
| Result_GetInfo (r : Nip47GetInfoResponse)
| Result_GetBalance (balance : Z)
| Result_MakeInvoice (r : Nip47MakeInvoiceResponse)
| Result_PayInvoice (preimage : string) (fees_paid : Z)
| Result_LookupInvoice (t : Nip47Transaction)
| Result_ListTransactions (l : list Nip47Transaction).

(** [Response]: the error with its message, or the result. *)
Record Response := mkResponse {
  rsp_result_type : Method;
  rsp_error : option (ErrorCode * string);
  rsp_result : option ResponseResult;
}.

Class Nip47Json := {
  request_from_json : string -> option Request;
  response_as_json : Response -> string;
}.

(** The parser of the [nostr] crate chooses the parameters by the method. *)
Definition params_match (m : Method) (p : RequestParams) : bool :=
  match m, p with
  | Method_GetInfo, Params_GetInfo | Method_GetBalance, Params_GetBalance
  | Method_MakeInvoice, Params_MakeInvoice _ | Method_PayInvoice, Params_PayInvoice _
  | Method_LookupInvoice, Params_LookupInvoice _
  | Method_ListTransactions, Params_ListTransactions _
  | Method_Unsupported _, Params_Unsupported => true
  | _, _ => false
  end.
Class Nip47Laws (J : Nip47Json) := {
  request_params_match : forall s r, request_from_json s = Some r ->
    params_match (req_method r) (req_params r) = true;
}.

(** ** Constants and tables *)

Definition ENGINE_RETRY_DELAY : Duration := from_secs 5.
Definition DEFAULT_LIST_LIMIT : Z := 20.
Definition MAX_LIST_LIMIT : Z := 100.
Definition DEFAULT_INVOICE_EXPIRY : Duration := from_secs (60 * 60).
Definition MAX_INVOICE_EXPIRY : Duration := from_secs (7 * 24 * 60 * 60).
Definition MAX_INVOICE_DESCRIPTION_BYTES : Z := 1024.

Definition domain_method (m : Method) : option NwcMethod :=
  match m with
  | Method_GetInfo => Some GetInfo
  | Method_GetBalance => Some GetBalance
  | Method_MakeInvoice => Some MakeInvoice
  | Method_PayInvoice => Some PayInvoice
  | Method_LookupInvoice => Some LookupInvoice
  | Method_ListTransactions => Some ListTransactions
  | Method_Unsupported _ => None
  end.

Definition protocol_method (m : NwcMethod) : Method :=
  match m with
  | GetInfo => Method_GetInfo
  | GetBalance => Method_GetBalance
  | MakeInvoice => Method_MakeInvoice
  | PayInvoice => Method_PayInvoice
  | LookupInvoice => Method_LookupInvoice
  | ListTransactions => Method_ListTransactions
  end.

Definition is_direct_request (m : NwcMethod) : bool :=
  match m with
  | GetInfo | GetBalance | MakeInvoice | LookupInvoice | ListTransactions => true
  | PayInvoice => false
  end.
Definition is_engine_supported (m : NwcMethod) : bool :=
  bool_decide (m = PayInvoice) || is_direct_request m.

Definition event_rejection (e : NostrEventError) : RejectionCode :=
  match e with
  | InvalidCreatedAt => Reject_EventOutsideFreshnessWindow
  | EventIdMismatch => Reject_EventMismatch
  | _ => Reject_InvalidEvent
  end.

Definition host_error_code (e : HostError) : ErrorCode :=
  match e with NotFound => Code_NotFound | HostRejected => Code_Other | _ => Code_Internal end.

Definition payment_failure_code (reason : PaymentFailure) : ErrorCode :=
  match reason with
  | InsufficientFunds => Code_InsufficientBalance
  | InvalidInvoice | NoRoute | RecipientRejected | PaymentFailure_Other => Code_PaymentFailed
  end.

Definition protocol_error_message (code : ErrorCode) : string :=
  match code with
  | Code_NotImplemented => "method is not implemented"
  | Code_Restricted => "method is not authorized"
  | Code_NotFound => "wallet object was not found"
  | Code_Other => "request was rejected"
  | _ => "wallet operation failed"
  end.

Definition engine_msat_to_sat_ceil (amount_msat : Z) : option Z :=
  match checked_add_u64 amount_msat 999 with Some rounded => Some (rounded / 1000) | None => None end.

(** The lease covers the rest of the deadline and one second. *)
Definition lease_duration_for_budget (remaining : Duration) : option Duration :=
  if duration_is_zero remaining then None
  else
    let seconds := duration_as_secs remaining in
    let nanos := remaining - from_secs seconds in
    match checked_add_u64 seconds (if nanos =? 0 then 0 else 1) with
    | None => None
    | Some rounded_seconds => from_secs <$> checked_add_u64 rounded_seconds 1
    end.

(** ** Dispositions *)

Definition completed (notification : NotificationHint) : WakeDisposition := Completed notification.
Definition already_processed : WakeDisposition := AlreadyProcessed Hint_Completed.
Definition queued (reason : QueueReason) : WakeDisposition :=
  QueuedForApplication reason Hint_OpenApplication.
Definition retry (delay : Duration) (reason : RetryReason) : WakeDisposition :=
  RetryAfter delay reason Hint_Processing.
Definition rejected (code : RejectionCode) : WakeDisposition := Rejected code Hint_Completed.

(** ** Requests to the wallet *)

Definition parse_make_invoice_request (r : Nip47MakeInvoice)
  : Result HostErrorKind (MakeInvoiceRequest * option string) :=
  if (nmi_amount r =? 0) || is_some (nmi_description_hash r) then Err HostRejected
  else if match nmi_description r with
          | Some d => MAX_INVOICE_DESCRIPTION_BYTES <? str_len d
          | None => false
          end
  then Err HostRejected
  else
  let expiry := from_secs (default (duration_as_secs DEFAULT_INVOICE_EXPIRY) (nmi_expiry r)) in
  if duration_is_zero expiry || (MAX_INVOICE_EXPIRY <? expiry) then Err HostRejected
  else Ok (mkMakeInvoiceRequest (nmi_amount r) (nmi_description r) expiry, nmi_description r).

Definition parse_lookup_request (r : Nip47LookupInvoice) : Result HostErrorKind InvoiceLookup :=
  match nli_payment_hash r, nli_invoice r with
  | Some hash, None =>
      let? h := map_err (fun _ => HostRejected) (Hex32_from_hex hash) in Ok (Lookup_PaymentHash h)
  | _, Some invoice =>
      if negb (string_is_empty invoice) && (str_len invoice <=? 16384)
      then Ok (Lookup_Invoice invoice) else Err HostRejected
  | None, None => Err HostRejected
  end.

Definition parse_list_request (r : Nip47ListTransactions)
  : Result HostErrorKind ListTransactionsRequest :=
  if match nlt_from r, nlt_until r with Some from, Some until => until <? from | _, _ => false end
  then Err HostRejected
  else
  let requested_limit := default DEFAULT_LIST_LIMIT (nlt_limit r) in
  let? limit := ok_or HostRejected (u16_try_from (Z.min requested_limit MAX_LIST_LIMIT)) in
  let? offset := ok_or HostRejected (u32_try_from (default 0 (nlt_offset r))) in
  Ok (mkListTransactionsRequest (nlt_from r) (nlt_until r) limit offset (nlt_transaction_type r)
        (default false (nlt_unpaid r))).

Definition transaction_response (t : WalletTransaction) : Result HostErrorKind Nip47Transaction :=
  let? hash := ok_or Internal (tx_payment_hash t) in
  let '(state, preimage) :=
    match tx_status t with
    | Status_Unknown | Status_Pending => (State_pending, None)
    | Status_Succeeded preimage _ _ => (State_settled, Some (Hex32_to_hex preimage))
    | Status_Failed _ => (State_failed, None)
    end in
  Ok (mkNip47Transaction (tx_direction t) state preimage (Hex32_to_hex hash) (tx_amount t)
        (tx_fee t) (tx_created_at t) (tx_settled_at t)).

Definition pending_tracked_invoice_transaction (i : TrackedNwcInvoice) : WalletTransaction :=
  mkWalletTransaction (Some (ti_payment_hash i)) Incoming (ti_amount i) 0 (ti_created_at i) None
    Status_Pending.
