(* ===== verification/Program.v ===== *)
(** * Programs over the ledger and the host

    The asynchronous code of the library alternates ledger transactions with
    calls to what the application provides: the traits [Clock],
    [CancellationSignal], [NwcWalletBackend], [RelayTransport], [SecretProvider]
    of [host.rs], [WakeDiagnosticSink] of [diagnostics.rs],
    [WakeRegistrationTransport] of [wake_registration_worker.rs],
    [ClientSecretStore] of [application.rs], the HTTP client of
    [nwc-mobile-http], the node provider, the completion handler and the timers
    of [nwc-mobile-tokio], the random sources, and the monotonic clock behind
    [OperationDeadline].  A program is the tree of those calls; it can be
    stopped anywhere, and other processes may change the database between any
    two of its calls. *)
From S2P Require Import Prelude Types Host Ledger Schema Registration.
#[local] Open Scope Z_scope.

Inductive WakeDiagnosticCode : Type :=
| PaymentRequestAccepted | PaymentQuoteFailed | PaymentBudgetExceeded
| PaymentStatusLookupFailed | PaymentFeeLimitExceeded | PaymentInsufficientFunds
| PaymentBackendFailed | PaymentPending | PaymentSucceeded | InvoiceLookupNotFound
| InvoiceLookupPending | InvoiceLookupSettled | InvoiceLookupFailed | ResponsePublishFailed.

(** Why an HTTP request has no response. *)
Inductive HttpFailure : Type := Http_TimedOut | Http_Builder | Http_Failed.

(** The methods of the host traits; [context] is the [OperationBudget] of the
    [OperationContext] argument. *)
Inductive HostCall : Type -> Type :=
| clock_now : HostCall UnixTimestamp
| is_cancelled : HostCall bool
| elapsed : HostCall Duration
| get_info (context : Duration) : HostCall (Result HostError WalletInfo)
| get_balance (context : Duration) : HostCall (Result HostError AmountMsat)
| make_invoice (request : MakeInvoiceRequest) (context : Duration)
  : HostCall (Result HostError CreatedInvoice)
| quote_payment (invoice : string) (amount : option AmountMsat) (context : Duration)
  : HostCall (Result HostError PaymentQuote)
| payment_status (payment_hash : PaymentHash) (context : Duration)
  : HostCall (Result HostError PaymentStatus)
| start_payment (request : PayInvoiceRequest) (context : Duration)
  : HostCall (Result HostError PaymentStatus)
| lookup_invoice (request : InvoiceLookup) (context : Duration)
  : HostCall (Result HostError (option WalletTransaction))
| list_transactions (request : ListTransactionsRequest) (context : Duration)
  : HostCall (Result HostError (list WalletTransaction))
| fetch_event (relay : string) (event_id : EventId) (maximum_event_bytes : Z) (context : Duration)
  : HostCall (Result HostError (option string))
| publish_event (relay event_json : string) (context : Duration) : HostCall (Result HostError unit)
| load_nwc_secret (connection_id : ConnectionId) (context : Duration)
  : HostCall (Result HostError NwcSecretKey)
| apply_registration (server_url : string) (change : WakeRegistrationChange) (context : Duration)
  : HostCall (Result HostError unit)
| record_diagnostic (code : WakeDiagnosticCode) : HostCall unit
(** [getrandom::fill] of a buffer, and the randomness the ciphers draw. *)
| random_bytes (n : nat) : HostCall (option (list Z))
| cipher_entropy : HostCall (list Z)
(** [Keys::generate] of the nostr crate: the public key and the secret key. *)
| generate_keys : HostCall (PublicKey * NwcSecretKey)
(** [ClientSecretStore] of [application.rs]; its error carries nothing. *)
| load_client_secret (storage_key : string) : HostCall (Result unit (option string))
| store_client_secret (storage_key secret : string) : HostCall (Result unit unit)
| delete_client_secret (storage_key : string) : HostCall (Result unit unit)
(** A POST of a JSON body that follows no redirect: the status of the response. *)
| http_post (url authorization : string) (body : list Z) : HostCall (Result HttpFailure Z)
(** [Instant::now] since some origin, and [tokio::time::sleep]. *)
| instant_now : HostCall Duration
| sleep (interval : Duration) : HostCall unit
(** [LightningNodeProvider::open_node] and [NwcMobileCompletionHandler::complete],
    each under [run_with_context]. *)
| open_node (wallet_service_pubkey : PublicKey) (context : Duration) : HostCall (Result HostError WalletInfo)
| complete_wake (request_event_id : EventId) (context : Duration) : HostCall (Result HostError unit).

(** ** Values a host can answer

    The Rust types bound every integer and fix every array length. *)

Definition hash_bytes (h : list Z) : Prop := length h = 32%nat.

Definition status_typed (s : PaymentStatus) : Prop :=
  match s with
  | Status_Succeeded preimage amount fee => hash_bytes preimage /\ u64 amount /\ u64 fee
  | _ => True
  end.

Definition transaction_typed (t : WalletTransaction) : Prop :=
  (forall h, tx_payment_hash t = Some h -> hash_bytes h) /\ u64 (tx_amount t) /\ u64 (tx_fee t)
  /\ u64 (tx_created_at t) /\ (forall s, tx_settled_at t = Some s -> u64 s)
  /\ status_typed (tx_status t).

Definition answer_typed {X} (c : HostCall X) : X -> Prop :=
  match c in HostCall X return X -> Prop with
  | clock_now => fun t => u64 t
  | is_cancelled => fun _ => True
  | elapsed => fun t => duration t
  | get_info _ => fun r => forall i, r = Ok i -> forall k, wallet_public_key i = Some k -> hash_bytes k
  | get_balance _ => fun r => forall b, r = Ok b -> u64 b
  | make_invoice _ _ => fun r => forall i, r = Ok i ->
      hash_bytes (ci_payment_hash i) /\ u64 (ci_amount i) /\ u64 (ci_expires_at i)
  | quote_payment _ _ _ => fun r => forall q, r = Ok q -> hash_bytes (pq_payment_hash q) /\ u64 (pq_principal q)
  | payment_status _ _ | start_payment _ _ => fun r => forall s, r = Ok s -> status_typed s
  | lookup_invoice _ _ => fun r => forall t, r = Ok (Some t) -> transaction_typed t
  | list_transactions _ _ => fun r => forall l, r = Ok l -> Forall transaction_typed l
  | fetch_event _ _ _ _ => fun _ => True
  | publish_event _ _ _ => fun _ => True
  | apply_registration _ _ _ => fun _ => True
  | load_nwc_secret _ _ => fun r => forall s, r = Ok s -> hash_bytes s
  | record_diagnostic _ => fun _ => True
  | random_bytes n => fun r => forall b, r = Some b -> length b = n
  | cipher_entropy => fun _ => True
  | generate_keys => fun keys => hash_bytes keys.1 /\ hash_bytes keys.2
  | load_client_secret _ | delete_client_secret _ => fun _ => True
  | store_client_secret _ _ => fun _ => True
  | http_post _ _ _ => fun _ => True
  | instant_now => fun t => duration t
  | sleep _ => fun _ => True
  | open_node _ _ => fun r => forall i, r = Ok i -> forall k, wallet_public_key i = Some k -> hash_bytes k
  | complete_wake _ _ => fun _ => True
  end.

(** ** Programs *)

Inductive Prog (R : Type) : Type :=
| Ret (r : R)
| Host {X} (c : HostCall X) (k : X -> Prog R)
| Transact {E A} (t : Tx E A) (k : Result E A -> Prog R).
Arguments Ret {R} r.
Arguments Host {R X} c k.
Arguments Transact {R E A} t k.

Fixpoint bind {R S} (p : Prog R) (f : R -> Prog S) : Prog S :=
  match p with
  | Ret r => f r
  | Host c k => Host c (fun x => bind (k x) f)
  | Transact t k => Transact t (fun x => bind (k x) f)
  end.

Definition call {X} (c : HostCall X) : Prog X := Host c Ret.
Definition ledger {E A} (t : Tx E A) : Prog (Result E A) := Transact t Ret.
(** A ledger call that only reads. *)
Definition read {E A} (f : Database -> Result E A) : Tx E A := fun d =>
  let? a := f d in Ok (a, d).

Notation "'let*' x ':=' m 'in' k" := (bind m (fun x => k))
  (at level 10, x pattern, m at level 100, k at level 200) : nwc_scope.

(** [OperationDeadline::context]. *)
Definition context (deadline : OperationDeadline) : Prog (option Duration) :=
  let* cancelled := call is_cancelled in
  if (cancelled : bool) then Ret None
  else let* time := call elapsed in Ret (deadline_context deadline false time).

(** ** Execution

    One step of a program in a database: another process commits, the host
    answers, or a ledger transaction commits or rolls back. *)
Section Semantics.
Context (env : Database -> Database -> Prop).

Definition prog_step {R} (s s' : Prog R * Database) : Prop :=
  let '(p, d) := s in let '(p', d') := s' in
  p' = p /\ env d d'
  \/ match p with
     | Ret _ => False
     | Host c k => exists x, answer_typed c x /\ p' = k x /\ d' = d
     | Transact t k =>
         match t d with
         | Ok (a, d1) => p' = k (Ok a) /\ d' = d1
         | Err e => p' = k (Err e) /\ d' = d
         end
     end.

Definition reaches {R} (s s' : Prog R * Database) : Prop := rtc prog_step s s'.

End Semantics.

(** A scripted host: [answers] gives what it says to each call in turn. *)
Fixpoint run_prog {R} (answers : nat -> forall X, HostCall X -> X) (n : nat) (p : Prog R)
    (d : Database) : R * Database :=
  match p with
  | Ret r => (r, d)
  | Host c k => run_prog answers (S n) (k (answers n _ c)) d
  | Transact t k =>
      match t d with
      | Ok (a, d') => run_prog answers n (k (Ok a)) d'
      | Err e => run_prog answers n (k (Err e)) d
      end
  end.

Lemma run_prog_reaches {R} (env : Database -> Database -> Prop) answers :
  (forall n X (c : HostCall X), answer_typed c (answers n X c)) ->
  forall (p : Prog R) n d, reaches env (p, d)
    (Ret (run_prog answers n p d).1, (run_prog answers n p d).2).
Proof.
  intros Ha p. induction p as [r|X c k IH|E A t k IH]; intros n d; simpl.
  - apply rtc_refl.
  - eapply rtc_l; [|apply IH]. simpl. right. eauto.
  - destruct (t d) as [[a d']|e] eqn:Ht; (eapply rtc_l; [|apply IH]); simpl; right; by rewrite Ht.
Qed.

(** The state after [n] calls of a program that runs alone. *)
Fixpoint advance {R} (answers : forall X, HostCall X -> X) (n : nat) (p : Prog R) (d : Database)
  : Prog R * Database :=
  match n with
  | O => (p, d)
  | S m =>
      match p with
      | Ret r => (p, d)
      | Host c k => advance answers m (k (answers _ c)) d
      | Transact t k =>
          match t d with
          | Ok (a, d') => advance answers m (k (Ok a)) d'
          | Err e => advance answers m (k (Err e)) d
          end
      end
  end.

Lemma advance_reaches {R} (env : Database -> Database -> Prop) answers :
  (forall X (c : HostCall X), answer_typed c (answers X c)) ->
  forall n (p : Prog R) d, reaches env (p, d) (advance answers n p d).
Proof.
  intros Ha n. induction n as [|n IH]; intros p d; [apply rtc_refl|].
  destruct p as [r|X c k|E A t k]; simpl; [apply rtc_refl| |].
  - eapply rtc_l; [|apply IH]. simpl. right. eauto.
  - destruct (t d) as [[a d']|e] eqn:Ht; (eapply rtc_l; [|apply IH]); simpl; right; by rewrite Ht.
Qed.

(** ** Reasoning

    [wp rely guar safe p Q d]: from [d], whatever other processes that keep to
    [rely] and the host do, every commit of [p] keeps to [guar], every call of
    [p] is [safe] in the database it is made in, and [p] ends in [Q]. *)
Section Wp.
Context (rely guar : Database -> Database -> Prop).
Context (safe : forall X, HostCall X -> Database -> Prop).

Section Precondition.
Context {R : Type} (Q : R -> Database -> Prop).

Fixpoint wp_of (p : Prog R) (d0 : Database) : Prop :=
  forall d, rtc rely d0 d ->
  match p with
  | Ret r => Q r d
  | Host c k => safe _ c d /\ forall x, answer_typed c x -> wp_of (k x) d
  | Transact t k =>
      match t d with
      | Ok (a, d') => guar d d' /\ wp_of (k (Ok a)) d'
      | Err e => wp_of (k (Err e)) d
      end
  end.

End Precondition.

Definition wp {R} (p : Prog R) (Q : R -> Database -> Prop) (d : Database) : Prop := wp_of Q p d.

Lemma wp_env {R} (p : Prog R) Q d d' : wp p Q d -> rtc rely d d' -> wp p Q d'.
Proof.
  intros Hw He. destruct p; simpl in *; intros d2 H2; apply Hw; by etrans.
Qed.

Lemma wp_mono {R} (p : Prog R) (Q Q' : R -> Database -> Prop) : forall d,
  wp p Q d -> (forall r d', Q r d' -> Q' r d') -> wp p Q' d.
Proof.
  induction p as [r|X c k IH|E A t k IH]; simpl; intros d Hw HQ d1 H1; specialize (Hw d1 H1).
  - auto.
  - destruct Hw as [Hs Hw]. split; [done|]. intros x Hx. eauto.
  - destruct (t d1) as [[a d2]|e]; [destruct Hw|]; eauto.
Qed.

Lemma wp_bind {R S} (p : Prog R) (f : R -> Prog S) Q : forall d,
  wp p (fun r d' => wp (f r) Q d') d -> wp (bind p f) Q d.
Proof.
  induction p as [r|X c k IH|E A t k IH]; simpl; intros d Hw.
  - by apply Hw.
  - intros d1 H1. destruct (Hw d1 H1) as [Hs Hk]. split; [done|]. intros x Hx. apply IH; auto.
  - intros d1 H1. specialize (Hw d1 H1).
    destruct (t d1) as [[a d2]|e]; [destruct Hw as [Hg Hw]; split; [done|]|]; by apply IH.
Qed.

Lemma wp_call {X} (c : HostCall X) Q d :
  (forall d', rtc rely d d' -> safe X c d') ->
  (forall d' x, rtc rely d d' -> answer_typed c x -> Q x d') -> wp (call c) Q d.
Proof.
  intros Hs Hq d1 H1. split; [by apply Hs|]. intros x Hx d2 H2. apply Hq; [by etrans|done].
Qed.

Lemma wp_ledger {E A} (t : Tx E A) Q d :
  (forall d', rtc rely d d' ->
     match t d' with
     | Ok (a, d2) => guar d' d2 /\ forall d3, rtc rely d2 d3 -> Q (Ok a) d3
     | Err e => forall d3, rtc rely d' d3 -> Q (Err e) d3
     end) -> wp (ledger t) Q d.
Proof.
  intros H d1 H1. specialize (H d1 H1). destruct (t d1) as [[a d2]|e]; [destruct H as [Hg H]; split; [done|]|];
    intros d3 H3; by apply H.
Qed.

Lemma wp_bind_call {X S} (c : HostCall X) (k : X -> Prog S) Q d :
  (forall d', rtc rely d d' -> safe X c d' /\ forall x, answer_typed c x -> wp (k x) Q d') ->
  wp (bind (call c) k) Q d.
Proof. intros H. exact H. Qed.

Lemma wp_bind_ledger {E A S} (t : Tx E A) (k : Result E A -> Prog S) Q d :
  (forall d', rtc rely d d' ->
     match t d' with
     | Ok (a, d2) => guar d' d2 /\ wp (k (Ok a)) Q d2
     | Err e => wp (k (Err e)) Q d'
     end) -> wp (bind (ledger t) k) Q d.
Proof. intros H. exact H. Qed.

Lemma wp_bind_read {E A S} (f : Database -> Result E A) (k : Result E A -> Prog S) Q d :
  (forall d', guar d' d') ->
  (forall d', rtc rely d d' -> wp (k (f d')) Q d') -> wp (bind (ledger (read f)) k) Q d.
Proof.
  intros Hg H. apply wp_bind_ledger. intros d' Hd. specialize (H d' Hd). unfold read.
  by destruct (f d').
Qed.

Lemma wp_step {R} (p p' : Prog R) Q d d' :
  prog_step rely (p, d) (p', d') -> wp p Q d ->
  wp p' Q d' /\ (rely d d' \/ d' = d \/ guar d d').
Proof.
  simpl. intros [[-> He]|Hs] Hw.
  - split; [|by left]. eapply wp_env; [done|]. by apply rtc_once.
  - destruct p as [r|X c k|E A t k]; [done| |].
    + destruct Hs as (x & Hx & -> & ->). split; [|auto]. destruct (Hw d (rtc_refl _ _)) as [_ Hk].
      by apply Hk.
    + specialize (Hw d (rtc_refl _ _)). simpl in Hw. destruct (t d) as [[a d1]|e].
      * destruct Hs as [-> ->]. destruct Hw as [Hg Hw]. split; [exact Hw|auto].
      * destruct Hs as [-> ->]. split; [exact Hw|auto].
Qed.

(** What a proof of [wp] says of executions. *)
Theorem wp_adequate {R} (p p' : Prog R) Q d d' :
  wp p Q d -> reaches rely (p, d) (p', d') ->
  wp p' Q d' /\ rtc (fun a b => rely a b \/ guar a b) d d'.
Proof.
  intros Hw Hr. remember (p, d) as s eqn:Es. remember (p', d') as s' eqn:Es'.
  revert p d p' d' Es Es' Hw. induction Hr as [s|s [p1 d1] s' Hstep _ IH]; intros p d p' d' -> Es' Hw.
  - injection Es' as -> ->. split; [done|apply rtc_refl].
  - destruct (wp_step p p1 Q d d1 Hstep Hw) as [Hw1 Hd].
    destruct (IH p1 d1 p' d' eq_refl Es' Hw1) as [Hw' Hd']. split; [done|].
    destruct Hd as [?|[->|?]]; [eapply rtc_l; eauto|done|eapply rtc_l; eauto].
Qed.

Lemma wp_Ret {R} (r : R) Q d : wp (Ret r) Q d -> Q r d.
Proof. intros H. apply H. apply rtc_refl. Qed.

Lemma wp_Host {R X} (c : HostCall X) (k : X -> Prog R) Q d : wp (Host c k) Q d -> safe X c d.
Proof. intros H. by destruct (H d (rtc_refl _ _)). Qed.

End Wp.

(** The database a program ends in is reached by the commits of all. *)
Lemma wp_later {R} rely guar (safe : forall X, HostCall X -> Database -> Prop) (p : Prog R) Q : forall d,
  wp rely guar safe p Q d ->
  wp rely guar safe p (fun r d' => Q r d' /\ rtc (fun a b => rely a b \/ guar a b) d d') d.
Proof.
  set (moved := fun a b => rely a b \/ guar a b).
  assert (forall d d', rtc rely d d' -> rtc moved d d') as Hr.
  { intros d d' H. induction H; [apply rtc_refl|eapply rtc_l; [by left|done]]. }
  unfold wp. induction p as [r|X c k IH|E A t k IH]; simpl; intros d Hw d1 H1; specialize (Hw d1 H1).
  - split; [done|by apply Hr].
  - destruct Hw as [Hs Hw]. split; [done|]. intros x Hx.
    eapply (wp_mono rely guar safe); [exact (IH x d1 (Hw x Hx))|].
    intros r d' [HQ H]. split; [done|]. etrans; [by apply Hr|done].
  - destruct (t d1) as [[a d2]|e].
    + destruct Hw as [Ho Hw]. split; [done|]. eapply (wp_mono rely guar safe); [exact (IH _ d2 Hw)|].
      intros r d' [HQ H]. split; [done|]. etrans; [by apply Hr|]. eapply rtc_l; [by right|done].
    + eapply (wp_mono rely guar safe); [exact (IH _ d1 Hw)|].
      intros r d' [HQ H]. split; [done|]. etrans; [by apply Hr|done].
Qed.

(** A weaker claim on a program among better behaved processes. *)
Lemma wp_weaken {R} (rely rely' guar guar' : Database -> Database -> Prop)
    (safe safe' : forall X, HostCall X -> Database -> Prop) (Q : R -> Database -> Prop) (p : Prog R) :
  (forall d d', rely' d d' -> rely d d') -> (forall d d', guar d d' -> guar' d d') ->
  (forall X c d, safe X c d -> safe' X c d) ->
  forall d, wp rely guar safe p Q d -> wp rely' guar' safe' p Q d.
Proof.
  intros Hr Hg Hs. assert (forall d d', rtc rely' d d' -> rtc rely d d') as Hr'.
  { intros d d' H. induction H; [apply rtc_refl|eapply rtc_l; eauto]. }
  unfold wp. induction p as [r|X c k IH|E A t k IH]; simpl; intros d Hw d1 H1; specialize (Hw d1 (Hr' _ _ H1)).
  - done.
  - destruct Hw as [H Hw]. split; [by apply Hs|]. auto.
  - destruct (t d1) as [[a d2]|e]; [destruct Hw as [H Hw]; split; [by apply Hg|]|]; auto.
Qed.

(** ** Programs by their text

    What holds of a program whatever the database holds and the host answers:
    the calls it can make, the commits it can make, and how it can end. *)
Section Text.
Context (ok : forall X, HostCall X -> Prop) (may : Database -> Database -> Prop).

Fixpoint only {R} (Q : R -> Prop) (p : Prog R) : Prop :=
  match p with
  | Ret r => Q r
  | Host c k => ok _ c /\ forall x, only Q (k x)
  | Transact t k =>
      (forall d a d', t d = Ok (a, d') -> d' = d \/ may d d') /\ forall r, only Q (k r)
  end.

Lemma only_mono {R} (Q Q' : R -> Prop) (p : Prog R) : (forall r, Q r -> Q' r) -> only Q p -> only Q' p.
Proof. intros HQ. induction p; simpl; naive_solver. Qed.

Lemma only_bind {R S} (p : Prog R) (f : R -> Prog S) Q : only (fun r => only Q (f r)) p -> only Q (bind p f).
Proof. induction p; simpl; naive_solver. Qed.

Lemma only_call {X} (c : HostCall X) (Q : X -> Prop) : ok X c -> (forall x, Q x) -> only Q (call c).
Proof. by split. Qed.

Lemma only_ledger {E A} (t : Tx E A) (Q : Result E A -> Prop) :
  (forall d a d', t d = Ok (a, d') -> may d d') -> (forall r, Q r) -> only Q (ledger t).
Proof. intros Ht HQ. split; [|done]. intros d a d' H. right. eauto. Qed.

Lemma only_read {E A} (f : Database -> Result E A) (Q : Result E A -> Prop) :
  (forall r, Q r) -> only Q (ledger (read f)).
Proof.
  intros HQ. split; [|done]. intros d a d' H. left. unfold read in H. destruct (f d); [by injection H|done].
Qed.

Lemma only_wp {R} rely (Q : R -> Prop) (p : Prog R) : only Q p ->
  forall d, wp rely (fun d d' => d' = d \/ may d d') (fun X c _ => ok X c) p (fun r _ => Q r) d.
Proof.
  unfold wp. induction p as [r|X c k IH|E A t k IH]; simpl; intros Hp d d1 H1.
  - done.
  - destruct Hp as [Hok Hk]. split; [done|]. intros x _. by apply IH.
  - destruct Hp as [Ht Hk]. destruct (t d1) as [[a d2]|e] eqn:E1; [split; [by eapply Ht|]|]; by apply IH.
Qed.

End Text.

(** Reading the deadline keeps the database to other processes. *)
Lemma wp_context rely guar (safe : forall X, HostCall X -> Database -> Prop) deadline Q d :
  (forall d', safe _ is_cancelled d') -> (forall d', safe _ elapsed d') ->
  (forall d' c, rtc rely d d' -> Q c d') -> wp rely guar safe (context deadline) Q d.
Proof.
  intros H1 H2 HQ. unfold context. apply wp_bind, wp_call; [auto|].
  intros d1 [] Hd1 _; simpl; [intros d2 H; apply HQ; by etrans|].
  intros d2 Hd2. split; [done|]. intros x _ d3 Hd3. apply HQ. etrans; [done|]. by etrans.
Qed.

(** ** Histories

    Some commits are only right after a certain answer of the host.  [note]
    remembers what an answer entitles the program to, [spent] what is left after
    a transaction, and [may g d d'] says which commits [g] entitles it to. *)
Section History.
Context {G : Type} (note : forall X, HostCall X -> X -> G -> G) (spent : G -> G)
  (may : G -> Database -> Database -> Prop) (env : Database -> Database -> Prop).

Fixpoint follows {R} (g : G) (p : Prog R) : Prop :=
  match p with
  | Ret _ => True
  | Host c k => forall x, follows (note _ c x g) (k x)
  | Transact t k =>
      (forall d a d', t d = Ok (a, d') -> d' = d \/ may g d d') /\ forall r, follows (spent g) (k r)
  end.

(** [prog_step] with the history. *)
Definition history_step {R} (s s' : Prog R * Database * G) : Prop :=
  let '(p, d, g) := s in let '(p', d', g') := s' in
  p' = p /\ env d d' /\ g' = g
  \/ match p with
     | Ret _ => False
     | Host c k => exists x, answer_typed c x /\ p' = k x /\ d' = d /\ g' = note _ c x g
     | Transact t k =>
         g' = spent g /\
         match t d with
         | Ok (a, d1) => p' = k (Ok a) /\ d' = d1
         | Err e => p' = k (Err e) /\ d' = d
         end
     end.

Lemma follows_step {R} (p p' : Prog R) d d' g g' :
  follows g p -> history_step (p, d, g) (p', d', g') ->
  follows g' p' /\ (d' = d \/ env d d' \/ may g d d').
Proof.
  intros Hf [(-> & He & ->)|Hs]; [by auto|]. destruct p as [r|X c k|E A t k]; [done| |].
  - destruct Hs as (x & _ & -> & -> & ->). auto.
  - destruct Hs as [-> Hs], Hf as [Hc Hk]. destruct (t d) as [[a d1]|e] eqn:Ht; destruct Hs as [-> ->].
    + split; [apply Hk|]. destruct (Hc d a d1 Ht); auto.
    + split; [apply Hk|by left].
Qed.

(** Every commit of a program that follows its history was entitled to it. *)
Lemma follows_adequate {R} (p p1 p2 : Prog R) d d1 d2 g g1 g2 :
  follows g p -> rtc history_step (p, d, g) (p1, d1, g1) ->
  history_step (p1, d1, g1) (p2, d2, g2) -> d2 = d1 \/ env d1 d2 \/ may g1 d1 d2.
Proof.
  intros Hf Hr Hs. assert (follows g1 p1) as Hf1; [|by destruct (follows_step _ _ _ _ _ _ Hf1 Hs)].
  clear Hs. remember (p, d, g) as s eqn:Es. remember (p1, d1, g1) as s' eqn:Es'.
  revert p d g Es Hf. induction Hr as [s|s [[p3 d3] g3] s' Hstep _ IH]; intros p d g -> Hf.
  - by injection Es' as -> -> ->.
  - destruct (follows_step _ _ _ _ _ _ Hf Hstep) as [Hf3 _]. by eapply IH.
Qed.

(** Every end of the program relates its history to its result. *)
Fixpoint ends_in {R} (Q : G -> R -> Prop) (g : G) (p : Prog R) : Prop :=
  match p with
  | Ret r => Q g r
  | Host c k => forall x, ends_in Q (note _ c x g) (k x)
  | Transact t k => forall r, ends_in Q (spent g) (k r)
  end.

Lemma ends_in_bind {R S} (Q : G -> S -> Prop) (p : Prog R) (f : R -> Prog S) : forall g,
  ends_in (fun g' r => ends_in Q g' (f r)) g p -> ends_in Q g (bind p f).
Proof. induction p as [r|X c k IH|E A t k IH]; intros g H; simpl in *; [done|by intros x; apply IH..]. Qed.

Lemma ends_in_mono {R} (Q Q' : G -> R -> Prop) (p : Prog R) : (forall g r, Q g r -> Q' g r) ->
  forall g, ends_in Q g p -> ends_in Q' g p.
Proof. intros HQ. induction p as [r|X c k IH|E A t k IH]; intros g H; simpl in *; [by apply HQ|by intros x; apply IH..]. Qed.

Lemma ends_in_adequate {R} (Q : G -> R -> Prop) (p : Prog R) r d d' g g' :
  ends_in Q g p -> rtc history_step (p, d, g) (Ret r, d', g') -> Q g' r.
Proof.
  intros He Hr. remember (p, d, g) as s eqn:Es. remember (Ret r, d', g') as s' eqn:Es'.
  revert p d g Es He. induction Hr as [s|s [[p3 d3] g3] s' Hstep _ IH]; intros p d g -> He.
  { by injection Es' as -> -> ->. }
  apply (IH Es' p3 d3 g3 eq_refl). destruct Hstep as [(-> & _ & ->)|Hs]; [done|].
  destruct p as [r0|X c k|E A t k]; [done| |].
  - destruct Hs as (x & _ & -> & _ & ->). apply He.
  - destruct Hs as [-> Hs]. destruct (t d) as [[a d1]|e]; destruct Hs as [-> _]; apply He.
Qed.

(** Calls that leave the history alone end with it as it was. *)
Lemma only_keeps {R} (ok : forall X, HostCall X -> Prop) m (Q : R -> Prop) (p : Prog R) :
  (forall X (c : HostCall X) x g, ok X c -> note X c x g = g) -> (forall g, spent g = g) ->
  only ok m Q p -> forall g, ends_in (fun g' r => g' = g /\ Q r) g p.
Proof.
  intros Hn Hs. induction p as [r|X c k IH|E A t k IH]; simpl; intros Hp g; [done| |].
  - destruct Hp as [Hok Hk]. intros x. rewrite (Hn _ _ _ _ Hok). by apply IH.
  - destruct Hp as [_ Hk]. intros r. rewrite Hs. by apply IH.
Qed.

(** A program that runs alone to its end, with a scripted host as in [run_prog]. *)
Fixpoint run_history {R} (answers : nat -> forall X, HostCall X -> X) (n : nat) (p : Prog R) (d : Database)
    (g : G) : R * Database * G :=
  match p with
  | Ret r => (r, d, g)
  | Host c k => run_history answers (S n) (k (answers n _ c)) d (note _ c (answers n _ c) g)
  | Transact t k =>
      match t d with
      | Ok (a, d') => run_history answers n (k (Ok a)) d' (spent g)
      | Err e => run_history answers n (k (Err e)) d (spent g)
      end
  end.

Lemma run_history_reaches {R} answers :
  (forall n X (c : HostCall X), answer_typed c (answers n X c)) ->
  forall (p : Prog R) n d g, rtc history_step (p, d, g)
    (Ret (run_history answers n p d g).1.1, (run_history answers n p d g).1.2, (run_history answers n p d g).2).
Proof.
  intros Ha p. induction p as [r|X c k IH|E A t k IH]; intros n d g; simpl.
  - apply rtc_refl.
  - eapply rtc_l; [|apply IH]. simpl. right. eauto 10.
  - destruct (t d) as [[a d']|e] eqn:Ht; (eapply rtc_l; [|apply IH]); simpl; right; rewrite Ht; by split_and!.
Qed.

(** A history is a run. *)
Lemma history_reaches {R} (p p' : Prog R) d d' g g' :
  rtc history_step (p, d, g) (p', d', g') -> reaches env (p, d) (p', d').
Proof.
  intros H. eapply (rtc_congruence (fun s : Prog R * Database * G => s.1) (R := history_step)) in H; [exact H|].
  intros [[p1 d1] g1] [[p2 d2] g2] [(-> & He & _)|Hs]; [by left|right]. destruct p1 as [r|X c k|E A t k]; [done| |].
  - destruct Hs as (x & Hx & -> & -> & _). by exists x.
  - by destruct Hs as [_ Hs].
Qed.

(** A transaction that starts a program commits or fails once, after what others
    commit before it. *)
Lemma history_transact {R E A} (t : Tx E A) (k : Result E A -> Prog R) r d d' g g' :
  rtc history_step (Transact t k, d, g) (Ret r, d', g') ->
  exists d1, rtc env d d1
    /\ match t d1 with
       | Ok (a, d2) => rtc history_step (k (Ok a), d2, spent g) (Ret r, d', g')
       | Err e => rtc history_step (k (Err e), d1, spent g) (Ret r, d', g')
       end.
Proof.
  intros H. remember (Transact t k, d, g) as s eqn:Es. remember (Ret r, d', g') as s' eqn:Es'.
  revert d g Es. induction H as [s|s [[p1 d1] g1] s' Hstep Hr IH]; intros d g ->; [done|].
  destruct Hstep as [(-> & He & ->)|[-> Hs]].
  - destruct (IH Es' d1 g eq_refl) as (d2 & H2 & H). exists d2. split; [by eapply rtc_l|done].
  - exists d. split; [apply rtc_refl|]. subst s'. by destruct (t d) as [[a d2]|e]; destruct Hs as [-> ->].
Qed.

(** The state after [n] calls of a program that runs alone. *)
Fixpoint history_after {R} (answers : forall X, HostCall X -> X) (n : nat) (p : Prog R) (d : Database) (g : G)
  : Prog R * Database * G :=
  match n with
  | O => (p, d, g)
  | S m =>
      match p with
      | Ret r => (p, d, g)
      | Host c k => history_after answers m (k (answers _ c)) d (note _ c (answers _ c) g)
      | Transact t k =>
          match t d with
          | Ok (a, d') => history_after answers m (k (Ok a)) d' (spent g)
          | Err e => history_after answers m (k (Err e)) d (spent g)
          end
      end
  end.

Lemma history_after_reaches {R} answers :
  (forall X (c : HostCall X), answer_typed c (answers X c)) ->
  forall n (p : Prog R) d g, rtc history_step (p, d, g) (history_after answers n p d g).
Proof.
  intros Ha n. induction n as [|n IH]; intros p d g; [apply rtc_refl|].
  destruct p as [r|X c k|E A t k]; simpl; [apply rtc_refl| |].
  - eapply rtc_l; [|apply IH]. simpl. right. eauto.
  - destruct (t d) as [[a d']|e] eqn:Ht; (eapply rtc_l; [|apply IH]); simpl; right; rewrite Ht; by split_and!.
Qed.

Lemma history_after_step {R} answers :
  (forall X (c : HostCall X), answer_typed c (answers X c)) ->
  forall n (p : Prog R) d g,
  match (history_after answers n p d g).1.1 with
  | Ret _ => True
  | _ => history_step (history_after answers n p d g) (history_after answers (S n) p d g)
  end.
Proof.
  intros Ha n. induction n as [|n IH]; intros p d g.
  - destruct p as [r|X c k|E A t k]; simpl; [done|right; eauto|].
    destruct (t d) as [[a d']|e]; by right.
  - destruct p as [r|X c k|E A t k]; [done|exact (IH _ _ _)|].
    cbn [history_after]. destruct (t d) as [[a d']|e]; exact (IH _ _ _).
Qed.

Lemma follows_bind {R S} (p : Prog R) (f : R -> Prog S) g :
  follows g p -> (forall r g', follows g' (f r)) -> follows g (bind p f).
Proof.
  revert g. induction p as [r|X c k IH|E A t k IH]; simpl; intros g Hp Hf; [auto|auto|].
  destruct Hp as [Hc Hk]. split; [done|]. intros r. auto.
Qed.

End History.
