(* ===== verification/Reconciliation.v ===== *)
(** * Payment reconciliation

    Models [payment_reconciliation.rs]: the bounded pass that asks the wallet
    for the status of unresolved payments and settles, refunds or releases
    them, without ever starting a payment. *)
From S2P Require Import Prelude Sqlite Types Policy Host Schema.
From S2P Require Import Ledger Registry Accounting AccountingProofs Program.
#[local] Open Scope Z_scope.

Definition MAX_PAYMENT_RECONCILIATION_BATCH : Z := 100.

Inductive PaymentReconciliationError : Type :=
| InvalidBatchSize
| AccountingFailed (e : PaymentAccountingError).

Record PaymentReconciliationReport := mkReport {
  rr_examined : Z;
  rr_succeeded : Z;
  rr_failed : Z;
  rr_discarded : Z;
  rr_unresolved : Z;
  rr_deferred : Z;
  rr_interrupted : bool;
  rr_needs_retry : bool;
}.

Definition default_report : PaymentReconciliationReport := mkReport 0 0 0 0 0 0 false false.

(** The assignments of the pass to one field of the report. *)
Definition examine (r : PaymentReconciliationReport) : PaymentReconciliationReport :=
  mkReport (rr_examined r + 1) (rr_succeeded r) (rr_failed r) (rr_discarded r) (rr_unresolved r)
    (rr_deferred r) (rr_interrupted r) (rr_needs_retry r).
Definition count_succeeded (r : PaymentReconciliationReport) : PaymentReconciliationReport :=
  mkReport (rr_examined r) (rr_succeeded r + 1) (rr_failed r) (rr_discarded r) (rr_unresolved r)
    (rr_deferred r) (rr_interrupted r) (rr_needs_retry r).
Definition count_failed (r : PaymentReconciliationReport) : PaymentReconciliationReport :=
  mkReport (rr_examined r) (rr_succeeded r) (rr_failed r + 1) (rr_discarded r) (rr_unresolved r)
    (rr_deferred r) (rr_interrupted r) (rr_needs_retry r).
Definition count_discarded (r : PaymentReconciliationReport) : PaymentReconciliationReport :=
  mkReport (rr_examined r) (rr_succeeded r) (rr_failed r) (rr_discarded r + 1) (rr_unresolved r)
    (rr_deferred r) (rr_interrupted r) (rr_needs_retry r).
Definition count_unresolved (r : PaymentReconciliationReport) : PaymentReconciliationReport :=
  mkReport (rr_examined r) (rr_succeeded r) (rr_failed r) (rr_discarded r) (rr_unresolved r + 1)
    (rr_deferred r) (rr_interrupted r) (rr_needs_retry r).
Definition count_deferred (r : PaymentReconciliationReport) : PaymentReconciliationReport :=
  mkReport (rr_examined r) (rr_succeeded r) (rr_failed r) (rr_discarded r) (rr_unresolved r)
    (rr_deferred r + 1) (rr_interrupted r) (rr_needs_retry r).
Definition interrupt (r : PaymentReconciliationReport) : PaymentReconciliationReport :=
  mkReport (rr_examined r) (rr_succeeded r) (rr_failed r) (rr_discarded r) (rr_unresolved r)
    (rr_deferred r) true (rr_needs_retry r).
Definition set_needs_retry (b : bool) (r : PaymentReconciliationReport) : PaymentReconciliationReport :=
  mkReport (rr_examined r) (rr_succeeded r) (rr_failed r) (rr_discarded r) (rr_unresolved r)
    (rr_deferred r) (rr_interrupted r) b.

Definition is_unknown (s : PaymentStatus) : bool :=
  match s with Status_Unknown => true | _ => false end.

(** [let now = self.clock.now()] as the argument of a ledger call, whose error
    ends the pass. *)
Definition accounted {A} (t : UnixTimestamp -> Tx PaymentAccountingError A)
    (report : PaymentReconciliationReport)
  : Prog (Result PaymentAccountingError PaymentReconciliationReport) :=
  let* now := call clock_now in
  let* done := ledger (t now) in
  Ret (let? _ := done in Ok report).

(** The body of the loop once the wallet has answered. *)
Definition reconcile_status (attempt : PaymentAttempt) (status : PaymentStatus)
    (report : PaymentReconciliationReport)
  : Prog (Result PaymentAccountingError PaymentReconciliationReport) :=
  let hash := at_payment_hash attempt in
  if negb (is_unknown status) && negb (may_disclose_settlement attempt)
  then accounted (release_uninitiated_payment hash) (count_discarded report)
  else match status with
       | Status_Unknown => Ret (Ok (count_unresolved report))
       | Status_Pending =>
           if bool_decide (at_state attempt = State_Reserved)
           then accounted (mark_payment_pending hash) (count_unresolved report)
           else Ret (Ok (count_unresolved report))
       | Status_Succeeded _ amount fee =>
           accounted (mark_payment_succeeded hash amount fee) (count_succeeded report)
       | Status_Failed _ => accounted (mark_payment_failed hash) (count_failed report)
       end.

(** The loop; the flag is [skipped_without_query]. *)
Fixpoint reconcile_attempts (deadline : OperationDeadline) (attempts : list PaymentAttempt)
    (report : PaymentReconciliationReport) (skipped : bool)
  : Prog (Result PaymentAccountingError (PaymentReconciliationReport * bool)) :=
  match attempts with
  | [] => Ret (Ok (report, skipped))
  | attempt :: rest =>
      if bool_decide (at_state attempt = State_Reserved) && was_initiated attempt
      then reconcile_attempts deadline rest report true
      else
      let* budget := context deadline in
      match budget with
      | None => Ret (Ok (interrupt report, skipped))
      | Some budget =>
          let report := examine report in
          let* status := call (payment_status (at_payment_hash attempt) budget) in
          match status with
          | Err _ => reconcile_attempts deadline rest (count_deferred report) skipped
          | Ok status =>
              let* outcome := reconcile_status attempt status report in
              match outcome with
              | Err e => Ret (Err e)
              | Ok report => reconcile_attempts deadline rest report skipped
              end
          end
      end
  end.

(** [PaymentReconciler::reconcile]. *)
Definition reconcile (max_attempts : Z) (budget : OperationBudget)
  : Prog (Result PaymentReconciliationError PaymentReconciliationReport) :=
  if (max_attempts =? 0) || (MAX_PAYMENT_RECONCILIATION_BATCH <? max_attempts)
  then Ret (Err InvalidBatchSize)
  else
  let deadline := mkOperationDeadline budget in
  let* started := context deadline in
  match started with
  | None => Ret (Ok (set_needs_retry true (interrupt default_report)))
  | Some _ =>
  let* loaded := ledger (load_unresolved_payment_attempts max_attempts) in
  match loaded with
  | Err e => Ret (Err (AccountingFailed e))
  | Ok (attempts, has_additional_attempts) =>
  let* done := reconcile_attempts deadline attempts default_report false in
  match done with
  | Err e => Ret (Err (AccountingFailed e))
  | Ok (report, skipped_without_query) =>
      Ret (Ok (set_needs_retry
        (has_additional_attempts || skipped_without_query || rr_interrupted report
         || negb (rr_unresolved report =? 0) || negb (rr_deferred report =? 0)) report))
  end
  end
  end.

(** ** Lemmas *)

(** The calls a reconciler may make: clocks, cancellation and payment status. *)
Definition observes {X} (c : HostCall X) : bool :=
  match c with
  | clock_now | is_cancelled | elapsed | payment_status _ _ => true
  | _ => false
  end.

(** Every examined payment is counted once. *)
Definition report_counts (r : PaymentReconciliationReport) : Prop :=
  0 <= rr_succeeded r /\ 0 <= rr_failed r /\ 0 <= rr_discarded r /\ 0 <= rr_unresolved r
  /\ 0 <= rr_deferred r
  /\ rr_examined r = rr_succeeded r + rr_failed r + rr_discarded r + rr_unresolved r + rr_deferred r.

(** Something was left for another pass. *)
Definition flagged (r : PaymentReconciliationReport) (skipped : bool) : Prop :=
  skipped = true \/ rr_interrupted r = true \/ rr_unresolved r <> 0 \/ rr_deferred r <> 0.

(** The report after one answered status. *)
Definition tallied (r r' : PaymentReconciliationReport) : Prop :=
  r' = count_discarded r \/ r' = count_unresolved r \/ r' = count_succeeded r \/ r' = count_failed r.

Lemma report_default : report_counts default_report.
Proof. split_and!; done. Qed.

Lemma report_tallied r r' : report_counts r -> tallied (examine r) r' -> report_counts r'.
Proof.
  intros (H1 & H2 & H3 & H4 & H5 & H6) [->|[->|[->| ->]]]; unfold report_counts; simpl;
    split_and!; lia.
Qed.

Lemma report_deferred r : report_counts r -> report_counts (count_deferred (examine r)).
Proof. intros (H1 & H2 & H3 & H4 & H5 & H6). unfold report_counts. simpl. split_and!; lia. Qed.

Lemma load_unresolved_length batch d attempts more d' : 0 <= batch ->
  load_unresolved_payment_attempts batch d = Ok (attempts, more, d') ->
  Z.of_nat (length attempts) <= batch.
Proof.
  intros Hb H. unfold load_unresolved_payment_attempts in H. inv_run H.
  repeat (match type of H with (match ?x with _ => _ end) = _ => destruct x as [[? ?]|] eqn:?; [|done] end).
  inv_run H. rewrite length_take. lia.
Qed.

Section AnyEnvironment.
Context (env : Database -> Database -> Prop).
Notation wp := (wp env accounting_step (fun X c _ => observes c = true)).

Lemma wp_accounted {A} (t : UnixTimestamp -> Tx PaymentAccountingError A) report Q d :
  (forall now a d1 d2, u64 now -> t now d1 = Ok (a, d2) -> accounting_step d1 d2) ->
  (forall d', Q (Ok report) d') -> (forall e d', Q (Err e) d') ->
  wp (accounted t report) Q d.
Proof.
  intros Ht HQ HE. unfold accounted. apply wp_bind, wp_call; [done|].
  intros d1 now _ Hnow. apply wp_bind, wp_ledger. intros d2 _.
  destruct (t now d2) as [[a d3]|e] eqn:E.
  - split; [by eapply Ht|]. intros d4 _ d5 _. simpl. apply HQ.
  - intros d4 _ d5 _. simpl. apply HE.
Qed.

Lemma wp_reconcile_status attempt status report Q d :
  status_typed status ->
  (forall report' d', tallied report report' -> Q (Ok report') d') ->
  (forall e d', Q (Err e) d') ->
  wp (reconcile_status attempt status report) Q d.
Proof.
  intros Hs HQ HE. unfold reconcile_status.
  assert (forall d0, wp (Ret (Ok (count_unresolved report))) Q d0) as Hret
    by (intros d0 d1 _; apply HQ; unfold tallied; auto).
  destruct (_ && _).
  { apply wp_accounted; [|intros; apply HQ; unfold tallied; auto|done].
    intros now [] d1 d2 Hn Heq. by eapply step_release. }
  destruct status as [| |preimage amount fee|reason].
  - apply Hret.
  - case_bool_decide; [|apply Hret]. apply wp_accounted; [|intros; apply HQ; unfold tallied; auto|done].
    intros now a d1 d2 Hn Heq. by eapply step_pending.
  - destruct Hs as (_ & Ha & Hf). apply wp_accounted; [|intros; apply HQ; unfold tallied; auto|done].
    intros now a d1 d2 Hn Heq. by eapply (step_succeeded _ amount fee now).
  - apply wp_accounted; [|intros; apply HQ; unfold tallied; auto|done].
    intros now a d1 d2 Hn Heq. by eapply step_failed.
Qed.

Lemma wp_reconcile_attempts deadline attempts : forall report skipped Q d,
  report_counts report -> rr_interrupted report = false ->
  (forall report' skipped' d', report_counts report' ->
     rr_examined report' <= rr_examined report + Z.of_nat (length attempts) ->
     Q (Ok (report', skipped')) d') ->
  (forall e d', Q (Err e) d') ->
  wp (reconcile_attempts deadline attempts report skipped) Q d.
Proof.
  induction attempts as [|attempt rest IH]; intros report skipped Q d Hr Hi HQ HE; cbn [reconcile_attempts].
  - intros d1 _. apply HQ; [done|simpl; lia].
  - simpl in HQ. destruct (_ && _).
    { apply IH; [done|done| |done]. intros. apply HQ; [done|lia]. }
    apply wp_bind, wp_context; [done|done|]. intros d1 [budget|] _.
    2:{ intros d2 _. apply HQ; [exact Hr|simpl; lia]. }
    apply wp_bind, wp_call; [done|]. intros d2 [status|e] _ Hs.
    2:{ apply IH; [by apply report_deferred|done| |done]. intros. apply HQ; [done|simpl in *; lia]. }
    apply wp_bind, wp_reconcile_status; [by apply Hs| |].
    + intros report' d3 Ht.
      assert (rr_examined report' = rr_examined report + 1 /\ rr_interrupted report' = false) as [He Hi']
        by (destruct Ht as [->|[->|[->| ->]]]; done).
      apply IH; [by eapply report_tallied|done| |done]. intros. apply HQ; [done|lia].
    + intros e d3 d4 _. apply HE.
Qed.

Lemma wp_reconcile n budget d : 0 <= n ->
  wp (reconcile n budget) (fun r _ => match r with
    | Err InvalidBatchSize => n = 0 \/ MAX_PAYMENT_RECONCILIATION_BATCH < n
    | Err (AccountingFailed _) => True
    | Ok report => report_counts report /\ rr_examined report <= n
        /\ (rr_needs_retry report = false -> rr_interrupted report = false
              /\ rr_unresolved report = 0 /\ rr_deferred report = 0)
    end) d.
Proof.
  intros Hn. unfold reconcile. destruct (_ || _) eqn:E.
  { intros d1 _. apply orb_prop in E as [E|E]; bool_to_prop; lia. }
  apply orb_false_elim in E as [E1 E2]. unfold MAX_PAYMENT_RECONCILIATION_BATCH in E2. bool_to_prop.
  apply wp_bind, wp_context; [done|done|]. intros d1 [b|] _.
  2:{ intros d2 _. split_and!; first [done|simpl; lia]. }
  apply wp_bind, wp_ledger. intros d2 _.
  destruct (load_unresolved_payment_attempts n d2) as [[[attempts more] d3]|e] eqn:El.
  2:{ intros d3 _ d4 _. done. }
  split. { eapply step_load_unresolved; [|done]. unfold i64_max. lia. }
  intros d4 _. apply wp_bind, wp_reconcile_attempts; [apply report_default|done| |].
  - intros report skipped d5 Hr He d6 _. cbn [rr_examined rr_needs_retry rr_interrupted rr_unresolved
      rr_deferred set_needs_retry]. split_and!; [exact Hr| |].
    + pose proof (load_unresolved_length n d2 attempts more d3 Hn El). simpl in He. lia.
    + intros Hf. apply orb_false_elim in Hf as [[[_ Hi]%orb_false_elim Hu]%orb_false_elim Hd].
      apply negb_false_iff, Z.eqb_eq in Hu, Hd. done.
  - intros e d5 d6 _. done.
Qed.

End AnyEnvironment.

(** ** A pass without interference *)

(** [d'] has no unresolved attempt that [d] has not, and none under [h]. *)
Definition resolves (base : string * Z -> Z) (h : PaymentHash) (d d' : Database) : Prop :=
  accounting_wf base d' /\ forall r, r ∈ payment_attempts d' -> unresolved r = true ->
    pa_payment_hash r <> h /\ r ∈ payment_attempts d.

Lemma unresolved_open r : unresolved r = true -> attempt_columns r ->
  state_of (pa_state r) = State_Reserved \/ state_of (pa_state r) = State_Pending.
Proof.
  unfold unresolved. intros [Hs _]%andb_prop Hc. rewrite (ak_state r Hc), open_state in Hs.
  by apply bool_decide_eq_true_1 in Hs.
Qed.

Lemma attempt_found base d r : accounting_wf base d -> r ∈ payment_attempts d ->
  find_key pa_payment_hash (pa_payment_hash r) (payment_attempts d) = Some r.
Proof. intros Hwf Hr. destruct (aw_attempts base d Hwf) as [_ [_ Hnd]]. by apply find_key_unique. Qed.

Lemma replaced_resolves base h r o d d' :
  find_key pa_payment_hash h (payment_attempts d) = Some r -> replaced base r o d d' ->
  (forall x, o = Some x -> unresolved x = false) -> resolves base h d d'.
Proof.
  intros [_ Hh]%find_key_Some [Hwf' Hfind _ _] Ho. split; [done|]. intros x Hx Hu.
  pose proof (attempt_found base d' x Hwf' Hx) as Hf. rewrite Hfind in Hf.
  case_bool_decide as Hd; [by rewrite (Ho x Hf) in Hu|].
  apply find_key_Some in Hf as [Hin _]. split; [congruence|done].
Qed.

Lemma unchanged_resolves base h r d :
  accounting_wf base d -> find_key pa_payment_hash h (payment_attempts d) = Some r ->
  state_of (pa_state r) = State_Succeeded \/ state_of (pa_state r) = State_Failed ->
  resolves base h d d.
Proof.
  intros Hwf Hf Hs. split; [done|]. intros x Hx Hu. split; [|done]. intros Hh.
  pose proof (attempt_found base d x Hwf Hx) as Hfx. rewrite Hh in Hfx.
  assert (x = r) as -> by congruence.
  destruct (unresolved_open r Hu); [by apply (attempt_row base d r Hwf)|..];
    destruct Hs; congruence.
Qed.

Lemma settled_resolves base h ap af now a d d' :
  accounting_wf base d -> u64 ap -> u64 af -> u64 now ->
  mark_payment_succeeded h ap af now d = Ok (a, d') -> resolves base h d d'.
Proof.
  intros Hwf Hap Haf Hn H.
  destruct (succeeded_run base h ap af now a d d' Hwf Hap Haf Hn H)
    as (r & Hf & _ & [[Hs ->]|(_ & c & principal & fee & Hrep)]).
  - apply (unchanged_resolves base h r); auto.
  - apply (replaced_resolves base h r _ d d' Hf Hrep). by intros x [= <-].
Qed.

Lemma failed_resolves base h now a d d' :
  accounting_wf base d -> u64 now -> mark_payment_failed h now d = Ok (a, d') -> resolves base h d d'.
Proof.
  intros Hwf Hn H. destruct (failed_run base h now a d d' Hwf Hn H)
    as (r & Hf & _ & [[Hs ->]|[_ Hrep]]).
  - apply (unchanged_resolves base h r); auto.
  - apply (replaced_resolves base h r _ d d' Hf Hrep). by intros x [= <-].
Qed.

Lemma released_resolves base h now d d' :
  accounting_wf base d -> u64 now -> release_uninitiated_payment h now d = Ok (tt, d') ->
  resolves base h d d'.
Proof.
  intros Hwf Hn H. destruct (release_run base h now d d' Hwf Hn H) as (r & Hf & _ & _ & Hrep).
  by apply (replaced_resolves base h r _ d d' Hf Hrep).
Qed.

(** What is unresolved in [d] is in the rest of the batch, or was left for
    another pass. *)
Definition covered (base : string * Z -> Z) (more : bool) (rest : list PaymentAttempt)
    (report : PaymentReconciliationReport) (skipped : bool) (d : Database) : Prop :=
  accounting_wf base d /\ report_counts report
  /\ (more = true \/ flagged report skipped \/ forall r, r ∈ payment_attempts d -> unresolved r = true ->
        exists a, a ∈ rest /\ at_payment_hash a = pa_payment_hash r).

Section Alone.
Context (base : string * Z -> Z) (more : bool).
Notation alone := (fun _ _ : Database => False).
Notation wp := (wp alone (fun _ _ => True) (fun X c _ => True)).

Lemma rtc_alone d d' : rtc alone d d' -> d' = d.
Proof. by induction 1. Qed.

Lemma wp_accounted_alone {A} (t : UnixTimestamp -> Tx PaymentAccountingError A) h report Q d :
  (forall now a d', u64 now -> t now d = Ok (a, d') -> resolves base h d d') ->
  (forall d', resolves base h d d' -> Q (Ok report) d') -> (forall e, Q (Err e) d) ->
  wp (accounted t report) Q d.
Proof.
  intros Ht HQ HE. unfold accounted. apply wp_bind, wp_call; [done|].
  intros d1 now ->%rtc_alone Hnow. apply wp_bind, wp_ledger. intros d2 ->%rtc_alone.
  destruct (t now d) as [[a d3]|e] eqn:E.
  - split; [done|]. intros d4 ->%rtc_alone d5 ->%rtc_alone. simpl. by eapply HQ, Ht.
  - intros d4 ->%rtc_alone d5 ->%rtc_alone. simpl. apply HE.
Qed.

(** A status that is not counted as unresolved resolves the attempt. *)
Lemma wp_reconcile_status_alone attempt status report Q d :
  status_typed status -> accounting_wf base d ->
  (Q (Ok (count_unresolved report)) d) ->
  (forall report' d', tallied report report' -> accounting_wf base d' ->
     rr_unresolved report' <> rr_unresolved report -> Q (Ok report') d') ->
  (forall report' d', tallied report report' -> resolves base (at_payment_hash attempt) d d' ->
     Q (Ok report') d') ->
  (forall e, Q (Err e) d) ->
  wp (reconcile_status attempt status report) Q d.
Proof.
  intros Hs Hwf Hun Hleft Hdone HE. unfold reconcile_status.
  assert (wp (Ret (Ok (count_unresolved report))) Q d) as Hret by (by intros d1 ->%rtc_alone).
  destruct (_ && _).
  { apply (wp_accounted_alone _ (at_payment_hash attempt)); [|intros d' Hr; apply Hdone; unfold tallied; auto|done].
    intros now [] d' Hn Heq. by eapply released_resolves. }
  destruct status as [| |preimage amount fee|reason].
  - done.
  - case_bool_decide; [|done]. unfold accounted. apply wp_bind, wp_call; [done|].
    intros d1 now ->%rtc_alone Hnow. apply wp_bind, wp_ledger. intros d2 ->%rtc_alone.
    destruct (mark_payment_pending _ now d) as [[a d3]|e] eqn:E.
    + split; [done|]. intros d4 ->%rtc_alone d5 ->%rtc_alone. simpl.
      apply Hleft; [unfold tallied; auto| |simpl; lia].
      destruct (accounting_step_effect base d d3) as [Hwf3 _]; [by eapply step_pending|done..].
    + intros d4 ->%rtc_alone d5 ->%rtc_alone. simpl. apply HE.
  - destruct Hs as (_ & Ha & Hf). apply (wp_accounted_alone _ (at_payment_hash attempt));
      [|intros d' Hr; apply Hdone; unfold tallied; auto|done].
    intros now a d' Hn Heq. by eapply (settled_resolves base _ amount fee now).
  - apply (wp_accounted_alone _ (at_payment_hash attempt));
      [|intros d' Hr; apply Hdone; unfold tallied; auto|done].
    intros now a d' Hn Heq. by eapply failed_resolves.
Qed.

Lemma flagged_tallied report report' skipped :
  report_counts report -> tallied (examine report) report' ->
  flagged report skipped -> flagged report' skipped.
Proof.
  intros (H1 & H2 & H3 & H4 & H5 & H6) Ht [Hf|[Hf|[Hf|Hf]]]; unfold flagged;
    destruct Ht as [->|[->|[->| ->]]]; simpl; first [tauto|right; right; left; lia|idtac].
Qed.

Lemma wp_reconcile_attempts_alone deadline attempts : forall report skipped Q d,
  covered base more attempts report skipped d -> rr_interrupted report = false ->
  (forall report' skipped' d', covered base more [] report' skipped' d' -> Q (Ok (report', skipped')) d') ->
  (forall e d', Q (Err e) d') ->
  wp (reconcile_attempts deadline attempts report skipped) Q d.
Proof.
  induction attempts as [|attempt rest IH]; intros report skipped Q d (Hwf & Hr & Hcov) Hi HQ HE;
    cbn [reconcile_attempts].
  { intros d1 ->%rtc_alone. by apply HQ. }
  destruct (_ && _).
  { apply IH; [|done..]. split_and!; [done..|]. right. left. by left. }
  apply wp_bind, wp_context; [done|done|]. intros d1 [budget|] ->%rtc_alone.
  2:{ intros d2 ->%rtc_alone. apply HQ. split_and!; [done|exact Hr|]. right. left. right. by left. }
  apply wp_bind, wp_call; [done|]. intros d2 [status|e] ->%rtc_alone Hs.
  2:{ apply IH; [|done..]. split_and!; [done|by apply report_deferred|]. right. left. right. right. right.
      destruct Hr as (_ & _ & _ & _ & Hd & _). simpl. lia. }
  assert (forall report' d', tallied (examine report) report' -> accounting_wf base d' ->
    flagged report' skipped \/ resolves base (at_payment_hash attempt) d d' ->
    wp (reconcile_attempts deadline rest report' skipped) Q d') as Hgo.
  { intros report' d' Ht Hwf' Hf. apply IH; [| |done|done].
    2:{ destruct Ht as [->|[->|[->| ->]]]; done. }
    split_and!; [done|by eapply report_tallied|]. destruct Hf as [Hf|[_ Hf]]; [by right; left|].
    destruct Hcov as [Hcov|[Hcov|Hcov]]; [by left|right; left; by eapply flagged_tallied|].
    right. right. intros x Hx Hu.
    destruct (Hf x Hx Hu) as [Hne Hx']. destruct (Hcov x Hx' Hu) as (a & Ha & Heq).
    apply elem_of_cons in Ha as [->|Ha]; [congruence|]. by exists a. }
  assert (forall report', rr_unresolved report' <> rr_unresolved (examine report) ->
    tallied (examine report) report' -> flagged report' skipped) as Hflag.
  { intros report' Hne Ht. right. right. left. destruct Hr as (_ & _ & _ & Hu & _ & _).
    destruct Ht as [->|[->|[->| ->]]]; simpl in *; lia. }
  apply wp_bind, wp_reconcile_status_alone; [by apply Hs|done| | | |].
  - apply Hgo; [unfold tallied; auto|done|]. left. apply Hflag; [simpl; lia|unfold tallied; auto].
  - intros report' d' Ht Hwf' Hne. apply Hgo; [done..|]. left. by apply Hflag.
  - intros report' d' Ht Hres. apply Hgo; [done|by destruct Hres|by right].
  - intros e d3 ->%rtc_alone. apply HE.
Qed.

End Alone.

Lemma wp_reconcile_alone base n budget d : accounting_wf base d -> 0 <= n ->
  wp (fun _ _ => False) (fun _ _ => True) (fun X c _ => True) (reconcile n budget)
    (fun r d' => match r with
       | Ok report => rr_needs_retry report = false -> accounting_wf base d'
           /\ forall r, r ∈ payment_attempts d' -> unresolved r = false
       | Err _ => True
       end) d.
Proof.
  intros Hwf Hn. unfold reconcile. destruct (_ || _) eqn:E; [by intros d1 _|].
  apply orb_false_elim in E as [E1 E2]. unfold MAX_PAYMENT_RECONCILIATION_BATCH in E2. bool_to_prop.
  apply wp_bind, wp_context; [done|done|]. intros d1 [b|] ->%rtc_alone; [|by intros d2 _].
  apply wp_bind, wp_ledger. intros d2 ->%rtc_alone.
  assert (0 <= n < i64_max) as Hb by (unfold i64_max; lia).
  destruct (load_unresolved_pass base d n Hwf Hb)
    as (attempts & more & d' & g & -> & _ & _ & _ & Hall & -> & Hg & _).
  split; [done|]. intros d2 ->%rtc_alone. apply wp_bind, (wp_reconcile_attempts_alone base more).
  - split_and!; [by apply resequenced_wf|apply report_default|].
    destruct more; [by left|]. right. right. cbn [payment_attempts set_payment_attempts].
    intros x (r & -> & Hr)%list_elem_of_fmap Hu.
    destruct (same_attempt_fields r (g r) (Hg r Hr)) as (_ & Hh & _ & _ & _ & Eu & _).
    exists (attempt_of r). split; [|by rewrite Hh]. apply Hall; [done|done|congruence].
  - done.
  - intros report skipped d2 (Hwf2 & _ & Hcov) d3 ->%rtc_alone. cbn [rr_needs_retry set_needs_retry].
    intros Hf. apply orb_false_elim in Hf as [[[[Hm Hs]%orb_false_elim Hi]%orb_false_elim Hu]%orb_false_elim Hd].
    apply negb_false_iff, Z.eqb_eq in Hu, Hd. split; [done|].
    destruct Hcov as [?|[[?|[?|[?|?]]]|Hcov]]; [congruence|congruence|congruence|lia|lia|].
    intros r Hr. destruct (unresolved r) eqn:Er; [|done].
    destruct (Hcov r Hr Er) as (a & Ha & _). by apply elem_of_nil in Ha.
  - intros e d2 d3 _. done.
Qed.

(** ** Properties *)

(** C21: Reconciliation is conservative: whatever the wallet answers, whatever other
    processes commit in between and wherever the pass is stopped, it has called
    the wallet for payment statuses only, and changed the database by accounting
    transactions only, so that the books balance and no initiated payment is
    lost; its report counts every examined payment once, within the batch. *)
Theorem reconcile_conservative env n budget d p d'
    (Hn : 0 <= n) (Hrun : reaches env (reconcile n budget, d) (p, d')) :
  rtc (fun a b => env a b \/ accounting_step a b) d d'
  /\ match p with
     | Host c _ => observes c = true
     | Transact _ _ => True
     | Ret (Err InvalidBatchSize) => n = 0 \/ MAX_PAYMENT_RECONCILIATION_BATCH < n
     | Ret (Err (AccountingFailed _)) => True
     | Ret (Ok report) => report_counts report /\ rr_examined report <= n
         /\ (rr_needs_retry report = false -> rr_interrupted report = false
               /\ rr_unresolved report = 0 /\ rr_deferred report = 0)
     end.
Proof.
  pose proof (wp_reconcile env n budget d Hn) as Hwp.
  destruct (wp_adequate _ _ _ _ _ _ _ _ Hwp Hrun) as [Hp Hsteps]. split; [done|].
  destruct p as [r|X c k|E A t k]; [|by apply wp_Host in Hp|done].
  apply wp_Ret in Hp. by destruct r as [|[]].
Qed.

(** Reconciliation is complete: when no other process interferes, a pass that
    does not ask to be scheduled again leaves no unresolved payment. *)
Theorem reconcile_complete base n budget d report d'
    (Hwf : accounting_wf base d) (Hn : 0 <= n)
    (Hrun : reaches (fun _ _ => False) (reconcile n budget, d) (Ret (Ok report), d'))
    (Hdone : rr_needs_retry report = false) :
  accounting_wf base d' /\ select unresolved (payment_attempts d') = [].
Proof.
  destruct (wp_adequate _ _ _ _ _ _ _ _ (wp_reconcile_alone base n budget d Hwf Hn) Hrun) as [Hp _].
  apply wp_Ret in Hp. destruct (Hp Hdone) as [Hwf' Hnone]. split; [done|]. by apply select_none.
Qed.

(** ** A run of the model *)

(** A wallet that reports the sample payment as settled. *)
Definition sample_host (n : nat) (X : Type) (c : HostCall X) : X :=
  match c in HostCall X return X with
  | clock_now => 300
  | is_cancelled => false
  | elapsed => 0
  | payment_status _ _ => Ok (Status_Succeeded (repeat 7 32) 500000 3000)
  | start_payment _ _ => Ok Status_Pending
  | get_info _ | get_balance _ | make_invoice _ _ | quote_payment _ _ _
  | lookup_invoice _ _ | list_transactions _ _ | fetch_event _ _ _ _ | publish_event _ _ _
  | load_nwc_secret _ _ | apply_registration _ _ _ => Err Unavailable
  | record_diagnostic _ => tt
  | random_bytes n => Some (repeat 4 n)
  | cipher_entropy => []
  | generate_keys => (repeat 4 32, repeat 5 32)
  | load_client_secret _ => Ok (Some "secret"%string)
  | store_client_secret _ _ | delete_client_secret _ => Ok tt
  | http_post _ _ _ => Ok 200
  | instant_now => 0
  | sleep _ => tt
  | open_node _ _ => Err Unavailable
  | complete_wake _ _ => Ok tt
  end.

Lemma sample_host_typed n X (c : HostCall X) : answer_typed c (sample_host n X c).
Proof.
  destruct c; simpl; try done; try (split; by vm_compute).
  - intros s [= <-]. split_and!; [done|split; by vm_compute..].
  - intros s [= <-]. done.
  - intros b [= <-]. apply repeat_length.
Qed.

Definition pending_database : Database :=
  run (mark_payment_pending sample_hash 252 initiated_database).
Definition sample_pass : Prog (Result PaymentReconciliationError PaymentReconciliationReport) :=
  reconcile 10 (from_secs 20).
Definition reconciled_database : Database := (run_prog sample_host 0 sample_pass pending_database).2.

Lemma pending_accounting_wf : accounting_wf sample_base pending_database.
Proof.
  eapply accounting_steps_effect; [apply rtc_once|apply initiated_accounting_wf].
  eapply (step_pending sample_hash 252); [split; by vm_compute|by vm_compute].
Qed.

Lemma sample_pass_runs env : reaches env (sample_pass, pending_database)
  (Ret (Ok (mkReport 1 1 0 0 0 0 false false)), reconciled_database).
Proof.
  pose proof (run_prog_reaches env sample_host sample_host_typed sample_pass 0 pending_database) as H.
  assert ((run_prog sample_host 0 sample_pass pending_database).1
    = Ok (mkReport 1 1 0 0 0 0 false false)) as E by (clear; by vm_compute).
  rewrite E in H. exact H.
Qed.

Lemma reconcile_conservative_witness :
  rtc (fun a b => False \/ accounting_step a b) pending_database reconciled_database.
Proof.
  assert (0 <= 10) as Hn by done.
  apply (reconcile_conservative (fun _ _ => False) 10 (from_secs 20) _ _ _ Hn (sample_pass_runs _)).
Defined.

Lemma reconcile_complete_witness :
  select unresolved (payment_attempts reconciled_database) = []
  /\ length (select unresolved (payment_attempts pending_database)) = 1%nat.
Proof.
  assert (0 <= 10) as Hn by done.
  destruct (reconcile_complete sample_base 10 (from_secs 20) _ _ _ pending_accounting_wf Hn
    (sample_pass_runs _) eq_refl) as [_ H].
  split; [exact H|clear; by vm_compute].
Defined.
