(* ===== verification/RegistrationWorker.v ===== *)
(** * The wake-registration worker

    Models [wake_registration_worker.rs]: a pass loads the due registration
    changes, has the wake provider apply each of them, and acknowledges or
    defers it. *)
From S2P Require Import Prelude Sqlite Types Policy Host Schema Ledger Registry Registration Program.
#[local] Open Scope Z_scope.

Definition INITIAL_RETRY_DELAY : Duration := from_secs 5.
Definition MAX_RETRY_DELAY : Duration := from_secs (60 * 60).

(** [WakeRegistrationWorkerError::Outbox]. *)
Inductive WakeRegistrationWorkerError : Type := Worker_Outbox (e : WakeRegistrationError).

Record WakeRegistrationWorkerReport := mkWorkerReport {
  wk_examined : nat;
  wk_applied : nat;
  wk_deferred : nat;
  wk_superseded : nat;
  wk_interrupted : bool;
  wk_needs_retry : bool;
}.

Definition default_worker_report : WakeRegistrationWorkerReport := mkWorkerReport 0 0 0 0 false false.

(** The assignments of the pass to one field of the report. *)
Definition wk_examine (r : WakeRegistrationWorkerReport) : WakeRegistrationWorkerReport :=
  mkWorkerReport (S (wk_examined r)) (wk_applied r) (wk_deferred r) (wk_superseded r)
    (wk_interrupted r) (wk_needs_retry r).
Definition wk_apply (r : WakeRegistrationWorkerReport) : WakeRegistrationWorkerReport :=
  mkWorkerReport (wk_examined r) (S (wk_applied r)) (wk_deferred r) (wk_superseded r)
    (wk_interrupted r) (wk_needs_retry r).
Definition wk_defer (r : WakeRegistrationWorkerReport) : WakeRegistrationWorkerReport :=
  mkWorkerReport (wk_examined r) (wk_applied r) (S (wk_deferred r)) (wk_superseded r)
    (wk_interrupted r) (wk_needs_retry r).
Definition wk_supersede (r : WakeRegistrationWorkerReport) : WakeRegistrationWorkerReport :=
  mkWorkerReport (wk_examined r) (wk_applied r) (wk_deferred r) (S (wk_superseded r))
    (wk_interrupted r) (wk_needs_retry r).
Definition wk_interrupt (r : WakeRegistrationWorkerReport) : WakeRegistrationWorkerReport :=
  mkWorkerReport (wk_examined r) (wk_applied r) (wk_deferred r) (wk_superseded r)
    true (wk_needs_retry r).
Definition wk_set_needs_retry (b : bool) (r : WakeRegistrationWorkerReport)
  : WakeRegistrationWorkerReport :=
  mkWorkerReport (wk_examined r) (wk_applied r) (wk_deferred r) (wk_superseded r)
    (wk_interrupted r) b.

(** [u64::checked_shl]: the shifted-out bits are lost. *)
Definition checked_shl_u64 (value exponent : Z) : option Z :=
  if exponent <? 64 then Some (Z.land (Z.shiftl value exponent) u64_max) else None.

Definition retry_delay (attempt_count : Z) : Duration :=
  let exponent := Z.min attempt_count 16 in
  let seconds := Z.min
    (default u64_max (checked_shl_u64 (duration_as_secs INITIAL_RETRY_DELAY) exponent))
    (duration_as_secs MAX_RETRY_DELAY) in
  from_secs seconds.

Section Worker.
Context `{L : UrlLib} `{NK : NostrKeys}.
Context (server_url : string).

(** The loop over the loaded changes. *)
Fixpoint apply_changes (deadline : OperationDeadline) (changes : list WakeRegistrationChange)
    (report : WakeRegistrationWorkerReport)
  : Prog (Result WakeRegistrationWorkerError WakeRegistrationWorkerReport) :=
  match changes with
  | [] => Ret (Ok report)
  | change :: rest =>
      let* budget := context deadline in
      match budget with
      | None => Ret (Ok (wk_interrupt report))
      | Some budget =>
          let report := wk_examine report in
          let* applied := call (apply_registration server_url change budget) in
          match applied with
          | Ok _ =>
              let* done := ledger (acknowledge_wake_registration change) in
              match done with
              | Ok _ => apply_changes deadline rest (wk_apply report)
              | Err Wr_StaleChange => apply_changes deadline rest (wk_supersede report)
              | Err error => Ret (Err (Worker_Outbox error))
              end
          | Err error =>
              if bool_decide (error = Cancelled) then Ret (Ok (wk_interrupt report))
              else
              let* now := call clock_now in
              let* done := ledger (retry_wake_registration change now
                             (retry_delay (wr_attempt_count change))) in
              match done with
              | Ok _ => apply_changes deadline rest (wk_defer report)
              | Err Wr_StaleChange => apply_changes deadline rest (wk_supersede report)
              | Err error => Ret (Err (Worker_Outbox error))
              end
          end
      end
  end.

(** [WakeRegistrationWorker::run] from the reading of the clock on. *)
Definition run_at (maximum_rows : Z) (budget : OperationBudget) (now : UnixTimestamp)
  : Prog (Result WakeRegistrationWorkerError WakeRegistrationWorkerReport) :=
  let* loaded := ledger (read (load_due_wake_registrations now maximum_rows)) in
  match loaded with
  | Err e => Ret (Err (Worker_Outbox e))
  | Ok changes =>
      let selected := Z.of_nat (length changes) in
      let* done := apply_changes (mkOperationDeadline budget) changes default_worker_report in
      match done with
      | Err e => Ret (Err e)
      | Ok report =>
          Ret (Ok (wk_set_needs_retry
            (wk_interrupted report || negb (Nat.eqb (wk_deferred report) 0)
             || negb (Nat.eqb (wk_superseded report) 0) || (selected =? maximum_rows)) report))
      end
  end.

(** [WakeRegistrationWorker::run]. *)
Definition worker_run (maximum_rows : Z) (budget : OperationBudget)
  : Prog (Result WakeRegistrationWorkerError WakeRegistrationWorkerReport) :=
  let* now := call clock_now in run_at maximum_rows budget now.

End Worker.

(** ** Lemmas *)

Section WorkerLemmas.
Context `{L : UrlLib} `{NK : NostrKeys}.
Context (server_url : string).

(** What the provider last answered, until a transaction uses it up. *)
Definition provider_answer : Type := option (WakeRegistrationChange * Result HostError unit).
Definition note_answer (X : Type) (c : HostCall X) : X -> provider_answer -> provider_answer :=
  match c in HostCall X return X -> provider_answer -> provider_answer with
  | apply_registration _ change _ => fun r _ => Some (change, r)
  | _ => fun _ g => g
  end.

(** The commits an answer entitles the worker to. *)
Definition may_settle (g : provider_answer) (d d' : Database) : Prop :=
  exists change, g = Some (change, Ok tt) /\ acknowledge_wake_registration change d = Ok (tt, d')
  \/ exists error now, g = Some (change, Err error) /\ error <> Cancelled
      /\ retry_wake_registration change now (retry_delay (wr_attempt_count change)) d = Ok (tt, d').

Abbreviation worker_follows := (follows note_answer (fun _ => None) may_settle).

Lemma context_follows {S} deadline (f : option Duration -> Prog S) g :
  (forall b, worker_follows g (f b)) -> worker_follows g (bind (context deadline) f).
Proof. intros Hf [|]; simpl; auto. Qed.

Lemma apply_changes_follows deadline changes : forall report g,
  worker_follows g (apply_changes server_url deadline changes report).
Proof.
  induction changes as [|change rest IH]; intros report g; [done|].
  cbn [apply_changes]. apply context_follows. intros [budget|]; [|done].
  intros [[]|error]; cbn [note_answer].
  - split.
    + intros d [] d' H. right. exists change. by left.
    + intros [[]|[]]; first [apply IH|done].
  - cbn [bind]. destruct (bool_decide (error = Cancelled)) eqn:He; [done|].
    apply bool_decide_eq_false_1 in He. intros now. cbn [note_answer]. split.
    + intros d [] d' H. right. exists change. right. by exists error, now.
    + intros [[]|[]]; first [apply IH|done].
Qed.

Lemma retry_delay_value n : 0 <= n -> retry_delay n = from_secs (Z.min (5 * 2 ^ Z.min n 16) 3600).
Proof.
  intros Hn. unfold retry_delay. f_equal.
  change (duration_as_secs MAX_RETRY_DELAY) with 3600. f_equal.
  change (duration_as_secs INITIAL_RETRY_DELAY) with 5. unfold checked_shl_u64.
  assert (0 <= Z.min n 16 <= 16) as Hm by lia. revert Hm. generalize (Z.min n 16) as m. intros m Hm.
  rewrite (proj2 (Z.ltb_lt m 64)) by lia. cbn [default].
  rewrite Z.shiftl_mul_pow2 by lia. change u64_max with (Z.ones 64). rewrite Z.land_ones by lia.
  apply Z.mod_small. pose proof (Z.pow_le_mono_r 2 m 16 ltac:(lia) ltac:(lia)).
  pose proof (Z.pow_pos_nonneg 2 m ltac:(lia) ltac:(lia)). lia.
Qed.

Lemma retry_delay_typed n : 0 <= n -> duration (retry_delay n).
Proof.
  intros Hn. rewrite retry_delay_value by done. unfold duration, from_secs, duration_max, NANOS_PER_SEC, u64_max.
  pose proof (Z.pow_pos_nonneg 2 (Z.min n 16) ltac:(lia) ltac:(lia)). lia.
Qed.

(** The report counts what happened to each change. *)
Definition worker_tally (r : WakeRegistrationWorkerReport) : nat :=
  wk_applied r + wk_deferred r + wk_superseded r.

Record adds_up (n : nat) (r r' : WakeRegistrationWorkerReport) : Prop := {
  au_deferred : (wk_deferred r <= wk_deferred r')%nat;
  au_superseded : (wk_superseded r <= wk_superseded r')%nat;
  au_complete : wk_interrupted r' = false -> wk_examined r' = worker_tally r'
    /\ worker_tally r' = (worker_tally r + n)%nat;
  au_interrupted : wk_interrupted r' = true ->
    (worker_tally r' <= wk_examined r' <= S (worker_tally r'))%nat
    /\ (wk_examined r' <= worker_tally r + n)%nat;
}.

Lemma adds_up_next n r r1 r' :
  worker_tally r1 = S (worker_tally r) -> (wk_deferred r <= wk_deferred r1)%nat ->
  (wk_superseded r <= wk_superseded r1)%nat -> adds_up n r1 r' -> adds_up (S n) r r'.
Proof.
  intros Ht Hd Hs [A1 A2 A3 A4].
  split; [lia|lia|intros H; destruct (A3 H)|intros H; destruct (A4 H)]; split; lia.
Qed.

(** The changes of a connection that are due. *)
Definition due_at (now : Z) (d : Database) (id : string) : Prop :=
  exists w, queued_for id d = Some w /\ wo_available_at w <= now.

Definition alone (_ _ : Database) : Prop := False.
Definition nothing (_ _ : Database) : Prop := True.
Definition any_call (X : Type) (_ : HostCall X) (_ : Database) : Prop := True.

(** The changes the provider was called for, the latest first. *)
Definition note_calls (X : Type) (c : HostCall X) : X -> list WakeRegistrationChange -> list WakeRegistrationChange :=
  match c in HostCall X return X -> list WakeRegistrationChange -> list WakeRegistrationChange with
  | apply_registration _ change _ => fun _ g => change :: g
  | _ => fun _ g => g
  end.

(** The loop calls the provider once for each of the first changes, in their order,
    and examined as many. *)
Definition called_for (changes : list WakeRegistrationChange) (report : WakeRegistrationWorkerReport)
    (g g' : list WakeRegistrationChange)
    (r : Result WakeRegistrationWorkerError WakeRegistrationWorkerReport) : Prop :=
  exists n, (n <= length changes)%nat /\ g' = rev (take n changes) ++ g
    /\ forall report', r = Ok report' -> wk_examined report' = (wk_examined report + n)%nat
         /\ adds_up (length changes) report report'.

Lemma called_next change rest report report1 g g' r :
  worker_tally report1 = S (worker_tally report) -> wk_examined report1 = S (wk_examined report) ->
  (wk_deferred report <= wk_deferred report1)%nat -> (wk_superseded report <= wk_superseded report1)%nat ->
  called_for rest report1 (change :: g) g' r -> called_for (change :: rest) report g g' r.
Proof.
  intros Ht He Hd Hs (n & Hn & -> & Hr). exists (S n). split_and!; [cbn; lia|cbn; by rewrite <- app_assoc|].
  intros report' E. destruct (Hr report' E) as [H1 H2]. split; [lia|by eapply adds_up_next].
Qed.

Lemma apply_changes_calls deadline changes : forall report g,
  wk_interrupted report = false -> wk_examined report = worker_tally report ->
  ends_in note_calls id (called_for changes report g) g (apply_changes server_url deadline changes report).
Proof.
  induction changes as [|change rest IH]; intros report g Hi He; cbn [apply_changes].
  { exists 0%nat. split_and!; [done|done|]. intros report' [= <-]. split; [lia|].
    split; try lia; intros Hi'; simpl; first [lia|congruence]. }
  assert (called_for (change :: rest) report g g (Ok (wk_interrupt report))) as Hstop.
  { exists 0%nat. split_and!; [cbn; lia|done|]. intros report' [= <-]. split; [cbn; lia|].
    split; simpl; try lia. intros _. unfold worker_tally in *. simpl. lia. }
  intros [|]; [exact Hstop|]. intros spent. cbn [bind].
  destruct (deadline_context deadline false spent) as [budget|]; [|exact Hstop].
  intros [[]|error]; cbn [bind note_calls].
  - intros [[]|[]]; try (exists 1%nat; split_and!; [cbn; lia|done|by intros report' [=]]);
      (eapply ends_in_mono; [|apply IH; [done|unfold worker_tally in *; simpl; lia]]);
      intros g' r; apply called_next; unfold worker_tally; simpl; lia.
  - destruct (bool_decide (error = Cancelled)).
    { exists 1%nat. split_and!; [cbn; lia|done|]. intros report' [= <-]. split; [cbn; lia|].
      split; simpl; try lia. intros _. unfold worker_tally in *. simpl. lia. }
    intros now. cbn [bind]. intros [[]|[]]; try (exists 1%nat; split_and!; [cbn; lia|done|by intros report' [=]]);
      (eapply ends_in_mono; [|apply IH; [done|unfold worker_tally in *; simpl; lia]]);
      intros g' r; apply called_next; unfold worker_tally; simpl; lia.
Qed.

(** What the loop leaves: the report adds up; and if it settled every change by an
    acknowledgement, their connections have nothing due any more. *)
Definition loop_post (now : Z) (changes : list WakeRegistrationChange) (report : WakeRegistrationWorkerReport)
    (d : Database) (r : Result WakeRegistrationWorkerError WakeRegistrationWorkerReport) (d' : Database) : Prop :=
  forall report', r = Ok report' ->
    outbox_wf (wake_registration_outbox d')
    /\ adds_up (length changes) report report'
    /\ (wk_interrupted report' = false -> wk_deferred report' = wk_deferred report ->
        wk_superseded report' = wk_superseded report ->
        forall id, due_at now d' id -> due_at now d id /\ id ∉ wr_connection_id <$> changes).

Lemma loop_end now changes report d :
  outbox_wf (wake_registration_outbox d) -> wk_examined report = worker_tally report ->
  loop_post now changes report d (Ok (wk_interrupt report)) d.
Proof.
  intros Hwf He report' [= <-]. split_and!; [done| |done].
  split; simpl; try lia. intros _. unfold worker_tally in *. simpl. lia.
Qed.

Lemma alone_rtc d d' : rtc alone d d' -> d' = d.
Proof. by inversion 1. Qed.

(** Settling one change and going on. *)
Lemma loop_next now change rest report report1 d d1 r d' :
  worker_tally report1 = S (worker_tally report) ->
  (wk_deferred report <= wk_deferred report1)%nat -> (wk_superseded report <= wk_superseded report1)%nat ->
  (wk_deferred report1 = wk_deferred report -> wk_superseded report1 = wk_superseded report ->
    forall id, due_at now d1 id -> due_at now d id /\ id <> wr_connection_id change) ->
  loop_post now rest report1 d1 r d' -> loop_post now (change :: rest) report d r d'.
Proof.
  intros Ht Hd Hs Hdue Hp report' Hr. destruct (Hp report' Hr) as (Hwf & Ha & Hdone).
  split_and!; [done|by eapply adds_up_next|]. destruct Ha as [A1 A2 _ _].
  intros Hi Hd' Hs' id Hid. destruct (Hdone Hi ltac:(lia) ltac:(lia) id Hid) as [Hid1 Hno].
  destruct (Hdue ltac:(lia) ltac:(lia) id Hid1) as [? ?]. split; [done|].
  csimpl. rewrite elem_of_cons. naive_solver.
Qed.

Lemma apply_changes_alone now deadline changes : forall report d,
  outbox_wf (wake_registration_outbox d) -> Forall (fun c => 0 <= wr_attempt_count c) changes ->
  wk_interrupted report = false -> wk_examined report = worker_tally report ->
  wp alone nothing any_call (apply_changes server_url deadline changes report)
    (loop_post now changes report d) d.
Proof.
  induction changes as [|change rest IH]; intros report d Hwf Hn Hi He; cbn [apply_changes].
  - intros d1 ->%alone_rtc report' [= <-]. split_and!; [done| |].
    + split; try lia; intros Hi'; simpl; first [lia|congruence].
    + intros _ _ _ id Hid. split; [done|]. apply not_elem_of_nil.
  - apply Forall_cons in Hn as [Hn Hrest].
    apply wp_bind, wp_context; [done..|]. intros d0 [budget|] ->%alone_rtc.
    2:{ intros d1 ->%alone_rtc. by apply loop_end. }
    apply wp_bind_call. intros d1 ->%alone_rtc. split; [done|]. intros [[]|error] _.
    + apply wp_bind_ledger. intros d1 ->%alone_rtc.
      destruct (acknowledge_wake_registration change d) as [[[] d1]|x] eqn:Hack.
      * split; [done|]. pose proof (acknowledge_registration_Ok change d d1 Hwf Hack) as Ha.
        eapply wp_mono; [apply IH; [by apply (ak_rows _ _ _ Ha)|done|done|]|].
        { unfold worker_tally in *. simpl. lia. }
        intros r d2. apply loop_next; [unfold worker_tally; simpl; lia|done|done|].
        intros _ _ id (w & Hw & Hav). rewrite (ak_queued _ _ _ Ha) in Hw.
        case_bool_decide; [done|]. split; [by exists w|done].
      * destruct x; try (by intros d1 _ report' [=]).
        eapply wp_mono; [apply IH; [done..|]|].
        { unfold worker_tally in *. simpl. lia. }
        intros r d2. apply loop_next; [unfold worker_tally; simpl; lia|done|simpl; lia|simpl; lia].
    + destruct (bool_decide (error = Cancelled)).
      { intros d1 ->%alone_rtc. intros report' [= <-]. split_and!; [done| |done].
        split; simpl; try lia. intros _. unfold worker_tally in *. simpl. lia. }
      apply wp_bind_call. intros d1 ->%alone_rtc. split; [done|]. intros t _.
      apply wp_bind_ledger. intros d1 ->%alone_rtc.
      destruct (retry_wake_registration _ _ _ d) as [[[] d1]|x] eqn:Hretry.
      * split; [done|].
        pose proof (retry_registration_Ok _ _ _ _ _ Hwf (retry_delay_typed _ Hn) Hretry) as Ha.
        eapply wp_mono; [apply IH; [by apply (rt_rows _ _ _ _ _ Ha)|done|done|]|].
        { unfold worker_tally in *. simpl. lia. }
        intros r d2. apply loop_next; [unfold worker_tally; simpl; lia|simpl; lia|done|simpl; lia].
      * destruct x; try (by intros d1 _ report' [=]).
        eapply wp_mono; [apply IH; [done..|]|].
        { unfold worker_tally in *. simpl. lia. }
        intros r d2. apply loop_next; [unfold worker_tally; simpl; lia|done|simpl; lia|simpl; lia].
Qed.

Lemma load_due_length now maximum changes d : 0 <= maximum ->
  load_due_wake_registrations now maximum d = Ok changes -> Z.of_nat (length changes) <= maximum.
Proof.
  intros Hpos H. unfold load_due_wake_registrations in H.
  destruct ((maximum =? 0) || (MAX_WAKE_REGISTRATION_BATCH <? maximum)); [done|].
  destruct (wr_sqlite_u64 now) as [now'|]; [|done].
  destruct (ok_or Wr_InvalidBatchSize (i64_try_from maximum)) as [m|] eqn:E2; [|done]. use_results.
  apply collect_results_Forall2 in H. rewrite <- (Forall2_length _ _ _ H). by apply length_limit.
Qed.

(** What a load returns, and that a load short of its limit returned everything. *)
Lemma load_due_Ok d now maximum changes :
  outbox_wf (wake_registration_outbox d) -> 0 <= maximum ->
  load_due_wake_registrations now maximum d = Ok changes ->
  Z.of_nat (length changes) <= maximum
  /\ Forall (fun c => 0 <= wr_attempt_count c) changes
  /\ (Z.of_nat (length changes) < maximum ->
      forall id, due_at now d id -> id ∈ wr_connection_id <$> changes).
Proof.
  intros [Hck Hnd] Hpos H. unfold load_due_wake_registrations in H.
  destruct ((maximum =? 0) || (MAX_WAKE_REGISTRATION_BATCH <? maximum)) eqn:Hm; [done|].
  destruct (wr_sqlite_u64 now) as [now'|] eqn:E1; [|done]. apply wr_sqlite_u64_Ok in E1 as [-> _].
  destruct (ok_or Wr_InvalidBatchSize (i64_try_from maximum)) as [m|] eqn:E2; [|done]. use_results.
  apply collect_results_Forall2 in H. unfold due_registrations in H.
  set (sorted := order_by _ _) in H.
  assert (forall w, w ∈ sorted <-> w ∈ wake_registration_outbox d /\ wo_available_at w <= now) as Hs.
  { intros w. unfold sorted. rewrite (order_by_Permutation _ (select _ _)), elem_of_select. by rewrite Z.leb_le. }
  pose proof (Forall2_length _ _ _ H) as Hlen. split_and!.
  - rewrite <- Hlen. by apply length_limit.
  - apply Forall_forall. intros c (i & Hi)%list_elem_of_lookup.
    destruct (Forall2_lookup_r _ _ _ _ _ H Hi) as (w & Hw & He).
    apply list_elem_of_lookup_2, elem_of_limit, Hs in Hw as [Hw _].
    destruct (hydrate_change_Ok d w c He) as (_ & _ & _ & _ & _ & -> & _).
    rewrite Forall_forall in Hck. specialize (Hck w Hw). unfold registration_check in Hck.
    check_to_prop_in Hck. lia.
  - intros Hshort id (w & Hq & Hav). destruct (find_key_Some _ _ _ _ Hq) as [Hin <-].
    assert (limit maximum sorted = sorted) as Hall.
    { unfold limit in *. apply take_ge. rewrite length_take in Hlen. lia. }
    rewrite Hall in H. assert (w ∈ sorted) as (i & Hi)%list_elem_of_lookup by (by apply Hs).
    destruct (Forall2_lookup_l _ _ _ _ _ H Hi) as (c & Hci & He).
    destruct (hydrate_change_Ok d w c He) as [<- _].
    apply list_elem_of_fmap_2. by eapply list_elem_of_lookup_2.
Qed.

(** A pass alone that asks for no other leaves nothing due. *)
Lemma nothing_due maximum budget now d report d' :
  registration_wf d -> 0 <= maximum ->
  reaches alone (run_at server_url maximum budget now, d) (Ret (Ok report), d') ->
  wk_needs_retry report = false -> forall w, w ∈ wake_registration_outbox d' -> now < wo_available_at w.
Proof.
  intros Hwf Hmaximum Hrun. pose proof (gw_rows d Hwf) as Hrows.
  assert (wp alone nothing any_call (run_at server_url maximum budget now) (fun r d' =>
    forall report, r = Ok report -> wk_needs_retry report = false ->
      forall w, w ∈ wake_registration_outbox d' -> now < wo_available_at w) d) as Hwp.
  2:{ destruct (wp_adequate _ _ _ _ _ _ _ _ Hwp Hrun) as [H _]. apply wp_Ret in H. by apply H. }
  unfold run_at. apply wp_bind_read; [done|]. intros d0 ->%alone_rtc.
  destruct (load_due_wake_registrations now maximum d) as [changes|e] eqn:Hl.
  2:{ by intros d1 _ r [=]. }
  destruct (load_due_Ok d now maximum changes Hrows Hmaximum Hl) as (Hmax & Hn & Hall).
  apply wp_bind. eapply wp_mono; [by apply (apply_changes_alone now)|].
  intros r d1 Hp. destruct r as [r|e]; [|by intros d2 _ r' [=]].
  intros d2 ->%alone_rtc report' [= <-]. destruct (Hp r eq_refl) as (Hwf1 & [A1 A2 A3 A4] & Hdone).
  unfold worker_tally in *. cbn in *. destruct (wk_interrupted r) eqn:Hi; cbn [orb]; [done|].
  destruct (A3 eq_refl). intros Hno. bool_to_prop. apply Nat.eqb_eq in H1, H3. intros w Hw.
  destruct (Z.lt_ge_cases now (wo_available_at w)) as [|Hle]; [done|exfalso].
  assert (due_at now d1 (wo_connection_id w)) as Hdue.
  { exists w. split; [|done]. apply find_key_unique; [by apply Hwf1|done]. }
  destruct (Hdone eq_refl ltac:(lia) ltac:(lia) _ Hdue) as [Hdue0 Hnin]. apply Hnin, Hall; [lia|done].
Qed.

(** ** Properties *)

(** C15: Nothing leaves the outbox unapplied: whatever the provider answers and whatever
    other processes commit, every commit of the worker either acknowledges the
    change the provider has just reported as applied, or defers the change it
    has just refused for a reason other than cancellation, by the delay of its
    attempt count; one answer entitles to one such commit. *)
Theorem settled_after_answer env maximum budget d p1 d1 g1 p2 d2 g2
    (Hrun : rtc (history_step note_answer (fun _ => None) env)
       (worker_run server_url maximum budget, d, None) (p1, d1, g1))
    (Hstep : history_step note_answer (fun _ => None) env (p1, d1, g1) (p2, d2, g2)) :
  d2 = d1 \/ env d1 d2
  \/ exists change,
       g1 = Some (change, Ok tt) /\ acknowledge_wake_registration change d1 = Ok (tt, d2)
       \/ exists error now, g1 = Some (change, Err error) /\ error <> Cancelled
          /\ retry_wake_registration change now (retry_delay (wr_attempt_count change)) d1 = Ok (tt, d2).
Proof.
  eapply (follows_adequate note_answer (fun _ => None) may_settle env); [|exact Hrun|exact Hstep].
  intros now. split.
  - intros d0 a d' H. left. unfold read in H. destruct (load_due_wake_registrations _ _ d0); by simplify_eq.
  - intros [changes|e]; [|done]. cbn [bind]. apply follows_bind; [apply apply_changes_follows|].
    by intros [r|e] g'.
Qed.

(** The pass calls the provider once for each of the first changes it loaded. *)
Lemma pass_calls env maximum budget now d r d' calls (Hmaximum : 0 <= maximum)
    (Hrun : rtc (history_step note_calls id env) (run_at server_url maximum budget now, d, []) (Ret r, d', calls)) :
  exists d1 changes, rtc env d d1
    /\ (load_due_wake_registrations now maximum d1 = Ok changes \/ changes = [])
    /\ rev calls = take (length calls) changes /\ Z.of_nat (length calls) <= maximum
    /\ forall report, r = Ok report ->
         wk_examined report = length calls
         /\ (worker_tally report <= wk_examined report <= S (worker_tally report))%nat
         /\ (wk_interrupted report = false -> wk_examined report = worker_tally report)
         /\ (wk_needs_retry report = false -> wk_interrupted report = false /\ wk_applied report = wk_examined report).
Proof.
  unfold run_at, ledger in Hrun. cbn [bind] in Hrun. apply history_transact in Hrun as (d1 & Hd1 & Hrun).
  unfold read in Hrun. exists d1. destruct (load_due_wake_registrations now maximum d1) as [changes|e] eqn:Hl.
  2:{ exists []. assert (calls = [] /\ r = Err (Worker_Outbox e)) as [-> ->].
      { eapply (ends_in_adequate note_calls id env (fun g r => g = [] /\ r = Err (Worker_Outbox e))); [|exact Hrun].
        by split. }
      split_and!; [done|by right|done|cbn; lia|done]. }
  exists changes. apply load_due_length in Hl as Hlen; [|done].
  set (selected := Z.of_nat (length changes)) in *.
  assert (exists n, (n <= length changes)%nat /\ calls = rev (take n changes)
    /\ forall report, r = Ok report -> exists r0, wk_examined r0 = n /\ adds_up (length changes) default_worker_report r0
      /\ report = wk_set_needs_retry (wk_interrupted r0 || negb (Nat.eqb (wk_deferred r0) 0)
             || negb (Nat.eqb (wk_superseded r0) 0) || (selected =? maximum)) r0) as (n & Hn & -> & Hr).
  { eapply (ends_in_adequate note_calls id env (fun g r => exists n, (n <= length changes)%nat
      /\ g = rev (take n changes) /\ forall report, r = Ok report -> exists r0, wk_examined r0 = n
      /\ adds_up (length changes) default_worker_report r0
      /\ report = wk_set_needs_retry (wk_interrupted r0 || negb (Nat.eqb (wk_deferred r0) 0)
             || negb (Nat.eqb (wk_superseded r0) 0) || (selected =? maximum)) r0)); [|exact Hrun].
    cbn [bind]. apply ends_in_bind. eapply ends_in_mono; [|by apply apply_changes_calls].
    intros g r1 (n & Hn & -> & Hr1). rewrite app_nil_r.
    destruct r1 as [r0|e]; exists n; split_and!; try done. intros report [= <-].
    destruct (Hr1 r0 eq_refl) as [H1 H2]. by exists r0. }
  rewrite rev_involutive, length_rev, length_take_le by done.
  split_and!; [done|by left|done|lia|]. intros report E. destruct (Hr report E) as (r0 & Hex & [A1 A2 A3 A4] & ->).
  unfold worker_tally in *. cbn in *. destruct (wk_interrupted r0) eqn:Hi; cbn [orb].
  - destruct (A4 eq_refl). split_and!; [done|lia|lia|done|done].
  - destruct (A3 eq_refl). split_and!; [done|lia|lia|lia|]. intros Hno. split; [done|]. bool_to_prop.
    repeat match goal with H : Nat.eqb _ _ = true |- _ => apply Nat.eqb_eq in H end. lia.
Qed.

(** C16: A pass calls the provider at most [maximum] times, once for each of the first
    due changes it loaded, in their order, and reports what became of each call:
    the changes applied, deferred and superseded add up to the calls made, with
    one more when a cancellation interrupted the last.  When it asks for no other
    pass, every call was applied and, if no other process wrote meanwhile, no row
    is left that was available when the pass read its clock. *)
Theorem finished_pass_leaves_nothing_due env maximum budget now d r d' calls
    (Hwf : registration_wf d) (Hmaximum : 0 <= maximum)
    (Hrun : rtc (history_step note_calls id env)
      (run_at server_url maximum budget now, d, []) (Ret r, d', calls)) :
  Z.of_nat (length calls) <= maximum
  /\ (exists d1 changes, rtc env d d1
       /\ (load_due_wake_registrations now maximum d1 = Ok changes \/ changes = [])
       /\ rev calls = take (length calls) changes)
  /\ forall report, r = Ok report ->
       wk_examined report = length calls
       /\ (worker_tally report <= length calls <= S (worker_tally report))%nat
       /\ (wk_interrupted report = false -> length calls = worker_tally report)
       /\ (wk_needs_retry report = false -> wk_applied report = length calls
            /\ ((forall a b, ~ env a b) ->
                 forall w, w ∈ wake_registration_outbox d' -> now < wo_available_at w)).
Proof.
  destruct (pass_calls env maximum budget now d r d' calls Hmaximum Hrun)
    as (d1 & changes & H1 & H2 & H3 & H4 & Hr).
  split_and!; [done|by exists d1, changes|]. intros report E.
  destruct (Hr report E) as (E1 & E2 & E3 & E4). rewrite <- E1. split_and!; [done|lia|lia|done|].
  intros Hno. split; [by apply E4|]. intros Hquiet. eapply nothing_due; [done|done| |exact Hno].
  subst r. apply history_reaches in Hrun. unfold reaches in *.
  eapply (rtc_congruence (fun s => s)) in Hrun; [exact Hrun|]. intros [p2 d2] [p3 d3] [[_ He]|Hs]; [|by right].
  by destruct (Hquiet _ _ He).
Qed.

(** The back-off doubles from five seconds with every attempt and stops at one hour,
    for every attempt count a row can hold. *)
Theorem retry_delay_spec n (Hn : 0 <= n <= u32_max) :
  from_secs 5 <= retry_delay n <= from_secs 3600
  /\ (n <= 9 -> retry_delay n = from_secs (5 * 2 ^ n))
  /\ (10 <= n -> retry_delay n = from_secs 3600)
  /\ retry_delay n <= retry_delay (n + 1) <= 2 * retry_delay n.
Proof.
  rewrite !retry_delay_value by lia. unfold from_secs, NANOS_PER_SEC.
  assert (forall m, 0 <= m -> 1 <= 2 ^ Z.min m 16) as Hpos
    by (intros m ?; pose proof (Z.pow_pos_nonneg 2 (Z.min m 16)); lia).
  assert (2 ^ Z.min n 16 <= 2 ^ Z.min (n + 1) 16 <= 2 * 2 ^ Z.min n 16) as Hstep.
  { split; [apply Z.pow_le_mono_r; lia|]. rewrite <- Z.pow_succ_r by lia. apply Z.pow_le_mono_r; lia. }
  pose proof (Hpos n ltac:(lia)). split_and!; [lia..| | |lia|lia].
  - intros H9. replace (Z.min n 16) with n by lia.
    pose proof (Z.pow_le_mono_r 2 n 9 ltac:(lia) H9) as Hp. change (2 ^ 9) with 512 in Hp. lia.
  - intros H10. pose proof (Z.pow_le_mono_r 2 10 (Z.min n 16) ltac:(lia) ltac:(lia)) as Hp.
    change (2 ^ 10) with 1024 in Hp. lia.
Qed.

End WorkerLemmas.

(** ** A run of the model

    The provider applies the registration of the imported connection. *)
Definition accepting_host (X : Type) (c : HostCall X) : X :=
  match c in HostCall X return X with
  | clock_now => 250
  | is_cancelled => false
  | elapsed => 0
  | apply_registration _ _ _ | publish_event _ _ _ => Ok tt
  | get_info _ | get_balance _ | make_invoice _ _ | quote_payment _ _ _ | payment_status _ _
  | start_payment _ _ | lookup_invoice _ _ | list_transactions _ _ | fetch_event _ _ _ _
  | load_nwc_secret _ _ => Err Unavailable
  | record_diagnostic _ => tt
  | random_bytes n => Some (repeat 4 n)
  | cipher_entropy => []
  | generate_keys => (repeat 4 32, repeat 5 32)
  | load_client_secret _ => Ok (Some "secret"%string)
  | store_client_secret _ _ | delete_client_secret _ => Ok tt
  | http_post _ _ _ => Ok 200
  | instant_now => 0
  | sleep _ => tt
  | open_node _ _ => Err Unavailable
  | complete_wake _ _ => Ok tt
  end.

Lemma accepting_host_typed X (c : HostCall X) : answer_typed c (accepting_host X c).
Proof.
  destruct c; simpl; try done; try (split; by vm_compute). intros b [= <-]. apply repeat_length.
Qed.

Definition sample_run : Prog (Result WakeRegistrationWorkerError WakeRegistrationWorkerReport) :=
  @worker_run sample_urls sample_keys "https://wake" 10 (from_secs 5).
Definition sample_pass : Prog (Result WakeRegistrationWorkerError WakeRegistrationWorkerReport) :=
  @run_at sample_urls sample_keys "https://wake" 10 (from_secs 5) 250.
Definition sample_history (n : nat) := history_after note_answer (fun _ => None) accepting_host n
  sample_run imported_database None.

Lemma settled_after_answer_witness :
  exists change, acknowledge_wake_registration change (sample_history 5).1.2
                 = Ok (tt, (sample_history 6).1.2).
Proof.
  pose proof (history_after_reaches note_answer (fun _ => None) alone accepting_host
    accepting_host_typed 5 sample_run imported_database None) as Hrun.
  pose proof (history_after_step note_answer (fun _ => None) alone accepting_host
    accepting_host_typed 5 sample_run imported_database None) as Hstep.
  fold (sample_history 5) in Hrun, Hstep. fold (sample_history 6) in Hstep.
  assert (length (wake_registration_outbox (sample_history 6).1.2)
    <> length (wake_registration_outbox (sample_history 5).1.2)) as Hne by (clear; by vm_compute).
  assert (forall change e, (sample_history 5).2 <> Some (change, Err e)) as Hok
    by (clear; intros change e; by vm_compute).
  assert (match (sample_history 5).1.1 with Transact _ _ => true | _ => false end = true) as Ht
    by (clear; by vm_compute).
  destruct (sample_history 5) as [[p1 d1] g1], (sample_history 6) as [[p2 d2] g2].
  destruct p1 as [r|X c k|E A t k]; [discriminate Ht..|].
  destruct (@settled_after_answer sample_urls sample_keys "https://wake" alone 10 (from_secs 5)
    imported_database _ d1 g1 p2 d2 g2 Hrun Hstep) as [H|[[]|(change & [[_ H]|(e & now & H & _)])]].
  - by rewrite H in Hne.
  - exists change. exact H.
  - by destruct (Hok change e).
Defined.

Definition finished_pass := run_history note_calls id (fun _ => accepting_host) 0 sample_pass imported_database [].

Lemma finished_pass_result : finished_pass.1.1 = Ok (mkWorkerReport 1 1 0 0 false false).
Proof. vm_compute. reflexivity. Qed.
Lemma finished_pass_due :
  forallb (fun w => wo_available_at w <=? 250) (wake_registration_outbox finished_pass.1.2) = true.
Proof. vm_compute. reflexivity. Qed.

Lemma finished_pass_leaves_nothing_due_witness :
  length finished_pass.2 = 1%nat /\ wake_registration_outbox finished_pass.1.2 = [].
Proof.
  pose proof (run_history_reaches note_calls id alone (fun _ => accepting_host) (fun _ => accepting_host_typed)
    sample_pass 0 imported_database []) as Hrun.
  fold finished_pass in Hrun. rewrite finished_pass_result in Hrun.
  destruct (@finished_pass_leaves_nothing_due sample_urls sample_keys "https://wake" alone 10 (from_secs 5) 250
    imported_database _ _ _ imported_registration_wf ltac:(done) Hrun) as (_ & _ & H).
  destruct (H _ eq_refl) as (Hex & _ & _ & Hno). split; [symmetry; exact Hex|].
  destruct (Hno eq_refl) as [_ Hnone]. specialize (Hnone (fun _ _ H => H)). pose proof finished_pass_due as Hd.
  destruct (wake_registration_outbox finished_pass.1.2) as [|w l]; [done|].
  specialize (Hnone w (list_elem_of_here _ _)). cbn [forallb] in Hd.
  apply andb_prop in Hd as [Hd%Z.leb_le _]. lia.
Defined.

Lemma retry_delay_spec_witness : 0 <= 3 <= u32_max /\ retry_delay 3 = from_secs 40.
Proof.
  split; [by vm_compute|]. destruct (retry_delay_spec 3) as (_ & H & _); [by vm_compute|].
  by apply H.
Defined.
