(* ===== verification/HostBridge.v ===== *)
(** * The native host behind the engine

    Models [nwc-mobile-uniffi/src/host_bridge.rs]: the values that cross to
    Swift and Kotlin, their conversion and validation, and the adapter that
    serves the engine's host calls ([HostCall] of Program.v) from the foreign
    traits [MobileWalletBackend], [MobileRelayTransport], [MobileSecretProvider]
    and [MobileWakeRegistrationTransport].  What a foreign method returns is a
    field of [MobileHost]; how its call is scheduled is [Runtime.v]. *)
From S2P Require Import Prelude Types Policy Host Runtime Registry Registration NostrValidation Program.
#[local] Open Scope Z_scope.

Definition BRIDGE_MAX_INVOICE_BYTES : Z := 16 * 1024.
Definition MAX_TRANSACTION_RESULTS : nat := 100.

(** ** Values *)

Inductive MobileHostError : Type :=
| Mobile_Unavailable | Mobile_TimedOut | Mobile_Cancelled | Mobile_Rejected | Mobile_NotFound
| Mobile_AlreadyInProgress | Mobile_Internal.

(** [impl From<MobileHostError> for HostError]. *)
Definition host_error_from (error : MobileHostError) : HostError :=
  match error with
  | Mobile_Unavailable => Unavailable
  | Mobile_TimedOut => TimedOut
  | Mobile_Cancelled => Cancelled
  | Mobile_Rejected => HostRejected
  | Mobile_NotFound => NotFound
  | Mobile_AlreadyInProgress => AlreadyInProgress
  | Mobile_Internal => Internal
  end.

Inductive MobileNwcMethod : Type :=
| Mobile_GetInfo | Mobile_GetBalance | Mobile_MakeInvoice | Mobile_PayInvoice
| Mobile_LookupInvoice | Mobile_ListTransactions.

Definition method_from_mobile (m : MobileNwcMethod) : NwcMethod :=
  match m with
  | Mobile_GetInfo => GetInfo
  | Mobile_GetBalance => GetBalance
  | Mobile_MakeInvoice => MakeInvoice
  | Mobile_PayInvoice => PayInvoice
  | Mobile_LookupInvoice => LookupInvoice
  | Mobile_ListTransactions => ListTransactions
  end.
(** [TryFrom<NwcMethod>]; the last arm of the source is for later methods. *)
Definition method_to_mobile (m : NwcMethod) : Result MobileHostError MobileNwcMethod :=
  Ok match m with
     | GetInfo => Mobile_GetInfo
     | GetBalance => Mobile_GetBalance
     | MakeInvoice => Mobile_MakeInvoice
     | PayInvoice => Mobile_PayInvoice
     | LookupInvoice => Mobile_LookupInvoice
     | ListTransactions => Mobile_ListTransactions
     end.

Inductive MobileNwcNotificationType : Type := Mobile_PaymentReceived | Mobile_PaymentSent.
Definition notification_from_mobile (n : MobileNwcNotificationType) : NwcNotificationType :=
  match n with Mobile_PaymentReceived => PaymentReceived | Mobile_PaymentSent => PaymentSent end.

Record MobileWalletInfo := mkMobileWalletInfo {
  mwi_public_key_hex : option string;
  mwi_methods : list MobileNwcMethod;
  mwi_notifications : list MobileNwcNotificationType;
}.
Record MobileMakeInvoiceRequest := mkMobileMakeInvoiceRequest {
  mmi_amount_msat : Z;
  mmi_description : option string;
  mmi_expiry_seconds : Z;
}.
Record MobileCreatedInvoice := mkMobileCreatedInvoice {
  mci_invoice : string;
  mci_payment_hash_hex : string;
  mci_amount_msat : Z;
  mci_expires_at_seconds : Z;
}.
Record MobilePaymentQuote := mkMobilePaymentQuote {
  mpq_payment_hash_hex : string;
  mpq_principal_msat : Z;
}.
Record MobilePayInvoiceRequest := mkMobilePayInvoiceRequest {
  mpi_invoice : string;
  mpi_amount_msat : option Z;
  mpi_maximum_fee_sat : Z;
  mpi_idempotency_key_hex : string;
}.
Inductive MobilePaymentFailure : Type :=
| Mobile_InvalidInvoice | Mobile_InsufficientFunds | Mobile_NoRoute | Mobile_RecipientRejected
| Mobile_Other.
Inductive MobilePaymentStatus : Type :=
| Mobile_Unknown
| Mobile_Pending
| Mobile_Succeeded (preimage_hex : string) (amount_msat fee_msat : Z)
| Mobile_Failed (reason : MobilePaymentFailure).
Inductive MobileInvoiceLookup : Type :=
| MobileLookup_PaymentHash (payment_hash_hex : string)
| MobileLookup_Invoice (invoice : string).
Inductive MobileTransactionDirection : Type := Mobile_Incoming | Mobile_Outgoing.
Record MobileListTransactionsRequest := mkMobileListTransactionsRequest {
  mlt_from_seconds : option Z;
  mlt_until_seconds : option Z;
  mlt_limit : Z;
  mlt_offset : Z;
  mlt_direction : option MobileTransactionDirection;
  mlt_include_unpaid : bool;
}.
Record MobileWalletTransaction := mkMobileWalletTransaction {
  mtx_payment_hash_hex : option string;
  mtx_direction : MobileTransactionDirection;
  mtx_amount_msat : Z;
  mtx_fee_msat : Z;
  mtx_created_at_seconds : Z;
  mtx_settled_at_seconds : option Z;
  mtx_status : MobilePaymentStatus;
}.
Record MobileWakeRegistrationChange := mkMobileWakeRegistrationChange {
  mwr_connection_id : string;
  mwr_connection_revision : Z;
  mwr_enabled : bool;
  mwr_client_public_key_hex : string;
  mwr_wallet_service_public_key_hex : string;
  mwr_relay_urls : list string;
}.

(** The foreign traits: what a method returns for its arguments, the timeout in
    milliseconds last.  [MobileCancellation] is the flag Runtime.v reads. *)
Record MobileHost := mkMobileHost {
  mh_get_info : Z -> Result MobileHostError MobileWalletInfo;
  mh_get_balance : Z -> Result MobileHostError Z;
  mh_make_invoice : MobileMakeInvoiceRequest -> Z -> Result MobileHostError MobileCreatedInvoice;
  mh_quote_payment : string -> option Z -> Z -> Result MobileHostError MobilePaymentQuote;
  mh_payment_status : string -> Z -> Result MobileHostError MobilePaymentStatus;
  mh_start_payment : MobilePayInvoiceRequest -> Z -> Result MobileHostError MobilePaymentStatus;
  mh_lookup_invoice : MobileInvoiceLookup -> Z -> Result MobileHostError (option MobileWalletTransaction);
  mh_list_transactions : MobileListTransactionsRequest -> Z ->
    Result MobileHostError (list MobileWalletTransaction);
  mh_fetch_event : string -> string -> Z -> Z -> Result MobileHostError (option string);
  mh_publish_event : string -> string -> Z -> Result MobileHostError unit;
  mh_load_nwc_secret : string -> Result MobileHostError (list Z);
  mh_apply_wake_registration : string -> MobileWakeRegistrationChange -> Z -> Result MobileHostError unit;
}.

(** ** Conversions *)

Definition timeout_milliseconds (budget : OperationBudget) : Z := Z.min (budget / 1000000) u64_max.

Definition rejected_error {A E} (r : Result E A) : Result HostError A := map_err (fun _ => HostRejected) r.

Definition core_payment_status (status : MobilePaymentStatus) : Result HostError PaymentStatus :=
  match status with
  | Mobile_Unknown => Ok Status_Unknown
  | Mobile_Pending => Ok Status_Pending
  | Mobile_Succeeded preimage_hex amount_msat fee_msat =>
      let? preimage := rejected_error (Hex32_from_hex preimage_hex) in
      Ok (Status_Succeeded preimage amount_msat fee_msat)
  | Mobile_Failed reason =>
      Ok (Status_Failed match reason with
                        | Mobile_InvalidInvoice => InvalidInvoice
                        | Mobile_InsufficientFunds => InsufficientFunds
                        | Mobile_NoRoute => NoRoute
                        | Mobile_RecipientRejected => RecipientRejected
                        | Mobile_Other => PaymentFailure_Other
                        end)
  end.

Definition core_transaction (t : MobileWalletTransaction) : Result HostError WalletTransaction :=
  let? payment_hash := rejected_error (traverse_option Hex32_from_hex (mtx_payment_hash_hex t)) in
  let? status := core_payment_status (mtx_status t) in
  Ok (mkWalletTransaction payment_hash
        match mtx_direction t with Mobile_Incoming => Incoming | Mobile_Outgoing => Outgoing end
        (mtx_amount_msat t) (mtx_fee_msat t) (mtx_created_at_seconds t) (mtx_settled_at_seconds t) status).

Definition mobile_direction (d : TransactionDirection) : Result HostError MobileTransactionDirection :=
  match d with Incoming => Ok Mobile_Incoming | Outgoing => Ok Mobile_Outgoing end.

(** [WalletInfo::new] and [with_notifications]: sets in the order of the variants. *)
Definition WalletInfo_new (public_key : option PublicKey) (methods : list NwcMethod) : WalletInfo :=
  mkWalletInfo public_key (btree_methods methods) [].
Definition with_notifications (notifications : list NwcNotificationType) (i : WalletInfo) : WalletInfo :=
  mkWalletInfo (wallet_public_key i) (wallet_methods i)
    (List.filter (fun n => bool_decide (n ∈ notifications)) [PaymentReceived; PaymentSent]).

(** [standard_nwc_methods] and [standard_wallet_info]: what a complete Lightning node
    advertises. *)
Definition standard_nwc_methods : list NwcMethod :=
  [GetInfo; GetBalance; MakeInvoice; PayInvoice; LookupInvoice; ListTransactions].
Definition standard_wallet_info (service_pubkey : PublicKey) (notifications : list NwcNotificationType)
  : WalletInfo :=
  with_notifications notifications (WalletInfo_new (Some service_pubkey) standard_nwc_methods).

Definition invoice_out_of_bounds (invoice : string) : bool :=
  string_is_empty invoice || (BRIDGE_MAX_INVOICE_BYTES <? str_len invoice).

(** ** The adapter *)

Section Bridge.
(** [completed] is whether the blocking task of a secret read returned. *)
Context `{N : NostrLib} (host : MobileHost) (s : Schedule) (completed : bool).

Definition foreign_call {T} (budget : OperationBudget) (operation : Result HostError T)
  : Result HostError T :=
  run_owned_with_context s budget operation.

Definition bridge_get_info (budget : OperationBudget) : Result HostError WalletInfo :=
  foreign_call budget
    (let? info := map_err host_error_from (mh_get_info host (timeout_milliseconds budget)) in
     let? public_key := rejected_error (traverse_option Hex32_from_hex (mwi_public_key_hex info)) in
     Ok (with_notifications (notification_from_mobile <$> mwi_notifications info)
           (WalletInfo_new public_key (method_from_mobile <$> mwi_methods info)))).

Definition bridge_get_balance (budget : OperationBudget) : Result HostError AmountMsat :=
  foreign_call budget (map_err host_error_from (mh_get_balance host (timeout_milliseconds budget))).

Definition bridge_make_invoice (request : MakeInvoiceRequest) (budget : OperationBudget)
  : Result HostError CreatedInvoice :=
  foreign_call budget
    (let? created := map_err host_error_from
       (mh_make_invoice host
          (mkMobileMakeInvoiceRequest (mir_amount request) (mir_description request)
             (duration_as_secs (mir_expiry request))) (timeout_milliseconds budget)) in
     if invoice_out_of_bounds (mci_invoice created) then Err HostRejected
     else
     let? payment_hash := rejected_error (Hex32_from_hex (mci_payment_hash_hex created)) in
     Ok (mkCreatedInvoice (mci_invoice created) payment_hash (mci_amount_msat created)
           (mci_expires_at_seconds created))).

Definition bridge_quote_payment (invoice : string) (amount : option AmountMsat) (budget : OperationBudget)
  : Result HostError PaymentQuote :=
  foreign_call budget
    (if invoice_out_of_bounds invoice then Err HostRejected
     else
     let? quote := map_err host_error_from
       (mh_quote_payment host invoice amount (timeout_milliseconds budget)) in
     let? payment_hash := rejected_error (Hex32_from_hex (mpq_payment_hash_hex quote)) in
     Ok (mkPaymentQuote payment_hash (mpq_principal_msat quote))).

Definition bridge_payment_status (payment_hash : PaymentHash) (budget : OperationBudget)
  : Result HostError PaymentStatus :=
  foreign_call budget
    (let? status := map_err host_error_from
       (mh_payment_status host (Hex32_to_hex payment_hash) (timeout_milliseconds budget)) in
     core_payment_status status).

Definition mobile_pay_request (request : PayInvoiceRequest) : MobilePayInvoiceRequest :=
  mkMobilePayInvoiceRequest (pir_invoice request) (pir_amount request) (pir_maximum_fee request)
    (Hex32_to_hex (pir_idempotency_key request)).

Definition bridge_start_payment (request : PayInvoiceRequest) (budget : OperationBudget)
  : Result HostError PaymentStatus :=
  foreign_call budget
    (let? status := map_err host_error_from
       (mh_start_payment host (mobile_pay_request request) (timeout_milliseconds budget)) in
     core_payment_status status).

Definition bridge_lookup_invoice (request : InvoiceLookup) (budget : OperationBudget)
  : Result HostError (option WalletTransaction) :=
  foreign_call budget
    (let? request := (match request with
                      | Lookup_PaymentHash hash => Ok (MobileLookup_PaymentHash (Hex32_to_hex hash))
                      | Lookup_Invoice invoice =>
                          if invoice_out_of_bounds invoice then Err HostRejected
                          else Ok (MobileLookup_Invoice invoice)
                      end) in
     let? transaction := map_err host_error_from
       (mh_lookup_invoice host request (timeout_milliseconds budget)) in
     traverse_option core_transaction transaction).

Definition bridge_list_transactions (request : ListTransactionsRequest) (budget : OperationBudget)
  : Result HostError (list WalletTransaction) :=
  foreign_call budget
    (let? direction := traverse_option mobile_direction (ltr_direction request) in
     let? transactions := map_err host_error_from
       (mh_list_transactions host
          (mkMobileListTransactionsRequest (ltr_from request) (ltr_until request) (ltr_limit request)
             (ltr_offset request) direction (ltr_include_unpaid request))
          (timeout_milliseconds budget)) in
     if (ltr_limit request <? Z.of_nat (length transactions))
        || Nat.ltb MAX_TRANSACTION_RESULTS (length transactions)
     then Err HostRejected
     else collect_results core_transaction transactions).

Definition bridge_fetch_event (relay : string) (event_id : EventId) (maximum_event_bytes : Z)
    (budget : OperationBudget) : Result HostError (option string) :=
  foreign_call budget
    (let? event := map_err host_error_from
       (mh_fetch_event host relay (Hex32_to_hex event_id) maximum_event_bytes
          (timeout_milliseconds budget)) in
     if match event with Some value => maximum_event_bytes <? str_len value | None => false end
     then Err HostRejected else Ok event).

Definition bridge_publish_event (relay event_json : string) (budget : OperationBudget)
  : Result HostError unit :=
  foreign_call budget
    (map_err host_error_from (mh_publish_event host relay event_json (timeout_milliseconds budget))).

Definition bridge_load_nwc_secret (connection_id : ConnectionId)
    (budget : OperationBudget) : Result HostError NwcSecretKey :=
  run_owned_blocking_with_context s completed budget
    (let? bytes := map_err host_error_from (mh_load_nwc_secret host connection_id) in
     if negb (Nat.eqb (length bytes) 32) then Err HostRejected
     else if negb (secret_key_ok bytes) then Err HostRejected
     else Ok bytes).

Definition bridge_apply_registration (server_url : string) (change : WakeRegistrationChange)
    (budget : OperationBudget) : Result HostError unit :=
  foreign_call budget
    (map_err host_error_from
       (mh_apply_wake_registration host server_url
          (mkMobileWakeRegistrationChange (wr_connection_id change) (wr_connection_revision change)
             (wr_enabled change) (Hex32_to_hex (wr_client_pubkey change))
             (Hex32_to_hex (wr_wallet_service_pubkey change)) (wr_relays change))
          (timeout_milliseconds budget))).

(** The adapter as a whole; the other host calls are not served by it. *)
Definition bridge {X} (c : HostCall X) : option X :=
  match c in HostCall X return option X with
  | get_info budget => Some (bridge_get_info budget)
  | get_balance budget => Some (bridge_get_balance budget)
  | make_invoice request budget => Some (bridge_make_invoice request budget)
  | quote_payment invoice amount budget => Some (bridge_quote_payment invoice amount budget)
  | payment_status hash budget => Some (bridge_payment_status hash budget)
  | start_payment request budget => Some (bridge_start_payment request budget)
  | lookup_invoice request budget => Some (bridge_lookup_invoice request budget)
  | list_transactions request budget => Some (bridge_list_transactions request budget)
  | fetch_event relay event_id maximum budget => Some (bridge_fetch_event relay event_id maximum budget)
  | publish_event relay event_json budget => Some (bridge_publish_event relay event_json budget)
  | load_nwc_secret id budget => Some (bridge_load_nwc_secret id budget)
  | apply_registration server_url change budget => Some (bridge_apply_registration server_url change budget)
  | _ => None
  end.

End Bridge.

(** ** Lemmas *)

(** The ranges of the foreign integer types. *)
Definition mobile_status_typed (status : MobilePaymentStatus) : Prop :=
  match status with Mobile_Succeeded _ amount fee => u64 amount /\ u64 fee | _ => True end.
Definition mobile_transaction_typed (t : MobileWalletTransaction) : Prop :=
  u64 (mtx_amount_msat t) /\ u64 (mtx_fee_msat t) /\ u64 (mtx_created_at_seconds t)
  /\ (forall x, mtx_settled_at_seconds t = Some x -> u64 x) /\ mobile_status_typed (mtx_status t).

Record mobile_host_typed (host : MobileHost) : Prop := {
  mht_balance : forall t b, mh_get_balance host t = Ok b -> u64 b;
  mht_invoice : forall r t i, mh_make_invoice host r t = Ok i ->
    u64 (mci_amount_msat i) /\ u64 (mci_expires_at_seconds i);
  mht_quote : forall i a t q, mh_quote_payment host i a t = Ok q -> u64 (mpq_principal_msat q);
  mht_status : forall h t x, mh_payment_status host h t = Ok x -> mobile_status_typed x;
  mht_start : forall r t x, mh_start_payment host r t = Ok x -> mobile_status_typed x;
  mht_lookup : forall r t x, mh_lookup_invoice host r t = Ok (Some x) -> mobile_transaction_typed x;
  mht_list : forall r t l, mh_list_transactions host r t = Ok l -> Forall mobile_transaction_typed l;
}.


(** A complete node advertises every method, and the notifications it was given. *)
Lemma standard_wallet_info_complete key notifications m n :
  m ∈ wallet_methods (standard_wallet_info key notifications)
  /\ (n ∈ wallet_notifications (standard_wallet_info key notifications) <-> n ∈ notifications).
Proof.
  split; [unfold standard_wallet_info, with_notifications, WalletInfo_new; cbn [wallet_methods];
    apply elem_of_btree_methods; destruct m; set_solver|].
  cbn [standard_wallet_info with_notifications wallet_notifications]. rewrite list_elem_of_In, filter_In, bool_decide_eq_true.
  split; [by intros [_ ?]|]. intros H. split; [destruct n; simpl; auto|done].
Qed.

Lemma rejected_error_Ok {A E} (r : Result E A) a : rejected_error r = Ok a -> r = Ok a.
Proof. apply map_err_Ok. Qed.

Lemma from_hex_bytes {E} (e : DomainError -> E) h v : map_err e (Hex32_from_hex h) = Ok v -> hash_bytes v.
Proof. intros H%map_err_Ok. by destruct (Hex32_from_hex_hex32 _ _ H). Qed.

Lemma optional_hex_bytes {E} (e : DomainError -> E) o v :
  map_err e (traverse_option Hex32_from_hex o) = Ok v -> forall k, v = Some k -> hash_bytes k.
Proof.
  intros H%map_err_Ok k ->. destruct o as [h|]; simpl in H; [|done].
  destruct (Hex32_from_hex h) as [k'|] eqn:E1; [|done]. injection H as <-.
  by destruct (Hex32_from_hex_hex32 _ _ E1).
Qed.

Lemma core_status_typed x y : core_payment_status x = Ok y -> mobile_status_typed x -> status_typed y.
Proof.
  destruct x as [| |p a f|r]; simpl; try by intros [= <-].
  destruct (rejected_error (Hex32_from_hex p)) as [v|] eqn:E; [|done]. intros [= <-] [? ?].
  split; [by eapply from_hex_bytes|done].
Qed.

Lemma core_transaction_typed x y : core_transaction x = Ok y -> mobile_transaction_typed x ->
  transaction_typed y.
Proof.
  unfold core_transaction. intros H (H1 & H2 & H3 & H4 & H5).
  destruct (rejected_error (traverse_option _ _)) as [h|] eqn:E1; [|done].
  destruct (core_payment_status (mtx_status x)) as [st|] eqn:E2; [|done]. injection H as <-.
  split_and!; try done; [by eapply optional_hex_bytes|by eapply core_status_typed].
Qed.

Section BridgeLemmas.
Context `{N : NostrLib} (host : MobileHost) (s : Schedule) (completed : bool).

(** The runtime adds no value of its own. *)
Lemma owned_Ok {T} budget (operation : Result HostError T) v :
  run_owned_with_context s budget operation = Ok v -> operation = Ok v.
Proof.
  intros H. destruct (owned_call_bounded s budget operation) as [<-|(e & He & _)]; congruence.
Qed.

(** ** Properties *)

(** Whatever the foreign host answers, what the adapter hands to the engine has the
    types the engine relies on: every hash, key, preimage and secret has 32
    bytes and every amount and time is a [u64]. *)
Theorem bridge_typed (Hhost : mobile_host_typed host) X (c : HostCall X) x
    (Hx : bridge host s completed c = Some x) : answer_typed c x.
Proof.
  destruct Hhost as [B1 B2 B3 B4 B5 B6 B7].
  destruct c; simpl in Hx; try discriminate Hx; injection Hx as <-; cbn [answer_typed].
  - intros i Hi%owned_Ok. destruct (map_err _ (mh_get_info _ _)) as [m|] eqn:E1; [|done].
    destruct (rejected_error _) as [k|] eqn:E2; [|done]. injection Hi as <-. by eapply optional_hex_bytes.
  - intros b Hb%owned_Ok%map_err_Ok. eauto.
  - intros i Hi%owned_Ok. destruct (map_err _ (mh_make_invoice _ _ _)) as [m|] eqn:E1; [|done].
    destruct (invoice_out_of_bounds _); [done|].
    destruct (rejected_error _) as [h|] eqn:E2; [|done]. injection Hi as <-.
    apply map_err_Ok in E1. destruct (B2 _ _ _ E1). split_and!; [by eapply from_hex_bytes|done..].
  - intros q Hq%owned_Ok. destruct (invoice_out_of_bounds _); [done|].
    destruct (map_err _ (mh_quote_payment _ _ _ _)) as [m|] eqn:E1; [|done].
    destruct (rejected_error _) as [h|] eqn:E2; [|done]. injection Hq as <-.
    apply map_err_Ok in E1. split; [by eapply from_hex_bytes|eauto].
  - intros st Hs%owned_Ok. destruct (map_err _ (mh_payment_status _ _ _)) as [m|] eqn:E1; [|done].
    apply map_err_Ok in E1. eapply core_status_typed; eauto.
  - intros st Hs%owned_Ok. destruct (map_err _ (mh_start_payment _ _ _)) as [m|] eqn:E1; [|done].
    apply map_err_Ok in E1. eapply core_status_typed; eauto.
  - intros t Ht%owned_Ok. destruct (match request with Lookup_PaymentHash _ => _ | _ => _ end) as [r|]; [|done].
    destruct (map_err _ (mh_lookup_invoice _ _ _)) as [[m|]|] eqn:E1; [|done..].
    apply map_err_Ok in E1. simpl in Ht. destruct (core_transaction m) as [t'|] eqn:E2; [|done].
    injection Ht as <-. eapply core_transaction_typed; eauto.
  - intros l Hl%owned_Ok. destruct (traverse_option _ _) as [dir|]; [|done].
    destruct (map_err _ (mh_list_transactions _ _ _)) as [m|] eqn:E1; [|done].
    destruct (_ || _); [done|]. apply map_err_Ok in E1. specialize (B7 _ _ _ E1).
    apply collect_results_Forall2 in Hl. clear E1.
    induction Hl as [|x y m l Hxy _ IH]; [constructor|]. apply Forall_cons in B7 as [Hx Hm].
    constructor; [by eapply core_transaction_typed|auto].
  - done.
  - done.
  - intros b Hb%owned_Ok. destruct completed; [|done].
    destruct (map_err _ (mh_load_nwc_secret _ _)) as [m|] eqn:E1; [|done].
    destruct (Nat.eqb (length m) 32) eqn:E2; [|done]. destruct (secret_key_ok m); [|done].
    injection Hb as <-. by apply Nat.eqb_eq in E2.
  - done.
Qed.

(** C32: An error of [start_payment] that certifies that nothing was submitted comes from
    the wallet itself, with one exception: a wallet that reports the payment as
    settled under a preimage that is not 32 hexadecimal bytes. *)
Theorem payment_certificate request budget error
    (Herror : bridge_start_payment host s request budget = Err error)
    (Hcertifies : confirms_payment_was_not_submitted error = true) :
  let answer := mh_start_payment host (mobile_pay_request request) (timeout_milliseconds budget) in
  answer = Err Mobile_Rejected \/ answer = Err Mobile_NotFound
  \/ exists preimage_hex amount fee, answer = Ok (Mobile_Succeeded preimage_hex amount fee)
     /\ forall preimage, Hex32_from_hex preimage_hex <> Ok preimage.
Proof.
  intros answer. unfold bridge_start_payment, foreign_call in Herror.
  match type of Herror with run_owned_with_context _ _ ?r = _ =>
    destruct (owned_call_bounded s budget r) as [Hr|(e & He & Hne)] end.
  2:{ rewrite He in Herror. injection Herror as ->. congruence. }
  rewrite Hr in Herror. fold answer in Herror. destruct answer as [st|m].
  - right; right. cbn [map_err] in Herror.
    destruct st as [| |p a f|r]; try discriminate Herror. exists p, a, f. split; [done|].
    intros v Hv. cbn [core_payment_status] in Herror. by rewrite Hv in Herror.
  - injection Herror as <-. destruct m; try discriminate Hcertifies; auto.
Qed.

(** What crosses the bridge is bounded: the engine never gets more transactions than
    it asked for or than one hundred, an event longer than its maximum, an empty
    or oversized invoice, or a secret key that is not a valid 32-byte key; and
    an empty or oversized invoice never reaches the wallet. *)
Theorem bridge_bounds budget :
  (forall request l, bridge_list_transactions host s request budget = Ok l ->
     Z.of_nat (length l) <= ltr_limit request /\ (length l <= 100)%nat)
  /\ (forall relay id maximum json, bridge_fetch_event host s relay id maximum budget = Ok (Some json) ->
     str_len json <= maximum)
  /\ (forall request i, bridge_make_invoice host s request budget = Ok i ->
     1 <= str_len (ci_invoice i) <= 16384)
  /\ (forall id k, bridge_load_nwc_secret host s completed id budget = Ok k ->
     length k = 32%nat /\ secret_key_ok k = true)
  /\ (forall invoice amount, str_len invoice = 0 \/ 16384 < str_len invoice -> forall host',
     bridge_quote_payment host' s invoice amount budget = foreign_call s budget (Err HostRejected)
     /\ bridge_lookup_invoice host' s (Lookup_Invoice invoice) budget
        = foreign_call s budget (Err HostRejected)).
Proof.
  assert (forall i, invoice_out_of_bounds i = false -> 1 <= str_len i <= 16384) as Hinv.
  { intros i H. unfold invoice_out_of_bounds, string_is_empty, BRIDGE_MAX_INVOICE_BYTES in H.
    bool_to_prop. assert (0 <= str_len i) by (unfold str_len; lia). lia. }
  split_and!.
  - intros request l Hl%owned_Ok. destruct (traverse_option _ _) as [dir|]; [|done].
    destruct (map_err _ (mh_list_transactions _ _ _)) as [m|]; [|done].
    destruct (_ || _) eqn:Hb; [done|]. apply collect_results_Forall2, Forall2_length in Hl.
    apply orb_false_elim in Hb as [H1%Z.ltb_ge H2%Nat.ltb_ge].
    unfold MAX_TRANSACTION_RESULTS in H2. rewrite <- Hl. done.
  - intros relay id maximum json H%owned_Ok.
    destruct (map_err _ (mh_fetch_event _ _ _ _ _)) as [m|]; [|done].
    destruct (match m with Some v => maximum <? str_len v | None => false end) eqn:Hm; [done|].
    injection H as ->. by apply Z.ltb_ge.
  - intros request i H%owned_Ok. destruct (map_err _ (mh_make_invoice _ _ _)) as [m|]; [|done].
    destruct (invoice_out_of_bounds _) eqn:Hb; [done|].
    destruct (rejected_error _) as [h|]; [|done]. injection H as <-. by apply Hinv.
  - intros id k H%owned_Ok. destruct completed; [|done].
    destruct (map_err _ (mh_load_nwc_secret _ _)) as [m|]; [|done].
    destruct (Nat.eqb (length m) 32) eqn:E2; [|done]. destruct (secret_key_ok m) eqn:E3; [|done].
    injection H as <-. by apply Nat.eqb_eq in E2.
  - intros invoice amount Hlen host'.
    assert (invoice_out_of_bounds invoice = true) as Hout.
    { destruct (invoice_out_of_bounds invoice) eqn:E; [done|]. specialize (Hinv _ E). lia. }
    unfold bridge_quote_payment, bridge_lookup_invoice. by rewrite Hout.
Qed.

(** Methods and 32-byte values survive the crossing: the method set a wallet
    advertises is the one the engine sees, and the hash and idempotency key the
    wallet is given decode to those of the request. *)
Theorem bridge_roundtrip :
  (forall m, method_to_mobile (method_from_mobile m) = Ok m)
  /\ (forall m m', method_to_mobile m = Ok m' -> method_from_mobile m' = m)
  /\ (forall request, hex32 (pir_idempotency_key request) ->
       Hex32_from_hex (mpi_idempotency_key_hex (mobile_pay_request request))
       = Ok (pir_idempotency_key request))
  /\ (forall budget i, bridge_get_info host s budget = Ok i -> exists m,
       mh_get_info host (timeout_milliseconds budget) = Ok m
       /\ forall x, x ∈ wallet_methods i <-> x ∈ method_from_mobile <$> mwi_methods m).
Proof.
  split_and!; [by intros []|by intros [] m' [= <-]| |].
  - intros request Hk. by apply Hex32_from_to_hex.
  - intros budget i H%owned_Ok. destruct (map_err _ (mh_get_info _ _)) as [m|] eqn:E1; [|done].
    destruct (rejected_error _) as [k|]; [|done]. injection H as <-.
    apply map_err_Ok in E1. exists m. split; [done|]. intros x. apply elem_of_btree_methods.
Qed.

End BridgeLemmas.

(** ** Runs of the model

    A wallet that reports every payment as settled, under a preimage that is not
    hexadecimal. *)

Definition sample_mobile_host : MobileHost := {|
  mh_get_info := fun _ => Ok (mkMobileWalletInfo None [Mobile_PayInvoice; Mobile_GetInfo] []);
  mh_get_balance := fun _ => Ok 7000;
  mh_make_invoice := fun r _ => Ok (mkMobileCreatedInvoice "lnbc1" (Hex32_to_hex (repeat 6 32)) 1000 900);
  mh_quote_payment := fun _ _ _ => Ok (mkMobilePaymentQuote (Hex32_to_hex (repeat 6 32)) 500000);
  mh_payment_status := fun _ _ => Ok Mobile_Unknown;
  mh_start_payment := fun _ _ => Ok (Mobile_Succeeded "preimage" 500000 3000);
  mh_lookup_invoice := fun _ _ => Ok None;
  mh_list_transactions := fun _ _ => Ok [];
  mh_fetch_event := fun _ _ _ _ => Ok None;
  mh_publish_event := fun _ _ _ => Ok tt;
  mh_load_nwc_secret := fun _ => Ok (repeat 8 32);
  mh_apply_wake_registration := fun _ _ _ => Ok tt |}.

Lemma sample_mobile_host_typed : mobile_host_typed sample_mobile_host.
Proof.
  assert (u64 7000 /\ u64 1000 /\ u64 900 /\ u64 500000 /\ u64 3000) as (? & ? & ? & ? & ?)
    by (by repeat split).
  split; simpl; intros; simplify_eq; done.
Qed.

(** Everything goes in time. *)
Definition prompt : Schedule := mkSchedule true 0 false (Operation_first false) true.

Lemma bridge_typed_witness :
  exists i, @bridge sample_nostr sample_mobile_host prompt true _
      (make_invoice (mkMakeInvoiceRequest 1000 None (from_secs 60)) (from_secs 5)) = Some (Ok i)
    /\ length (ci_payment_hash i) = 32%nat.
Proof.
  eexists. split; [vm_compute; reflexivity|].
  apply (@bridge_typed sample_nostr sample_mobile_host prompt true sample_mobile_host_typed _
    (make_invoice (mkMakeInvoiceRequest 1000 None (from_secs 60)) (from_secs 5)) _ eq_refl _ eq_refl).
Defined.

Lemma payment_certificate_witness :
  let request := mkPayInvoiceRequest "lnbc1" None 10 (repeat 3 32) in
  bridge_start_payment sample_mobile_host prompt request (from_secs 5) = Err HostRejected
  /\ mh_start_payment sample_mobile_host (mobile_pay_request request) 5000
     = Ok (Mobile_Succeeded "preimage" 500000 3000).
Proof.
  intros request.
  assert (bridge_start_payment sample_mobile_host prompt request (from_secs 5) = Err HostRejected) as H
    by (clear; by vm_compute).
  split; [exact H|].
  destruct (payment_certificate sample_mobile_host prompt request (from_secs 5) _ H eq_refl)
    as [Ha|[Ha|(p & a & f & Ha & _)]]; [discriminate Ha..|reflexivity].
Defined.
