(* ===== verification/WakeEnvelope.v ===== *)
(** * Push payloads and native wakes

    Models [wake_envelope.rs], which decodes and validates the payload of a push
    notification, and the lifecycle types of [nwc-mobile-uniffi/src/lib.rs],
    which seal it for Swift and Kotlin and translate the outcome of the engine.
    The parser of [serde_json] is the interface [SerdeJson]. *)
From S2P Require Import Prelude Types Outcome Host Registry HostBridge.
#[local] Open Scope Z_scope.

(** ** Parameters: [serde_json] *)

Class SerdeJson := {
  JsonValue : Type;
  JsonMap : Type;
  json_from_str : string -> option JsonValue;
  as_object : JsonValue -> option JsonMap;
  as_str : JsonValue -> option string;
  as_bool : JsonValue -> option bool;
  json_get : JsonMap -> string -> option JsonValue;
}.

(** ** The envelope *)

Definition MAX_WAKE_PAYLOAD_JSON_BYTES : Z := 128 * 1024.
Definition MAX_EMBEDDED_WAKE_EVENT_BYTES : Z := 64 * 1024.

Record WakeEnvelope := mkWakeEnvelope {
  we_relay_url : string;
  we_event_id_hex : string;
  we_wallet_service_public_key_hex : string;
  we_embedded_event_json : option string;
  we_received_at_seconds : Z;
  we_settlement_check : bool;
}.

Inductive WakeEnvelopeError : Type :=
| PayloadTooLarge
| InvalidJson
| WrongProtocol
| MissingField
| InvalidField
| InvalidRelay
| Envelope_InvalidEventId
| InvalidWalletServicePublicKey
| EmbeddedEventTooLarge.

Definition WakeEnvelope_new (relay_url event_id_hex wallet_service_public_key_hex : string)
    (embedded_event_json : option string) (received_at_seconds : Z) : WakeEnvelope :=
  mkWakeEnvelope relay_url event_id_hex wallet_service_public_key_hex embedded_event_json
    received_at_seconds false.

Section Envelope.
Context `{L : UrlLib} `{S : SerdeJson}.

Definition string_field (object : JsonMap) (canonical legacy : string) : Result WakeEnvelopeError string :=
  match json_get object canonical with
  | Some value => ok_or InvalidField (as_str value)
  | None =>
      let? value := ok_or MissingField (json_get object legacy) in
      ok_or InvalidField (as_str value)
  end.

Definition optional_string_field (object : JsonMap) (canonical legacy : string)
  : Result WakeEnvelopeError (option string) :=
  match (match json_get object canonical with Some v => Some v | None => json_get object legacy end) with
  | Some value => let? s := ok_or InvalidField (as_str value) in Ok (Some s)
  | None => Ok None
  end.

Definition optional_boolean_field (object : JsonMap) (field : string) : Result WakeEnvelopeError bool :=
  match json_get object field with
  | Some value => ok_or InvalidField (as_bool value)
  | None => Ok false
  end.

Definition validate (e : WakeEnvelope) : Result WakeEnvelopeError WakeInput :=
  let? relay := map_err (fun _ => InvalidRelay) (SecureRelayUrl_parse (we_relay_url e)) in
  let? event_id := map_err (fun _ => Envelope_InvalidEventId) (Hex32_from_hex (we_event_id_hex e)) in
  let? wallet_service_pubkey := map_err (fun _ => InvalidWalletServicePublicKey)
    (Hex32_from_hex (we_wallet_service_public_key_hex e)) in
  if match we_embedded_event_json e with
     | Some event => MAX_EMBEDDED_WAKE_EVENT_BYTES <? str_len event
     | None => false
     end
  then Err EmbeddedEventTooLarge
  else Ok (mkWakeInput relay event_id wallet_service_pubkey (we_embedded_event_json e)
             (we_received_at_seconds e)).

Definition parse_json (payload_json : string) (received_at_seconds : Z)
  : Result WakeEnvelopeError WakeEnvelope :=
  if MAX_WAKE_PAYLOAD_JSON_BYTES <? str_len payload_json then Err PayloadTooLarge
  else
  let? payload := ok_or InvalidJson (json_from_str payload_json) in
  let? object := ok_or InvalidJson (as_object payload) in
  if match json_get object "protocol" with
     | Some protocol => negb (bool_decide (as_str protocol = Some "nwc_wake"%string))
     | None => false
     end
  then Err WrongProtocol
  else
  let? relay := string_field object "nwc_relay" "relay" in
  let? event_id := string_field object "nwc_event_id" "event_id" in
  let? wallet_service := string_field object "nwc_wallet_service_pubkey" "wallet_service_pubkey" in
  let? embedded := optional_string_field object "nwc_event_json" "nwc_event" in
  let? settlement_check := optional_boolean_field object "settlement_check" in
  let envelope := mkWakeEnvelope relay event_id wallet_service embedded received_at_seconds
                    settlement_check in
  let? _ := validate envelope in
  Ok envelope.

(** ** The native boundary *)

Record MobileWakeEnvelope := mkMobileWakeEnvelope {
  mwe_relay_url : string;
  mwe_event_id_hex : string;
  mwe_wallet_service_public_key_hex : string;
  mwe_embedded_event_json : option string;
  mwe_received_at_seconds : Z;
  mwe_settlement_check : bool;
}.

Inductive MobileWakeContractError : Type :=
| Contract_InvalidRelay
| Contract_InvalidEventId
| Contract_InvalidWalletServicePublicKey
| Contract_EmbeddedEventTooLarge
| Contract_InvalidBackgroundWindow.

Definition contract_error_from (error : WakeEnvelopeError) : MobileWakeContractError :=
  match error with
  | InvalidRelay => Contract_InvalidRelay
  | Envelope_InvalidEventId => Contract_InvalidEventId
  | InvalidWalletServicePublicKey => Contract_InvalidWalletServicePublicKey
  | EmbeddedEventTooLarge => Contract_EmbeddedEventTooLarge
  | _ => Contract_EmbeddedEventTooLarge
  end.

Record ValidatedMobileWake := mkValidatedMobileWake {
  vm_input : WakeInput;
  vm_settlement_check : bool;
}.

Definition parse_mobile_wake_payload_json (payload_json : string) (received_at_seconds : Z)
  : option MobileWakeEnvelope :=
  match parse_json payload_json received_at_seconds with
  | Ok e => Some (mkMobileWakeEnvelope (we_relay_url e) (we_event_id_hex e)
                    (we_wallet_service_public_key_hex e) (we_embedded_event_json e)
                    (we_received_at_seconds e) (we_settlement_check e))
  | Err _ => None
  end.

Definition validate_wake_envelope (envelope : MobileWakeEnvelope)
  : Result MobileWakeContractError ValidatedMobileWake :=
  let? input := map_err contract_error_from
    (validate (WakeEnvelope_new (mwe_relay_url envelope) (mwe_event_id_hex envelope)
       (mwe_wallet_service_public_key_hex envelope) (mwe_embedded_event_json envelope)
       (mwe_received_at_seconds envelope))) in
  Ok (mkValidatedMobileWake input (mwe_settlement_check envelope)).

End Envelope.

(** ** Time windows *)

Definition MAX_NATIVE_EXTENSION_EXECUTION_MILLISECONDS : Z := 30000.

Definition from_millis (milliseconds : Z) : Duration := milliseconds * 1000000.

Definition native_extension_execution_duration (execution_milliseconds : Z) : option Duration :=
  if (0 <? execution_milliseconds)
     && (execution_milliseconds <=? MAX_NATIVE_EXTENSION_EXECUTION_MILLISECONDS)
  then Some (from_millis execution_milliseconds) else None.

Record MobileExecutionWindow := mkMobileExecutionWindow {
  ew_execution_milliseconds : Z;
  ew_cleanup_milliseconds : Z;
}.

(** [u64::try_from] of [Duration::as_millis]. *)
Definition as_millis_u64 (d : Duration) : option Z :=
  let milliseconds := d / 1000000 in if milliseconds <=? u64_max then Some milliseconds else None.

(** [None] is the panic of the subtraction in [execution_budget]. *)
Definition mobile_execution_window (total_milliseconds cleanup_milliseconds : Z)
  : option (Result MobileWakeContractError MobileExecutionWindow) :=
  match BackgroundBudget_new (from_millis total_milliseconds) (from_millis cleanup_milliseconds) with
  | Err _ => Some (Err Contract_InvalidBackgroundWindow)
  | Ok budget =>
      match execution_budget budget with
      | None => None
      | Some execution =>
          Some (let? milliseconds := ok_or Contract_InvalidBackgroundWindow (as_millis_u64 execution) in
                Ok (mkMobileExecutionWindow milliseconds cleanup_milliseconds))
      end
  end.

(** ** Outcomes *)

Inductive MobileNotificationHint : Type :=
| MobileHint_Processing
| MobileHint_Completed
| MobileHint_Request (method : MobileNwcMethod)
| MobileHint_OpenApplication.

Inductive MobileQueueReason : Type :=
| MobileQueue_Deadline
| MobileQueue_SecureStorageUnavailable
| MobileQueue_WalletUnavailable
| MobileQueue_UnsupportedInBackground
| MobileQueue_LedgerBusy.

Inductive MobileRetryReason : Type :=
| MobileRetry_RelayUnavailable
| MobileRetry_WalletUnavailable
| MobileRetry_ResponsePublishFailed
| MobileRetry_ResponsePersistenceFailed
| MobileRetry_RegistrationUnavailable.

Inductive MobileRejectionCode : Type :=
| MobileReject_InvalidWakePayload
| MobileReject_ConnectionUnavailable
| MobileReject_RelayNotAllowed
| MobileReject_EventMismatch
| MobileReject_InvalidEvent
| MobileReject_InvalidRequest
| MobileReject_EventOutsideFreshnessWindow
| MobileReject_MethodNotAllowed
| MobileReject_BudgetExceeded.

Inductive MobileWakeDisposition : Type :=
| MobileCompleted (notification : MobileNotificationHint)
| MobileAlreadyProcessed (notification : MobileNotificationHint)
| MobileQueuedForApplication (reason : MobileQueueReason) (notification : MobileNotificationHint)
| MobileRetryAfter (delay_milliseconds : Z) (reason : MobileRetryReason) (notification : MobileNotificationHint)
| MobileRejected (code : MobileRejectionCode) (notification : MobileNotificationHint).

Definition duration_milliseconds (duration : Duration) : Z := default u64_max (as_millis_u64 duration).

Definition hint_to_mobile (hint : NotificationHint) : MobileNotificationHint :=
  match hint with
  | Hint_Processing => MobileHint_Processing
  | Hint_Completed => MobileHint_Completed
  | Hint_Request method =>
      match method_to_mobile method with
      | Ok method => MobileHint_Request method
      | Err _ => MobileHint_Completed
      end
  | Hint_OpenApplication => MobileHint_OpenApplication
  end.

(** The last arms of these conversions in the source are for later variants. *)
Definition queue_reason_to_mobile (x : QueueReason) : MobileQueueReason :=
  match x with
  | Queue_Deadline => MobileQueue_Deadline
  | Queue_SecureStorageUnavailable => MobileQueue_SecureStorageUnavailable
  | Queue_WalletUnavailable => MobileQueue_WalletUnavailable
  | Queue_UnsupportedInBackground => MobileQueue_UnsupportedInBackground
  | Queue_LedgerBusy => MobileQueue_LedgerBusy
  end.

Definition retry_reason_to_mobile (x : RetryReason) : MobileRetryReason :=
  match x with
  | Retry_RelayUnavailable => MobileRetry_RelayUnavailable
  | Retry_WalletUnavailable => MobileRetry_WalletUnavailable
  | Retry_ResponsePublishFailed => MobileRetry_ResponsePublishFailed
  | Retry_ResponsePersistenceFailed => MobileRetry_ResponsePersistenceFailed
  | Retry_RegistrationUnavailable => MobileRetry_RegistrationUnavailable
  end.

Definition rejection_code_to_mobile (x : RejectionCode) : MobileRejectionCode :=
  match x with
  | Reject_InvalidWakePayload => MobileReject_InvalidWakePayload
  | Reject_ConnectionUnavailable => MobileReject_ConnectionUnavailable
  | Reject_RelayNotAllowed => MobileReject_RelayNotAllowed
  | Reject_EventMismatch => MobileReject_EventMismatch
  | Reject_InvalidEvent => MobileReject_InvalidEvent
  | Reject_InvalidRequest => MobileReject_InvalidRequest
  | Reject_EventOutsideFreshnessWindow => MobileReject_EventOutsideFreshnessWindow
  | Reject_MethodNotAllowed => MobileReject_MethodNotAllowed
  | Reject_BudgetExceeded => MobileReject_BudgetExceeded
  end.

Definition disposition_to_mobile (disposition : WakeDisposition) : MobileWakeDisposition :=
  match disposition with
  | Completed notification => MobileCompleted (hint_to_mobile notification)
  | AlreadyProcessed notification => MobileAlreadyProcessed (hint_to_mobile notification)
  | QueuedForApplication reason notification =>
      MobileQueuedForApplication (queue_reason_to_mobile reason) (hint_to_mobile notification)
  | RetryAfter delay reason notification =>
      MobileRetryAfter (duration_milliseconds delay) (retry_reason_to_mobile reason)
        (hint_to_mobile notification)
  | Rejected code notification =>
      MobileRejected (rejection_code_to_mobile code) (hint_to_mobile notification)
  end.

(** ** Specification

    A field of the payload is what the first of its keys that is present holds. *)

Section EnvelopeProofs.
Context `{L : UrlLib} `{S : SerdeJson}.

Definition first_present (object : JsonMap) (canonical legacy : string) : option JsonValue :=
  match json_get object canonical with Some v => Some v | None => json_get object legacy end.

(** [object] spells the envelope [e]. *)
Record spells (object : JsonMap) (e : WakeEnvelope) : Prop := {
  sp_protocol : forall p, json_get object "protocol" = Some p -> as_str p = Some "nwc_wake"%string;
  sp_relay : exists v, first_present object "nwc_relay" "relay" = Some v
    /\ as_str v = Some (we_relay_url e);
  sp_event_id : exists v, first_present object "nwc_event_id" "event_id" = Some v
    /\ as_str v = Some (we_event_id_hex e);
  sp_wallet : exists v, first_present object "nwc_wallet_service_pubkey" "wallet_service_pubkey" = Some v
    /\ as_str v = Some (we_wallet_service_public_key_hex e);
  sp_event : match first_present object "nwc_event_json" "nwc_event" with
             | Some v => exists s, as_str v = Some s /\ we_embedded_event_json e = Some s
             | None => we_embedded_event_json e = None
             end;
  sp_settlement : match json_get object "settlement_check" with
                  | Some v => as_bool v = Some (we_settlement_check e)
                  | None => we_settlement_check e = false
                  end;
}.

(** The sealed input of an envelope. *)
Record seals (e : WakeEnvelope) (w : WakeInput) : Prop := {
  se_relay : SecureRelayUrl_parse (we_relay_url e) = Ok (wi_relay w);
  se_event_id : Hex32_from_hex (we_event_id_hex e) = Ok (wi_event_id w);
  se_wallet : Hex32_from_hex (we_wallet_service_public_key_hex e) = Ok (wi_wallet_service_pubkey w);
  se_event : wi_embedded_event_json w = we_embedded_event_json e;
  se_event_size : forall json, we_embedded_event_json e = Some json -> str_len json <= 65536;
  se_received : wi_received_at w = we_received_at_seconds e;
}.

Lemma validate_seals e w : validate e = Ok w <-> seals e w.
Proof.
  unfold validate, MAX_EMBEDDED_WAKE_EVENT_BYTES. repeat setoid_rewrite bind_Ok.
  repeat setoid_rewrite map_err_Ok. split.
  - intros (r & H1 & i & H2 & k & H3 & H). destruct (we_embedded_event_json e) as [j|] eqn:E4.
    + destruct (Z.ltb_spec (64 * 1024) (str_len j)); [done|]. injection H as <-.
      split; simpl; try done. rewrite E4. intros ? [= <-]. lia.
    + injection H as <-. split; simpl; try done. by rewrite E4.
  - intros [H1 H2 H3 H4 H5 H6]. exists (wi_relay w). split; [done|]. exists (wi_event_id w). split; [done|].
    exists (wi_wallet_service_pubkey w). split; [done|]. destruct w as [r i k j t]; simpl in *. subst.
    destruct (we_embedded_event_json e) as [j|]; [|done]. specialize (H5 j eq_refl).
    by destruct (Z.ltb_spec (64 * 1024) (str_len j)); [lia|].
Qed.

Lemma string_field_Ok object canonical legacy s : string_field object canonical legacy = Ok s <->
  exists v, first_present object canonical legacy = Some v /\ as_str v = Some s.
Proof.
  unfold string_field, first_present. destruct (json_get object canonical) as [v|].
  - rewrite ok_or_Ok. split; [eauto|by intros (? & [= <-] & ?)].
  - rewrite bind_Ok. by setoid_rewrite ok_or_Ok.
Qed.

Lemma optional_string_field_Ok object canonical legacy o :
  optional_string_field object canonical legacy = Ok o <->
  match first_present object canonical legacy with
  | Some v => exists s, as_str v = Some s /\ o = Some s
  | None => o = None
  end.
Proof.
  unfold optional_string_field, first_present.
  destruct (match json_get object canonical with Some _ => _ | None => _ end) as [v|].
  - rewrite bind_Ok. setoid_rewrite ok_or_Ok. split; intros (s & H & H'); exists s; split; congruence.
  - split; congruence.
Qed.

Lemma optional_boolean_field_Ok object field b :
  optional_boolean_field object field = Ok b <->
  match json_get object field with Some v => as_bool v = Some b | None => b = false end.
Proof.
  unfold optional_boolean_field. destruct (json_get object field); [apply ok_or_Ok|split; congruence].
Qed.

Lemma parse_json_steps payload received e : parse_json payload received = Ok e <->
  str_len payload <= 131072 /\ we_received_at_seconds e = received
  /\ (exists value object, json_from_str payload = Some value /\ as_object value = Some object
      /\ spells object e)
  /\ exists w, validate e = Ok w.
Proof.
  unfold parse_json, MAX_WAKE_PAYLOAD_JSON_BYTES.
  destruct (Z.ltb_spec (128 * 1024) (str_len payload)) as [|Hlen]; [split; [done|lia]|].
  split.
  - intros H. apply bind_Ok in H as (value & H1%ok_or_Ok & H).
    apply bind_Ok in H as (object & H2%ok_or_Ok & H). split; [lia|].
    destruct (match json_get object "protocol" with Some _ => _ | None => _ end) eqn:Hp; [done|].
    apply bind_Ok in H as (relay & Hr & H). apply bind_Ok in H as (event_id & Hi & H).
    apply bind_Ok in H as (wallet & Hw & H). apply bind_Ok in H as (embedded & He & H).
    apply bind_Ok in H as (check & Hs & H). apply bind_Ok in H as (w & Hv & [= <-]).
    apply string_field_Ok in Hr, Hi, Hw. apply optional_string_field_Ok in He.
    apply optional_boolean_field_Ok in Hs.
    split; [done|]. split; [|by exists w]. exists value, object. split; [done|]. split; [done|].
    split; try done. intros p Hget. rewrite Hget in Hp. by apply negb_false_iff, bool_decide_eq_true in Hp.
  - intros (_ & Hreceived & (value & object & H1 & H2 & [Hp Hr Hi Hw He Hs]) & w & Hv).
    rewrite H1. cbn [ok_or]. rewrite H2. cbn [ok_or].
    replace (match json_get object "protocol" with Some _ => _ | None => _ end) with false.
    2:{ destruct (json_get object "protocol") as [p|]; [|done].
        symmetry. by apply negb_false_iff, bool_decide_eq_true, Hp. }
    apply string_field_Ok in Hr, Hi, Hw. apply optional_string_field_Ok in He.
    apply optional_boolean_field_Ok in Hs.
    rewrite Hr, Hi, Hw, He, Hs. destruct e; simpl in *; subst. by rewrite Hv.
Qed.

(** ** Properties *)

(** A payload parses to an envelope exactly when it is within bounds, is a JSON
    object, names no other protocol, spells the envelope by its canonical keys
    or, where one is absent, by the legacy key, and the envelope seals. *)
Theorem parse_json_spec payload received e : parse_json payload received = Ok e <->
  str_len payload <= 131072 /\ we_received_at_seconds e = received
  /\ (exists value object, json_from_str payload = Some value /\ as_object value = Some object
      /\ spells object e)
  /\ exists w, seals e w.
Proof. setoid_rewrite <- validate_seals. apply parse_json_steps. Qed.

(** What the parser hands to native code is sealed without a further error, keeps
    the settlement flag and the time of receipt, and is an input the engine
    accepts: the relay is the canonical form of a secure URL, the
    identifiers have 32 bytes, and the event is at most 64 KiB. *)
Theorem parsed_wake_validates `{LL : !UrlLaws L} payload received envelope
    (Hparse : parse_mobile_wake_payload_json payload received = Some envelope) :
  exists w, validate_wake_envelope envelope = Ok (mkValidatedMobileWake w (mwe_settlement_check envelope))
  /\ SecureRelayUrl_parse (wi_relay w) = Ok (wi_relay w)
  /\ hex32 (wi_event_id w) /\ hex32 (wi_wallet_service_pubkey w)
  /\ (forall json, wi_embedded_event_json w = Some json -> str_len json <= 65536)
  /\ wi_received_at w = received.
Proof.
  unfold parse_mobile_wake_payload_json in Hparse.
  destruct (parse_json payload received) as [e|] eqn:H; [|done]. injection Hparse as <-.
  apply parse_json_steps in H as (_ & Hreceived & _ & w & Hv).
  assert (validate (WakeEnvelope_new (we_relay_url e) (we_event_id_hex e)
    (we_wallet_service_public_key_hex e) (we_embedded_event_json e) (we_received_at_seconds e)) = Ok w) as Hv'
    by exact Hv.
  exists w. split; [unfold validate_wake_envelope; simpl; by rewrite Hv'|].
  apply validate_seals in Hv as [Hr Hi Hk He Hsize Ht].
  split_and!; [by eapply SecureRelayUrl_parse_canonical|by eapply Hex32_from_hex_hex32..| |congruence].
  intros json Hj. apply Hsize. congruence.
Qed.

End EnvelopeProofs.

(** The native window splits the total exactly into execution and cleanup, both
    positive, or is refused; the subtraction never underflows, and a
    30-second bound keeps an extension within its time. *)
Theorem mobile_execution_window_spec total cleanup (Ht : u64 total) (Hc : u64 cleanup) :
  mobile_execution_window total cleanup
  = Some (if (0 <? cleanup) && (cleanup <? total)
          then Ok (mkMobileExecutionWindow (total - cleanup) cleanup)
          else Err Contract_InvalidBackgroundWindow)
  /\ (forall d, native_extension_execution_duration total = Some d <->
       0 < total <= 30000 /\ d = from_millis total).
Proof.
  destruct Ht as [Ht1 Ht2], Hc as [Hc1 Hc2]. split.
  - unfold mobile_execution_window, BackgroundBudget_new, duration_is_zero, from_millis.
    destruct (Z.ltb_spec 0 cleanup), (Z.ltb_spec cleanup total); cbn [andb];
      repeat match goal with |- context [?a =? ?b] => destruct (Z.eqb_spec a b); try lia end; cbn [orb];
      repeat match goal with |- context [?a <=? ?b] => destruct (Z.leb_spec a b); try lia end; try done.
    unfold execution_budget. cbn [bb_cleanup_reserve bb_total]. rewrite (proj2 (Z.leb_le _ _)) by lia.
    unfold as_millis_u64. rewrite <- Z.mul_sub_distr_r, Z.div_mul by done.
    rewrite (proj2 (Z.leb_le _ _)) by lia. done.
  - intros d. unfold native_extension_execution_duration, MAX_NATIVE_EXTENSION_EXECUTION_MILLISECONDS.
    destruct (Z.ltb_spec 0 total), (Z.leb_spec total 30000); cbn [andb]; split;
      try (by intros [= <-]); try (by intros [? ->]); try done; intros [? _]; lia.
Qed.

(** ** Runs of the model

    A parser that reads every text as one object with legacy keys. *)

Inductive SampleValue : Type := Sample_String (s : string) | Sample_Bool (b : bool) | Sample_Object.

Definition sample_serde : SerdeJson := {|
  JsonValue := SampleValue;
  JsonMap := unit;
  json_from_str := fun s => match s with EmptyString => None | _ => Some Sample_Object end;
  as_object := fun v => match v with Sample_Object => Some tt | _ => None end;
  as_str := fun v => match v with Sample_String s => Some s | _ => None end;
  as_bool := fun v => match v with Sample_Bool b => Some b | _ => None end;
  json_get := fun _ key =>
    if bool_decide (key = "protocol"%string) then Some (Sample_String "nwc_wake")
    else if bool_decide (key = "relay"%string) then Some (Sample_String "wss://a")
    else if bool_decide (key = "nwc_event_id"%string) then Some (Sample_String (Hex32_to_hex (repeat 3 32)))
    else if bool_decide (key = "wallet_service_pubkey"%string)
         then Some (Sample_String (Hex32_to_hex (repeat 2 32)))
    else if bool_decide (key = "settlement_check"%string) then Some (Sample_Bool true)
    else None |}.

Definition sample_payload : MobileWakeEnvelope :=
  mkMobileWakeEnvelope "wss://a" (Hex32_to_hex (repeat 3 32)) (Hex32_to_hex (repeat 2 32)) None 250 true.

Lemma parsed_wake_validates_witness :
  exists w, @validate_wake_envelope sample_urls sample_payload = Ok (mkValidatedMobileWake w true)
    /\ hex32 (wi_event_id w).
Proof.
  assert (@parse_mobile_wake_payload_json sample_urls sample_serde "{}" 250 = Some sample_payload) as H
    by (clear; by vm_compute).
  destruct (@parsed_wake_validates sample_urls sample_serde sample_url_laws "{}" 250 sample_payload H)
    as (w & Hw & _ & Hi & _).
  exists w. exact (conj Hw Hi).
Defined.

Lemma mobile_execution_window_spec_witness :
  mobile_execution_window 30000 5000 = Some (Ok (mkMobileExecutionWindow 25000 5000)).
Proof.
  apply (mobile_execution_window_spec 30000 5000); by split.
Defined.
