(* ===== verification/InvoiceWorker.v ===== *)
(** * The settlement-notification worker

    Models the worker of [invoice_notifications.rs]: a bounded pass publishes
    the NIP-47 notification of every payment the wallet sent and of every
    invoice the wallet reports as settled, to every relay of the connection,
    and the construction of the two events.  Their JSON is the interface
    [NotificationJson]. *)
From S2P Require Import Prelude Sqlite Types Policy Host Schema Ledger Registry NostrValidation Invoices Program.
#[local] Open Scope Z_scope.

(** ** Parameters: notifications of the [nostr] crate *)

Inductive NotificationType : Type := Type_PaymentReceived | Type_PaymentSent.
Inductive TransactionType : Type := Type_Incoming | Type_Outgoing.
Inductive TransactionState : Type := State_Settled.

(** The fields of [PaymentNotification] the code sets; the other fields are
    [None]. *)
Record PaymentNotification := mkPaymentNotification {
  pn_transaction_type : option TransactionType;
  pn_state : option TransactionState;
  pn_invoice : string;
  pn_description : option string;
  pn_preimage : string;
  pn_payment_hash : string;
  pn_amount : Z;
  pn_fees_paid : Z;
  pn_created_at : Z;
  pn_expires_at : option Z;
  pn_settled_at : Z;
}.

Class NotificationJson := { notification_as_json : NotificationType -> PaymentNotification -> string }.

(** ** Events *)

Inductive InvoiceNotificationError : Type := Notify_Ledger | Notify_Wallet | Notify_Secret | Notify_Build.

Section Build.
Context `{N : NostrLib} `{NJ : NotificationJson}.

(** [build_notification_event]; the builder for received payments ends with the
    same code. *)
Definition build_notification_event (connection : ActiveConnection) (wallet_secret : NwcSecretKey)
    (plaintext : string) (created_at : UnixTimestamp) (entropy : list Z)
  : Result InvoiceNotificationError string :=
  if negb (secret_key_ok wallet_secret) then Err Notify_Secret
  else if negb (bool_decide (secret_public_key wallet_secret = ac_wallet_service_pubkey connection))
  then Err Notify_Secret
  else
  let client := ac_client_pubkey connection in
  let? (kind, content, tags) :=
    match ac_encryption connection with
    | Nip44V2 =>
        let? content := ok_or Notify_Build (nip44_encrypt wallet_secret client plaintext entropy) in
        Ok (KIND_NOTIFICATION_NIP44, content,
            [tag_public_key client; tag_custom "encryption" ["nip44_v2"%string]])
    | LegacyNip04 =>
        let? content := ok_or Notify_Build (nip04_encrypt wallet_secret client plaintext entropy) in
        Ok (KIND_NOTIFICATION, content, [tag_public_key client])
    end in
  ok_or Notify_Build (sign_event kind content tags created_at wallet_secret entropy).

Definition build_payment_received_notification_event (connection : ActiveConnection)
    (wallet_secret : NwcSecretKey) (invoice : TrackedNwcInvoice) (transaction : WalletTransaction)
    (entropy : list Z) : Result InvoiceNotificationError string :=
  let? (preimage, amount, fee) :=
    match tx_status transaction with
    | Status_Succeeded preimage amount fee => Ok (Hex32_to_hex preimage, amount, fee)
    | _ => Err Notify_Build
    end in
  if negb (bool_decide (tx_direction transaction = Incoming))
     || negb (bool_decide (tx_payment_hash transaction = Some (ti_payment_hash invoice)))
  then Err Notify_Build
  else
  let? settled_at := ok_or Notify_Build (tx_settled_at transaction) in
  let notification := mkPaymentNotification (Some Type_Incoming) (Some State_Settled)
    (ti_invoice invoice) (ti_description invoice) preimage (Hex32_to_hex (ti_payment_hash invoice))
    amount fee (ti_created_at invoice) (Some (ti_expires_at invoice)) settled_at in
  build_notification_event connection wallet_secret
    (notification_as_json Type_PaymentReceived notification) settled_at entropy.

Definition build_payment_sent_notification_event (connection : ActiveConnection)
    (wallet_secret : NwcSecretKey) (payment : TrackedNwcPayment) (entropy : list Z)
  : Result InvoiceNotificationError string :=
  let notification := mkPaymentNotification (Some Type_Outgoing) (Some State_Settled)
    (tp_invoice payment) None (Hex32_to_hex (tp_preimage payment))
    (Hex32_to_hex (tp_payment_hash payment)) (tp_amount payment) (tp_fee payment)
    (tp_created_at payment) None (tp_settled_at payment) in
  build_notification_event connection wallet_secret
    (notification_as_json Type_PaymentSent notification) (tp_settled_at payment) entropy.

End Build.

(** ** The report *)

Record InvoiceNotificationWorkerReport := mkNotifyReport {
  nr_inspected : nat;
  nr_pending : nat;
  nr_expired : nat;
  nr_delivered : nat;
  nr_retryable : nat;
}.

Definition default_notify_report : InvoiceNotificationWorkerReport := mkNotifyReport 0 0 0 0 0.

Definition has_pending_work (r : InvoiceNotificationWorkerReport) : bool :=
  Nat.ltb 0 (nr_pending r) || Nat.ltb 0 (nr_retryable r).

(** The increments of the pass. *)
Definition nr_inspect (r : InvoiceNotificationWorkerReport) : InvoiceNotificationWorkerReport :=
  mkNotifyReport (S (nr_inspected r)) (nr_pending r) (nr_expired r) (nr_delivered r) (nr_retryable r).
Definition nr_wait (r : InvoiceNotificationWorkerReport) : InvoiceNotificationWorkerReport :=
  mkNotifyReport (nr_inspected r) (S (nr_pending r)) (nr_expired r) (nr_delivered r) (nr_retryable r).
Definition nr_expire (r : InvoiceNotificationWorkerReport) : InvoiceNotificationWorkerReport :=
  mkNotifyReport (nr_inspected r) (nr_pending r) (S (nr_expired r)) (nr_delivered r) (nr_retryable r).
Definition nr_deliver (r : InvoiceNotificationWorkerReport) : InvoiceNotificationWorkerReport :=
  mkNotifyReport (nr_inspected r) (nr_pending r) (nr_expired r) (S (nr_delivered r)) (nr_retryable r).
Definition nr_retry (r : InvoiceNotificationWorkerReport) : InvoiceNotificationWorkerReport :=
  mkNotifyReport (nr_inspected r) (nr_pending r) (nr_expired r) (nr_delivered r) (S (nr_retryable r)).

(** ** The pass *)

Section Worker.
Context `{L : UrlLib} `{NK : NostrKeys} `{N : NostrLib} `{NJ : NotificationJson}.

(** A ledger call with [map_err(|_| InvoiceNotificationError::Ledger)?]. *)
Definition ledger_or {A R} (t : Tx LedgerError A) (k : A -> Prog (Result InvoiceNotificationError R))
  : Prog (Result InvoiceNotificationError R) :=
  let* done := ledger t in
  match done with Ok a => k a | Err _ => Ret (Err Notify_Ledger) end.

(** [load_active_connection(..)?.filter(..)]: the connection at the revision of the
    record. *)
Definition load_owner {R} (id : ConnectionId) (revision : ConnectionRevision)
    (k : option ActiveConnection -> Prog (Result InvoiceNotificationError R))
  : Prog (Result InvoiceNotificationError R) :=
  let* loaded := ledger (read (fun d => load_active_connection id d)) in
  match loaded with
  | Err _ => Ret (Err Notify_Ledger)
  | Ok connection =>
      k (match connection with
         | Some c => if ac_revision c =? revision then Some c else None
         | None => None
         end)
  end.

(** The loop over the relays of a sent payment: whether a delivery failed. *)
Fixpoint publish_sent (deadline : OperationDeadline) (event_id : EventId) (event_json : string)
    (relays : list string) (failed : bool) : Prog (Result InvoiceNotificationError bool) :=
  match relays with
  | [] => Ret (Ok failed)
  | relay :: rest =>
      let* budget := context deadline in
      match budget with
      | None => Ret (Ok true)
      | Some budget =>
          let* published := call (publish_event relay event_json budget) in
          match published with
          | Ok _ =>
              let* now := call clock_now in
              ledger_or (acknowledge_nwc_sent_relay event_id relay now) (fun _ =>
                publish_sent deadline event_id event_json rest failed)
          | Err _ => publish_sent deadline event_id event_json rest true
          end
      end
  end.

(** The event of a sent payment: stored, or built and stored; [None] when the
    deadline is over, which ends the loop over the payments. *)
Definition sent_event (deadline : OperationDeadline) (connection : ActiveConnection)
    (payment : TrackedNwcPayment) : Prog (Result InvoiceNotificationError (option string)) :=
  match tp_notification_event_json payment with
  | Some event => Ret (Ok (Some event))
  | None =>
      let* budget := context deadline in
      match budget with
      | None => Ret (Ok None)
      | Some budget =>
          let* secret := call (load_nwc_secret (ac_id connection) budget) in
          match secret with
          | Err _ => Ret (Err Notify_Secret)
          | Ok secret =>
              let* entropy := call cipher_entropy in
              match build_payment_sent_notification_event connection secret payment entropy with
              | Err e => Ret (Err e)
              | Ok proposed =>
                  ledger_or (store_nwc_sent_notification_event (tp_request_event_id payment) proposed)
                    (fun event => Ret (Ok (Some event)))
              end
          end
      end
  end.

Fixpoint process_payments (deadline : OperationDeadline) (payments : list TrackedNwcPayment)
    (report : InvoiceNotificationWorkerReport)
  : Prog (Result InvoiceNotificationError InvoiceNotificationWorkerReport) :=
  match payments with
  | [] => Ret (Ok report)
  | payment :: rest =>
      let event_id := tp_request_event_id payment in
      let* cancelled := call is_cancelled in
      if (cancelled : bool) then Ret (Ok report)
      else
      let report := nr_inspect report in
      load_owner (tp_connection_id payment) (tp_connection_revision payment) (fun connection =>
        match connection with
        | None =>
            ledger_or (discard_nwc_sent_payment event_id) (fun _ =>
              process_payments deadline rest (nr_expire report))
        | Some connection =>
            let* event := sent_event deadline connection payment in
            match event with
            | Err e => Ret (Err e)
            | Ok None => Ret (Ok (nr_retry report))
            | Ok (Some event_json) =>
                ledger_or (read (undelivered_nwc_sent_relays event_id)) (fun relays =>
                  let* failed := publish_sent deadline event_id event_json relays false in
                  match failed with
                  | Err e => Ret (Err e)
                  | Ok true => process_payments deadline rest (nr_retry report)
                  | Ok false =>
                      let* now := call clock_now in
                      ledger_or (complete_nwc_sent_notification event_id now) (fun _ =>
                        process_payments deadline rest (nr_deliver report))
                  end)
            end
        end)
  end.

Definition defer_or_expire_invoice (invoice : TrackedNwcInvoice) (report : InvoiceNotificationWorkerReport)
  : Prog (Result InvoiceNotificationError InvoiceNotificationWorkerReport) :=
  let stale_at := saturating_add_u64 (ti_expires_at invoice) SETTLEMENT_RECONCILIATION_GRACE_SECONDS in
  let* now := call clock_now in
  if stale_at <=? now then
    let* _ := call clock_now in
    ledger_or (expire_nwc_invoice (ti_request_event_id invoice)) (fun _ => Ret (Ok (nr_expire report)))
  else Ret (Ok (nr_wait report)).

Fixpoint publish_invoice (deadline : OperationDeadline) (event_id : EventId) (event_json : string)
    (relays : list string) (failed : bool) : Prog (Result InvoiceNotificationError bool) :=
  match relays with
  | [] => Ret (Ok failed)
  | relay :: rest =>
      let* cancelled := call is_cancelled in
      if (cancelled : bool) then Ret (Ok true)
      else
      let* budget := context deadline in
      match budget with
      | None => Ret (Ok true)
      | Some budget =>
          let* published := call (publish_event relay event_json budget) in
          match published with
          | Ok _ =>
              let* now := call clock_now in
              ledger_or (acknowledge_nwc_invoice_relay event_id relay now) (fun _ =>
                publish_invoice deadline event_id event_json rest failed)
          | Err _ => publish_invoice deadline event_id event_json rest true
          end
      end
  end.

(** The event of a settled invoice, or the early end of [process_invoice]. *)
Definition invoice_event (deadline : OperationDeadline) (invoice : TrackedNwcInvoice)
    (report : InvoiceNotificationWorkerReport)
  : Prog (Result InvoiceNotificationError (string + InvoiceNotificationWorkerReport)) :=
  let finish (p : Prog (Result InvoiceNotificationError InvoiceNotificationWorkerReport)) :=
    let* r := p in Ret (let? report := r in Ok (inr report)) in
  match ti_notification_event_json invoice with
  | Some event => Ret (Ok (inl event))
  | None =>
      let* budget := context deadline in
      match budget with
      | None => Ret (Ok (inr (nr_retry report)))
      | Some budget =>
      let* transaction := call (lookup_invoice (Lookup_PaymentHash (ti_payment_hash invoice)) budget) in
      match transaction with
      | Err _ => Ret (Ok (inr (nr_retry report)))
      | Ok None => finish (defer_or_expire_invoice invoice report)
      | Ok (Some transaction) =>
      match tx_status transaction with
      | Status_Succeeded _ _ _ =>
        load_owner (ti_connection_id invoice) (ti_connection_revision invoice) (fun connection =>
          match connection with
          | None =>
              let* _ := call clock_now in
              ledger_or (expire_nwc_invoice (ti_request_event_id invoice)) (fun _ =>
                Ret (Ok (inr (nr_expire report))))
          | Some connection =>
              let* budget := context deadline in
              match budget with
              | None => Ret (Ok (inr (nr_retry report)))
              | Some budget =>
              let* secret := call (load_nwc_secret (ac_id connection) budget) in
              match secret with
              | Err _ => Ret (Err Notify_Secret)
              | Ok secret =>
              let* entropy := call cipher_entropy in
              match build_payment_received_notification_event connection secret invoice transaction
                      entropy with
              | Err e => Ret (Err e)
              | Ok proposed =>
                  let* created_at := (match tx_settled_at transaction with
                                      | Some t => Ret t
                                      | None => call clock_now
                                      end) in
                  ledger_or (store_nwc_invoice_notification_event (ti_request_event_id invoice)
                               proposed created_at) (fun event => Ret (Ok (inl event)))
              end end end
          end)
      | _ => finish (defer_or_expire_invoice invoice report)
      end end end
  end.

Definition process_invoice (deadline : OperationDeadline) (invoice : TrackedNwcInvoice)
    (report : InvoiceNotificationWorkerReport)
  : Prog (Result InvoiceNotificationError InvoiceNotificationWorkerReport) :=
  let event_id := ti_request_event_id invoice in
  let report := nr_inspect report in
  let* now := call clock_now in
  ledger_or (touch_nwc_invoice event_id now) (fun _ =>
    let* event := invoice_event deadline invoice report in
    match event with
    | Err e => Ret (Err e)
    | Ok (inr report) => Ret (Ok report)
    | Ok (inl event_json) =>
        ledger_or (read (undelivered_nwc_invoice_relays event_id)) (fun relays =>
          let complete :=
            let* now := call clock_now in
            ledger_or (complete_nwc_invoice_notification event_id now) (fun _ =>
              Ret (Ok (nr_deliver report))) in
          if (match relays with [] => true | _ => false end) then complete
          else
          let* failed := publish_invoice deadline event_id event_json relays false in
          match failed with
          | Err e => Ret (Err e)
          | Ok true => Ret (Ok (nr_retry report))
          | Ok false => complete
          end)
    end).

Fixpoint process_invoices (deadline : OperationDeadline) (invoices : list TrackedNwcInvoice)
    (report : InvoiceNotificationWorkerReport)
  : Prog (Result InvoiceNotificationError InvoiceNotificationWorkerReport) :=
  match invoices with
  | [] => Ret (Ok report)
  | invoice :: rest =>
      let* cancelled := call is_cancelled in
      if (cancelled : bool) then Ret (Ok report)
      else
      let* processed := process_invoice deadline invoice report in
      match processed with
      | Err e => Ret (Err e)
      | Ok report => process_invoices deadline rest report
      end
  end.

Definition run_scoped (wallet_service_pubkey : option PublicKey) (budget : OperationBudget)
  : Prog (Result InvoiceNotificationError InvoiceNotificationWorkerReport) :=
  let deadline := mkOperationDeadline budget in
  ledger_or (read (match wallet_service_pubkey with
                   | Some k => pending_nwc_sent_payments_for_wallet k DEFAULT_BATCH_SIZE
                   | None => pending_nwc_sent_payments DEFAULT_BATCH_SIZE
                   end)) (fun payments =>
    let* paid := process_payments deadline payments default_notify_report in
    match paid with
    | Err e => Ret (Err e)
    | Ok report =>
        ledger_or (read (match wallet_service_pubkey with
                         | Some k => pending_nwc_invoices_for_wallet k DEFAULT_BATCH_SIZE
                         | None => pending_nwc_invoices DEFAULT_BATCH_SIZE
                         end)) (fun invoices => process_invoices deadline invoices report)
    end).

(** [InvoiceNotificationWorker::run] and [run_for_wallet]. *)
Definition notify_run (budget : OperationBudget) := run_scoped None budget.
Definition run_for_wallet (wallet_service_pubkey : PublicKey) (budget : OperationBudget) :=
  run_scoped (Some wallet_service_pubkey) budget.

Definition run_invoice (request_event_id : EventId) (budget : OperationBudget)
  : Prog (Result InvoiceNotificationError InvoiceNotificationWorkerReport) :=
  let deadline := mkOperationDeadline budget in
  ledger_or (read (pending_nwc_invoice request_event_id)) (fun invoice =>
    match invoice with
    | None => Ret (Ok default_notify_report)
    | Some invoice => process_invoice deadline invoice default_notify_report
    end).

End Worker.
