(* ===== verification/Library.v ===== *)
(** * The library as one transition system

    Every ledger transaction of the modelled components, by any process and in
    any order, over the one database they share: the invariants of the
    components hold together, and what one component relies on survives the
    transactions of the others.  Pruning is one of the transactions: a terminal
    result lasts until it is pruned. *)
From S2P Require Import Prelude Sqlite Types Policy Host Schema.
From S2P Require Import Ledger Registry Registration.
From S2P Require Import Nwa NostrValidation Invoices Outbox Accounting Metadata AccountingProofs.
#[local] Open Scope Z_scope.

Section Library.
Context `{L : UrlLib} `{P : !UrlParts L} `{NK : NostrKeys}.

Inductive library_step (d d' : Database) : Prop :=
| by_ledger : ledger_step d d' -> library_step d d'
| by_accounting : accounting_step d d' -> library_step d d'
| by_registry : registry_step d d' -> library_step d d'
| by_outbox : outbox_step d d' -> library_step d d'
| by_registration : registration_step d d' -> library_step d d'
| by_metadata : metadata_step d d' -> library_step d d'.

(** The invariants of the components, together. *)
Record library_wf (d : Database) : Prop := {
  lw_books : exists base, accounting_wf base d;
  lw_events : events_wf (wake_events d);
  lw_registry : registry_wf d;
  lw_registration : registration_wf d;
  lw_settlements : settlements_wf d;
  lw_metadata : metadata_wf d;
}.

(** What survives every transaction of the library: an attempt whose payment
    was initiated, a connection, unless it is revoked, and the stored
    notification of an invoice.  A terminal result survives every transaction
    but its pruning, and is followed by [final_until_pruned]. *)
Definition connection_persists (d d' : Database) : Prop :=
  forall id s, load_connection id d = Ok (Some s) ->
    load_connection id d' = Ok (Some s)
    \/ exists t, load_connection id d' = Ok (Some (Stored_Tombstoned t)).

Definition keeps_attempt (r : PaymentAttemptRow) (d' : Database) : Prop :=
  exists r', r' ∈ payment_attempts d' /\ pa_payment_hash r' = pa_payment_hash r
    /\ pa_terms r' = pa_terms r
    /\ (pa_initiated_at r <> None -> pa_initiated_at r' = pa_initiated_at r).

Definition keeps_notice (n : Notice) (o : option Notice) : Prop :=
  nt_event n = None \/ exists n', o = Some n' /\ nt_event n' = nt_event n
    /\ (nt_completed n = true -> nt_completed n' = true).

Lemma evolved_notice n o : notice_evolves false (Some n) o -> keeps_notice n o.
Proof.
  unfold keeps_notice. destruct (nt_event n) as [j|] eqn:Hj; [|by left]. right.
  destruct o as [n'|]; simpl in *; [|destruct H as [|]; congruence]. destruct H as [H1 H2]. exists n'. auto.
Qed.

Record persists (d d' : Database) : Prop := {
  ps_initiated : forall r, r ∈ payment_attempts d -> pa_initiated_at r <> None -> keeps_attempt r d';
  ps_connections : connection_persists d d';
  ps_notices : forall e n, invoice_notice e d = Some n -> keeps_notice n (invoice_notice e d');
}.

#[export] Instance persists_preorder : PreOrder persists.
Proof.
  split.
  - intros d. split; [intros r Hr _; by exists r|intros id s H; by left|].
    intros e n H. right. by exists n.
  - intros d1 d2 d3 [A2 A3 A4] [B2 B3 B4]. split.
    + intros r Hr Hi. destruct (A2 r Hr Hi) as (r2 & Hr2 & Hh & Ht & Hk). specialize (Hk Hi).
      destruct (B2 r2 Hr2 ltac:(congruence)) as (r3 & Hr3 & Hh3 & Ht3 & Hk3).
      exists r3. split_and!; [done|congruence..|]. intros _. rewrite Hk3; congruence.
    + intros id s H. destruct (A3 id s H) as [H2|[t H2]]; destruct (B3 _ _ H2) as [?|[t' ?]]; eauto.
    + intros e n H. destruct (A4 e n H) as [|(n2 & H2 & He2 & Hc2)]; [by left|].
      destruct (B4 e n2 H2) as [|(n3 & H3 & He3 & Hc3)]; [left; congruence|].
      right. exists n3. split_and!; [done|congruence|auto].
Qed.

(** Each invariant reads the tables of its component only. *)
Lemma books_ext base d d' : budget_periods d' = budget_periods d ->
  payment_attempts d' = payment_attempts d -> accounting_wf base d -> accounting_wf base d'.
Proof.
  intros Hp Ha [B1 B2 B3 B4 B5 B6 B7 B8 B9]. unfold period_spend in *.
  split; unfold period_spend; rewrite ?Hp, ?Ha; done.
Qed.

Definition same_registry (d d' : Database) : Prop :=
  connections d' = connections d /\ connection_methods d' = connection_methods d
  /\ connection_relays d' = connection_relays d.

Lemma hydrate_same d d' c : same_registry d d' ->
  hydrate_stored_connection d' c = hydrate_stored_connection d c.
Proof. intros (_ & Hm & Hr). apply hydrate_stored_connection_ext; by rewrite ?Hm, ?Hr. Qed.

Lemma registry_ext d d' : same_registry d d' -> registry_wf d -> registry_wf d'.
Proof.
  intros Hs [R1 R2 R3 R4 R5 R6]. pose proof Hs as (Hc & Hm & Hr).
  assert (forall id, owner_active d id -> owner_active d' id) as Ho.
  { intros id (c & ? & ?). exists c. by rewrite Hc. }
  split; rewrite ?Hc, ?Hm, ?Hr; auto. intros c Hin. rewrite (hydrate_same _ _ _ Hs). auto.
Qed.

Lemma load_connection_same d d' id : same_registry d d' ->
  load_connection id d' = load_connection id d.
Proof.
  intros Hs. pose proof Hs as (Hc & _). unfold load_connection. rewrite Hc.
  destruct (query_row _ _); simpl; [|done]. by rewrite (hydrate_same _ _ _ Hs).
Qed.

Lemma claim_state_same d d' e : wake_events d' = wake_events d -> claim_state d' e = claim_state d e.
Proof. intros He. unfold claim_state, load_existing. by rewrite He. Qed.

Lemma same_attempts_persist d d' r : payment_attempts d' = payment_attempts d ->
  r ∈ payment_attempts d -> keeps_attempt r d'.
Proof. intros Ha Hr. exists r. by rewrite Ha. Qed.

(** The metadata reads the connections only for their existence. *)
Lemma metadata_ext d d' : same_metadata d d' ->
  (forall id, connection_exists d id = true -> connection_exists d' id = true) -> metadata_wf d -> metadata_wf d'.
Proof. intros [Ec Eo] Hex [M1 M2 M3 I1 I2 I3]. split; rewrite ?Ec, ?Eo; auto. Qed.

Lemma metadata_same d d' : same_metadata d d' -> connections d' = connections d -> metadata_wf d -> metadata_wf d'.
Proof. intros Hs Hc. apply metadata_ext; [done|]. intros id. unfold connection_exists. by rewrite Hc. Qed.

(** The other components leave the settlement outbox alone. *)
Lemma settled_notices d d' : settles_on d d' ->
  forall e n, invoice_notice e d = Some n -> keeps_notice n (invoice_notice e d').
Proof. intros [_ H _] e n Hn. specialize (H e). rewrite Hn in H. by apply evolved_notice. Qed.

Lemma insert_state_same n created used now c d d' :
  insert_connection_state n created used now d = Ok (c, d') -> same_settlements d d'.
Proof.
  unfold insert_connection_state. intros H.
  do 2 (apply bind_Ok in H as (? & _ & H)). destruct (match nc_expires_at n with Some _ => _ | None => _ end); [done|].
  do 2 (apply bind_Ok in H as (? & _ & H)). apply bind_Ok in H as ([fee maximum_fee] & _ & H).
  destruct (_ || _); [done|]. do 3 (apply bind_Ok in H as (? & _ & H)).
  apply bind_Ok in H as (d1 & Hd1 & H). do 2 (apply bind_Ok in H as (? & _ & H)). injection H as _ <-.
  destruct (0 <? used); [do 4 (apply bind_Ok in Hd1 as (? & _ & Hd1))|]; injection Hd1 as <-; by split_and!.
Qed.

Lemma registry_step_same d d' : registry_step d d' -> same_settlements d d'.
Proof.
  intros Hs. destruct Hs as [n now c d d' _ H|n created used now c d d' _ H|id expected now t d d' H].
  - by eapply insert_state_same.
  - apply import_connection_Ok in H as [H _]. by eapply insert_state_same.
  - unfold tombstone_connection in H. inv_run H. by split_and!.
Qed.

Lemma registration_step_same d d' : registration_step d d' -> same_settlements d d'.
Proof.
  intros Hs. destruct Hs as [enabled now n d d' H|change d d' H|change now delay d d' _ H];
    unfold requeue_active_wake_registrations_with_state, acknowledge_wake_registration,
      retry_wake_registration in H; inv_run H; by split_and!.
Qed.

(** ** One transaction *)

Lemma attempts_kept base d d' r :
  accounting_wf base d ->
  attempt_evolves (find_key pa_payment_hash (pa_payment_hash r) (payment_attempts d))
    (find_key pa_payment_hash (pa_payment_hash r) (payment_attempts d')) ->
  r ∈ payment_attempts d -> pa_initiated_at r <> None -> keeps_attempt r d'.
Proof.
  intros Hwf He Hr Hi. destruct (aw_attempts base d Hwf) as [_ [_ Hnd]].
  rewrite (proj2 (find_key_unique _ _ _ r Hnd) (conj Hr eq_refl)) in He. simpl in He.
  destruct (find_key pa_payment_hash (pa_payment_hash r) (payment_attempts d')) as [r'|] eqn:Hf.
  - destruct (find_key_Some _ _ _ _ Hf) as [Hin Hh]. destruct He as (Ht & _ & Hk & _).
    exists r'. by split_and!.
  - by destruct He as [_ ?].
Qed.

Lemma ledger_step_library d d' : ledger_step d d' -> library_wf d -> library_wf d' /\ persists d d'.
Proof.
  intros Hs [[base Hb] He Hr Hg Hx Hm].
  destruct (ledger_step_effect d d' Hs He) as (He' & Hd & Hev).
  assert (settles_on d d') as Hset by (rewrite Hd; by apply same_settle_on).
  rewrite Hd in Hset |- *. split; split.
  - exists base. by apply (books_ext base d).
  - exact He'.
  - by apply (registry_ext d).
  - by apply (registration_ext d).
  - apply Hset.
  - by apply (metadata_same d).
  - intros r Hin _. by apply (same_attempts_persist d).
  - intros id s H. left. rewrite <- H. by apply load_connection_same.
  - by apply settled_notices.
Qed.

Lemma accounting_step_library d d' :
  accounting_step d d' -> library_wf d -> library_wf d' /\ persists d d'.
Proof.
  intros Hs [[base Hb] He Hr Hg Hx Hm].
  destruct (accounting_step_effect base d d' Hs Hb) as (Hb' & Hd & Hev & _).
  assert (settles_on d d') as Hset by (apply same_settle_on; [by rewrite Hd; split_and!|done]).
  split; split.
  - by exists base.
  - by rewrite Hd.
  - rewrite Hd. by apply (registry_ext d).
  - rewrite Hd. by apply (registration_ext d).
  - apply Hset.
  - rewrite Hd. by apply (metadata_same d).
  - intros r Hin Hi. apply (attempts_kept base d); auto.
  - intros id s H. left. rewrite <- H. apply load_connection_same. by rewrite Hd.
  - by apply settled_notices.
Qed.

Lemma outbox_step_library d d' : outbox_step d d' -> library_wf d -> library_wf d' /\ persists d d'.
Proof.
  intros Hs [[base Hb] Hev Hreg Hg Hx Hmd]. pose proof (outbox_step_settles d d' Hs Hx) as Hset.
  apply outbox_step_core in Hs as (He & Hc & Hm & Hr & Hp & Ha & Ho & Hw & Hsame). split; split.
  - exists base. by apply (books_ext base d).
  - by rewrite He.
  - by apply (registry_ext d).
  - by apply (registration_ext d).
  - apply Hset.
  - by apply (metadata_same d).
  - intros r Hin _. by apply (same_attempts_persist d).
  - intros id s H. left. rewrite <- H. by apply load_connection_same.
  - by apply settled_notices.
Qed.

Lemma load_connection_inv d id s : load_connection id d = Ok (Some s) ->
  exists r, find_key cn_id id (connections d) = Some r /\ hydrate_stored_connection d r = Ok s.
Proof.
  unfold load_connection. fold (find_key cn_id id (connections d)).
  destruct (find_key cn_id id (connections d)) as [r|]; simpl; [|done].
  destruct (hydrate_stored_connection d r) as [s'|] eqn:E; [|done]. intros [= ->]. eauto.
Qed.

(** An import opens the period of a connection that had none. *)
Definition imported_base (key : string * Z) (used : Z) (base : string * Z -> Z) (k : string * Z) : Z :=
  if bool_decide (k = key) then used else base k.

Lemma imported_books base p d d' :
  accounting_wf base d -> payment_attempts d' = payment_attempts d ->
  budget_periods d' = budget_periods d ++ [p] -> budget_period_check p = true ->
  0 < bp_used_sat p <= i64_max -> (forall p', p' ∈ budget_periods d -> bp_key p' <> bp_key p) ->
  accounting_wf (imported_base (bp_key p) (bp_used_sat p) base) d'.
Proof.
  intros [B1 B2 B3 B4 B5 B6 B7 B8 B9] Ha Hp Hck Hu Hfresh.
  assert (forall k, k <> bp_key p ->
    find_key bp_key k (budget_periods d') = find_key bp_key k (budget_periods d)) as Hother.
  { intros k Hk. rewrite Hp. unfold find_key, query_row. rewrite select_app. simpl.
    rewrite bool_decide_false by done. by rewrite app_nil_r. }
  assert (find_key bp_key (bp_key p) (budget_periods d) = None) as Hnone.
  { destruct (find_key bp_key (bp_key p) (budget_periods d)) as [q|] eqn:Hf; [|done].
    destruct (find_key_Some _ _ _ _ Hf) as [Hin Hk]. by destruct (Hfresh q Hin). }
  assert (find_key bp_key (bp_key p) (budget_periods d') = Some p) as Hnew.
  { rewrite Hp. unfold find_key, query_row in *. rewrite select_app.
    destruct (select _ (budget_periods d)); [|done]. simpl. by rewrite bool_decide_true. }
  assert (forall r, r ∈ payment_attempts d -> pa_key r <> bp_key p) as Hno.
  { intros r Hr Hk. destruct (B3 r Hr) as [q Hq]. rewrite Hk in Hq. congruence. }
  assert (forall k, period_spend k d' = period_spend k d) as Hspend by (intros; unfold period_spend; by rewrite Ha).
  unfold imported_base. split; rewrite ?Ha; auto.
  - destruct B1 as [C1 C2]. rewrite Hp. split; [by apply Forall_app_2; [|constructor]|].
    rewrite fmap_app. apply NoDup_app. split_and!; [done| |apply NoDup_singleton].
    intros k (q & -> & Hq)%list_elem_of_fmap Hk%list_elem_of_singleton. by destruct (Hfresh q Hq).
  - intros r Hr. rewrite Hother by auto. auto.
  - intros k. case_bool_decide; [lia|auto].
  - intros k q Hq. rewrite Hspend. case_bool_decide as Hk.
    + subst k. rewrite Hnew in Hq. injection Hq as <-. unfold period_spend.
      rewrite Zsum_zero; [lia|]. intros r Hr. unfold counted. by rewrite bool_decide_false by auto.
    + rewrite Hother in Hq by done. auto.
  - intros k q Hq. destruct (decide (k = bp_key p)) as [->|Hk].
    + rewrite Hnew in Hq. injection Hq as <-. lia.
    + rewrite Hother in Hq by done. eauto.
  - intros k Hk. case_bool_decide as Heq; [subst k; congruence|]. rewrite Hother in Hk by done. auto.
Qed.

Lemma inserted_books n created used now row d d' base :
  inserted n created used now row d d' -> accounting_wf base d -> exists base', accounting_wf base' d'.
Proof.
  intros Hins Hb. pose proof (ins_attempts _ _ _ _ _ _ _ Hins) as Ha.
  destruct (ins_periods _ _ _ _ _ _ _ Hins) as [Hp|(Hu & start & _ & Hp & Hck & Hmax & Hfresh)].
  - exists base. by apply (books_ext base d).
  - eexists. by eapply (imported_books base _ d d' Hb Ha Hp Hck (conj Hu Hmax)).
Qed.

Lemma inserted_connections n created used now row d d' :
  inserted n created used now row d d' -> connection_persists d d'.
Proof.
  intros Hins id s (r & Hf & Hs)%load_connection_inv. left.
  destruct (find_key_Some _ _ _ _ Hf) as [Hin Hid].
  apply (load_connection_find d' id r).
  - rewrite (ins_connections _ _ _ _ _ _ _ Hins). unfold find_key, query_row in *.
    rewrite select_app. by destruct (select _ (connections d)).
  - rewrite <- Hs. eapply hydrate_other; [exact Hins|]. by apply (ins_fresh _ _ _ _ _ _ _ Hins).
Qed.

Lemma tombstoned_connections id ex now r0 d d' :
  tombstoned id ex now r0 d d' -> connection_persists d d'.
Proof.
  intros Ht id' s (r & Hf & Hs)%load_connection_inv.
  destruct (find_key_Some _ _ _ _ Hf) as [_ Hid]. pose proof (ts_connections _ _ _ _ _ _ Ht id') as Hc.
  case_bool_decide as Heq.
  - right. subst id'. assert (r = r0) as -> by (pose proof (ts_find _ _ _ _ _ _ Ht); congruence).
    eexists. eapply load_connection_find; [exact Hc|]. by eapply tombstone_row_loads.
  - left. eapply load_connection_find; [by rewrite Hc|]. rewrite <- Hs.
    eapply tombstone_other_loads; [exact Ht|congruence].
Qed.

Lemma exists_loads d id : registry_wf d ->
  connection_exists d id = true <-> exists s, load_connection id d = Ok (Some s).
Proof.
  intros Hwf. unfold connection_exists. rewrite exists_row_true. split.
  - intros (c & Hc & Hid%bool_decide_eq_true_1).
    destruct (rw_connections d Hwf) as [_ [Hnd _]].
    destruct (find_loads d id c Hwf) as (s & _ & Hs & _); [by apply find_key_unique|eauto].
  - intros [s (c & [Hc Hid]%find_key_Some & _)%load_connection_inv]. exists c.
    split; [done|]. by apply bool_decide_eq_true_2.
Qed.

Lemma metadata_persists d d' : registry_wf d -> registry_wf d' -> connection_persists d d' ->
  same_metadata d d' -> metadata_wf d -> metadata_wf d'.
Proof.
  intros Hwf Hwf' Hp Hs. apply metadata_ext; [done|]. intros id [s H]%exists_loads; [|done].
  apply exists_loads; [done|]. destruct (Hp id s H) as [|[t ?]]; eauto.
Qed.

Lemma registry_step_library d d' :
  registry_step d d' -> library_wf d -> library_wf d' /\ persists d d'.
Proof.
  intros Hs [[base Hb] He Hr Hg Hx Hm]. destruct (registry_step_same d d' Hs) as (_ & _ & _ & _ & Hsame).
  pose proof (registry_step_wf d d' Hs Hr) as Hr'.
  pose proof (same_settle_on d d' (registry_step_same d d' Hs) Hx) as Hset.
  destruct (registry_step_cases d d' Hs (rw_connections d Hr))
    as [(n & cr & u & now & row & Hv & H)|(id & ex & now & r & H)].
  - split; split; [by eapply inserted_books|by rewrite (ins_events _ _ _ _ _ _ _ H)|done
      |by eapply inserted_registration|apply Hset|by eapply metadata_persists, Hm; [| |eapply inserted_connections|]
      | | |by apply settled_notices].
    + intros r Hin _. by apply (same_attempts_persist d); [apply (ins_attempts _ _ _ _ _ _ _ H)|].
    + by eapply inserted_connections.
  - split; split; [|by rewrite (ts_events _ _ _ _ _ _ H)|done|by eapply tombstoned_registration
      |apply Hset|by eapply metadata_persists, Hm; [| |eapply tombstoned_connections|]
      | | |by apply settled_notices].
    + exists base. eapply books_ext; [by apply (ts_periods _ _ _ _ _ _ H)|by apply (ts_attempts _ _ _ _ _ _ H)|done].
    + intros r' Hin _. by apply (same_attempts_persist d); [apply (ts_attempts _ _ _ _ _ _ H)|].
    + by eapply tombstoned_connections.
Qed.

(** The registration outbox writes its own two tables. *)
Lemma registration_step_core d d' : registration_step d d' ->
  wake_events d' = wake_events d /\ same_registry d d'
  /\ budget_periods d' = budget_periods d /\ payment_attempts d' = payment_attempts d.
Proof.
  intros Hs. destruct Hs as [enabled now n d d' H|change d d' H|change now delay d d' _ H];
    unfold requeue_active_wake_registrations_with_state, acknowledge_wake_registration,
      retry_wake_registration in H; inv_run H; by split_and!.
Qed.

Lemma registration_step_library d d' :
  registration_step d d' -> library_wf d -> library_wf d' /\ persists d d'.
Proof.
  intros Hs [[base Hb] He Hr Hg Hx Hm]. pose proof (registration_step_wf d d' Hs Hr Hg) as Hg'.
  destruct (registration_step_core d d' Hs) as (Hev & Hreg & Hp & Ha).
  destruct (registration_step_same d d' Hs) as (_ & _ & _ & _ & Hsame).
  pose proof (same_settle_on d d' (registration_step_same d d' Hs) Hx) as Hset. split; split.
  - exists base. by apply (books_ext base d).
  - by rewrite Hev.
  - by apply (registry_ext d).
  - done.
  - apply Hset.
  - by apply (metadata_same d); [|apply Hreg|].
  - intros r Hin _. by apply (same_attempts_persist d).
  - intros id s H. left. rewrite <- H. by apply load_connection_same.
  - by apply settled_notices.
Qed.

Context `{LL : !UrlLaws L} `{PL : !UrlPartsLaws P}.

(** A transaction on metadata changes nothing the other components read. *)
Lemma metadata_step_library d d' : metadata_step d d' -> library_wf d -> library_wf d' /\ persists d d'.
Proof.
  intros Hs [[base Hb] He Hr Hg Hx Hm].
  pose proof (metadata_step_wf d d' Hs (rw_canonical d Hr) Hm) as Hm'.
  destruct (metadata_step_tables d d' Hs Hm) as (t & o & ->).
  set (d' := set_nwc_info_outbox o (set_connection_metadata t d)). split; split.
  - exists base. by apply (books_ext base d).
  - exact He.
  - by apply (registry_ext d).
  - by apply (registration_ext d).
  - destruct Hx. by split.
  - exact Hm'.
  - intros r Hin _. by apply (same_attempts_persist d).
  - intros id s H. left. rewrite <- H. by apply load_connection_same.
  - intros e n H. apply evolved_notice. change (invoice_notice e d') with (invoice_notice e d). by rewrite H.
Qed.

Lemma library_step_library d d' : library_step d d' -> library_wf d -> library_wf d' /\ persists d d'.
Proof.
  intros [H|H|H|H|H|H]; [by apply ledger_step_library|by apply accounting_step_library
    |by apply registry_step_library|by apply outbox_step_library|by apply registration_step_library
    |by apply metadata_step_library].
Qed.

Lemma library_steps_library d d' :
  rtc library_step d d' -> library_wf d -> library_wf d' /\ persists d d'.
Proof.
  induction 1 as [d|d d1 d' Hstep _ IH]; intros Hwf; [by split|].
  destruct (library_step_library d d1 Hstep Hwf) as [Hwf1 Hp1].
  destruct (IH Hwf1) as [Hwf' Hp']. split; [done|]. by etrans.
Qed.

(** Only the ledger's own transactions touch the claims. *)
Lemma library_step_events d d' : library_step d d' -> library_wf d ->
  ledger_step d d' \/ wake_events d' = wake_events d.
Proof.
  intros [H|H|H|H|H|H] Hwf; [by left|right..].
  - destruct (lw_books _ Hwf) as [base Hb].
    destruct (accounting_step_effect base d d' H Hb) as (_ & Hd & _). by rewrite Hd.
  - destruct (registry_step_cases d d' H (rw_connections d (lw_registry _ Hwf)))
      as [(n & cr & u & now & row & Hv & E)|(id & ex & now & r & E)];
      [apply (ins_events _ _ _ _ _ _ _ E)|apply (ts_events _ _ _ _ _ _ E)].
  - by apply outbox_step_core in H as (? & _).
  - by apply registration_step_core in H as (? & _).
  - by destruct (metadata_step_tables d d' H (lw_metadata _ Hwf)) as (t & o & ->).
Qed.

(** A terminal result is kept by every transaction but its pruning. *)
Lemma library_steps_terminal e o ev d d' :
  rtc library_step d d' -> library_wf d -> claim_state d e = Some (Finished o ev) ->
  final_until_pruned library_step e o ev d d'.
Proof.
  apply (steps_final library_step library_wf).
  - intros a b Hs Ha. by eapply library_step_library.
  - intros a b Hs Ha He. destruct (library_step_events a b Hs Ha) as [H|H].
    + by apply ledger_step_final; [|apply Ha|].
    + left. by rewrite (claim_state_same a).
Qed.

(** What was terminal once is so at the end, or a prune removed it. *)
Lemma final_later e o ev d d1 d2 : rtc library_step d1 d2 -> library_wf d1 ->
  rtc (keeping library_step e o ev) d d1 -> claim_state d1 e = Some (Finished o ev) ->
  final_until_pruned library_step e o ev d d2.
Proof.
  intros H12 Hwf Hk He. destruct (library_steps_terminal e o ev d1 d2 H12 Hwf He) as [?|(a & b & Ha & Hp & Hb)];
    [by left|right]. exists a, b. split_and!; [by etrans|done..].
Qed.

Lemma empty_library_wf : library_wf empty_database.
Proof.
  split; [exists (fun _ => 0)|by split; constructor|apply empty_registry_wf|apply empty_registration_wf
    |apply empty_settlements_wf|].
  2:{ split; try constructor; by intros r ?%elem_of_nil. }
  split; simpl; try done; first [by split_and!; constructor|by intros r ?%elem_of_nil|idtac].
Qed.

(** ** The life of a reservation *)

(** The attempt of a payment hash, of which there is at most one. *)
Definition attempt_of_hash (h : PaymentHash) (d : Database) : option PaymentAttemptRow :=
  find_key pa_payment_hash h (payment_attempts d).

Lemma attempt_of_hash_unique base d r : accounting_wf base d -> r ∈ payment_attempts d ->
  attempt_of_hash (pa_payment_hash r) d = Some r.
Proof.
  intros Hwf Hr. destruct (aw_attempts base d Hwf) as [_ [_ Hnd]]. by apply find_key_unique.
Qed.

Lemma library_step_attempt h d d' : library_step d d' -> library_wf d ->
  attempt_evolves (attempt_of_hash h d) (attempt_of_hash h d').
Proof.
  intros Hs [[base Hb] He Hr _ _ Hm]. unfold attempt_of_hash.
  assert (payment_attempts d' = payment_attempts d -> attempt_evolves
    (find_key pa_payment_hash h (payment_attempts d)) (find_key pa_payment_hash h (payment_attempts d'))) as Hsame
    by (intros ->; apply attempt_evolves_refl).
  destruct Hs as [Hs|Hs|Hs|Hs|Hs|Hs].
  - destruct (ledger_step_effect d d' Hs He) as (_ & Hd & _). apply Hsame. by rewrite Hd.
  - by apply (accounting_step_effect base d d' Hs Hb).
  - destruct (registry_step_cases d d' Hs (rw_connections d Hr)) as [(n & cr & u & now & row & _ & H)|(id & ex & now & r & H)];
      [by apply Hsame, (ins_attempts _ _ _ _ _ _ _ H)|by apply Hsame, (ts_attempts _ _ _ _ _ _ H)].
  - apply outbox_step_core in Hs as (_ & _ & _ & _ & _ & Ha & _). by apply Hsame.
  - destruct (registration_step_core d d' Hs) as (_ & _ & _ & Ha). by apply Hsame.
  - destruct (metadata_step_tables d d' Hs Hm) as (t & o & ->). by apply Hsame.
Qed.

(** An attempt whose payment was initiated is never released: it keeps its terms
    and the time of its initiation. *)
Lemma initiated_followed r d d' : rtc library_step d d' -> library_wf d ->
  attempt_of_hash (pa_payment_hash r) d = Some r -> pa_initiated_at r <> None ->
  exists r', attempt_of_hash (pa_payment_hash r) d' = Some r' /\ pa_terms r' = pa_terms r
    /\ pa_initiated_at r' = pa_initiated_at r.
Proof.
  intros Hs. revert r. induction Hs as [d|d d1 d' Hstep Hrest IH]; intros r Hwf Hr Hi; [by exists r|].
  pose proof (library_step_attempt (pa_payment_hash r) d d1 Hstep Hwf) as He. rewrite Hr in He.
  destruct (attempt_of_hash (pa_payment_hash r) d1) as [r1|] eqn:H1; [|by destruct He].
  destruct He as (Ht & _ & Hk & _). specialize (Hk Hi). pose proof (proj2 (find_key_Some _ _ _ _ H1)) as Hh.
  destruct (IH r1) as (r' & Hr' & Ht' & Hi'); [by eapply library_step_library|by rewrite Hh|congruence|].
  rewrite Hh in Hr'. exists r'. split_and!; congruence.
Qed.

(** ** The life of a removal *)

(** The removal of the revoked connection [id] at [revision] waits to be applied. *)
Definition removal_pending (id : string) (revision : Z) (d : Database) : Prop :=
  (exists w, queued_for id d = Some w /\ wo_desired_enabled w = 0 /\ wo_connection_revision w = revision)
  /\ exists c, find_key cn_id id (connections d) = Some c /\ cn_status c = "tombstoned".

(** A worker reports that the provider has applied it. *)
Definition removal_acknowledged (id : string) (revision : Z) (d d' : Database) : Prop :=
  exists change, acknowledge_wake_registration change d = Ok (tt, d')
    /\ wr_connection_id change = id /\ wr_connection_revision change = revision
    /\ wr_enabled change = false.

Lemma removal_same id revision d d' :
  wake_registration_outbox d' = wake_registration_outbox d -> connections d' = connections d ->
  removal_pending id revision d -> removal_pending id revision d'.
Proof. unfold removal_pending, queued_for. by intros -> ->. Qed.

Lemma registry_step_removal id revision d d' :
  registry_step d d' -> registry_wf d -> removal_pending id revision d -> removal_pending id revision d'.
Proof.
  intros Hs Hr ((w & Hq & Hw) & c & Hf & Hc).
  destruct (registry_step_cases d d' Hs (rw_connections d Hr))
    as [(n & cr & u & now & row & _ & H)|(id' & ex & now & r & H)].
  - destruct (ins_outbox _ _ _ _ _ _ _ H) as [Ho _].
    unfold removal_pending, queued_for in *. rewrite Ho, (ins_connections _ _ _ _ _ _ _ H), !find_key_app, Hq, Hf.
    split; eauto.
  - destruct (decide (id = id')) as [<-|Hne].
    { pose proof (ts_find _ _ _ _ _ _ H). destruct (ts_was _ _ _ _ _ _ H) as [Ha _]. congruence. }
    unfold removal_pending, queued_for in *.
    rewrite (proj2 (upsert_find _ _ _ (ts_removal _ _ _ _ _ _ H))), (ts_connections _ _ _ _ _ _ H).
    rewrite !bool_decide_false by done. split; eauto.
Qed.

Lemma registration_step_removal id revision d d' :
  registration_step d d' -> registry_wf d -> registration_wf d ->
  removal_pending id revision d ->
  removal_pending id revision d' \/ removal_acknowledged id revision d d'.
Proof.
  intros Hs Hr Hg Hp. pose proof Hp as ((w & Hq & He & Hrev) & c & Hf & Hc).
  destruct (registration_step_core d d' Hs) as (_ & (Hconn & _) & _).
  unfold removal_pending. rewrite Hconn.
  destruct (registration_step_effect d d' Hs Hr Hg) as [en now n H|change Hack H|change now delay H].
  - left. destruct (rq_other _ _ _ _ _ H id) as [-> _]; [|by split; eauto].
    intros c' Hin Ha Hid. destruct (rw_connections d Hr) as [_ [Hnd _]].
    rewrite (proj2 (find_key_unique _ _ _ c' Hnd) (conj Hin Hid)) in Hf. congruence.
  - destruct (decide (id = wr_connection_id change)) as [->|Hne].
    + right. exists change. destruct (ak_current _ _ _ H) as (w' & Hw' & Hset).
      assert (w' = w) as -> by congruence. apply settles_row in Hset as (_ & E1 & E2 & _ & _).
      split_and!; try done; [congruence|]. rewrite He in E2. by destruct (wr_enabled change).
    + left. rewrite (ak_queued _ _ _ H), bool_decide_false by done. split; eauto.
  - left. destruct (rt_current _ _ _ _ _ H) as (w' & Hw' & _ & Hw2).
    destruct (decide (id = wr_connection_id change)) as [->|Hne].
    + assert (w' = w) as -> by congruence. rewrite Hw2. split; eauto.
    + rewrite (rt_other _ _ _ _ _ H) by done. split; eauto.
Qed.

Lemma library_step_removal id revision d d' :
  library_step d d' -> library_wf d -> removal_pending id revision d ->
  removal_pending id revision d' \/ removal_acknowledged id revision d d'.
Proof.
  intros [Hs|Hs|Hs|Hs|Hs|Hs] [[base Hb] He Hr Hg _ Hm] Hp.
  - left. destruct (ledger_step_effect d d' Hs He) as (_ & Hd & _). by rewrite Hd.
  - left. destruct (accounting_step_effect base d d' Hs Hb) as (_ & Hd & _). by rewrite Hd.
  - left. by eapply registry_step_removal.
  - left. destruct (outbox_step_core d d' Hs) as (_ & Hc & _ & _ & _ & _ & Ho & _).
    by apply (removal_same _ _ d).
  - by apply registration_step_removal.
  - left. destruct (metadata_step_tables d d' Hs Hm) as (t & o & ->). by apply (removal_same _ _ d).
Qed.

(** ** Properties *)

(** C9: Whatever transactions the processes of the application commit, in whatever
    order: every database reached from a new one keeps the invariants of all
    components; whatever is committed afterwards, an initiated payment keeps its
    terms and the time of its initiation, a connection keeps its identity until
    it is revoked, and a terminal result stays exactly as it is until a prune
    removes it, whose cutoff was after its completion. *)
Theorem library_invariant d d'
    (Hreach : rtc library_step empty_database d) (Hlater : rtc library_step d d') :
  library_wf d /\ library_wf d'
  /\ (forall e o ev, claim_state d e = Some (Finished o ev) ->
        final_until_pruned library_step e o ev d d')
  /\ (forall r, r ∈ payment_attempts d -> pa_initiated_at r <> None -> keeps_attempt r d')
  /\ connection_persists d d'.
Proof.
  assert (library_wf empty_database) as H0.
    by apply empty_library_wf.
  destruct (library_steps_library _ _ Hreach H0) as [Hwf _].
  destruct (library_steps_library _ _ Hlater Hwf) as [Hwf' [H2 H3 _]]. split_and!; [done..| |done|done].
  intros e o ev H. by apply library_steps_terminal.
Qed.

(** A settlement notification never changes: once the event of an invoice is
    stored, whatever the processes commit, the invoice stays with exactly this
    event, every later proposal is answered by it, and its completion is not
    taken back. *)
Theorem notification_is_canonical d e n json
    (Hreach : rtc library_step empty_database d)
    (Hn : invoice_notice e d = Some n) (Hj : nt_event n = Some json) d' (Hlater : rtc library_step d d') :
  (exists n', invoice_notice e d' = Some n' /\ nt_event n' = Some json
    /\ (nt_completed n = true -> nt_completed n' = true))
  /\ forall proposed now canonical d2,
       store_nwc_invoice_notification_event e proposed now d' = Ok (canonical, d2) -> canonical = json.
Proof.
  destruct (library_steps_library _ _ Hreach empty_library_wf) as [Hwf _].
  destruct (library_steps_library _ _ Hlater Hwf) as [Hwf' [_ _ Hk]].
  destruct (Hk e n Hn) as [|(n' & Hn' & He & Hc)]; [congruence|]. split.
  - exists n'. split_and!; [done|congruence|done].
  - intros proposed now canonical d2 H.
    destruct (store_invoice_Ok e proposed now d' canonical d2 (lw_settlements _ Hwf') H) as (n2 & Hn2 & _ & -> & _).
    assert (n2 = n') as -> by congruence. by rewrite He, Hj.
Qed.

(** C14: A revocation always reaches the wake provider: from the tombstone on, whatever
    the processes commit, the removal at the next revision stays queued and loads
    as a current change, until a worker acknowledges exactly that removal; no change that would enable the connection again can be
    acknowledged or deferred meanwhile. *)
Theorem revocation_is_delivered d id revision now t d1 d2
    (Hreach : rtc library_step empty_database d)
    (Ht : tombstone_connection id revision now d = Ok (t, d1))
    (Hlater : rtc (fun a b => library_step a b /\ ~ removal_acknowledged id (revision + 1) a b) d1 d2) :
  exists w, queued_for id d2 = Some w
  /\ wo_desired_enabled w = 0 /\ wo_connection_revision w = revision + 1
  /\ (exists change, hydrate_change d2 w = Ok change
       /\ wr_enabled change = false /\ current change d2 = true)
  /\ forall change, wr_connection_id change = id -> current change d2 = true ->
       wr_enabled change = false /\ wr_connection_revision change = revision + 1.
Proof.
  destruct (library_steps_library _ _ Hreach empty_library_wf) as [Hwf _].
  assert (library_wf d1) as Hwf1.
  { eapply library_step_library; [|exact Hwf]. by eapply by_registry, step_tombstone. }
  assert (removal_pending id (revision + 1) d1) as Hp.
  { apply tombstone_connection_Ok in Ht as (_ & r & Ht); [|apply Hwf].
    unfold removal_pending, queued_for.
    rewrite (proj2 (upsert_find _ _ _ (ts_removal _ _ _ _ _ _ Ht))), (ts_connections _ _ _ _ _ _ Ht).
    rewrite !bool_decide_true by done. split; by eexists. }
  clear Ht Hwf. revert Hwf1 Hp.
  induction Hlater as [d2|d1 d1' d2 [Hstep Hno] _ IH]; intros Hwf Hp.
  2:{ destruct (library_step_removal _ _ _ _ Hstep Hwf Hp) as [Hp'|]; [|done].
      apply IH; [|done]. by eapply library_step_library. }
  destruct Hp as ((w & Hq & He & Hrev) & _). exists w. split_and!; try done.
  - destruct (gw_describes d2 (lw_registration _ Hwf) id w Hq) as (c & _ & [_ _ _ _ _ Hl]).
    destruct (hydrate_change d2 w) as [change|] eqn:Hc; [|done]. exists change.
    destruct (hydrate_change_Ok d2 w change Hc) as (_ & _ & E3 & _).
    destruct (queued_row d2 id w (lw_registration _ Hwf) Hq) as [<- _].
    split_and!; [done|rewrite He in E3; by destruct (wr_enabled change)|by eapply hydrated_current].
  - intros change <- Hcur. unfold current in Hcur. rewrite Hq in Hcur.
    apply settles_row in Hcur as (_ & E1 & E2 & _). rewrite He in E2. split; [|congruence].
    by destruct (wr_enabled change).
Qed.

End Library.

(** ** A run of the model

    A connection is imported and a payment reserved; it is then initiated and
    settled. *)

Definition sample_parts : @UrlParts sample_urls := {|
  url_query_pairs := fun _ => []; url_port := fun _ => None; url_path := fun _ => "/"%string;
  url_set_fragment := fun u _ => u; form_urlencode := fun _ => EmptyString |}.
Lemma sample_parts_laws : @UrlPartsLaws sample_urls sample_parts.
Proof. split; [done|]. intros s u H _. by destruct (sample_parse_Some s u H) as (-> & _ & ?). Qed.

Lemma sample_reserved_reachable :
  rtc (@library_step sample_urls sample_parts sample_keys) empty_database reserved_database.
Proof.
  eapply rtc_l; [apply by_registry, imported_step|].
  apply rtc_once, by_accounting, reserved_step.
Qed.

Lemma library_invariant_witness :
  @library_wf sample_urls sample_parts sample_keys settled_database
  /\ @connection_persists sample_urls sample_keys reserved_database settled_database.
Proof.
  assert (rtc (@library_step sample_urls sample_parts sample_keys) reserved_database settled_database) as H.
  { eapply (rtc_congruence (R := accounting_step) (fun d => d)); [|apply settled_steps].
    intros d d' Hs. by apply by_accounting. }
  destruct (@library_invariant sample_urls sample_parts sample_keys
    sample_url_laws sample_parts_laws reserved_database settled_database
    sample_reserved_reachable H) as (_ & H1 & _ & _ & H2).
  split; [exact H1|exact H2].
Defined.

Lemma revocation_is_delivered_witness :
  exists w, queued_for "c1" revoked_database = Some w /\ wo_desired_enabled w = 0.
Proof.
  destruct (@revocation_is_delivered sample_urls sample_parts sample_keys
    sample_url_laws sample_parts_laws imported_database "c1" 0 300
    (mkConnectionTombstone "c1" 1 300) revoked_database revoked_database) as (w & Hw & He & _).
  - apply rtc_once. apply by_registry, imported_step.
  - vm_compute; reflexivity.
  - apply rtc_refl.
  - exists w. by split.
Defined.

Lemma notification_is_canonical_witness :
  exists n d1 d2, invoice_notice (repeat 3 32) d1 = Some n /\ nt_event n = Some "{}"%string
    /\ store_nwc_invoice_notification_event (repeat 3 32) "[]" 260 d1 = Ok ("{}"%string, d2).
Proof.
  set (stored := store_nwc_invoice_notification_event (repeat 3 32) "{}" 250 invoiced_database).
  assert (match stored with
    | Ok (c, d) => match store_nwc_invoice_notification_event (repeat 3 32) "[]" 260 d with
                   | Ok (c', _) => bool_decide (option_map nt_event (invoice_notice (repeat 3 32) d) = Some (Some "{}"%string))
                   | Err _ => false end
    | Err _ => false end = true) as H by (clear; by vm_compute).
  destruct stored as [[c d1]|] eqn:Hs; [|discriminate H].
  destruct (store_nwc_invoice_notification_event (repeat 3 32) "[]" 260 d1) as [[c2 d2]|] eqn:H2; [|discriminate H].
  apply bool_decide_eq_true_1 in H.
  destruct (invoice_notice (repeat 3 32) d1) as [n|] eqn:Hn; [|discriminate H].
  injection H as Hj. destruct invoiced_step as [i Hi].
  assert (rtc (@library_step sample_urls sample_parts sample_keys) empty_database d1) as Hreach.
  { eapply rtc_l; [apply by_registry, imported_step|].
    eapply rtc_l; [eapply by_outbox, step_record_invoice, Hi|].
    apply rtc_once. eapply by_outbox, step_store_invoice, Hs. }
  destruct (@notification_is_canonical sample_urls sample_parts sample_keys
    sample_url_laws sample_parts_laws d1 (repeat 3 32) n "{}" Hreach Hn Hj d1
    (rtc_refl _ _)) as [_ Hc].
  exists n, d1, d2. split; [exact Hn|]. split; [exact Hj|]. by rewrite H2, (Hc _ _ _ _ H2).
Defined.
