(* ===== verification/ConnectionService.v ===== *)
(** * The connection manager

    Models [connection_service.rs]: the lifecycle operations over the registry
    (creation, one-time migration of an application's records, revocation) and
    the approval of a Nostr Wallet Auth request, which grants at most the
    authority that was requested. *)
From stdpp Require Import strings.
From S2P Require Import Prelude Sqlite Types Text Policy Host Nwa Schema Ledger Registry Program Reconciliation Library.
#[local] Open Scope Z_scope.

Record LegacyConnectionImport := mkLegacyConnectionImport {
  li_connection : NewConnection;
  li_created_at : UnixTimestamp;
  li_budget_used_sat : Z;
}.

(** [LegacyConnectionImport::matches]: the immutable fields of an authorization. *)
Definition matches (legacy : LegacyConnectionImport) (active : ActiveConnection) : bool :=
  let connection := li_connection legacy in
  bool_decide (ac_id active = nc_id connection)
  && bool_decide (ac_client_pubkey active = nc_client_pubkey connection)
  && bool_decide (ac_wallet_service_pubkey active = nc_wallet_service_pubkey connection)
  && bool_decide (ac_relays active = nc_relays connection)
  && bool_decide (ac_policy active = nc_policy connection)
  && bool_decide (ac_encryption active = nc_encryption connection)
  && bool_decide (ac_created_at active = li_created_at legacy)
  && bool_decide (ac_expires_at active = nc_expires_at connection).

Record LegacyMigrationResult := mkLegacyMigrationResult {
  revoked_connection_ids : list ConnectionId;
  revoked_client_pubkeys : list PublicKey;
}.

Record NwaApproval := mkNwaApproval {
  na_request_id : NwaRequestId;
  na_connection_id : ConnectionId;
  na_wallet_service_pubkey : PublicKey;
  na_relays : list string;
  na_policy : ConnectionPolicy;
  na_encryption : NwcEncryption;
  na_lud16 : option string;
}.

Record ApprovedNwaConnection := mkApprovedNwaConnection {
  an_connection : ActiveConnection;
  an_callback_url : option string;
}.

Inductive NwaApprovalError : Type :=
| AuthorityEscalation
| Approval_InvalidCallback
| Approval_Registry (e : RegistryError).

(** The two [From] conversions. *)
Definition approval_from_registry {A} (r : Result RegistryError A) : Result NwaApprovalError A :=
  map_err Approval_Registry r.
Definition approval_from_nwa {A} (r : Result NwaError A) : Result NwaApprovalError A :=
  map_err (fun _ => Approval_InvalidCallback) r.

Section ConnectionManager.
Context `{L : UrlLib} `{P : !UrlParts L} `{NK : NostrKeys}.

Definition create (connection : NewConnection) : Prog (Result RegistryError ActiveConnection) :=
  let* now := call clock_now in
  ledger (insert_connection connection now).

Definition import_legacy (connection : NewConnection) (created_at : UnixTimestamp)
    (budget_used_sat : Z) : Prog (Result RegistryError ActiveConnection) :=
  let* now := call clock_now in
  ledger (import_connection connection created_at budget_used_sat now).

Definition connection (id : ConnectionId) : Prog (Result RegistryError (option StoredConnection)) :=
  ledger (read (load_connection id)).

Definition active_connections : Prog (Result RegistryError (list ActiveConnection)) :=
  ledger (read list_active_connections).

Definition revoke (id : ConnectionId) (expected_revision : ConnectionRevision)
  : Prog (Result RegistryError ConnectionTombstone) :=
  let* now := call clock_now in
  ledger (tombstone_connection id expected_revision now).

(** The loop of [migrate_legacy_batch]. *)
Fixpoint migrate_from (connections : list LegacyConnectionImport) (result : LegacyMigrationResult)
  : Prog (Result RegistryError LegacyMigrationResult) :=
  match connections with
  | [] => Ret (Ok result)
  | legacy :: rest =>
      let* stored := connection (nc_id (li_connection legacy)) in
      match stored with
      | Err e => Ret (Err e)
      | Ok None =>
          let* imported := import_legacy (li_connection legacy) (li_created_at legacy)
                             (li_budget_used_sat legacy) in
          match imported with
          | Err e => Ret (Err e)
          | Ok _ => migrate_from rest result
          end
      | Ok (Some (Stored_Active active)) =>
          if matches legacy active then migrate_from rest result else Ret (Err Reg_CorruptData)
      | Ok (Some (Stored_Tombstoned _)) =>
          migrate_from rest (mkLegacyMigrationResult
            (revoked_connection_ids result ++ [nc_id (li_connection legacy)])
            (revoked_client_pubkeys result ++ [nc_client_pubkey (li_connection legacy)]))
      end
  end.
Definition migrate_legacy_batch (connections : list LegacyConnectionImport)
  : Prog (Result RegistryError LegacyMigrationResult) :=
  migrate_from connections (mkLegacyMigrationResult [] []).

Definition revoke_host_connection (host_id : string)
  : Prog (Result RegistryError (option ConnectionTombstone)) :=
  match map_err (fun _ => Reg_InvalidConnection) (ConnectionId_parse host_id) with
  | Err e => Ret (Err e)
  | Ok id =>
      let* stored := connection id in
      match stored with
      | Err e => Ret (Err e)
      | Ok (Some (Stored_Active active)) =>
          let* revoked := revoke id (ac_revision active) in
          Ret (let? tombstone := revoked in Ok (Some tombstone))
      | Ok (Some (Stored_Tombstoned _)) => Ret (Ok None)
      | Ok None => Ret (Err Reg_NotFound)
      end
  end.

Definition validate_nwa_connection_subset (request : NwaRequest) (connection : NewConnection)
  : Result NwaApprovalError unit :=
  let requested_policy := nwr_requested_policy request in
  let requested_budget := cp_budget requested_policy in
  let approved_policy := nc_policy connection in
  let approved_budget := cp_budget approved_policy in
  let relays_are_requested := forallb (fun approved =>
    existsb (fun requested => bool_decide (requested = approved)) (nwr_relays request))
    (nc_relays connection) in
  let methods_are_requested := forallb (fun method => allows requested_policy method)
    (cp_methods approved_policy) in
  let requested_maximum_fee_sat := match fee_policy requested_budget with
                                   | CountTowardBudget maximum_fee_sat => maximum_fee_sat
                                   | ExcludeForCompatibility => 0
                                   end in
  let fee_reserve_is_conservative := match fee_policy approved_budget with
    | CountTowardBudget maximum_fee_sat =>
        (maximum_fee_sat =? maximum_mobile_fee_sat (limit_sat approved_budget))
        && (maximum_fee_sat <=? requested_maximum_fee_sat)
    | ExcludeForCompatibility => false
    end in
  let payment_budget_is_usable := negb (allows approved_policy PayInvoice)
    || (maximum_mobile_fee_sat (limit_sat approved_budget) <? limit_sat approved_budget) in
  if negb (bool_decide (nc_client_pubkey connection = nwr_client_pubkey request))
     || negb (bool_decide (nc_expires_at connection = nwr_expires_at request))
     || Nat.eqb (length (nc_relays connection)) 0
     || negb relays_are_requested
     || Nat.eqb (length (cp_methods approved_policy)) 0
     || negb methods_are_requested
     || (limit_sat requested_budget <? limit_sat approved_budget)
     || negb (bool_decide (interval approved_budget = interval requested_budget))
     || negb fee_reserve_is_conservative
     || negb payment_budget_is_usable
  then Err AuthorityEscalation
  else Ok tt.

(** The callback is built before the registry changes. *)
Definition approve_nwa_connection (request : NwaRequest) (connection : NewConnection)
    (lud16 : option string) : Prog (Result NwaApprovalError ApprovedNwaConnection) :=
  match
    let? _ := validate_nwa_connection_subset request connection in
    let callback_relays := nc_relays connection in
    let? url := approval_from_nwa (traverse_option (fun callback =>
      approved_url callback (nc_wallet_service_pubkey connection) callback_relays lud16)
      (nwr_callback request)) in
    Ok (url_to_string <$> url)
  with
  | Err e => Ret (Err e)
  | Ok callback_url =>
      let* created := create connection in
      Ret (let? connection := approval_from_registry created in
           Ok (mkApprovedNwaConnection connection callback_url))
  end.

Definition approve_nwa (request : NwaRequest) (approval : NwaApproval) (wake_policy : WakePolicy)
  : Prog (Result NwaApprovalError ApprovedNwaConnection) :=
  if negb (bool_decide (na_request_id approval = nwr_id request))
  then Ret (Err AuthorityEscalation)
  else
    match
      let? connection := approval_from_registry (NewConnection_new (na_connection_id approval)
        (nwr_client_pubkey request) (na_wallet_service_pubkey approval) (na_relays approval)
        (na_policy approval) (na_encryption approval) wake_policy) in
      Ok (with_expiration (nwr_expires_at request) connection)
    with
    | Err e => Ret (Err e)
    | Ok connection => approve_nwa_connection request connection (na_lud16 approval)
    end.

(** ** The authority of an approval *)

(** The connection grants at most what the request asked for, to the client that
    asked, until the same time. *)
Record within_request (request : NwaRequest) (n : NewConnection) : Prop := {
  wq_client : nc_client_pubkey n = nwr_client_pubkey request;
  wq_expires : nc_expires_at n = nwr_expires_at request;
  wq_relays : nc_relays n <> [] /\ forall r, r ∈ nc_relays n -> r ∈ nwr_relays request;
  wq_methods : cp_methods (nc_policy n) <> [] /\ forall m,
    allows (nc_policy n) m = true -> allows (nwr_requested_policy request) m = true;
  wq_limit : limit_sat (cp_budget (nc_policy n)) <= limit_sat (cp_budget (nwr_requested_policy request));
  wq_interval : interval (cp_budget (nc_policy n)) = interval (cp_budget (nwr_requested_policy request));
  wq_fee : exists fee, fee_policy (cp_budget (nc_policy n)) = CountTowardBudget fee
    /\ fee = maximum_mobile_fee_sat (limit_sat (cp_budget (nc_policy n)))
    /\ fee <= match fee_policy (cp_budget (nwr_requested_policy request)) with
              | CountTowardBudget requested => requested | ExcludeForCompatibility => 0 end;
  wq_usable : allows (nc_policy n) PayInvoice = true ->
    maximum_mobile_fee_sat (limit_sat (cp_budget (nc_policy n))) < limit_sat (cp_budget (nc_policy n));
}.

Lemma forallb_elem {A} (f : A -> bool) l : forallb f l = true <-> forall x, x ∈ l -> f x = true.
Proof. rewrite forallb_forall. by setoid_rewrite list_elem_of_In. Qed.

Lemma length_eqb_0 {A} (l : list A) : Nat.eqb (length l) 0 = false <-> l <> [].
Proof. by destruct l. Qed.

Lemma validate_subset_spec request n :
  validate_nwa_connection_subset request n = Ok tt <-> within_request request n.
Proof.
  unfold validate_nwa_connection_subset. cbv zeta.
  match goal with |- (if ?b then _ else _) = _ <-> _ => set (refused := b) end.
  assert (refused = false <-> within_request request n) as H; [|by destruct refused; rewrite <- H].
  subst refused.
  rewrite !orb_false_iff, !negb_false_iff, !bool_decide_eq_true, !length_eqb_0, !forallb_elem, Z.ltb_ge.
  split.
  - intros (((((((((H1 & H2) & H3) & H4) & H5) & H6) & H7) & H8) & H9) & H10). split; try done.
    + split; [done|]. intros r Hr. specialize (H4 r Hr). apply existsb_exists in H4 as (r' & Hin & Heq).
      apply bool_decide_eq_true_1 in Heq as ->. by apply list_elem_of_In.
    + split; [done|]. intros m Hm%bool_decide_eq_true_1. auto.
    + destruct (fee_policy (cp_budget (nc_policy n))) as [fee|]; [|done]. bool_to_prop. exists fee. split_and!; [done|lia|lia].
    + intros Hp. rewrite Hp in H10. simpl in H10. lia.
  - intros [H1 H2 [H3 H4] [H5 H6] H7 H8 (fee & H9 & H10 & H11) H12]. split_and!; try done.
    + intros r Hr. apply existsb_exists. exists r. rewrite <- list_elem_of_In, bool_decide_eq_true. auto.
    + intros m Hm. apply H6. by apply bool_decide_eq_true_2.
    + rewrite H9. apply andb_true_intro. split; [by apply Z.eqb_eq|by apply Z.leb_le].
    + destruct (allows (nc_policy n) PayInvoice); [|done]. simpl. apply Z.ltb_lt. auto.
Qed.

(** ** Approvals *)

(** Some time between [d] and [d'], in which the others step by [env], [n] was
    inserted and returned as [c]. *)
Definition committed (env : Database -> Database -> Prop) (n : NewConnection) (c : ActiveConnection)
    (d d' : Database) : Prop :=
  exists now d1 d2, rtc env d d1 /\ insert_connection n now d1 = Ok (c, d2) /\ rtc env d2 d'.

Lemma committed_later env n c d d1 d2 : committed env n c d d1 -> rtc env d1 d2 -> committed env n c d d2.
Proof. intros (now & a & b & A1 & A2 & A3) H. exists now, a, b. split_and!; [done..|by etrans]. Qed.

Definition any_call : forall X, HostCall X -> Database -> Prop := fun _ _ _ => True.

Lemma create_wp env guar n Q d :
  (forall a b now c, insert_connection n now a = Ok (c, b) -> guar a b) ->
  (forall r d', match r with Ok c => committed env n c d d' | Err _ => rtc env d d' end -> Q r d') ->
  wp env guar any_call (create n) Q d.
Proof.
  intros Hg HQ. unfold create. apply wp_bind_call. intros d1 H1. split; [done|]. intros now _.
  apply wp_ledger. intros d2 H2. destruct (insert_connection n now d2) as [[c d3]|e] eqn:E.
  - split; [eauto|]. intros d4 H4. apply HQ. exists now, d2, d3. split_and!; [by etrans|done|done].
  - intros d3 H3. apply HQ. etrans; [exact H1|]. by etrans.
Qed.

(** The callback of an approval is never refused, once the request parsed. *)
Lemma callback_built request (n : NewConnection) lud16 :
  exists url : option Url, approval_from_nwa (traverse_option (fun callback =>
    approved_url callback (nc_wallet_service_pubkey n) (nc_relays n) lud16) (nwr_callback request))
  = Ok url /\ (url = None <-> nwr_callback request = None).
Proof. destruct (nwr_callback request) as [c|]; simpl; eexists; split; [done|done|done|done]. Qed.

(** What an approval of [request] for the connection [n] comes to. *)
Definition settled_approval (env : Database -> Database -> Prop) (request : NwaRequest)
    (n : NewConnection) (d : Database) (r : Result NwaApprovalError ApprovedNwaConnection)
    (d' : Database) : Prop :=
  match r with
  | Ok a => within_request request n /\ committed env n (an_connection a) d d'
      /\ (an_callback_url a = None <-> nwr_callback request = None)
  | Err e => rtc env d d' /\ e <> Approval_InvalidCallback
      /\ (e = AuthorityEscalation <-> ~ within_request request n)
  end.

Lemma approve_connection_wp env guar request n lud16 d :
  (forall a b now c, insert_connection n now a = Ok (c, b) -> guar a b) ->
  wp env guar any_call (approve_nwa_connection request n lud16) (settled_approval env request n d) d.
Proof.
  intros Hg. unfold approve_nwa_connection.
  destruct (validate_nwa_connection_subset request n) as [[]|e] eqn:Hv.
  2:{ intros d' Hd. cbn [bind]. assert (e = AuthorityEscalation) as ->.
      { unfold validate_nwa_connection_subset in Hv. by inv_run Hv. }
      split_and!; [done|done|]. split; [|done]. intros _ Hw%validate_subset_spec. congruence. }
  apply validate_subset_spec in Hv.
  destruct (callback_built request n lud16) as (url & -> & Hurl).
  apply wp_bind, create_wp; [done|]. intros [c|e] d1 H1; intros d2 H2; cbn.
  - destruct H1 as (now & d3 & d4 & A1 & A2 & A3). split_and!; [done| |].
    + exists now, d3, d4. split_and!; [done..|by etrans].
    + rewrite <- Hurl. by destruct url.
  - split_and!; [by etrans|done|]. by split.
Qed.
(** What the types of an approval bound. *)
Record approval_typed (approval : NwaApproval) : Prop := {
  at_id : ConnectionId_parse (na_connection_id approval) = Ok (na_connection_id approval);
  at_wallet : length (na_wallet_service_pubkey approval) = 32%nat;
  at_relays : Forall (fun r => SecureRelayUrl_parse r = Ok r) (na_relays approval);
  at_methods : btree_methods (cp_methods (na_policy approval)) = cp_methods (na_policy approval);
}.

Lemma approved_valid approval client wake_policy expires n :
  approval_typed approval -> length client = 32%nat ->
  NewConnection_new (na_connection_id approval) client (na_wallet_service_pubkey approval)
    (na_relays approval) (na_policy approval) (na_encryption approval) wake_policy = Ok n ->
  connection_valid (with_expiration expires n).
Proof.
  intros [T1 T2 T3 T4] Hc Hn. apply with_expiration_valid.
  destruct (NewConnection_new_spec (na_connection_id approval) client (na_wallet_service_pubkey approval)
    (na_relays approval) (na_policy approval) (na_encryption approval) wake_policy)
    as [(E & ? & ? & ? & Hlen & ? & ?)|(E & _)]; rewrite E in Hn; [|done]. injection Hn as <-.
  split; cbn [nc_id nc_client_pubkey nc_wallet_service_pubkey nc_relays nc_policy]; try done.
  unfold MAX_CONNECTION_RELAYS. lia.
Qed.

Lemma inserted_stored n created used now c d d' :
  registry_wf d -> connection_valid n -> insert_connection_state n created used now d = Ok (c, d') ->
  load_connection (nc_id n) d' = Ok (Some (Stored_Active c))
  /\ c = mkActiveConnection (nc_id n) 0 (nc_client_pubkey n) (nc_wallet_service_pubkey n)
        (nc_relays n) (nc_policy n) (nc_encryption n) created (nc_expires_at n) now.
Proof.
  intros Hwf Hv H. apply insert_connection_state_Ok in H as (-> & row & Hins). split; [|done].
  pose proof (inserted_wf _ _ _ _ _ _ _ Hins Hwf Hv) as Hwf'.
  destruct (ins_row _ _ _ _ _ _ _ Hins) as (fee & maxfee & _ & Hrow).
  eapply load_connection_find; [|by eapply inserted_loads].
  destruct (rw_connections d' Hwf') as [_ [Hnd _]].
  apply find_key_unique; [done|]. rewrite (ins_connections _ _ _ _ _ _ _ Hins). split.
  - apply elem_of_app; right. by apply list_elem_of_singleton.
  - by rewrite Hrow.
Qed.

(** An insertion leaves the connections that were stored as they were. *)
Lemma inserted_keeps n created used now c d d' id s :
  insert_connection_state n created used now d = Ok (c, d') ->
  load_connection id d = Ok (Some s) -> load_connection id d' = Ok (Some s).
Proof.
  intros H (r & Hf & Hs)%load_connection_inv. apply insert_connection_state_Ok in H as (_ & row & Hins).
  destruct (find_key_Some _ _ _ _ Hf) as [Hin Hid].
  apply (load_connection_find d' id r).
  - rewrite (ins_connections _ _ _ _ _ _ _ Hins), find_key_app. by rewrite Hf.
  - rewrite <- Hs. eapply hydrate_other; [exact Hins|]. by apply (ins_fresh _ _ _ _ _ _ _ Hins).
Qed.

Context `{LL : !UrlLaws L} `{PL : !UrlPartsLaws P}.

(** The connection is stored as [c], or has been revoked since. *)
Definition stored_or_revoked (c : ActiveConnection) (d : Database) : Prop :=
  load_connection (ac_id c) d = Ok (Some (Stored_Active c))
  \/ exists t, load_connection (ac_id c) d = Ok (Some (Stored_Tombstoned t)).

Lemma committed_stored n c d d' :
  library_wf d -> connection_valid n -> committed library_step n c d d' ->
  stored_or_revoked c d'
  /\ exists now, c = mkActiveConnection (nc_id n) 0 (nc_client_pubkey n) (nc_wallet_service_pubkey n)
        (nc_relays n) (nc_policy n) (nc_encryption n) now (nc_expires_at n) now.
Proof.
  intros Hwf Hv (now & d1 & d2 & H1 & H2 & H3).
  destruct (library_steps_library d d1 H1 Hwf) as [Hwf1 _].
  destruct (inserted_stored n now 0 now c d1 d2 (lw_registry d1 Hwf1) Hv H2) as [Hl Hc].
  assert (library_step d1 d2) as Hs by (apply by_registry; by eapply step_insert).
  destruct (library_step_library d1 d2 Hs Hwf1) as [Hwf2 _].
  destruct (library_steps_library d2 d' H3 Hwf2) as [_ Hp].
  split; [|eauto]. unfold stored_or_revoked. assert (ac_id c = nc_id n) as -> by (by rewrite Hc).
  destruct (ps_connections _ _ Hp _ _ Hl); eauto.
Qed.

(** What an execution of [approve_nwa] comes to. *)
Lemma approve_wp env guar request approval wake_policy d :
  (forall n a b now c, insert_connection n now a = Ok (c, b) -> guar a b) ->
  wp env guar any_call (approve_nwa request approval wake_policy)
    (fun r d' => match r with
     | Ok _ => na_request_id approval = nwr_id request /\ exists n,
         NewConnection_new (na_connection_id approval) (nwr_client_pubkey request)
           (na_wallet_service_pubkey approval) (na_relays approval) (na_policy approval)
           (na_encryption approval) wake_policy = Ok n
         /\ settled_approval env request (with_expiration (nwr_expires_at request) n) d r d'
     | Err e => rtc env d d' /\ e <> Approval_InvalidCallback
         /\ (e = AuthorityEscalation <-> na_request_id approval <> nwr_id request \/ exists n,
               NewConnection_new (na_connection_id approval) (nwr_client_pubkey request)
                 (na_wallet_service_pubkey approval) (na_relays approval) (na_policy approval)
                 (na_encryption approval) wake_policy = Ok n
               /\ ~ within_request request (with_expiration (nwr_expires_at request) n))
     end) d.
Proof.
  intros Hg. unfold approve_nwa. case_bool_decide as Hid; cbn [negb].
  2:{ intros d' Hd. split_and!; [done|done|]. split; [by left|done]. }
  destruct (NewConnection_new _ _ _ _ _ _ wake_policy) as [n|e] eqn:Hn.
  - eapply wp_mono; [apply approve_connection_wp; eauto|].
    intros [a|e] d' Hs; [by eauto|]. destruct Hs as (H1 & H2 & H3). split_and!; [done..|]. rewrite H3.
    split; [eauto|]. intros [|(n' & [= <-] & ?)]; done.
  - intros d' Hd. split_and!; [done|done|]. split; [done|]. intros [|(n' & ? & _)]; done.
Qed.

Lemma reviewed_client input now policy id request :
  reviewed input now policy id request -> length (nwr_client_pubkey request) = 32%nat.
Proof. intros H. destruct (rv_link _ _ _ _ _ H) as (u & hex & _ & _ & Hh & _). by apply Hex32_from_hex_hex32 in Hh as []. Qed.

(** C23: A parsed request that is approved, whatever the other processes do
    meanwhile, becomes a stored connection whose authority is within the
    reviewed request and so within the parse policy: same client, same
    expiration, relays and methods among those requested, a budget at most the
    requested one with its conservative fee reserve, at the same interval.  It
    stays stored until it is revoked. *)
Theorem approval_within_request input reviewed_at policy id request approval wake_policy d a d'
    (Hwf : library_wf d) (Hrev : reviewed input reviewed_at policy id request)
    (Ht : approval_typed approval)
    (Hrun : reaches library_step (approve_nwa request approval wake_policy, d) (Ret (Ok a), d')) :
  let c := an_connection a in
  na_request_id approval = id /\ stored_or_revoked c d'
  /\ ac_client_pubkey c = nwr_client_pubkey request
  /\ ac_expires_at c = nwr_expires_at request
  /\ (forall r, r ∈ ac_relays c -> r ∈ nwr_relays request /\ secure_relay r)
  /\ (forall m, allows (ac_policy c) m = true -> allows (nwr_requested_policy request) m = true)
  /\ limit_sat (cp_budget (ac_policy c)) <= limit_sat (cp_budget (nwr_requested_policy request))
       <= maximum_budget_sat policy
  /\ interval (cp_budget (ac_policy c)) = interval (cp_budget (nwr_requested_policy request))
  /\ fee_policy (cp_budget (ac_policy c))
     = CountTowardBudget (maximum_mobile_fee_sat (limit_sat (cp_budget (ac_policy c))))
  /\ (an_callback_url a = None <-> nwr_callback request = None).
Proof.
  cbv zeta. pose proof (approve_wp library_step (fun _ _ => True) request approval wake_policy d
    ltac:(done)) as Hwp.
  destruct (wp_adequate _ _ _ _ _ _ _ _ Hwp Hrun) as [Hq _].
  apply wp_Ret in Hq as (Hid & n & Hn & Hw & Hc & Hcb).
  pose proof (approved_valid approval _ wake_policy (nwr_expires_at request) n Ht
    (reviewed_client _ _ _ _ _ Hrev) Hn) as Hv.
  destruct (committed_stored _ _ d d' Hwf Hv Hc) as [Hst (now & E)].
  destruct Hw as [W1 W2 [_ W3] [_ W4] W5 W6 (fee & W7 & W8 & _) _].
  destruct (rv_budget _ _ _ _ _ Hrev) as [Hb _].
  destruct (rv_relays _ _ _ _ _ Hrev) as (_ & _ & Hsec). rewrite Forall_forall in Hsec.
  rewrite E in Hst |- *.
  cbn [ac_client_pubkey ac_expires_at ac_relays ac_policy ac_id] in *.
  split_and!; try done; [by rewrite <- (rv_id _ _ _ _ _ Hrev)|by auto|lia|congruence].
Qed.

(** A refused approval leaves the registry alone, whatever other processes do:
    it is refused for its authority exactly when it names another request or
    asks for more than was requested, and never because of the callback. *)
Theorem approval_refused env request approval wake_policy d e d'
    (Hrun : reaches env (approve_nwa request approval wake_policy, d) (Ret (Err e), d')) :
  rtc env d d' /\ e <> Approval_InvalidCallback
  /\ (e = AuthorityEscalation <-> na_request_id approval <> nwr_id request \/ exists n,
        NewConnection_new (na_connection_id approval) (nwr_client_pubkey request)
          (na_wallet_service_pubkey approval) (na_relays approval) (na_policy approval)
          (na_encryption approval) wake_policy = Ok n
        /\ ~ within_request request (with_expiration (nwr_expires_at request) n)).
Proof.
  pose proof (approve_wp env (fun _ _ => True) request approval wake_policy d ltac:(done)) as Hwp.
  destruct (wp_adequate _ _ _ _ _ _ _ _ Hwp Hrun) as [Hq _]. by apply wp_Ret in Hq.
Qed.

(** ** Migration *)

(** The application's record is in the registry: as the authorization it states,
    or as a tombstone. *)
Definition accounted_for (d : Database) (legacy : LegacyConnectionImport) : Prop :=
  exists s, load_connection (nc_id (li_connection legacy)) d = Ok (Some s)
    /\ match s with Stored_Active active => matches legacy active = true | Stored_Tombstoned _ => True end.

Definition revoked_in (d : Database) (legacy : LegacyConnectionImport) : bool :=
  match load_connection (nc_id (li_connection legacy)) d with
  | Ok (Some (Stored_Tombstoned _)) => true
  | _ => false
  end.

(** The report of the records whose connections are revoked in [d]. *)
Definition add_revoked (d : Database) (l : list LegacyConnectionImport) (result : LegacyMigrationResult)
  : LegacyMigrationResult :=
  let revoked := List.filter (revoked_in d) l in
  mkLegacyMigrationResult
    (revoked_connection_ids result ++ ((fun x => nc_id (li_connection x)) <$> revoked))
    (revoked_client_pubkeys result ++ ((fun x => nc_client_pubkey (li_connection x)) <$> revoked)).

Lemma add_revoked_nil d result : add_revoked d [] result = result.
Proof. unfold add_revoked. destruct result. simpl. by rewrite !app_nil_r. Qed.

Lemma add_revoked_cons d x l result :
  add_revoked d (x :: l) result = add_revoked d l
    (if revoked_in d x
     then mkLegacyMigrationResult (revoked_connection_ids result ++ [nc_id (li_connection x)])
            (revoked_client_pubkeys result ++ [nc_client_pubkey (li_connection x)])
     else result).
Proof.
  unfold add_revoked. cbn [List.filter]. destruct (revoked_in d x); [|done].
  cbn. by rewrite <- !app_assoc.
Qed.

Lemma revoked_in_loaded d x s : load_connection (nc_id (li_connection x)) d = Ok (Some s) ->
  revoked_in d x = match s with Stored_Active _ => false | Stored_Tombstoned _ => true end.
Proof. unfold revoked_in. intros ->. by destruct s. Qed.

Lemma imported_matches legacy now c d d' :
  registry_wf d -> connection_valid (li_connection legacy) ->
  import_connection (li_connection legacy) (li_created_at legacy) (li_budget_used_sat legacy) now d = Ok (c, d') ->
  registry_wf d' /\ load_connection (nc_id (li_connection legacy)) d' = Ok (Some (Stored_Active c))
  /\ matches legacy c = true
  /\ forall id s, load_connection id d = Ok (Some s) -> load_connection id d' = Ok (Some s).
Proof.
  intros Hwf Hv Himp. assert (registry_wf d') as Hwf' by (eapply registry_step_wf; [by eapply step_import|done]).
  apply import_connection_Ok in Himp as (Hins & _).
  destruct (inserted_stored _ _ _ _ _ _ _ Hwf Hv Hins) as [Hl Hc].
  split_and!; [done|done| |intros id s; by eapply inserted_keeps].
  rewrite Hc. unfold matches. cbn [ac_id ac_client_pubkey ac_wallet_service_pubkey ac_relays ac_policy
    ac_encryption ac_created_at ac_expires_at]. by rewrite !bool_decide_true by done.
Qed.

(** A registry that accounts for every record is left alone. *)
Lemma migrate_settled answers l : forall n result d,
  Forall (accounted_for d) l ->
  run_prog answers n (migrate_from l result) d = (Ok (add_revoked d l result), d).
Proof.
  induction l as [|x l IH]; intros n result d Hall; [by rewrite add_revoked_nil|].
  inversion Hall as [|? ? (s & Hl & Hm) Hall']; subst. cbn [migrate_from].
  rewrite add_revoked_cons. unfold connection, ledger, read. cbn [bind run_prog].
  rewrite Hl, (revoked_in_loaded _ _ _ Hl). destruct s as [active|t]; [rewrite Hm|]; by apply IH.
Qed.

Lemma migrate_accounts answers l : forall n result d res d',
  registry_wf d -> Forall (fun x => connection_valid (li_connection x)) l ->
  run_prog answers n (migrate_from l result) d = (Ok res, d') ->
  registry_wf d' /\ Forall (accounted_for d') l /\ res = add_revoked d' l result
  /\ forall id s, load_connection id d = Ok (Some s) -> load_connection id d' = Ok (Some s).
Proof.
  induction l as [|x l IH]; intros n result d res d' Hwf Hval Hrun.
  { injection Hrun as <- <-. by rewrite add_revoked_nil. }
  inversion Hval as [|? ? Hx Hval']; subst. cbn [migrate_from] in Hrun.
  unfold connection, ledger, read in Hrun. cbn [bind run_prog] in Hrun.
  destruct (load_connection (nc_id (li_connection x)) d) as [[[active|t]|]|e] eqn:Hl; cbn [bind run_prog] in Hrun.
  - destruct (matches x active) eqn:Hm; [|done].
    destruct (IH _ _ _ _ _ Hwf Hval' Hrun) as (A & B & C & D). apply D in Hl as Hl'.
    split_and!; [done| | |done].
    + constructor; [|done]. exists (Stored_Active active). by split.
    + by rewrite add_revoked_cons, (revoked_in_loaded _ _ _ Hl').
  - destruct (IH _ _ _ _ _ Hwf Hval' Hrun) as (A & B & C & D). apply D in Hl as Hl'.
    split_and!; [done| | |done].
    + constructor; [|done]. exists (Stored_Tombstoned t). by split.
    + by rewrite add_revoked_cons, (revoked_in_loaded _ _ _ Hl').
  - unfold import_legacy, call, ledger in Hrun. cbn [bind run_prog] in Hrun.
    destruct (import_connection _ _ _ _ d) as [[c d1]|e] eqn:Himp; [|done]. cbn [run_prog] in Hrun.
    destruct (imported_matches x _ c d d1 Hwf Hx Himp) as (Hwf1 & Hl1 & Hm & Hkeep).
    destruct (IH _ _ _ _ _ Hwf1 Hval' Hrun) as (A & B & C & D). apply D in Hl1 as Hl'.
    split_and!; [done| | |by auto].
    + constructor; [|done]. exists (Stored_Active c). by split.
    + by rewrite add_revoked_cons, (revoked_in_loaded _ _ _ Hl').
  - done.
Qed.

(** C24: A migration that succeeds leaves every record of the application accounted
    for, changes no connection that was stored, so resurrects none, and reports
    exactly the records whose connections are revoked; running it again on the
    result succeeds with the same report and changes nothing. *)
Theorem migration_is_idempotent answers n l d res d'
    (Hwf : registry_wf d) (Hval : Forall (fun x => connection_valid (li_connection x)) l)
    (Hrun : run_prog answers n (migrate_legacy_batch l) d = (Ok res, d')) :
  registry_wf d' /\ Forall (accounted_for d') l
  /\ (forall id s, load_connection id d = Ok (Some s) -> load_connection id d' = Ok (Some s))
  /\ (forall id, id ∈ revoked_connection_ids res <-> exists x t, x ∈ l /\ nc_id (li_connection x) = id
        /\ load_connection id d' = Ok (Some (Stored_Tombstoned t)))
  /\ forall answers' n', run_prog answers' n' (migrate_legacy_batch l) d' = (Ok res, d').
Proof.
  destruct (migrate_accounts answers l n _ d res d' Hwf Hval Hrun) as (A & B & -> & D).
  split_and!; [done..| |intros; by apply migrate_settled].
  intros id. simpl. rewrite list_elem_of_fmap. split.
  - intros (x & -> & Hin). apply list_elem_of_In, filter_In in Hin as [Hin Hr].
    unfold revoked_in in Hr. destruct (load_connection _ d') as [[[|t]|]|] eqn:Hl; try done.
    exists x, t. rewrite list_elem_of_In. by split_and!.
  - intros (x & t & Hin & <- & Hl). exists x. split; [done|].
    apply list_elem_of_In, filter_In. rewrite <- list_elem_of_In. split; [done|]. unfold revoked_in. by rewrite Hl.
Qed.

(** ** Revocation *)

Lemma tombstone_stored id revision now t d d' :
  registry_wf d -> tombstone_connection id revision now d = Ok (t, d') ->
  load_connection id d' = Ok (Some (Stored_Tombstoned t)).
Proof.
  intros Hwf H. apply tombstone_connection_Ok in H as (-> & r & Ht); [|by apply rw_connections].
  pose proof (ts_find _ _ _ _ _ _ Ht) as Hf.
  destruct (find_loads d id r Hwf Hf) as (s & Hs & _).
  eapply load_connection_find; [|by eapply tombstone_row_loads].
  by rewrite (ts_connections _ _ _ _ _ _ Ht), bool_decide_true.
Qed.

Definition is_revoked (id : string) (d : Database) : Prop :=
  exists t, load_connection id d = Ok (Some (Stored_Tombstoned t)).

Lemma revoked_persists id d d' : persists d d' -> is_revoked id d -> is_revoked id d'.
Proof. intros Hp [t Hl]. destruct (ps_connections _ _ Hp _ _ Hl) as [|[t' ?]]; by eexists. Qed.

Lemma stored_id_parses id d s : load_connection id d = Ok (Some s) -> ConnectionId_parse id = Ok id.
Proof.
  intros (r & Hf & Hs)%load_connection_inv. apply find_key_Some in Hf as [_ <-].
  unfold hydrate_stored_connection in Hs. destruct (ConnectionId_parse (cn_id r)) as [id|] eqn:E; [|done].
  by apply ConnectionId_parse_id in E as E'; rewrite E' in *.
Qed.

Lemma revoke_host_wp (safe : forall X, HostCall X -> Database -> Prop) host_id d :
  (forall d', safe _ clock_now d') -> library_wf d ->
  wp library_step (fun a b => a = b
      \/ exists revision now t, tombstone_connection host_id revision now a = Ok (t, b)) safe
    (revoke_host_connection host_id)
    (fun r d' => library_wf d' /\ persists d d'
       /\ (forall t, r = Ok t -> is_revoked host_id d') /\ (is_revoked host_id d -> r = Ok None)) d.
Proof.
  intros Hsafe Hwf. unfold revoke_host_connection.
  destruct (ConnectionId_parse host_id) as [id|e] eqn:Hid; cbn [map_err].
  2:{ intros d1 H1. destruct (library_steps_library d d1 H1 Hwf) as [? ?]. split_and!; [done..|].
      intros [t Hl%stored_id_parses]. congruence. }
  apply ConnectionId_parse_id in Hid as ->. unfold connection.
  apply wp_bind_read; [by left|]. intros d1 H1.
  destruct (library_steps_library d d1 H1 Hwf) as [Hwf1 Hp1].
  pose proof (revoked_persists host_id d d1 Hp1) as Hrev. unfold is_revoked at 1 in Hrev.
  assert (forall d2, rtc library_step d1 d2 -> library_wf d2 /\ persists d d2) as Hend.
  { intros d2 H2. destruct (library_steps_library d1 d2 H2 Hwf1). split; [done|by etrans]. }
  destruct (load_connection host_id d1) as [[[active|t]|]|e] eqn:Hl.
  - assert (~ is_revoked host_id d) as Hno by (intros [t Ht]%Hrev; congruence).
    unfold revoke. apply wp_bind, wp_bind_call. intros d2 H2. split; [done|]. intros now _.
    apply wp_ledger. intros d3 H3. destruct (Hend d3 ltac:(by etrans)) as [Hwf3 Hp3].
    destruct (tombstone_connection _ _ now d3) as [[t d4]|e] eqn:Ht.
    + split; [by eauto|]. intros d5 H5 d6 H6. simpl.
      assert (library_step d3 d4) as Hs by (apply by_registry; by eapply step_tombstone).
      destruct (library_step_library d3 d4 Hs Hwf3) as [Hwf4 Hp4].
      destruct (library_steps_library d4 d6 ltac:(by etrans) Hwf4) as [Hwf6 Hp6].
      split_and!; [done|by etrans; [exact Hp3|]; etrans; [exact Hp4|]| |done]. intros _ _.
      eapply (revoked_persists _ d4); [done|].
      exists t. eapply tombstone_stored; [apply lw_registry, Hwf3|exact Ht].
    + intros d4 H4 d5 H5. destruct (library_steps_library d3 d5 ltac:(by etrans) Hwf3).
      split_and!; [done|by etrans|done|done].
  - intros d2 H2. destruct (Hend d2 H2). split_and!; [done..| |done]. intros _ _.
    eapply (revoked_persists _ d1); [by apply (library_steps_library d1 d2)|by exists t].
  - intros d2 H2. destruct (Hend d2 H2). split_and!; [done..|]. intros [t Ht]%Hrev. congruence.
  - intros d2 H2. destruct (Hend d2 H2). split_and!; [done..|]. intros [t Ht]%Hrev. congruence.
Qed.

(** When a revocation by host id reports success, whatever the other processes
    do meanwhile, the connection is revoked; all it can have committed is the
    tombstone of that connection; and for a connection that was revoked
    before, it reports so. *)
Theorem host_revocation_revokes host_id d r d' (Hwf : library_wf d)
    (Hrun : reaches library_step (revoke_host_connection host_id, d) (Ret r, d')) :
  (forall t, r = Ok t -> is_revoked host_id d')
  /\ (is_revoked host_id d -> r = Ok None)
  /\ rtc (fun a b => library_step a b \/ a = b
         \/ exists revision now t, tombstone_connection host_id revision now a = Ok (t, b)) d d'.
Proof.
  assert (forall d', any_call _ clock_now d') as Hsafe by done.
  destruct (wp_adequate _ _ _ _ _ _ _ _
    (revoke_host_wp any_call host_id d Hsafe Hwf) Hrun) as [Hq Hr].
  apply wp_Ret in Hq as (_ & _ & H1 & H2). by split_and!.
Qed.

End ConnectionManager.

(** ** Concrete approvals *)

Definition sample_approval (relays : list string) (limit : Z) : NwaApproval :=
  mkNwaApproval (repeat 7 16) "app" (repeat 2 32) relays
    (ConnectionPolicy_new [PayInvoice] (mkBudgetPolicy limit Monthly (CountTowardBudget (maximum_mobile_fee_sat limit))))
    Nip44V2 None.
Definition approve_sample (relays : list string) (limit : Z) :=
  @approve_nwa link_urls link_parts sample_keys linked_request (sample_approval relays limit) sample_wake_policy.
Definition approved_sample : ApprovedNwaConnection :=
  mkApprovedNwaConnection
    (mkActiveConnection "app" 0 (repeat 1 32) (repeat 2 32) ["wss://b"]%string
       (na_policy (sample_approval [] 400)) Nip44V2 300 (Some 2000) 300)
    (Some "https://app.example/nwa"%string).
Definition approved_database : Database :=
  (run_prog sample_host 0 (approve_sample ["wss://b"]%string 400) empty_database).2.

Lemma approved_run env : reaches env (approve_sample ["wss://b"]%string 400, empty_database)
  (Ret (Ok approved_sample), approved_database).
Proof.
  pose proof (run_prog_reaches env sample_host sample_host_typed (approve_sample ["wss://b"]%string 400) 0
    empty_database) as H.
  assert ((run_prog sample_host 0 (approve_sample ["wss://b"]%string 400) empty_database).1
    = Ok approved_sample) as E by (clear; by vm_compute).
  rewrite E in H. exact H.
Qed.

Lemma sample_approval_typed : @approval_typed link_urls (sample_approval ["wss://b"]%string 400).
Proof.
  split; [by vm_compute|by vm_compute| |by vm_compute]. constructor; [by vm_compute|constructor].
Qed.

Lemma approval_within_request_witness :
  @stored_or_revoked link_urls sample_keys (an_connection approved_sample) approved_database.
Proof.
  refine (proj1 (proj2 (@approval_within_request link_urls link_parts sample_keys link_urls_laws link_parts_laws
    "nostr" 1000 link_policy (repeat 7 16) linked_request (sample_approval ["wss://b"]%string 400)
    sample_wake_policy empty_database approved_sample approved_database _ linked_request_reviewed _ (approved_run _)))).
  - apply empty_library_wf.
  - apply sample_approval_typed.
Defined.

Lemma approval_refused_witness :
  rtc (fun _ _ => False) empty_database empty_database.
Proof.
  refine (proj1 (@approval_refused link_urls link_parts sample_keys (fun _ _ => False) linked_request
    (sample_approval ["wss://c"]%string 400) sample_wake_policy empty_database AuthorityEscalation
    empty_database _)).
  exact (run_prog_reaches (fun _ _ => False) sample_host sample_host_typed (approve_sample ["wss://c"]%string 400) 0
    empty_database).
Defined.

(** ** A concrete migration

    The application still lists a connection that was revoked, and one the
    registry does not know. *)

Definition legacy_record (id : string) (client wallet : Z) : LegacyConnectionImport :=
  mkLegacyConnectionImport
    (mkNewConnection id (repeat client 32) (repeat wallet 32) ["wss://a"]%string
       (ConnectionPolicy_new [PayInvoice; GetInfo] sample_budget) Nip44V2 None) 100 0.
Definition legacy_records : list LegacyConnectionImport :=
  [legacy_record "c1" 1 2; legacy_record "c2" 3 4; legacy_record "c2" 3 4].
Definition migrate_sample := @migrate_legacy_batch sample_urls sample_keys legacy_records.
Definition migrated_database : Database := (run_prog sample_host 0 migrate_sample revoked_database).2.

Lemma legacy_valid id client wallet :
  ConnectionId_parse id = Ok id -> Hex32_from_hex (Hex32_to_hex (repeat client 32)) = Ok (repeat client 32) ->
  Hex32_from_hex (Hex32_to_hex (repeat wallet 32)) = Ok (repeat wallet 32) -> client <> wallet ->
  @connection_valid sample_urls sample_keys (li_connection (legacy_record id client wallet)).
Proof.
  intros Hid Hc Hw Hne.
  apply (@from_host_strings_valid sample_urls sample_url_laws sample_keys id
    (Hex32_to_hex (repeat client 32)) (Hex32_to_hex (repeat wallet 32)) ["wss://a"]%string
    [PayInvoice; GetInfo] sample_budget Nip44V2 sample_wake_policy).
  unfold NewConnection_from_host_strings. rewrite Hid, Hc, Hw. cbn [map_err].
  unfold NewConnection_new. rewrite bool_decide_false; [done|]. simpl. congruence.
Qed.

Lemma revoked_registry_wf : @registry_wf sample_urls sample_keys revoked_database.
Proof.
  eapply (@registry_step_wf sample_urls sample_keys imported_database); [|apply imported_registry_wf].
  eapply (@step_tombstone sample_urls sample_keys "c1" 0 300). by vm_compute.
Qed.

Lemma migration_is_idempotent_witness :
  @load_connection sample_urls sample_keys "c1" revoked_database
    = @load_connection sample_urls sample_keys "c1" migrated_database
  /\ run_prog sample_host 0 migrate_sample migrated_database
     = (Ok (mkLegacyMigrationResult ["c1"]%string [repeat 1 32]), migrated_database).
Proof.
  assert (run_prog sample_host 0 migrate_sample revoked_database
    = (Ok (mkLegacyMigrationResult ["c1"]%string [repeat 1 32]), migrated_database)) as Hrun.
  { clear. by vm_compute. }
  assert (Forall (fun x => @connection_valid sample_urls sample_keys (li_connection x)) legacy_records) as Hval.
  { clear. apply Forall_cons; split; [|apply Forall_cons; split; [|apply Forall_singleton]]; apply legacy_valid; first [done|by vm_compute]. }
  destruct (@migration_is_idempotent sample_urls sample_keys sample_host 0 legacy_records
    revoked_database _ migrated_database revoked_registry_wf Hval Hrun) as (_ & _ & Hkeep & _ & Hagain).
  split; [|apply Hagain].
  assert (@load_connection sample_urls sample_keys "c1" revoked_database
    = Ok (Some (Stored_Tombstoned (mkConnectionTombstone "c1" 1 300)))) as Hl by (clear; by vm_compute).
  pose proof (Hkeep "c1"%string _ Hl) as Hl'. congruence.
Defined.

Lemma approved_library_wf : @library_wf link_urls link_parts sample_keys approved_database.
Proof.
  apply (@library_step_library link_urls link_parts sample_keys link_urls_laws link_parts_laws empty_database approved_database); [|apply empty_library_wf].
  eapply by_registry, (step_insert (with_expiration (Some 2000) (mkNewConnection "app" (repeat 1 32)
    (repeat 2 32) ["wss://b"]%string (na_policy (sample_approval [] 400)) Nip44V2 None)) 300
    (an_connection approved_sample)); [|by vm_compute].
  apply (approved_valid (sample_approval ["wss://b"]%string 400) (repeat 1 32) sample_wake_policy);
    [apply sample_approval_typed|done|by vm_compute].
Qed.

Definition revoke_sample := @revoke_host_connection link_urls sample_keys "app".

Lemma host_revocation_revokes_witness :
  @is_revoked link_urls sample_keys "app"
    (run_prog sample_host 0 revoke_sample approved_database).2.
Proof.
  pose proof (run_prog_reaches (@library_step link_urls link_parts sample_keys) sample_host sample_host_typed
    revoke_sample 0 approved_database) as Hrun.
  refine (proj1 (@host_revocation_revokes link_urls link_parts sample_keys
    link_urls_laws link_parts_laws "app" approved_database _ _ _ Hrun)
    (Some (mkConnectionTombstone "app" 1 300)) _); [|by vm_compute].
  apply approved_library_wf.
Defined.
