(* ===== verification/MobileService.v ===== *)
(** * The mobile service

    Models [mobile_service.rs]: the facade an application calls.  It holds at
    most one Nostr Wallet Auth request for review, behind a mutex, and turns the
    host's plain values into validated operations of the connection manager and
    the ledger.  [ConnectionPresentation] and its construction are those of
    [application.rs]. *)
From stdpp Require Import strings.
From S2P Require Import Prelude Sqlite Types Text Policy Host Nwa Schema Ledger Registry Registration Accounting Outbox Metadata Program Reconciliation Library ConnectionService.
#[local] Open Scope Z_scope.

Inductive MobileServiceError : Type :=
| Service_Ledger (e : LedgerError)
| Service_Registry (e : RegistryError)
| Service_Nwa (e : NwaError)
| Service_NwaApproval (e : NwaApprovalError)
| Service_Registration (e : WakeRegistrationError)
| NwaAlreadyPending
| NoPendingNwa
| StateUnavailable.

Record HostConnectionAuthorization := mkHostConnectionAuthorization {
  ha_id : string;
  ha_client_pubkey_hex : string;
  ha_wallet_service_pubkey_hex : string;
  ha_relay_urls : list string;
  ha_methods : list NwcMethod;
  ha_budget_limit_sat : Z;
  ha_budget_interval : BudgetInterval;
  ha_fee_policy : FeePolicy;
  ha_encryption : NwcEncryption;
  ha_expires_at : option UnixTimestamp;
}.

Record LegacyHostConnection := mkLegacyHostConnection {
  lh_authorization : HostConnectionAuthorization;
  lh_created_at : UnixTimestamp;
  lh_budget_used_sat : Z;
}.

Record HostMigrationReport := mkHostMigrationReport {
  hm_revoked_connection_ids : list string;
  hm_revoked_client_pubkeys : list string;
}.

Record NwaRequestPresentation := mkNwaRequestPresentation {
  np_id_hex : string;
  np_client_pubkey_hex : string;
  np_display_name : string;
  np_icon_url : option string;
  np_requesting_app_description : option string;
  np_callback_target_description : string;
  np_relay_urls : list string;
  np_budget_limit_sat : Z;
  np_budget_interval : BudgetInterval;
  np_methods : list NwcMethod;
  np_expires_at : option UnixTimestamp;
}.

Record ConnectionPresentation := mkConnectionPresentation {
  cp_id : string;
  cp_client_pubkey_hex : string;
  cp_wallet_service_pubkey_hex : string;
  cp_relay_urls : list string;
  cp_authorized : list NwcMethod;
  cp_budget_limit_sat : Z;
  cp_budget_interval : BudgetInterval;
  cp_created_at : UnixTimestamp;
  cp_expires_at : option UnixTimestamp;
  cp_last_used_at : option UnixTimestamp;
  cp_display_name : option string;
  cp_icon_url : option string;
  cp_spent_sat : Z;
  cp_budget_period_started_at : UnixTimestamp;
  cp_pending_info_event_relays : list string;
}.

(** [ConnectionPresentation::from_active]. *)
Definition ConnectionPresentation_from_active (connection : ActiveConnection) (last_used_at : option UnixTimestamp)
    (metadata : option ApplicationConnectionMetadata) (usage : ConnectionBudgetUsage) : ConnectionPresentation :=
  let '(display_name, icon_url, pending_info_event_relays) := match metadata with
    | None => (None, None, [])
    | Some metadata => (Some (am_display_name metadata), am_icon_url metadata, am_pending_info_event_relays metadata)
    end in
  mkConnectionPresentation (ac_id connection) (Hex32_to_hex (ac_client_pubkey connection))
    (Hex32_to_hex (ac_wallet_service_pubkey connection)) (ac_relays connection)
    (cp_methods (ac_policy connection)) (limit_sat (cp_budget (ac_policy connection)))
    (interval (cp_budget (ac_policy connection))) (ac_created_at connection) (ac_expires_at connection)
    last_used_at display_name icon_url (us_spent_sat usage) (us_period_started_at usage)
    pending_info_event_relays.

(** [WakePolicy::default], which is consistent. *)
Definition default_wake_policy : WakePolicy :=
  match WakePolicy_default as r return match r with Ok _ => WakePolicy | Err _ => unit end with
  | Ok policy => policy
  | Err _ => tt
  end.

(** A [std::sync::Mutex]: a panic of its holder poisons it. *)
Inductive Mutex (A : Type) : Type :=
| Held (value : A)
| Poisoned.
Arguments Held {A} value.
Arguments Poisoned {A}.

Section MobileService.
Context `{L : UrlLib} `{P : !UrlParts L} `{NK : NostrKeys}.

Definition NwaRequestPresentation_from_request (request : NwaRequest) : NwaRequestPresentation :=
  let callback := nwr_callback request in
  let policy := nwr_requested_policy request in
  mkNwaRequestPresentation (Hex32_to_hex (nwr_id request)) (Hex32_to_hex (nwr_client_pubkey request))
    (of_chars (nwr_display_name request)) (url_to_string <$> nwr_icon_url request)
    (callback ≫= fun value => url_host_str (cb_url value))
    (default "none"%string (target_description <$> callback))
    (nwr_relays request) (limit_sat (cp_budget policy)) (interval (cp_budget policy))
    (cp_methods policy) (nwr_expires_at request).

Definition into_connection (a : HostConnectionAuthorization) (wake_policy : WakePolicy)
  : Result RegistryError NewConnection :=
  let policy := ConnectionPolicy_new (ha_methods a)
    (mkBudgetPolicy (ha_budget_limit_sat a) (ha_budget_interval a) (ha_fee_policy a)) in
  let? connection := NewConnection_from_host_strings (ha_id a) (ha_client_pubkey_hex a)
    (ha_wallet_service_pubkey_hex a) (ha_relay_urls a) policy (ha_encryption a) wake_policy in
  Ok (with_expiration (ha_expires_at a) connection).

(** [HostConnectionAuthorization::validate]. *)
Definition validate_authorization (a : HostConnectionAuthorization) : Result RegistryError unit :=
  let? _ := into_connection a default_wake_policy in Ok tt.

(** ** The service

    The ledger is the database of the program. *)

Record NwcMobileService := mkNwcMobileService {
  pending_nwa : Mutex (option NwaRequest);
  nwa_policy : NwaParsePolicy;
  wake_policy : WakePolicy;
}.

Definition from_ledger : NwcMobileService :=
  mkNwcMobileService (Held None) NwaParsePolicy_default default_wake_policy.
Definition with_pending (pending : option NwaRequest) (s : NwcMobileService) : NwcMobileService :=
  mkNwcMobileService (Held pending) (nwa_policy s) (wake_policy s).

Definition from_registry {A} (r : Result RegistryError A) : Result MobileServiceError A := map_err Service_Registry r.
Definition from_ledger_error {A} (r : Result LedgerError A) : Result MobileServiceError A := map_err Service_Ledger r.

Definition parse_id (id : string) : Result MobileServiceError ConnectionId :=
  map_err (fun _ => Service_Registry Reg_InvalidConnection) (ConnectionId_parse id).

Definition create_host_connection (s : NwcMobileService) (authorization : HostConnectionAuthorization)
  : Prog (Result MobileServiceError ActiveConnection) :=
  match from_registry (into_connection authorization (wake_policy s)) with
  | Err e => Ret (Err e)
  | Ok connection => let* created := create connection in Ret (from_registry created)
  end.

Definition service_connection (id : string) : Prog (Result MobileServiceError (option StoredConnection)) :=
  match parse_id id with
  | Err e => Ret (Err e)
  | Ok id => let* stored := connection id in Ret (from_registry stored)
  end.

Definition service_active_connections : Prog (Result MobileServiceError (list ActiveConnection)) :=
  let* active := active_connections in Ret (from_registry active).

(** What one connection shows: three ledger calls, and the clock for the usage. *)
Definition presentation_of (connection : ActiveConnection)
  : Prog (Result MobileServiceError ConnectionPresentation) :=
  let* last_used_at := ledger (read (last_completed_event_at (ac_id connection))) in
  match from_ledger_error last_used_at with
  | Err e => Ret (Err e)
  | Ok last_used_at =>
      let* metadata := ledger (read (application_metadata (ac_id connection))) in
      match from_ledger_error metadata with
      | Err e => Ret (Err e)
      | Ok metadata =>
          let* now := call clock_now in
          let* usage := ledger (read (current_budget_usage connection now)) in
          Ret (let? usage := from_ledger_error usage in
               Ok (ConnectionPresentation_from_active connection last_used_at metadata usage))
      end
  end.
Fixpoint presentations_of (connections : list ActiveConnection)
  : Prog (Result MobileServiceError (list ConnectionPresentation)) :=
  match connections with
  | [] => Ret (Ok [])
  | connection :: rest =>
      let* shown := presentation_of connection in
      match shown with
      | Err e => Ret (Err e)
      | Ok shown =>
          let* others := presentations_of rest in
          Ret (let? others := others in Ok (shown :: others))
      end
  end.
Definition connection_presentations : Prog (Result MobileServiceError (list ConnectionPresentation)) :=
  let* active := service_active_connections in
  match active with
  | Err e => Ret (Err e)
  | Ok active => presentations_of active
  end.

Definition service_set_connection_metadata (id : string) (metadata : ApplicationConnectionMetadata)
  : Prog (Result MobileServiceError unit) :=
  match parse_id id with
  | Err e => Ret (Err e)
  | Ok id => let* stored := ledger (upsert_application_metadata id metadata) in Ret (from_ledger_error stored)
  end.

Definition service_acknowledge_nwc_info_event (id relay_url : string) : Prog (Result MobileServiceError unit) :=
  match parse_id id with
  | Err e => Ret (Err e)
  | Ok id => let* done := ledger (acknowledge_nwc_info_event id relay_url) in Ret (from_ledger_error done)
  end.

Definition revoke_connection (id : string) (expected_revision : ConnectionRevision)
  : Prog (Result MobileServiceError ConnectionTombstone) :=
  match parse_id id with
  | Err e => Ret (Err e)
  | Ok id => let* revoked := revoke id expected_revision in Ret (from_registry revoked)
  end.

(** The mutex is held until the end. *)
Definition open_nwa_request_at (input : string) (now : UnixTimestamp) (s : NwcMobileService)
  : Prog (Result MobileServiceError NwaRequestPresentation * NwcMobileService) :=
  match pending_nwa s with
  | Poisoned => Ret (Err StateUnavailable, s)
  | Held (Some _) => Ret (Err NwaAlreadyPending, s)
  | Held None =>
      let* random := call (random_bytes 16) in
      Ret match map_err Service_Nwa (NwaRequest_parse random input now (nwa_policy s)) with
          | Err e => (Err e, s)
          | Ok request => (Ok (NwaRequestPresentation_from_request request), with_pending (Some request) s)
          end
  end.
Definition open_nwa_request (input : string) (s : NwcMobileService)
  : Prog (Result MobileServiceError NwaRequestPresentation * NwcMobileService) :=
  let* now := call clock_now in open_nwa_request_at input now s.

Definition pending_nwa_request (s : NwcMobileService)
  : Result MobileServiceError (option NwaRequestPresentation) :=
  match pending_nwa s with
  | Poisoned => Err StateUnavailable
  | Held pending => Ok (NwaRequestPresentation_from_request <$> pending)
  end.

Definition approve_pending_nwa (expected_request_id_hex : string) (authorization : HostConnectionAuthorization)
    (lud16 : option string) (s : NwcMobileService)
  : Prog (Result MobileServiceError ApprovedNwaConnection * NwcMobileService) :=
  match pending_nwa s with
  | Poisoned => Ret (Err StateUnavailable, s)
  | Held None => Ret (Err NoPendingNwa, s)
  | Held (Some request) =>
      if negb (bool_decide (Hex32_to_hex (nwr_id request) = expected_request_id_hex))
      then Ret (Err (Service_NwaApproval AuthorityEscalation), s)
      else
        match from_registry (into_connection authorization (wake_policy s)) with
        | Err e => Ret (Err e, s)
        | Ok connection =>
            let* approved := approve_nwa_connection request connection lud16 in
            Ret match map_err Service_NwaApproval approved with
                | Err e => (Err e, s)
                | Ok approved => (Ok approved, with_pending None s)
                end
        end
  end.

Definition clear_pending_nwa (s : NwcMobileService) : Result MobileServiceError unit * NwcMobileService :=
  match pending_nwa s with
  | Poisoned => (Err StateUnavailable, s)
  | Held _ => (Ok tt, with_pending None s)
  end.

Definition migrate_legacy_connections (s : NwcMobileService) (connections : list LegacyHostConnection)
  : Prog (Result MobileServiceError HostMigrationReport) :=
  match from_registry (collect_results (fun legacy =>
    let? connection := into_connection (lh_authorization legacy) (wake_policy s) in
    Ok (mkLegacyConnectionImport connection (lh_created_at legacy) (lh_budget_used_sat legacy))) connections) with
  | Err e => Ret (Err e)
  | Ok imports =>
      let* result := migrate_legacy_batch imports in
      Ret (let? result := from_registry result in
           Ok (mkHostMigrationReport (revoked_connection_ids result)
                 (Hex32_to_hex <$> revoked_client_pubkeys result)))
  end.

Definition import_host_connection (s : NwcMobileService) (authorization : HostConnectionAuthorization)
    (created_at : UnixTimestamp) : Prog (Result MobileServiceError ActiveConnection) :=
  match from_registry (into_connection authorization (wake_policy s)) with
  | Err e => Ret (Err e)
  | Ok connection => let* imported := import_legacy connection created_at 0 in Ret (from_registry imported)
  end.

Definition service_revoke_host_connection (id : string) : Prog (Result MobileServiceError unit) :=
  let* revoked := revoke_host_connection id in
  Ret (let? _ := from_registry revoked in Ok tt).

Definition service_last_completed_event_at (id : string)
  : Prog (Result MobileServiceError (option UnixTimestamp)) :=
  match parse_id id with
  | Err e => Ret (Err e)
  | Ok id => let* last := ledger (read (last_completed_event_at id)) in Ret (from_ledger_error last)
  end.

Definition refresh_wake_registrations (enabled : bool) : Prog (Result MobileServiceError nat) :=
  let* now := call clock_now in
  let* requeued := ledger (requeue_active_wake_registrations_with_state enabled now) in
  Ret (map_err Service_Registration requeued).

Definition refresh_nwc_info_events : Prog (Result MobileServiceError nat) :=
  let* requeued := ledger requeue_active_nwc_info_events in
  Ret (from_ledger_error requeued).

End MobileService.
