(* ===== verification/ServiceProofs.v ===== *)
(** * Properties of the mobile service

    The session for Nostr Wallet Auth refines an abstract automaton, and the
    presentations an application renders are complete. *)
From stdpp Require Import strings.
From S2P Require Import Prelude Sqlite Types Text Policy Host Nwa Schema Ledger Registry Registration Accounting Outbox Metadata AccountingProofs Program Reconciliation Library ConnectionService MobileService.
#[local] Open Scope Z_scope.

Section ServiceProofs.
Context `{L : UrlLib} `{P : !UrlParts L} `{NK : NostrKeys}.

(** ** The session for Nostr Wallet Auth *)

(** The operations an application can call on the session. *)
Inductive session_call : Type :=
| Open (input : string)
| Approve (expected_request_id_hex : string) (authorization : HostConnectionAuthorization) (lud16 : option string)
| Clear
| Review.

(** What an operation answers. *)
Inductive session_answer : Type :=
| Opened (r : Result MobileServiceError NwaRequestPresentation)
| Approved (r : Result MobileServiceError ApprovedNwaConnection)
| Cleared (r : Result MobileServiceError unit)
| Reviewed (r : Result MobileServiceError (option NwaRequestPresentation)).

Definition run_session (c : session_call) (s : NwcMobileService) : Prog (session_answer * NwcMobileService) :=
  match c with
  | Open input => let* (r, s) := open_nwa_request input s in Ret (Opened r, s)
  | Approve id authorization lud16 =>
      let* (r, s) := approve_pending_nwa id authorization lud16 s in Ret (Approved r, s)
  | Clear => let '(r, s) := clear_pending_nwa s in Ret (Cleared r, s)
  | Review => Ret (Reviewed (pending_nwa_request s), s)
  end.

(** The abstract session: it holds at most one request.  A request enters when
    there is none, after it was parsed; it leaves by an approval for exactly
    that request, within its authority, or by being cleared; an operation that
    fails changes nothing. *)
Inductive session_spec (env : Database -> Database -> Prop) (policy : NwaParsePolicy) (wake : WakePolicy)
  : option NwaRequest -> Database -> session_call -> session_answer -> option NwaRequest -> Database -> Prop :=
| spec_open input d d' now id request :
    rtc env d d' -> NwaRequest_parse (Some id) input now policy = Ok request ->
    session_spec env policy wake None d (Open input)
      (Opened (Ok (NwaRequestPresentation_from_request request))) (Some request) d'
| spec_open_refused input d d' pending e :
    rtc env d d' -> (pending <> None -> e = NwaAlreadyPending) ->
    session_spec env policy wake pending d (Open input) (Opened (Err e)) pending d'
| spec_approve authorization lud16 d d' request n a :
    into_connection authorization wake = Ok n -> within_request request n ->
    committed env n (an_connection a) d d' -> (an_callback_url a = None <-> nwr_callback request = None) ->
    session_spec env policy wake (Some request) d
      (Approve (Hex32_to_hex (nwr_id request)) authorization lud16) (Approved (Ok a)) None d'
| spec_approve_refused id authorization lud16 d d' pending e :
    rtc env d d' -> (pending = None -> e = NoPendingNwa) ->
    session_spec env policy wake pending d (Approve id authorization lud16) (Approved (Err e)) pending d'
| spec_clear d d' pending : rtc env d d' ->
    session_spec env policy wake pending d Clear (Cleared (Ok tt)) None d'
| spec_review d d' pending : rtc env d d' ->
    session_spec env policy wake pending d Review
      (Reviewed (Ok (NwaRequestPresentation_from_request <$> pending))) pending d'.

Lemma open_wp env guar input s pending d : pending_nwa s = Held pending ->
  wp env guar any_call (open_nwa_request input s) (fun '(r, s') d' => exists pending',
    s' = mkNwcMobileService (Held pending') (nwa_policy s) (MobileService.wake_policy s)
    /\ session_spec env (nwa_policy s) (MobileService.wake_policy s) pending d (Open input) (Opened r) pending' d') d.
Proof.
  intros Hp. unfold open_nwa_request, open_nwa_request_at. rewrite Hp.
  apply wp_bind_call. intros d1 H1. split; [done|]. intros now _. destruct pending as [request|].
  { intros d2 H2. exists (Some request). split; [by rewrite <- Hp; destruct s|].
    constructor; [by etrans|done]. }
  apply wp_bind_call. intros d2 H2. split; [done|]. intros random _ d3 H3.
  assert (rtc env d d3) as Hd by (etrans; [done|by etrans]).
  destruct (NwaRequest_parse random input now (nwa_policy s)) as [request|e] eqn:Hparse; cbn [map_err].
  - exists (Some request). split; [done|]. destruct random as [id|]; [|done]. by econstructor.
  - exists None. split; [by rewrite <- Hp; destruct s|]. by constructor.
Qed.

Lemma approve_pending_wp env guar id authorization lud16 s pending d : pending_nwa s = Held pending ->
  (forall n a b now c, insert_connection n now a = Ok (c, b) -> guar a b) ->
  wp env guar any_call (approve_pending_nwa id authorization lud16 s) (fun '(r, s') d' => exists pending',
    s' = mkNwcMobileService (Held pending') (nwa_policy s) (MobileService.wake_policy s)
    /\ session_spec env (nwa_policy s) (MobileService.wake_policy s) pending d (Approve id authorization lud16)
         (Approved r) pending' d') d.
Proof.
  intros Hp Hg. unfold approve_pending_nwa. rewrite Hp.
  assert (s = mkNwcMobileService (Held pending) (nwa_policy s) (MobileService.wake_policy s)) as Hs
    by (rewrite <- Hp; by destruct s).
  destruct pending as [request|].
  2:{ intros d1 H1. exists None. split; [done|]. by constructor. }
  case_bool_decide as Hid; cbn [negb].
  2:{ intros d1 H1. exists (Some request). split; [done|]. by constructor. }
  destruct (into_connection authorization (MobileService.wake_policy s)) as [n|e] eqn:Hn; cbn [from_registry map_err].
  2:{ intros d1 H1. exists (Some request). split; [done|]. by constructor. }
  apply wp_bind. eapply wp_mono; [apply approve_connection_wp; intros; by eapply Hg|].
  intros [a|e] d1 H1 d2 H2; cbn [map_err].
  - destruct H1 as (Hw & (now & d3 & d4 & A1 & A2 & A3) & Hc). exists None. split; [done|]. subst id.
    econstructor; [done..| |done]. exists now, d3, d4. split_and!; [done..|by etrans].
  - exists (Some request). split; [done|]. constructor; [by destruct H1; etrans|done].
Qed.

(** C29: The session refines its abstract automaton, whatever the other processes do
    while an operation runs: at most one request is held, the one approved is the
    one that was presented, the approval grants at most its authority and
    consumes it, and a refused operation leaves it for another try. *)
Theorem session_refines env c s pending d answer s' d' (Hp : pending_nwa s = Held pending)
    (Hrun : reaches env (run_session c s, d) (Ret (answer, s'), d')) :
  exists pending', pending_nwa s' = Held pending'
  /\ nwa_policy s' = nwa_policy s /\ MobileService.wake_policy s' = MobileService.wake_policy s
  /\ session_spec env (nwa_policy s) (MobileService.wake_policy s) pending d c answer pending' d'.
Proof.
  assert (wp env (fun _ _ => True) any_call (run_session c s) (fun '(answer, s') d' => exists pending',
    s' = mkNwcMobileService (Held pending') (nwa_policy s) (MobileService.wake_policy s)
    /\ session_spec env (nwa_policy s) (MobileService.wake_policy s) pending d c answer pending' d') d) as Hwp.
  { destruct c as [input|id authorization lud16| |]; cbn [run_session].
    - apply wp_bind. eapply wp_mono; [by apply (open_wp _ _ _ _ pending)|].
      intros [r s1] d1 (p & -> & Hs). intros d2 H2. exists p. split; [done|].
      inversion Hs; subst; econstructor; try done; by etrans.
    - apply wp_bind. eapply wp_mono; [by apply (approve_pending_wp _ _ _ _ _ _ pending)|].
      intros [r s1] d1 (p & -> & Hs). intros d2 H2. exists p. split; [done|].
      inversion Hs as [| |? ? ? ? ? ? ? ? ? (now & d3 & d4 & A1 & A2 & A3)| | |]; subst; econstructor; try done; try by etrans.
      exists now, d3, d4. split_and!; [done..|by etrans].
    - unfold clear_pending_nwa. rewrite Hp. intros d1 H1. exists None. split; [done|]. by constructor.
    - unfold pending_nwa_request. rewrite Hp. intros d1 H1. exists pending. split; [by rewrite <- Hp; destruct s|].
      by constructor. }
  destruct (wp_adequate _ _ _ _ _ _ _ _ Hwp Hrun) as [(p & -> & Hs)%wp_Ret _]. by exists p.
Qed.

(** ** What an application renders *)

Lemma usage_total base c now d : accounting_wf base d -> 0 <= ac_created_at c ->
  ac_created_at c <= now <= i64_max -> exists usage, current_budget_usage c now d = Ok usage.
Proof.
  intros Hwf H0 [Hlo Hhi]. unfold current_budget_usage. rewrite (proj2 (Z.ltb_ge now _) Hlo).
  assert (exists start, match interval_duration (interval (cp_budget (ac_policy c))) with
    | Some duration => ok_or ValueOutOfRange (checked_add_u64 (ac_created_at c)
        ((now - ac_created_at c) / duration_as_secs duration * duration_as_secs duration))
    | None => Ok (ac_created_at c) end = Ok start /\ start <= i64_max) as (start & -> & Hs).
  { destruct (interval_duration _) as [dur|] eqn:Hi; [|exists (ac_created_at c); split; [done|lia]].
    assert (0 < duration_as_secs dur) as Hdur.
    { by destruct (interval (cp_budget (ac_policy c))); simpl in Hi; simplify_eq. }
    pose proof (Z.mul_div_le (now - ac_created_at c) _ Hdur).
    eexists. split; [apply ok_or_Ok, checked_add_u64_Some; split; [done|]|]; unfold u64_max, i64_max in *; lia. }
  cbn [ok_or]. assert (i64_try_from start = Some start) as -> by (by apply i64_try_from_Some). cbn.
  destruct (query_row _ _) as [p|] eqn:Hq; [|by eexists]. apply query_row_Some in Hq as [Hin _].
  destruct (aw_periods base d Hwf) as [Hck _]. rewrite Forall_forall in Hck. specialize (Hck p Hin).
  assert (u64_try_from (bp_used_sat p) = Some (bp_used_sat p)) as Hu.
  { apply u64_try_from_Some. split; [done|]. unfold budget_period_check in Hck. lia. }
  cbn. rewrite Hu. by eexists.
Qed.

(** What the presentation [p] of the connection [c] says of the database. *)
Record presents (d : Database) (c : ActiveConnection) (p : ConnectionPresentation) : Prop := {
  pr_id : cp_id p = ac_id c;
  pr_keys : cp_client_pubkey_hex p = Hex32_to_hex (ac_client_pubkey c)
    /\ cp_wallet_service_pubkey_hex p = Hex32_to_hex (ac_wallet_service_pubkey c);
  pr_authority : cp_relay_urls p = ac_relays c /\ cp_authorized p = cp_methods (ac_policy c)
    /\ cp_budget_limit_sat p = limit_sat (cp_budget (ac_policy c))
    /\ cp_budget_interval p = interval (cp_budget (ac_policy c));
  pr_times : cp_created_at p = ac_created_at c /\ cp_expires_at p = ac_expires_at c
    /\ last_completed_event_at (ac_id c) d = Ok (cp_last_used_at p);
  pr_display : cp_display_name p = md_display_name <$> metadata_of (ac_id c) d
    /\ cp_icon_url p = metadata_of (ac_id c) d ≫= md_icon_url;
  pr_spent : exists now, current_budget_usage c now d
    = Ok (mkUsage (cp_spent_sat p) (cp_budget_period_started_at p));
  pr_pending : metadata_of (ac_id c) d <> None -> cp_pending_info_event_relays p = info_relays (ac_id c) d;
}.

(** Running [p] from [d] after [n] calls answers [r] after [m] and leaves [d] alone. *)
Definition yields (answers : nat -> forall X, HostCall X -> X) {R} (n : nat) (p : Prog R) (d : Database)
    (m : nat) (r : R) : Prop :=
  forall S (k : R -> Prog S), run_prog answers n (bind p k) d = run_prog answers m (k r) d.

Lemma bind_assoc {R S T} (p : Prog R) (f : R -> Prog S) (k : S -> Prog T) answers n d :
  run_prog answers n (bind (bind p f) k) d = run_prog answers n (bind p (fun x => bind (f x) k)) d.
Proof.
  revert n d. induction p as [r|X c g IH|E A t g IH]; intros n d; [done|apply IH|].
  cbn [bind run_prog]. destruct (t d) as [[a d']|e]; apply IH.
Qed.

Lemma run_prog_Ret {R} (p : Prog R) answers n d : run_prog answers n p d = run_prog answers n (bind p Ret) d.
Proof.
  revert n d. induction p as [r|X c g IH|E A t g IH]; intros n d; [done|apply IH|].
  cbn [bind run_prog]. destruct (t d) as [[a d']|e]; apply IH.
Qed.

Lemma presentation_run (answers : nat -> forall X, HostCall X -> X) n c d : library_wf d -> 0 <= ac_created_at c ->
  (forall m, ac_created_at c <= answers m _ clock_now <= i64_max) ->
  exists p m, presents d c p /\ yields answers n (presentation_of c) d m (Ok p).
Proof.
  intros Hl H0 Hclock. pose proof (lw_metadata d Hl) as Hm.
  pose proof (last_completed_event_at_spec d (ac_id c) (lw_events d Hl)) as Hlast. cbv zeta in Hlast.
  destruct (last_completed_event_at (ac_id c) d) as [last|] eqn:El; [clear Hlast|done].
  pose proof (application_metadata_loads (ac_id c) d Hm) as Em.
  destruct (lw_books d Hl) as [base Hb].
  destruct (usage_total base c (answers n _ clock_now) d Hb H0 (Hclock n)) as [usage Eu].
  exists (ConnectionPresentation_from_active c last ((fun r => mkMetadata (md_display_name r) (md_icon_url r)
    (info_relays (ac_id c) d)) <$> metadata_of (ac_id c) d) usage), (Datatypes.S n). split.
  - destruct (metadata_of (ac_id c) d) as [r|] eqn:Hr; split; simpl; rewrite ?Hr; try done;
      exists (answers n _ clock_now); rewrite Eu; by destruct usage.
  - intros S k. unfold presentation_of, ledger, read, call. cbn [bind run_prog].
    rewrite El. cbn [bind run_prog from_ledger_error map_err]. rewrite Em. cbn [bind run_prog from_ledger_error map_err].
    by rewrite Eu.
Qed.

Lemma presentations_run (answers : nat -> forall X, HostCall X -> X) l : forall n d, library_wf d ->
  (forall c, c ∈ l -> 0 <= ac_created_at c) ->
  (forall m c, c ∈ l -> ac_created_at c <= answers m _ clock_now <= i64_max) ->
  exists shown m, Forall2 (presents d) l shown /\ yields answers n (presentations_of l) d m (Ok shown).
Proof.
  induction l as [|c l IH]; intros n d Hwf H0 Hclock.
  { exists [], n. split; [constructor|]. by intros S k. }
  destruct (presentation_run answers n c d Hwf (H0 c (list_elem_of_here _ _))
    (fun m => Hclock m c (list_elem_of_here _ _))) as (p & m & Hp & Hrun).
  destruct (IH m d Hwf) as (shown & m' & Hall & Hrest); [intros; by apply H0, list_elem_of_further
    |intros; by apply Hclock, list_elem_of_further|].
  exists (p :: shown), m'. split; [by constructor|]. intros S k. cbn [presentations_of].
  rewrite bind_assoc, Hrun, bind_assoc, Hrest. done.
Qed.

(** With a clock that has not fallen behind the creations, listing the connections
    of a well-formed ledger never fails: every active connection is shown, in
    the order of the registry, with its stored authority, its metadata, its
    relays that wait for a capability event, its last use and the spending of
    its current period; and nothing changes. *)
Theorem presentations_complete (answers : nat -> forall X, HostCall X -> X) n d (Hwf : library_wf d)
    (Hclock : forall m id c, load_active_connection id d = Ok (Some c) ->
       ac_created_at c <= answers m _ clock_now <= i64_max) :
  exists active shown, list_active_connections d = Ok active
  /\ run_prog answers n connection_presentations d = (Ok shown, d)
  /\ Forall2 (presents d) active shown
  /\ (forall c, c ∈ active <-> load_active_connection (ac_id c) d = Ok (Some c)).
Proof.
  destruct (list_active_connections_spec d (lw_registry d Hwf)) as (l & Hl & Hin & _).
  destruct (presentations_run answers l n d Hwf) as (shown & m & Hall & Hrun).
  - intros c Hc%Hin. unfold load_active_connection in Hc.
    destruct (load_connection (ac_id c) d) as [[s|]|] eqn:Hs; [|done..].
    destruct s as [c'|]; [|done]. injection Hc as ->. apply load_connection_inv in Hs as (r & Hf & Hr).
    destruct (find_loads d _ r (lw_registry d Hwf) Hf) as (_ & _ & _ & _ & Hck).
    destruct (hydrate_fields d r _ Hr) as (_ & _ & _ & -> & _). unfold connection_check in Hck. lia.
  - intros m c Hc%Hin. by eapply Hclock.
  - exists l, shown. split_and!; [done| |done|done].
    unfold connection_presentations, service_active_connections, active_connections, ledger, read.
    cbn [bind run_prog]. rewrite Hl. cbn [from_registry map_err].
    rewrite run_prog_Ret. apply Hrun.
Qed.
End ServiceProofs.

(** ** A concrete session

    The request of the sample link is approved, the connection gets its
    metadata, and the application lists it. *)

Definition sample_authorization : HostConnectionAuthorization :=
  mkHostConnectionAuthorization "app" (Hex32_to_hex (repeat 1 32)) (Hex32_to_hex (repeat 2 32))
    ["wss://b"]%string [PayInvoice] 400 Monthly (CountTowardBudget (maximum_mobile_fee_sat 400)) Nip44V2 (Some 2000).
Definition sample_service : @NwcMobileService link_urls :=
  @mkNwcMobileService link_urls (Held (Some linked_request)) link_policy default_wake_policy.
Definition sample_session :=
  @run_session link_urls link_parts sample_keys
    (Approve (Hex32_to_hex (repeat 7 16)) sample_authorization None) sample_service.

Lemma sample_session_runs : reaches (fun _ _ => False) (sample_session, empty_database)
  (Ret (@Approved (Ok approved_sample), with_pending None sample_service), approved_database).
Proof.
  pose proof (run_prog_reaches (fun _ _ => False) sample_host sample_host_typed sample_session 0 empty_database) as Hrun.
  assert (run_prog sample_host 0 sample_session empty_database
    = ((@Approved (Ok approved_sample), with_pending None sample_service), approved_database)) as E by (clear; by vm_compute).
  rewrite E in Hrun. exact Hrun.
Qed.

Lemma session_refines_witness :
  exists pending', pending_nwa (with_pending None sample_service) = Held pending'
  /\ @session_spec link_urls link_parts sample_keys (fun _ _ => False) link_policy default_wake_policy
       (Some linked_request) empty_database (Approve (Hex32_to_hex (repeat 7 16)) sample_authorization None)
       (@Approved (Ok approved_sample)) pending' approved_database.
Proof.
  destruct (@session_refines link_urls link_parts sample_keys (fun _ _ => False)
    (Approve (Hex32_to_hex (repeat 7 16)) sample_authorization None) sample_service (Some linked_request)
    empty_database _ _ _ eq_refl sample_session_runs) as (p & H1 & _ & _ & H2).
  exists p. split; [exact H1|exact H2].
Defined.

Lemma approved_metadata_wf : @metadata_wf link_urls link_parts approved_database.
Proof. split; [constructor|by intros r ?%elem_of_nil|by intros r ?%elem_of_nil|constructor|by intros r ?%elem_of_nil..]. Qed.

Definition sample_metadata : ApplicationConnectionMetadata := mkMetadata "A Shop" None ["wss://b"]%string.
Definition shop_database : Database :=
  match upsert_application_metadata "app" sample_metadata approved_database with
  | Ok (_, d) => d
  | Err _ => approved_database
  end.

Lemma sample_metadata_new :
  @ApplicationConnectionMetadata_new link_urls link_parts " A Shop" None ["wss://b"]%string = Ok sample_metadata.
Proof. by vm_compute. Qed.
Lemma sample_name_scalar : Forall scalar (chars " A Shop").
Proof.
  assert (chars " A Shop" = [32; 65; 32; 83; 104; 111; 112]) as -> by (clear; by vm_compute).
  repeat constructor; unfold scalar; lia.
Qed.
Lemma sample_metadata_stored :
  upsert_application_metadata "app" sample_metadata approved_database = Ok (tt, shop_database).
Proof. clear. by vm_compute. Qed.

Lemma metadata_roundtrip_witness :
  exists pending, @application_metadata link_urls link_parts "app" shop_database
    = Ok (Some (mkMetadata "A Shop" None pending)) /\ NoDup pending.
Proof.
  destruct (@metadata_roundtrip link_urls link_parts link_urls_laws link_parts_laws "app" " A Shop" None
    ["wss://b"]%string sample_metadata approved_database shop_database approved_metadata_wf
    sample_name_scalar sample_metadata_new sample_metadata_stored) as (_ & (pending & H1 & H2 & _) & _).
  exists pending. split; [exact H1|exact H2].
Defined.

Lemma sample_metadata_step : @metadata_step link_urls link_parts approved_database shop_database.
Proof. eapply step_metadata; [apply sample_name_scalar|apply sample_metadata_new|apply sample_metadata_stored]. Qed.

Lemma pending_until_acknowledged_witness :
  info_pending shop_database "app" "wss://b".
Proof.
  destruct (@pending_until_acknowledged link_urls link_parts "app" "wss://b" shop_database shop_database) as [H|H].
  - eapply (@metadata_step_wf link_urls link_parts); [apply link_urls_laws|apply link_parts_laws
      |apply sample_metadata_step| |apply approved_metadata_wf].
    apply (lw_registry _ approved_library_wf).
  - eapply (@step_requeue_info link_urls link_parts 0). clear. by vm_compute.
  - clear. vm_compute. apply list_elem_of_here.
  - exact H.
  - clear. vm_compute. apply list_elem_of_here.
Defined.

Lemma shop_library_wf : @library_wf link_urls link_parts sample_keys shop_database.
Proof.
  apply (@library_step_library link_urls link_parts sample_keys link_urls_laws link_parts_laws approved_database).
  - apply by_metadata, sample_metadata_step.
  - apply approved_library_wf.
Qed.

Lemma presentations_complete_witness :
  exists shown, run_prog sample_host 0 (@connection_presentations link_urls link_parts sample_keys) shop_database
    = (Ok shown, shop_database).
Proof.
  destruct (@presentations_complete link_urls link_parts sample_keys
    sample_host 0 shop_database shop_library_wf) as (active & shown & _ & H & _).
  - intros m id c Hc. assert (Forall (fun r => cn_created_at r = 300) (connections shop_database)) as Hall.
    { clear. vm_compute. by repeat constructor. }
    rewrite Forall_forall in Hall. unfold load_active_connection in Hc.
    destruct (load_connection id shop_database) as [[[a|]|]|] eqn:Hl; [|done..]. injection Hc as ->.
    apply load_connection_inv in Hl as (r & [Hin _]%find_key_Some & Hr).
    destruct (hydrate_fields _ r _ Hr) as (_ & _ & _ & -> & _). rewrite (Hall r Hin).
    split; clear; by vm_compute.
  - by exists shown.
Defined.

(** What was imported for the period and the payment that is reserved in it. *)
Lemma sample_usage : current_budget_usage sample_active 250 reserved_database = Ok (mkUsage 550 100).
Proof. clear. by vm_compute. Qed.

Lemma usage_is_spend_witness :
  550 = sample_base ("c1"%string, 100) + period_spend ("c1"%string, 100) reserved_database.
Proof.
  refine (proj2 (usage_is_spend sample_base sample_active 250 reserved_database (mkUsage 550 100)
    reserved_accounting_wf _ _ sample_usage)); split; by vm_compute.
Defined.
