(* ===== verification/NwcInfo.v ===== *)
(** * Signed capability and authorization events

    Models [nwc_info.rs], the NIP-47 event that tells clients what the wallet
    supports, and [nip98.rs], the short-lived authorization of one HTTP request.
    Event signing is [NostrLib]; the HTTP-auth event, SHA-256 and base64 are the
    interface [HttpAuth]. *)
From Stdlib Require Import String.
From stdpp Require Import strings.
From S2P Require Import Prelude Types Policy Host Registry NostrValidation.
#[local] Open Scope Z_scope.

(** ** The info event *)

Inductive NwcInfoEventError : Type :=
| NoMethods | Info_InvalidSecretKey | BuildFailed.

(** [Kind::WalletConnectInfo]. *)
Definition KIND_INFO : Z := 13194.

Definition encryption_as_str (e : NwcEncryption) : string :=
  match e with Nip44V2 => "nip44_v2" | LegacyNip04 => "nip04" end.

(** A [BTreeSet] of notification types: its elements in order. *)
Definition btree_notifications (notifications : list NwcNotificationType) : list NwcNotificationType :=
  List.filter (fun n => bool_decide (n ∈ notifications)) [PaymentReceived; PaymentSent].

Section Events.
Context `{N : NostrLib}.

Definition build_nwc_info_event_with_notifications (wallet_secret : NwcSecretKey)
    (client_pubkey : option PublicKey) (methods : list NwcMethod) (notifications : list NwcNotificationType)
    (encryption : NwcEncryption) (created_at : UnixTimestamp) (entropy : list Z)
  : Result NwcInfoEventError string :=
  let methods := btree_methods methods in
  if Nat.eqb (length methods) 0 then Err NoMethods
  else
  let notifications := btree_notifications notifications in
  let announces := negb (Nat.eqb (length notifications) 0) in
  let content := (String.concat " " (method_as_str <$> methods)
                  ++ if announces then " notifications" else "")%string in
  let tags :=
    (if announces then [tag_custom "notifications" [String.concat " " (notification_as_str <$> notifications)]]
     else [])
    ++ (if bool_decide (encryption = Nip44V2) then [tag_custom "encryption" [encryption_as_str encryption]] else [])
    ++ match client_pubkey with Some key => [tag_public_key key] | None => [] end in
  if negb (secret_key_ok wallet_secret) then Err Info_InvalidSecretKey
  else ok_or BuildFailed (sign_event KIND_INFO content tags created_at wallet_secret entropy).

Definition build_nwc_info_event (wallet_secret : NwcSecretKey) (client_pubkey : option PublicKey)
    (methods : list NwcMethod) (encryption : NwcEncryption) (created_at : UnixTimestamp) (entropy : list Z)
  : Result NwcInfoEventError string :=
  build_nwc_info_event_with_notifications wallet_secret client_pubkey methods [] encryption created_at entropy.

End Events.

(** ** Authorizations of HTTP requests *)

(** [EventBuilder::http_auth] for a POST, with an expiration tag, signed and as
    JSON; [sha256::Hash::hash]; the standard base64 encoding. *)
Class HttpAuth := {
  http_auth_event : string -> list Z -> Z -> Z -> NwcSecretKey -> list Z -> option string;
  sha256_hash : list Z -> list Z;
  base64_standard : list Z -> string;
}.

Definition AUTHORIZATION_LIFETIME_SECONDS : Z := 60.
Definition MAX_AUTHORIZED_PAYLOAD_BYTES : Z := 64 * 1024.

Inductive Nip98AuthorizationError : Type :=
| InvalidSigningKey | Auth_PayloadTooLarge | TimestampOverflow | InvalidEndpoint | SigningFailed.

(** A [Nip98SigningKey] is its 32 bytes. *)
Abbreviation Nip98SigningKey := (list Z) (only parsing).

Section Nip98.
Context `{L : UrlLib} `{N : NostrLib} `{A : HttpAuth}.

(** [Nip98SigningKey::from_bytes] and [public_key]. *)
Definition signing_key_from_bytes (bytes : list Z) : Result Nip98AuthorizationError Nip98SigningKey :=
  if negb (secret_key_ok bytes) then Err InvalidSigningKey else Ok bytes.
Definition signing_public_key (key : Nip98SigningKey) : Result Nip98AuthorizationError PublicKey :=
  if negb (secret_key_ok key) then Err InvalidSigningKey else Ok (secret_public_key key).

(** [Nip98Authorization::for_registration_post]: the header's value. *)
Definition for_registration_post (endpoint : string) (body : list Z) (signing_key : Nip98SigningKey)
    (now : UnixTimestamp) (entropy : list Z) : Result Nip98AuthorizationError string :=
  if MAX_AUTHORIZED_PAYLOAD_BYTES <? Z.of_nat (length body) then Err Auth_PayloadTooLarge
  else
  let? expires_at := ok_or TimestampOverflow (checked_add_u64 now AUTHORIZATION_LIFETIME_SECONDS) in
  let? url := ok_or InvalidEndpoint (url_parse endpoint) in
  let payload_hash := sha256_hash body in
  if negb (secret_key_ok signing_key) then Err InvalidSigningKey
  else
  let? event := ok_or SigningFailed
    (http_auth_event (url_to_string url) payload_hash expires_at now signing_key entropy) in
  Ok ("Nostr " ++ base64_standard (as_bytes event))%string.

End Nip98.

(** ** Properties *)

Lemma btree_notifications_ext ns ns' : (forall n, n ∈ ns <-> n ∈ ns') ->
  btree_notifications ns = btree_notifications ns'.
Proof. intros H. apply List.filter_ext. intros n. apply bool_decide_ext, H. Qed.

Section EventProofs.
Context `{N : NostrLib}.

(** An info event depends only on the sets of methods and notifications it
    announces, it is built exactly when there is a method, the key is valid and
    the signature succeeds, and a targeted event names exactly its client. *)
Theorem info_event_canonical secret client methods methods' notifications notifications' e now r
    (Hm : forall m, m ∈ methods <-> m ∈ methods') (Hn : forall n, n ∈ notifications <-> n ∈ notifications') :
  let built := build_nwc_info_event_with_notifications secret client methods notifications e now r in
  built = build_nwc_info_event_with_notifications secret client methods' notifications' e now r
  /\ (built = Err NoMethods <-> methods = [])
  /\ (built = Err Info_InvalidSecretKey <-> methods <> [] /\ secret_key_ok secret = false)
  /\ (forall json, built = Ok json -> exists content tags,
        sign_event KIND_INFO content tags now secret r = Some json
        /\ content = (String.concat " " (method_as_str <$> btree_methods methods)
             ++ if bool_decide (notifications = []) then "" else " notifications")%string
        /\ (forall key, client = Some key -> last tags = Some (tag_public_key key))).
Proof.
  cbv zeta. unfold build_nwc_info_event_with_notifications.
  rewrite <- (btree_methods_ext methods methods' Hm), <- (btree_notifications_ext _ _ Hn).
  assert (Nat.eqb (length (btree_methods methods)) 0 = bool_decide (methods = [])) as ->.
  { case_bool_decide as E; [by rewrite E|]. destruct methods as [|m ms]; [done|].
    destruct (btree_methods (m :: ms)) eqn:Hb; [|done]. exfalso.
    assert (m ∈ btree_methods (m :: ms)) as H by (apply elem_of_btree_methods, list_elem_of_here).
    rewrite Hb in H. by apply elem_of_nil in H. }
  assert (Nat.eqb (length (btree_notifications notifications)) 0 = bool_decide (notifications = [])) as ->.
  { case_bool_decide as E; [by rewrite E|]. destruct notifications as [|n ns]; [done|].
    destruct (btree_notifications (n :: ns)) eqn:Hb; [|done]. exfalso.
    assert (n ∈ btree_notifications (n :: ns)) as H.
    { unfold btree_notifications. apply list_elem_of_In, filter_In. split; [destruct n; simpl; tauto|].
      apply bool_decide_eq_true, list_elem_of_here. }
    rewrite Hb in H. by apply elem_of_nil in H. }
  split; [done|]. destruct (bool_decide (methods = [])) eqn:E1.
  { apply bool_decide_eq_true_1 in E1. split_and!; [done|split; [done|by intros []]|done]. }
  apply bool_decide_eq_false_1 in E1. destruct (secret_key_ok secret) eqn:E2; cbn [negb].
  - split_and!; [split; [|done]|split; [|by intros []]|].
    + by destruct (sign_event _ _ _ _ _ _).
    + by destruct (sign_event _ _ _ _ _ _).
    + intros json Hs%ok_or_Ok. do 2 eexists. split; [exact Hs|]. split; [by case_bool_decide|].
      intros key ->. rewrite app_assoc. apply last_snoc.
  - split_and!; [split; done|split; done|done].
Qed.
End EventProofs.

Lemma info_event_canonical_witness :
  @build_nwc_info_event_with_notifications sample_nostr (repeat 8 32) (Some (repeat 1 32))
    [PayInvoice; GetInfo; PayInvoice] [] Nip44V2 10 []
  = @build_nwc_info_event_with_notifications sample_nostr (repeat 8 32) (Some (repeat 1 32))
    [GetInfo; PayInvoice] [] Nip44V2 10 [].
Proof.
  refine (proj1 (@info_event_canonical sample_nostr (repeat 8 32) (Some (repeat 1 32))
    [PayInvoice; GetInfo; PayInvoice] [GetInfo; PayInvoice] [] [] Nip44V2 10 [] _ _)); [|done].
  intros m. rewrite !elem_of_cons, !elem_of_nil. tauto.
Defined.
