(* ===== verification/Relay.v ===== *)
(** * Relay transport

    Models [nwc-mobile-nostr/src/lib.rs]: the construction and publication of the
    capability event, and the two exchanges with a relay, the fetch of one
    request event and the publication of an event.  A WebSocket is an exchange
    given as data: how the connection ends up, the result of every send, and the
    messages that arrive until the stream ends; the deadline of [Runtime] ends it
    early.  [serde_json] is the interface
    [SerdeJson] of [WakeEnvelope] with the parts [RelayJson] adds. *)
From Stdlib Require Import String.
From stdpp Require Import strings.
From S2P Require Import Prelude Types Policy Host Runtime Registry NostrValidation Program WakeEnvelope NwcInfo.
#[local] Open Scope Z_scope.

(** [Value::as_array], [Value::as_u64], [serde_json::to_string] of a value, and
    the values the [json!] macro builds with their text. *)
Class RelayJson (S : SerdeJson) := {
  as_array : JsonValue -> option (list JsonValue);
  as_u64 : JsonValue -> option Z;
  json_to_string : JsonValue -> option string;
  json_text : JsonValue -> string;
  json_string : string -> JsonValue;
  json_number : Z -> JsonValue;
  json_array : list JsonValue -> JsonValue;
  json_object : list (string * JsonValue) -> JsonValue;
}.

Definition NWC_REQUEST_KIND : Z := 23194.
Definition RELAY_ACK_MAX_BYTES : Z := 16 * 1024.
Definition RELAY_EVENT_ENVELOPE_MAX_BYTES : Z := 512.

(** ** WebSockets *)

(** The errors of [tungstenite] the code tells apart: a redirecting answer to the
    handshake, and a message over the configured capacity. *)
Inductive WebSocketError : Type := Ws_Redirection | Ws_Capacity | Ws_Other.

Inductive Message : Type :=
| Message_Text (text : string)
| Message_Binary
| Message_Ping (payload : list Z)
| Message_Pong (payload : list Z)
| Message_Close
| Message_Frame.

(** The limits of a connection. *)
Record WebSocketConfig := mkWebSocketConfig {
  read_buffer_size : Z;
  write_buffer_size : Z;
  max_write_buffer_size : Z;
  max_message_size : Z;
  max_frame_size : Z;
}.

(** A connection: the handshake's status, the result of sending the request, and
    what arrives with the result of the reply, should the message want one. *)
Record Exchange := mkExchange {
  ex_connect : Result WebSocketError Z;
  ex_sent : Result WebSocketError unit;
  ex_incoming : list (Result WebSocketError Message * Result WebSocketError unit);
}.

Definition is_redirection (status : Z) : bool := (300 <=? status) && (status <=? 399).

Definition relay_connect_error (e : WebSocketError) : HostError :=
  match e with Ws_Redirection => HostRejected | _ => Unavailable end.
Definition relay_io_error (e : WebSocketError) : HostError :=
  match e with Ws_Capacity => HostRejected | _ => Unavailable end.

Definition bounded_websocket_config (maximum_message_bytes maximum_outgoing_bytes : Z) : WebSocketConfig :=
  let buffer := Z.min (Z.max maximum_message_bytes 1024) (16 * 1024) in
  mkWebSocketConfig buffer (4 * 1024) (saturating_add_u64 maximum_outgoing_bytes (8 * 1024))
    maximum_message_bytes maximum_message_bytes.

Definition fetch_wire_message_limit (maximum_event_bytes : Z) : Result HostError Z :=
  ok_or HostRejected (checked_add_u64 maximum_event_bytes RELAY_EVENT_ENVELOPE_MAX_BYTES).

(** The connection both exchanges open. *)
Definition open_socket (connect : Result WebSocketError Z) : Result HostError unit :=
  let? status := map_err relay_connect_error connect in
  if is_redirection status then Err HostRejected else Ok tt.

(** The messages the code sends, in order, and the result. *)
Abbreviation Sent A := (list Message * Result HostError A)%type.

(** An exchange under [run_with_context]: not begun when the signal is set; left after
    its first [cut] messages when it does not end the race itself. *)
Definition within_context {A} (cancelled : bool) (race : Race) (cut : nat) (x : Sent A) : Sent A :=
  (if cancelled then []
   else match race with Operation_first _ => x.1 | Cancellation_first | Timer_first _ => take cut x.1 end,
   run_with_context cancelled race x.2).

Section Relay.
Context `{S : SerdeJson} `{J : !RelayJson S}.

(** ** Fetching an event *)

Inductive FetchMessage : Type :=
| Fetch_Event (event_json : string)
| EndOfStoredEvents
| Fetch_Ignore.

(** [Value::get] with a key, and the [n]-th value as text. *)
Definition value_get (v : JsonValue) (key : string) : option JsonValue :=
  match as_object v with Some m => json_get m key | None => None end.
Definition get_str (values : list JsonValue) (n : nat) : option string :=
  match values !! n with Some v => as_str v | None => None end.
Definition option_and_then {A B} (o : option A) (f : A -> option B) : option B :=
  match o with Some a => f a | None => None end.

Definition parse_fetch_message (message subscription_id expected_event_id : string) (maximum_event_bytes : Z)
  : Result HostError FetchMessage :=
  let? value := ok_or HostRejected (json_from_str message) in
  let? values := ok_or HostRejected (as_array value) in
  let labelled label := bool_decide (get_str values 0 = Some label)
                  && bool_decide (get_str values 1 = Some subscription_id) in
  if labelled "EVENT"%string then
    match values !! 2%nat with
    | Some event =>
        if negb (is_some (as_object event)) then Ok Fetch_Ignore
        else if negb (bool_decide (option_and_then (value_get event "id") as_str = Some expected_event_id))
                || negb (bool_decide (option_and_then (value_get event "kind") as_u64 = Some NWC_REQUEST_KIND))
        then Ok Fetch_Ignore
        else
        let? event_json := ok_or HostRejected (json_to_string event) in
        if maximum_event_bytes <? str_len event_json then Err HostRejected
        else Ok (Fetch_Event event_json)
    | None => Ok Fetch_Ignore
    end
  else if labelled "EOSE"%string then Ok EndOfStoredEvents
  else if labelled "CLOSED"%string then Err Unavailable
  else Ok Fetch_Ignore.

(** The loop of [fetch_relay_event] over the incoming messages. *)
Fixpoint fetch_loop (subscription_id expected_event_id : string) (maximum_event_bytes : Z)
    (incoming : list (Result WebSocketError Message * Result WebSocketError unit))
  : Sent (option string) :=
  match incoming with
  | [] => ([], Ok None)
  | (Err e, _) :: _ => ([], Err (relay_io_error e))
  | (Ok message, reply) :: rest =>
      let continue := fetch_loop subscription_id expected_event_id maximum_event_bytes rest in
      match message with
      | Message_Text text =>
          match parse_fetch_message text subscription_id expected_event_id maximum_event_bytes with
          | Err e => ([], Err e)
          | Ok (Fetch_Event event_json) => ([], Ok (Some event_json))
          | Ok EndOfStoredEvents => ([], Ok None)
          | Ok Fetch_Ignore => continue
          end
      | Message_Ping payload =>
          match reply with
          | Err e => ([Message_Pong payload], Err (relay_io_error e))
          | Ok _ => (Message_Pong payload :: continue.1, continue.2)
          end
      | Message_Close => ([], Ok None)
      | Message_Binary | Message_Pong _ | Message_Frame => continue
      end
  end.

Definition subscription_of (expected_event_id : string) : string :=
  ("nwc-mobile-" ++ String.substring 0 16 expected_event_id)%string.

Definition fetch_request (subscription_id expected_event_id : string) : JsonValue :=
  json_array [json_string "REQ"; json_string subscription_id;
    json_object [("ids"%string, json_array [json_string expected_event_id]);
                 ("kinds"%string, json_array [json_number NWC_REQUEST_KIND]);
                 ("limit"%string, json_number 1)]].

Definition fetch_relay_event (event_id : EventId) (maximum_event_bytes : Z)
    (connect : WebSocketConfig -> Exchange) : Sent (option string) :=
  match fetch_wire_message_limit maximum_event_bytes with
  | Err e => ([], Err e)
  | Ok limit =>
      let socket := connect (bounded_websocket_config limit (4 * 1024)) in
      match open_socket (ex_connect socket) with
      | Err e => ([], Err e)
      | Ok _ =>
          let expected_event_id := Hex32_to_hex event_id in
          let subscription_id := subscription_of expected_event_id in
          let request := Message_Text (json_text (fetch_request subscription_id expected_event_id)) in
          match map_err relay_io_error (ex_sent socket) with
          | Err e => ([request], Err e)
          | Ok _ =>
              let r := fetch_loop subscription_id expected_event_id maximum_event_bytes (ex_incoming socket) in
              (request :: r.1, r.2)
          end
      end
  end.

(** [NostrRelayTransport::fetch_event]. *)
Definition transport_fetch_event (event_id : EventId) (maximum_event_bytes : Z)
    (cancelled : bool) (race : Race) (cut : nat) (connect : WebSocketConfig -> Exchange) : Sent (option string) :=
  if maximum_event_bytes =? 0 then ([], Err HostRejected)
  else within_context cancelled race cut (fetch_relay_event event_id maximum_event_bytes connect).

(** ** Publishing an event *)

Definition parse_publish_ack (message event_id : string) : Result HostError (option bool) :=
  let? value := ok_or HostRejected (json_from_str message) in
  let? values := ok_or HostRejected (as_array value) in
  if negb (bool_decide (get_str values 0 = Some "OK"%string)) || negb (bool_decide (get_str values 1 = Some event_id))
  then Ok None
  else
  let? accepted := ok_or HostRejected (option_and_then (values !! 2%nat) as_bool) in
  Ok (Some accepted).

Fixpoint publish_loop (event_id : string)
    (incoming : list (Result WebSocketError Message * Result WebSocketError unit)) : Sent unit :=
  match incoming with
  | [] => ([], Err Unavailable)
  | (Err e, _) :: _ => ([], Err (relay_io_error e))
  | (Ok message, reply) :: rest =>
      let continue := publish_loop event_id rest in
      match message with
      | Message_Text text =>
          match parse_publish_ack text event_id with
          | Err e => ([], Err e)
          | Ok (Some accepted) => ([], if (accepted : bool) then Ok tt else Err Unavailable)
          | Ok None => continue
          end
      | Message_Ping payload =>
          match reply with
          | Err e => ([Message_Pong payload], Err (relay_io_error e))
          | Ok _ => (Message_Pong payload :: continue.1, continue.2)
          end
      | Message_Close => ([], Err Unavailable)
      | Message_Binary | Message_Pong _ | Message_Frame => continue
      end
  end.

(** The identifier of the event in [event_json]. *)
Definition published_id (event : JsonValue) : option string :=
  match option_and_then (value_get event "id") as_str with
  | Some id => if str_len id =? 64 then Some id else None
  | None => None
  end.

Definition publish_relay_event (event_json : string) (connect : WebSocketConfig -> Exchange) : Sent unit :=
  match
    let? event := ok_or HostRejected (json_from_str event_json) in
    let? event_id := ok_or HostRejected (published_id event) in
    Ok (event, event_id)
  with
  | Err e => ([], Err e)
  | Ok (event, event_id) =>
      let socket := connect
        (bounded_websocket_config RELAY_ACK_MAX_BYTES (saturating_add_u64 (str_len event_json) 512)) in
      match open_socket (ex_connect socket) with
      | Err e => ([], Err e)
      | Ok _ =>
          let request := Message_Text (json_text (json_array [json_string "EVENT"; event])) in
          match map_err relay_io_error (ex_sent socket) with
          | Err e => ([request], Err e)
          | Ok _ => let r := publish_loop event_id (ex_incoming socket) in (request :: r.1, r.2)
          end
      end
  end.

(** [NostrRelayTransport::publish_event]. *)
Definition transport_publish_event (event_json : string) (cancelled : bool) (race : Race) (cut : nat)
    (connect : WebSocketConfig -> Exchange) : Sent unit :=
  within_context cancelled race cut (publish_relay_event event_json connect).

End Relay.

(** ** The capability event *)

Section Publication.
Context `{L : UrlLib} `{N : NostrLib}.

Definition prepare_nwc_info_publication (relay_url : string) (wallet_service_secret : NwcSecretKey)
    (client_pubkey : option PublicKey) (methods : list NwcMethod) (encryption : NwcEncryption)
    (created_at : UnixTimestamp) (entropy : list Z) (timeout : Duration)
  : Result HostError (string * string * OperationBudget) :=
  let? relay := map_err (fun _ => HostRejected) (SecureRelayUrl_parse relay_url) in
  let? event_json := map_err (fun _ => HostRejected)
    (build_nwc_info_event wallet_service_secret client_pubkey methods encryption created_at entropy) in
  let? budget := map_err (fun _ => HostRejected) (OperationBudget_new timeout) in
  Ok (relay, event_json, budget).

Definition publish_nwc_info_event (relay_url : string) (wallet_service_secret : NwcSecretKey)
    (client_pubkey : option PublicKey) (methods : list NwcMethod) (encryption : NwcEncryption)
    (timeout : Duration) : Prog (Result HostError unit) :=
  let* now := call clock_now in
  let* entropy := call cipher_entropy in
  match prepare_nwc_info_publication relay_url wallet_service_secret client_pubkey methods encryption now
          entropy timeout with
  | Err e => Ret (Err e)
  | Ok (relay, event_json, budget) => call (publish_event relay event_json budget)
  end.

Definition publish_nwc_info_event_with_notifications (relay_url : string) (wallet_service_secret : NwcSecretKey)
    (client_pubkey : option PublicKey) (methods : list NwcMethod) (notifications : list NwcNotificationType)
    (encryption : NwcEncryption) (timeout : Duration) : Prog (Result HostError unit) :=
  match map_err (fun _ => HostRejected) (SecureRelayUrl_parse relay_url) with
  | Err e => Ret (Err e)
  | Ok relay =>
      let* now := call clock_now in
      let* entropy := call cipher_entropy in
      match map_err (fun _ => HostRejected)
              (build_nwc_info_event_with_notifications wallet_service_secret client_pubkey methods notifications
                 encryption now entropy) with
      | Err e => Ret (Err e)
      | Ok event_json =>
          match map_err (fun _ => HostRejected) (OperationBudget_new timeout) with
          | Err e => Ret (Err e)
          | Ok budget => call (publish_event relay event_json budget)
          end
      end
  end.

End Publication.

(** ** Exchanges decided by one message

    The reference for both loops: the first message with a verdict ends the
    exchange, and until then every ping is answered. *)

Abbreviation Incoming := (Result WebSocketError Message * Result WebSocketError unit)%type.

Definition pong_of (item : Incoming) : list Message :=
  match item with (Ok (Message_Ping payload), _) => [Message_Pong payload] | _ => [] end.

Definition decided {A} (verdict : string -> option (Result HostError A)) (ending : Result HostError A)
    (item : Incoming) : option (Result HostError A) :=
  match item with
  | (Err e, _) => Some (Err (relay_io_error e))
  | (Ok (Message_Text text), _) => verdict text
  | (Ok (Message_Ping _), Err e) => Some (Err (relay_io_error e))
  | (Ok Message_Close, _) => Some ending
  | _ => None
  end.

Fixpoint first_decided {A} (verdict : string -> option (Result HostError A)) (ending : Result HostError A)
    (incoming : list Incoming) : Sent A :=
  match incoming with
  | [] => ([], ending)
  | item :: rest =>
      match decided verdict ending item with
      | Some r => (pong_of item, r)
      | None => let r := first_decided verdict ending rest in (pong_of item ++ r.1, r.2)
      end
  end.

Section Decided.
Context {A : Type} (verdict : string -> option (Result HostError A)) (ending : Result HostError A).

Definition undecided (item : Incoming) : Prop := decided verdict ending item = None.

Lemma first_decided_spec incoming sent r : first_decided verdict ending incoming = (sent, r) <->
  (Forall undecided incoming /\ sent = concat (pong_of <$> incoming) /\ r = ending)
  \/ exists before item rest, incoming = before ++ item :: rest /\ Forall undecided before
       /\ decided verdict ending item = Some r /\ sent = concat (pong_of <$> before ++ [item]).
Proof.
  revert sent. induction incoming as [|item incoming IH]; intros sent; cbn [first_decided].
  - split.
    + intros [= <- <-]. by left.
    + intros [(_ & -> & ->)|(before & item & rest & H & _)]; [done|]. by destruct before.
  - destruct (decided verdict ending item) as [r'|] eqn:E.
    + split.
      * intros [= <- <-]. right. exists [], item, incoming. cbn. by rewrite app_nil_r, E.
      * intros [(H & _)|(before & item' & rest & H & Hb & Hd & ->)].
        -- apply Forall_cons in H as [H _]. unfold undecided in H. congruence.
        -- destruct before as [|b before]; injection H as <- ->.
           ++ cbn. rewrite app_nil_r. congruence.
           ++ apply Forall_cons in Hb as [Hb _]. unfold undecided in Hb. congruence.
    + destruct (first_decided verdict ending incoming) as [s' r'] eqn:Ef. cbn [fst snd].
      split.
      * intros [= <- <-]. destruct (proj1 (IH s') eq_refl) as [(H & -> & ->)|(before & x & rest & -> & Hb & Hd & ->)].
        -- left. split_and!; [by constructor|done|done].
        -- right. exists (item :: before), x, rest. split_and!; [done|by constructor|done|done].
      * intros [(H & -> & ->)|(before & x & rest & H & Hb & Hd & ->)].
        -- apply Forall_cons in H as [_ H].
           assert ((s', r') = (concat (pong_of <$> incoming), ending)) as [= -> ->] by (apply IH; left; by split_and!).
           done.
        -- destruct before as [|b before]; injection H as <- ->; [congruence|].
           apply Forall_cons in Hb as [_ Hb].
           assert ((s', r') = (concat (pong_of <$> before ++ [x]), r)) as [= -> ->]; [|done].
           apply IH. right. exists before, x, rest. by split_and!.
Qed.
End Decided.

Section RelayProofs.
Context `{S : SerdeJson} `{J : !RelayJson S}.

Definition fetch_verdict (sub id : string) (maximum : Z) (text : string)
  : option (Result HostError (option string)) :=
  match parse_fetch_message text sub id maximum with
  | Err e => Some (Err e)
  | Ok (Fetch_Event event_json) => Some (Ok (Some event_json))
  | Ok EndOfStoredEvents => Some (Ok None)
  | Ok Fetch_Ignore => None
  end.
Definition publish_verdict (id : string) (text : string) : option (Result HostError unit) :=
  match parse_publish_ack text id with
  | Err e => Some (Err e)
  | Ok (Some accepted) => Some (if (accepted : bool) then Ok tt else Err Unavailable)
  | Ok None => None
  end.

Lemma fetch_loop_decided sub id maximum incoming :
  fetch_loop sub id maximum incoming = first_decided (fetch_verdict sub id maximum) (Ok None) incoming.
Proof.
  induction incoming as [|[[[text| |p|p| |]|e] [[]|e']] incoming IH]; cbn; rewrite ?IH; try done;
    try (by destruct (first_decided _ _ _));
    unfold fetch_verdict; destruct (parse_fetch_message text sub id maximum) as [[]|]; try done;
    by destruct (first_decided _ _ _).
Qed.

Lemma publish_loop_decided id incoming :
  publish_loop id incoming = first_decided (publish_verdict id) (Err Unavailable) incoming.
Proof.
  induction incoming as [|[[[text| |p|p| |]|e] [[]|e']] incoming IH]; cbn; rewrite ?IH; try done;
    try (by destruct (first_decided _ _ _));
    unfold publish_verdict; destruct (parse_publish_ack text id) as [[]|]; try done;
    by destruct (first_decided _ _ _).
Qed.

(** The text of a message that carries the requested event. *)
Definition carries (text : string) (sub id : string) (maximum : Z) (event_json : string) : Prop :=
  exists value values event, json_from_str text = Some value /\ as_array value = Some values
    /\ get_str values 0 = Some "EVENT"%string /\ get_str values 1 = Some sub
    /\ values !! 2%nat = Some event /\ is_some (as_object event) = true
    /\ option_and_then (value_get event "id") as_str = Some id
    /\ option_and_then (value_get event "kind") as_u64 = Some NWC_REQUEST_KIND
    /\ json_to_string event = Some event_json /\ str_len event_json <= maximum.

Lemma parse_fetch_event text sub id maximum event_json :
  parse_fetch_message text sub id maximum = Ok (Fetch_Event event_json) <-> carries text sub id maximum event_json.
Proof.
  unfold parse_fetch_message, carries. split.
  - intros H. apply bind_Ok in H as (value & Hv & H). apply bind_Ok in H as (values & Hvs & H).
    apply ok_or_Ok in Hv, Hvs. cbv zeta in H.
    destruct (bool_decide (get_str values 0 = Some "EVENT"%string) && bool_decide (get_str values 1 = Some sub)) eqn:E.
    + apply andb_true_iff in E as [E1%bool_decide_eq_true E2%bool_decide_eq_true].
      destruct (values !! 2%nat) as [event|] eqn:E3; [|done]. pass_guard H Ho. pass_guard H Hk.
      apply bind_Ok in H as (json & Hj & H). apply ok_or_Ok in Hj. pass_guard H Hlen. injection H as ->.
      apply negb_false_iff in Ho. apply orb_false_iff in Hk as [Hid Hkind].
      apply negb_false_iff, bool_decide_eq_true in Hid, Hkind. apply Z.ltb_ge in Hlen.
      by exists value, values, event.
    + repeat match type of H with (if ?c then _ else _) = _ => destruct c; [done|] end. done.
  - intros (value & values & event & -> & Hvs & H0 & H1 & H2 & Ho & Hid & Hkind & Hj & Hlen). cbn.
    rewrite Hvs. cbn. rewrite H0, H1, !bool_decide_true by done. cbn [andb]. rewrite H2, Ho, Hid, Hkind.
    rewrite !bool_decide_true by done. cbn [negb orb]. rewrite Hj. cbn [ok_or].
    by destruct (Z.ltb_spec maximum (str_len event_json)); [lia|].
Qed.

Definition opened (socket : Exchange) : Prop :=
  (exists status, ex_connect socket = Ok status /\ is_redirection status = false) /\ ex_sent socket = Ok tt.

Lemma open_socket_Ok connect :
  open_socket connect = Ok tt <-> exists status, connect = Ok status /\ is_redirection status = false.
Proof.
  unfold open_socket. split.
  - intros H. apply bind_Ok in H as (status & Hs & H). apply map_err_Ok in Hs. pass_guard H Hr. by exists status.
  - intros (status & -> & Hr). cbn. by rewrite Hr.
Qed.

(** The messages exchanged once the socket is open. *)
Lemma decided_event sub id maximum item event_json :
  decided (fetch_verdict sub id maximum) (Ok None) item = Some (Ok (Some event_json)) <->
  exists text reply, item = (Ok (Message_Text text), reply) /\ carries text sub id maximum event_json.
Proof.
  split.
  - destruct item as [[[text| |p|p| |]|e] [[]|e']]; cbn; try done; unfold fetch_verdict;
      destruct (parse_fetch_message text sub id maximum) as [[]|] eqn:E; try done; intros [= ->];
      eexists _, _; (split; [done|]); by apply parse_fetch_event.
  - intros (text & reply & -> & H%parse_fetch_event). cbn. unfold fetch_verdict. by rewrite H.
Qed.

Lemma within_context_Ok {A} cancelled race cut (x : Sent A) sent value :
  within_context cancelled race cut x = (sent, Ok value)
  <-> (cancelled = false /\ race = Operation_first false) /\ x = (sent, Ok value).
Proof.
  unfold within_context. destruct x as [messages r]. cbn [fst snd]. split.
  - intros [= H1 (-> & -> & ->)%run_with_context_Ok]. by rewrite <- H1.
  - intros [[-> ->] [= -> ->]]. f_equal.
Qed.

(** C35: A fetch gives an event exactly when the relay was reached without a
    redirection and its first decisive message carries, under the subscription,
    an object with the requested identifier and the kind of a request, of at most
    the maximum of bytes, which is what the fetch gives; by then the request was
    sent and every ping answered, before the deadline and any cancellation. *)
Theorem fetched_event_spec event_id maximum cancelled race cut connect sent event_json :
  let id := Hex32_to_hex event_id in
  let sub := subscription_of id in
  let socket := connect (bounded_websocket_config (maximum + RELAY_EVENT_ENVELOPE_MAX_BYTES) (4 * 1024)) in
  transport_fetch_event event_id maximum cancelled race cut connect = (sent, Ok (Some event_json)) <->
  (cancelled = false /\ race = Operation_first false)
  /\ maximum <> 0 /\ maximum + RELAY_EVENT_ENVELOPE_MAX_BYTES <= u64_max /\ opened socket
  /\ exists before text reply rest, ex_incoming socket = before ++ (Ok (Message_Text text), reply) :: rest
       /\ Forall (undecided (fetch_verdict sub id maximum) (Ok None)) before
       /\ carries text sub id maximum event_json
       /\ sent = Message_Text (json_text (fetch_request sub id)) :: concat (pong_of <$> before).
Proof.
  cbv zeta. unfold transport_fetch_event.
  destruct (Z.eqb_spec maximum 0) as [->|Hm]; [split; [done|by intros (_ & ? & _)]|].
  rewrite within_context_Ok. apply and_iff_compat_l. unfold fetch_relay_event, fetch_wire_message_limit, checked_add_u64.
  destruct (Z.leb_spec (maximum + RELAY_EVENT_ENVELOPE_MAX_BYTES) u64_max) as [Hmax|Hmax]; cbn [ok_or];
    [|split; [done|intros (_ & ? & _); lia]].
  set (socket := connect _). unfold opened. rewrite <- open_socket_Ok.
  destruct (open_socket (ex_connect socket)) as [[]|e]; [|split; [done|by intros (_ & _ & [? _] & _)]].
  destruct (ex_sent socket) as [[]|e]; cbn [map_err]; [|split; [done|by intros (_ & _ & [_ ?] & _)]].
  set (id := Hex32_to_hex event_id). set (sub := subscription_of id).
  rewrite fetch_loop_decided. destruct (first_decided _ _ _) as [pongs r] eqn:E. cbn [fst snd]. split.
  - intros [= <- ->]. apply first_decided_spec in E as [(_ & _ & ?)|(before & item & rest & Hi & Hb & Hd & ->)]; [done|].
    apply decided_event in Hd as (text & reply & -> & Hc). split_and!; [done..|].
    exists before, text, reply, rest. split_and!; [done..|]. by rewrite fmap_app, concat_app, app_nil_r.
  - intros (_ & _ & _ & before & text & reply & rest & Hi & Hb & Hc & ->).
    assert ((pongs, r) = (concat (pong_of <$> before), Ok (Some event_json))) as [= -> ->]; [|done].
    rewrite <- E. apply first_decided_spec. right. eexists before, _, rest.
    split; [exact Hi|]. split; [exact Hb|]. split; [apply decided_event; by eexists _, _|].
    by rewrite fmap_app, concat_app, app_nil_r.
Qed.

(** The text of a message that accepts the event. *)
Definition acknowledges (text id : string) : Prop :=
  exists value values, json_from_str text = Some value /\ as_array value = Some values
    /\ get_str values 0 = Some "OK"%string /\ get_str values 1 = Some id
    /\ option_and_then (values !! 2%nat) as_bool = Some true.

Lemma parse_publish_ack_true text id : parse_publish_ack text id = Ok (Some true) <-> acknowledges text id.
Proof.
  unfold parse_publish_ack, acknowledges. split.
  - intros H. apply bind_Ok in H as (value & Hv & H). apply bind_Ok in H as (values & Hvs & H).
    apply ok_or_Ok in Hv, Hvs. pass_guard H Hg. apply bind_Ok in H as (a & Ha & H). apply ok_or_Ok in Ha.
    injection H as ->. apply orb_false_iff in Hg as [H0 H1].
    apply negb_false_iff, bool_decide_eq_true in H0, H1. by exists value, values.
  - intros (value & values & -> & Hvs & H0 & H1 & H2). cbn. rewrite Hvs. cbn. rewrite H0, H1.
    rewrite !bool_decide_true by done. cbn [negb orb]. by rewrite H2.
Qed.

Lemma decided_acknowledged id item :
  decided (publish_verdict id) (Err Unavailable) item = Some (Ok tt) <->
  exists text reply, item = (Ok (Message_Text text), reply) /\ acknowledges text id.
Proof.
  split.
  - destruct item as [[[text| |p|p| |]|e] [[]|e']]; cbn; try done; unfold publish_verdict;
      destruct (parse_publish_ack text id) as [[[]|]|] eqn:E; try done; intros _;
      eexists _, _; (split; [done|]); by apply parse_publish_ack_true.
  - intros (text & reply & -> & H%parse_publish_ack_true). cbn. unfold publish_verdict. by rewrite H.
Qed.

(** A publication succeeds exactly when the text is an event with an
    identifier of 64 bytes, the relay was reached without a redirection and took
    it, and its first decisive message accepts that very event; a relay that
    closes the stream first, or answers for another event only, has not. *)
Theorem published_event_spec event_json cancelled race cut connect sent :
  transport_publish_event event_json cancelled race cut connect = (sent, Ok tt) <->
  (cancelled = false /\ race = Operation_first false)
  /\ exists event id, json_from_str event_json = Some event
    /\ option_and_then (value_get event "id") as_str = Some id /\ str_len id = 64
    /\ let socket := connect (bounded_websocket_config RELAY_ACK_MAX_BYTES
                                (saturating_add_u64 (str_len event_json) 512)) in
       opened socket
       /\ exists before text reply rest, ex_incoming socket = before ++ (Ok (Message_Text text), reply) :: rest
            /\ Forall (undecided (publish_verdict id) (Err Unavailable)) before
            /\ acknowledges text id
            /\ sent = Message_Text (json_text (json_array [json_string "EVENT"; event]))
                       :: concat (pong_of <$> before).
Proof.
  unfold transport_publish_event. rewrite within_context_Ok. apply and_iff_compat_l.
  unfold publish_relay_event. destruct (json_from_str event_json) as [event|]; cbn [ok_or];
    [|split; [done|by intros (? & ? & [=] & _)]].
  assert (forall id, published_id event = Some id <->
    option_and_then (value_get event "id") as_str = Some id /\ str_len id = 64) as Hp.
  { intros id. unfold published_id. destruct (option_and_then _ _) as [i|]; [|split; [done|by intros []]].
    destruct (Z.eqb_spec (str_len i) 64); split; [intros [= <-]; done|by intros [[= ->] _]|done|].
    intros [[= ->] ?]. done. }
  destruct (published_id event) as [id|]; cbn [ok_or];
    [|split; [done|intros (ev & id & [= <-] & H1 & H2 & _); discriminate (proj2 (Hp id) (conj H1 H2))]].
  destruct (proj1 (Hp id) eq_refl) as [Hid Hlen]. cbv zeta.
  set (socket := connect _). split.
  - intros H. exists event, id. split; [done|]. split; [done|]. split; [done|].
    destruct (open_socket (ex_connect socket)) as [[]|e] eqn:Eo; [|done]. apply open_socket_Ok in Eo.
    destruct (ex_sent socket) as [[]|e] eqn:Es; [|done]. cbn [map_err] in H. split; [done|].
    rewrite publish_loop_decided in H. destruct (first_decided _ _ _) as [pongs r] eqn:E. cbn [fst snd] in H.
    injection H as <- ->.
    apply first_decided_spec in E as [(_ & _ & ?)|(before & item & rest & Hi & Hb & Hd & ->)]; [done|].
    apply decided_acknowledged in Hd as (text & reply & -> & Hc).
    exists before, text, reply, rest. split_and!; [done..|]. by rewrite fmap_app, concat_app, app_nil_r.
  - intros (ev & i & [= <-] & Hi & _ & [Ho Hs] & before & text & reply & rest & Hin & Hb & Hc & ->).
    rewrite Hid in Hi. injection Hi as <-. apply open_socket_Ok in Ho as ->. rewrite Hs. cbn [map_err].
    rewrite publish_loop_decided. destruct (first_decided _ _ _) as [pongs r] eqn:E. cbn [fst snd].
    assert ((pongs, r) = (concat (pong_of <$> before), Ok tt)) as [= -> ->]; [|done].
    rewrite <- E. apply first_decided_spec. right. eexists before, _, rest.
    split; [exact Hin|]. split; [exact Hb|]. split; [apply decided_acknowledged; by eexists _, _|].
    by rewrite fmap_app, concat_app, app_nil_r.
Qed.
End RelayProofs.

(** The limits of a connection are those the WebSocket library accepts, a
    message never exceeds the event bound plus the envelope, and an event bound
    whose message bound would overflow is refused. *)
Theorem websocket_limits maximum outgoing (Hm : u64 maximum) (Ho : u64 outgoing) :
  (fetch_wire_message_limit maximum = Err HostRejected <-> u64_max < maximum + RELAY_EVENT_ENVELOPE_MAX_BYTES)
  /\ forall limit, fetch_wire_message_limit maximum = Ok limit ->
     let config := bounded_websocket_config limit outgoing in
     max_message_size config = maximum + RELAY_EVENT_ENVELOPE_MAX_BYTES /\ max_frame_size config = max_message_size config
     /\ 1024 <= read_buffer_size config <= 16384
     /\ write_buffer_size config < max_write_buffer_size config <= u64_max
     /\ (outgoing <= max_write_buffer_size config).
Proof.
  unfold fetch_wire_message_limit. split.
  - unfold checked_add_u64. destruct (Z.leb_spec (maximum + RELAY_EVENT_ENVELOPE_MAX_BYTES) u64_max); split; cbn; lia || done.
  - intros limit [-> H]%ok_or_Ok%checked_add_u64_Some. cbn. unfold saturating_add_u64, u64, u64_max in *. lia.
Qed.

Lemma websocket_limits_witness :
  fetch_wire_message_limit 65536 = Ok 66048
  /\ max_message_size (bounded_websocket_config 66048 4096) = 66048
  /\ (fetch_wire_message_limit u64_max = Err HostRejected <-> u64_max < u64_max + RELAY_EVENT_ENVELOPE_MAX_BYTES).
Proof.
  assert (u64 65536 /\ u64 4096 /\ u64 u64_max) as (H1 & H2 & H3) by (unfold u64, u64_max; lia).
  split; [reflexivity|]. split; [|exact (proj1 (websocket_limits u64_max 4096 H3 H2))].
  destruct (proj2 (websocket_limits 65536 4096 H1 H2) 66048 eq_refl) as (H & _). exact H.
Defined.

(** ** A run of the model

    Values of JSON, and a parser that knows the messages of one exchange. *)

Inductive WireValue : Type :=
| Wire_String (s : string) | Wire_Number (n : Z) | Wire_Bool (b : bool)
| Wire_Array (l : list WireValue) | Wire_Object (fields : list (string * WireValue)).

Fixpoint wire_field (fields : list (string * WireValue)) (key : string) : option WireValue :=
  match fields with
  | [] => None
  | (k, v) :: rest => if bool_decide (k = key) then Some v else wire_field rest key
  end.

Definition wire_id : EventId := repeat 3 32.
Definition wire_event : WireValue :=
  Wire_Object [("id"%string, Wire_String (Hex32_to_hex wire_id)); ("kind"%string, Wire_Number 23194)].
Definition wire_parse (s : string) : option WireValue :=
  if bool_decide (s = "notice"%string) then Some (Wire_Array [Wire_String "NOTICE"; Wire_String "hello"])
  else if bool_decide (s = "other"%string) then Some (Wire_Array [Wire_String "EVENT"; Wire_String "x"; wire_event])
  else if bool_decide (s = "event"%string)
  then Some (Wire_Array [Wire_String "EVENT"; Wire_String (subscription_of (Hex32_to_hex wire_id)); wire_event])
  else if bool_decide (s = "eose"%string)
  then Some (Wire_Array [Wire_String "EOSE"; Wire_String (subscription_of (Hex32_to_hex wire_id))])
  else if bool_decide (s = "accepted"%string)
  then Some (Wire_Array [Wire_String "OK"; Wire_String (Hex32_to_hex wire_id); Wire_Bool true])
  else if bool_decide (s = "{}"%string) then Some wire_event
  else None.

Definition wire_serde : SerdeJson := {|
  JsonValue := WireValue;
  JsonMap := list (string * WireValue);
  json_from_str := wire_parse;
  as_object := fun v => match v with Wire_Object fields => Some fields | _ => None end;
  as_str := fun v => match v with Wire_String s => Some s | _ => None end;
  as_bool := fun v => match v with Wire_Bool b => Some b | _ => None end;
  json_get := wire_field |}.
Definition wire_json : @RelayJson wire_serde := @Build_RelayJson wire_serde
  (fun v => match v with Wire_Array l => Some l | _ => None end)
  (fun v => match v with Wire_Number n => Some n | _ => None end)
  (fun _ => Some "{}"%string) (fun _ => "{}"%string) Wire_String Wire_Number Wire_Array Wire_Object.

Definition wire_socket (messages : list Message) (_ : WebSocketConfig) : Exchange :=
  mkExchange (Ok 101) (Ok tt) ((fun m => (Ok m, Ok tt)) <$> messages).

Example wire_fetch :
  @transport_fetch_event wire_serde wire_json wire_id 1024 false (Operation_first false) 0
    (wire_socket [Message_Text "notice"; Message_Ping [7]; Message_Text "other"; Message_Text "event"])
  = ([Message_Text "{}"; Message_Pong [7]], Ok (Some "{}"%string)).
Proof. vm_compute. reflexivity. Qed.

Example wire_fetch_absent :
  (@transport_fetch_event wire_serde wire_json wire_id 1024 false (Operation_first false) 0
    (wire_socket [Message_Text "eose"; Message_Text "event"])).2
  = Ok None
  /\ (@transport_fetch_event wire_serde wire_json wire_id 1 false (Operation_first false) 0
    (wire_socket [Message_Text "event"])).2 = Err HostRejected.
Proof. vm_compute. by split. Qed.

Example wire_publish :
  (@publish_relay_event wire_serde wire_json "{}" (wire_socket [Message_Text "notice"; Message_Text "accepted"])).2 = Ok tt
  /\ (@publish_relay_event wire_serde wire_json "{}" (wire_socket [Message_Text "eose"])).2 = Err Unavailable.
Proof. vm_compute. by split. Qed.
