(* ===== verification/PushTransport.v ===== *)
(** * HTTP transports

    Models [nwc-mobile-http/src/lib.rs]: the configuration of the push provider,
    the POST requests that register a connection or a settlement monitor, and
    the download of an application's icon.  The [reqwest] client is a host call
    per request; its URL editing is the interface [UrlEdit], and the JSON bodies
    [serde_json] derives are [PushJson].  An icon download is modelled on the
    addresses the resolver answers and on the response the client gives. *)
From Stdlib Require Import String.
From stdpp Require Import strings.
From Stdlib Require Import Btauto.
From S2P Require Import Prelude Sqlite Types Text Host Schema Ledger Registry Registration NostrValidation Invoices Program RegistrationWorker Nwa NwcInfo Runtime.
#[local] Open Scope Z_scope.

(** ** Addresses

    [std::net]: octets and segments are integers of their width. *)

Inductive SocketAddr : Type :=
| SocketV4 (first second third fourth port : Z)
| SocketV6 (segments : list Z) (port flowinfo scope_id : Z).

#[export] Instance SocketAddr_eq_dec : EqDecision SocketAddr.
Proof. solve_decision. Defined.

(** The derived order: IPv4 first, then field by field. *)
Definition socket_fields (a : SocketAddr) : list Z :=
  match a with
  | SocketV4 a b c d port => [4; a; b; c; d; port]
  | SocketV6 segments port flowinfo scope_id => 6 :: segments ++ [port; flowinfo; scope_id]
  end.
Definition socket_order (a b : SocketAddr) : comparison := memcmp (socket_fields a) (socket_fields b).

(** The predicates of [Ipv4Addr]. *)
Definition is_private (a b c d : Z) : bool :=
  (a =? 10) || ((a =? 172) && (16 <=? b) && (b <=? 31)) || ((a =? 192) && (b =? 168)).
Definition is_loopback (a b c d : Z) : bool := a =? 127.
Definition is_link_local (a b c d : Z) : bool := (a =? 169) && (b =? 254).
Definition is_broadcast (a b c d : Z) : bool := (a =? 255) && (b =? 255) && (c =? 255) && (d =? 255).
Definition is_documentation (a b c d : Z) : bool :=
  ((a =? 192) && (b =? 0) && (c =? 2)) || ((a =? 198) && (b =? 51) && (c =? 100))
  || ((a =? 203) && (b =? 0) && (c =? 113)).
Definition is_multicast (a b c d : Z) : bool := (224 <=? a) && (a <=? 239).
Definition is_unspecified (a b c d : Z) : bool := (a =? 0) && (b =? 0) && (c =? 0) && (d =? 0).

Definition is_public_ipv4 (first second third fourth : Z) : bool :=
  negb (is_private first second third fourth)
  && negb (is_loopback first second third fourth)
  && negb (is_link_local first second third fourth)
  && negb (is_broadcast first second third fourth)
  && negb (is_documentation first second third fourth)
  && negb (is_multicast first second third fourth)
  && negb (is_unspecified first second third fourth)
  && negb (first =? 0)
  && (first <? 240)
  && negb ((first =? 100) && ((64 <=? second) && (second <=? 127)))
  && negb ((first =? 192) && (second =? 0) && (third =? 0))
  && negb ((first =? 198) && ((second =? 18) || (second =? 19))).

Definition is_public_ipv6 (segments : list Z) : bool :=
  let s0 := nth 0 segments 0 in
  let s1 := nth 1 segments 0 in
  let is_global_unicast := Z.land s0 0xe000 =? 0x2000 in
  let is_documentation := (s0 =? 0x2001) && (s1 =? 0x0db8) in
  let is_benchmarking := (s0 =? 0x2001) && (s1 =? 0x0002) in
  let is_orchid := (s0 =? 0x2001) && ((Z.land s1 0xfff0 =? 0x0010) || (Z.land s1 0xfff0 =? 0x0020)) in
  let is_additional_documentation := (s0 =? 0x3fff) && (Z.land s1 0xf000 =? 0) in
  is_global_unicast && negb is_documentation && negb is_benchmarking && negb is_orchid
  && negb is_additional_documentation.

Definition is_public_socket_address (address : SocketAddr) : bool :=
  match address with
  | SocketV4 a b c d _ => is_public_ipv4 a b c d
  | SocketV6 segments _ _ _ => is_public_ipv6 segments
  end.

(** ** Icons *)

Definition MAX_APPLICATION_ICON_BYTES : Z := 5 * 1024 * 1024.

Inductive ApplicationIconDownloadError : Type :=
| Icon_ClientUnavailable | Icon_TimedOut | Icon_Unavailable | Icon_PrivateAddress | Icon_RejectedResponse
| Icon_TooLarge.

Definition classify_icon_request_error (e : HttpFailure) : ApplicationIconDownloadError :=
  match e with Http_TimedOut => Icon_TimedOut | Http_Builder | Http_Failed => Icon_Unavailable end.

(** A response: its status, its content type when that is text, its declared
    length, and what reading chunk after chunk gives until the body ends. *)
Record IconResponse := mkIconResponse {
  ir_status : Z;
  ir_content_type : option string;
  ir_content_length : option Z;
  ir_chunks : list (Result HttpFailure (list Z));
}.

Definition status_is_success (status : Z) : bool := (200 <=? status) && (status <=? 299).

(** [Vec::dedup]. *)
Fixpoint dedup {A} `{EqDecision A} (l : list A) : list A :=
  match l with
  | a :: (b :: _) as rest => if bool_decide (a = b) then dedup rest else a :: dedup rest
  | _ => l
  end.

(** The media type, before its parameters, starts with [image/]. *)
Definition is_image (content_type : string) : bool :=
  let media := match split_on (fun c => c =? 59) (chars content_type) with piece :: _ => piece | [] => [] end in
  bool_decide (as_bytes "image/" `prefix_of` (to_ascii_lowercase <$> trim media)).

Fixpoint read_icon (bytes : list Z) (chunks : list (Result HttpFailure (list Z)))
  : Result ApplicationIconDownloadError (list Z) :=
  match chunks with
  | [] => Ok bytes
  | Err e :: _ => Err (classify_icon_request_error e)
  | Ok chunk :: rest =>
      if MAX_APPLICATION_ICON_BYTES <? saturating_add_u64 (Z.of_nat (length bytes)) (Z.of_nat (length chunk))
      then Err Icon_TooLarge
      else read_icon (bytes ++ chunk) rest
  end.

(** The URL parts a download uses: [port_or_known_default]. *)
Class UrlEdit (L : UrlLib) := {
  url_known_port : Url -> option Z;
  (** [Url::set_path] and [Url::join] with a relative path. *)
  url_set_path : Url -> string -> Url;
  url_join : Url -> string -> option Url;
}.

Section Icons.
Context `{L : UrlLib} `{ED : !UrlEdit L}.

(** [resolve] answers the operating system's lookup of a host and port and [joined]
    whether its task ended, [built] whether the client could be built, and
    [fetch] the request over the addresses it may connect to. *)
Definition download_application_icon (remote_url : string)
    (resolve : string -> Z -> option (list SocketAddr)) (joined built : bool)
    (fetch : list SocketAddr -> Result HttpFailure IconResponse)
  : Result ApplicationIconDownloadError (list Z) :=
  let? parsed_url := ok_or Icon_RejectedResponse (url_parse remote_url) in
  let? host := ok_or Icon_RejectedResponse (url_host_str parsed_url) in
  let? port := ok_or Icon_RejectedResponse (url_known_port parsed_url) in
  let? addresses := map_err (fun _ => Icon_Unavailable) (resolve_socket_addresses resolve joined host port) in
  let public_addresses := dedup (order_by socket_order (List.filter is_public_socket_address addresses)) in
  if Nat.eqb (length public_addresses) 0 then Err Icon_PrivateAddress
  else if negb built then Err Icon_ClientUnavailable
  else
  let? response := map_err classify_icon_request_error (fetch public_addresses) in
  if negb (status_is_success (ir_status response)) then Err Icon_RejectedResponse
  else if negb (match ir_content_type response with Some value => is_image value | None => false end)
  then Err Icon_RejectedResponse
  else if match ir_content_length response with
          | Some length => MAX_APPLICATION_ICON_BYTES <? length
          | None => false
          end
  then Err Icon_TooLarge
  else
  let? bytes := read_icon [] (ir_chunks response) in
  if Nat.eqb (length bytes) 0 then Err Icon_RejectedResponse else Ok bytes.

End Icons.

(** ** Configuration *)

Definition MAX_CONFIG_VALUE_BYTES : Z := 2048.
Definition REGISTRATION_BATCH_SIZE : Z := 20.
Definition REGISTRATION_OPERATION_TIMEOUT : Duration := from_secs 30.
Definition MAX_SETTLEMENT_MONITOR_DURATION : Duration := from_secs (2 * 60 * 60).

Inductive WakeHttpConfigError : Type :=
| MissingValue | ValueTooLong | InsecureServerUrl | InvalidEnvironment.

Record ApnsWakeRegistrationConfig := mkApnsConfig {
  ca_server_url : option string;
  ca_push_token : option string;
  ca_app_id : string;
  ca_environment : string;
  ca_install_id : string;
  ca_enabled : bool;
}.

(** The server URL is a [SecureWakeServerUrl]. *)
Record ReadyApnsWakeRegistrationConfig := mkReadyConfig {
  rc_server_url : string;
  rc_push_token : string;
  rc_app_id : string;
  rc_environment : string;
  rc_install_id : string;
  rc_enabled : bool;
}.

Record InvoiceSettlementMonitorConfig := mkMonitorConfig {
  mc_server_url : string;
  mc_install_id : string;
}.

Definition required_bounded (value : option string) : Result WakeHttpConfigError string :=
  match value with
  | Some value =>
      if Nat.eqb (length (trim (chars value))) 0 then Err MissingValue
      else if str_len value <=? MAX_CONFIG_VALUE_BYTES then Ok value
      else Err ValueTooLong
  | None => Err MissingValue
  end.

(** ** Requests *)

Record RegisterNwcPushPayload := mkRegisterPayload {
  rp_id : string;
  rp_connection_id : string;
  rp_connection_revision : Z;
  rp_push_service : string;
  rp_push_token : string;
  rp_app_id : string;
  rp_environment : string;
  rp_client_pubkey : string;
  rp_wallet_service_pubkey : string;
  rp_relay : string;
  rp_name : string;
  rp_enabled : bool;
}.

Record InvoiceSettlementMonitorPayload := mkMonitorPayload {
  mp_id : string;
  mp_request_event_id : string;
  mp_client_pubkey : string;
  mp_wallet_service_pubkey : string;
  mp_relay : string;
  mp_expires_at : Z;
  mp_enabled : bool;
  mp_trigger_token_hash : string;
}.

Class PushJson := {
  register_json : RegisterNwcPushPayload -> option (list Z);
  monitor_json : InvoiceSettlementMonitorPayload -> option (list Z);
}.

Inductive WakeHttpRegistrationError : Type :=
| ClientUnavailable
| InvalidBudget
| Http_Worker (e : WakeRegistrationWorkerError)
| Http_Outbox (e : WakeRegistrationError)
| Http_Ledger (e : LedgerError).

Record RegistrationPass := mkRegistrationPass {
  rs_applied : nat;
  rs_deferred : nat;
  rs_next_attempt_at : option Z;
}.

Definition classify_request_error (e : HttpFailure) : HostError :=
  match e with Http_TimedOut => TimedOut | Http_Builder => Internal | Http_Failed => Unavailable end.

Section Transport.
Context `{L : UrlLib} `{P : !UrlParts L} `{ED : !UrlEdit L} `{N : NostrLib} `{A : HttpAuth} `{PJ : PushJson}
  `{NK : NostrKeys} `{SH : Sha256}.

(** [ApnsWakeRegistrationConfig::ready]. *)
Definition ready (c : ApnsWakeRegistrationConfig) : Result WakeHttpConfigError ReadyApnsWakeRegistrationConfig :=
  let? server_url := required_bounded (ca_server_url c) in
  let? push_token := required_bounded (ca_push_token c) in
  let? app_id := required_bounded (Some (ca_app_id c)) in
  let? environment := required_bounded (Some (ca_environment c)) in
  let? install_id := required_bounded (Some (ca_install_id c)) in
  if negb (bool_decide (environment = "sandbox"%string) || bool_decide (environment = "production"%string))
  then Err InvalidEnvironment
  else
  let? server_url := map_err (fun _ => InsecureServerUrl) (SecureWakeServerUrl_parse server_url) in
  Ok (mkReadyConfig server_url push_token app_id environment install_id (ca_enabled c)).

(** [InvoiceSettlementMonitorConfig::new]. *)
Definition InvoiceSettlementMonitorConfig_new (server_url : option string) (install_id : string)
  : Result WakeHttpConfigError InvoiceSettlementMonitorConfig :=
  let? server_url := required_bounded server_url in
  let? install_id := required_bounded (Some install_id) in
  let? server_url := map_err (fun _ => InsecureServerUrl) (SecureWakeServerUrl_parse server_url) in
  Ok (mkMonitorConfig server_url install_id).

(** A path of the provider, under the configured one. *)
Definition endpoint_url (server_url path : string) : Result HostError Url :=
  let? base_url := ok_or Internal (url_parse server_url) in
  let base_url := if ends_with (as_bytes "/") (as_bytes (url_path base_url)) then base_url
                  else url_set_path base_url (url_path base_url ++ "/")%string in
  ok_or Internal (url_join base_url path).
Definition registration_endpoint_url (server_url : string) : Result HostError Url :=
  endpoint_url server_url "register-nwc-push".
Definition settlement_monitor_endpoint_url (server_url : string) : Result HostError Url :=
  endpoint_url server_url "monitor-nwc-invoice".

(** The registration of a change for one of its relays. *)
Definition register_payload (config : ReadyApnsWakeRegistrationConfig) (change : WakeRegistrationChange)
    (relay : string) : RegisterNwcPushPayload :=
  mkRegisterPayload (rc_install_id config) (wr_connection_id change) (wr_connection_revision change) "apns"
    (rc_push_token config) (rc_app_id config) (rc_environment config) (Hex32_to_hex (wr_client_pubkey change))
    (Hex32_to_hex (wr_wallet_service_pubkey change)) relay "NWC connection" (wr_enabled change).

(** The loop over the relays of [apply_change]. *)
Fixpoint register_relays (config : ReadyApnsWakeRegistrationConfig) (signing_key : Nip98SigningKey)
    (url endpoint : string) (change : WakeRegistrationChange) (relays : list string)
  : Prog (Result HostError unit) :=
  match relays with
  | [] => Ret (Ok tt)
  | relay :: rest =>
      match ok_or Internal (register_json (register_payload config change relay)) with
      | Err e => Ret (Err e)
      | Ok body =>
          let* now := call clock_now in
          let* entropy := call cipher_entropy in
          match map_err (fun _ => Internal) (for_registration_post endpoint body signing_key now entropy) with
          | Err e => Ret (Err e)
          | Ok auth =>
              let* response := call (http_post url auth body) in
              match response with
              | Err e => Ret (Err (classify_request_error e))
              | Ok status =>
                  if negb (status_is_success status)
                  then Ret (Err (if ((500 <=? status) && (status <=? 599)) || (status =? 429)
                                 then Unavailable else HostRejected))
                  else register_relays config signing_key url endpoint change rest
              end
          end
      end
  end.

(** [NwcPushTransport::apply_change]. *)
Definition apply_change (config : ReadyApnsWakeRegistrationConfig) (signing_key : Nip98SigningKey)
    (server_url : string) (change : WakeRegistrationChange) : Prog (Result HostError unit) :=
  match
    let? url := registration_endpoint_url server_url in
    let? endpoint := map_err (fun _ => Internal) (SecureWakeServerUrl_parse (url_to_string url)) in
    let? signing_pubkey := map_err (fun _ => Internal) (signing_public_key signing_key) in
    if negb (bool_decide (signing_pubkey = wr_wallet_service_pubkey change)) then Err HostRejected
    else Ok (url_to_string url, endpoint)
  with
  | Err e => Ret (Err e)
  | Ok (url, endpoint) => register_relays config signing_key url endpoint change (wr_relays change)
  end.

(** [run_registration_worker]: the transport, whose client could be [built], is the
    provider the worker calls. *)
Definition run_registration_worker (built : bool) (config : ReadyApnsWakeRegistrationConfig)
  : Prog (Result WakeHttpRegistrationError RegistrationPass) :=
  if negb built then Ret (Err ClientUnavailable)
  else
  match map_err (fun _ => InvalidBudget) (OperationBudget_new REGISTRATION_OPERATION_TIMEOUT) with
  | Err e => Ret (Err e)
  | Ok budget =>
      let* report := worker_run (rc_server_url config) REGISTRATION_BATCH_SIZE budget in
      match map_err Http_Worker report with
      | Err e => Ret (Err e)
      | Ok report =>
          let* next := ledger (read next_wake_registration_at) in
          Ret (let? next_attempt_at := map_err Http_Outbox next in
               Ok (mkRegistrationPass (wk_applied report) (wk_deferred report) next_attempt_at))
      end
  end.

(** The monitor of one created invoice for one relay, until [monitor_until]. *)
Definition monitor_payload (config : InvoiceSettlementMonitorConfig) (monitor : InvoiceSettlementMonitor)
    (monitor_until : Z) (relay : string) : InvoiceSettlementMonitorPayload :=
  mkMonitorPayload (mc_install_id config) (Hex32_to_hex (im_request_event_id monitor))
    (Hex32_to_hex (im_client_pubkey monitor)) (Hex32_to_hex (im_wallet_service_pubkey monitor)) relay
    monitor_until (negb (im_completed monitor)) (im_trigger_token_hash monitor).

Fixpoint monitor_relays (config : InvoiceSettlementMonitorConfig) (signing_key : Nip98SigningKey)
    (url endpoint : string) (monitor : InvoiceSettlementMonitor) (monitor_until : Z) (relays : list string)
  : Prog (Result WakeHttpRegistrationError bool) :=
  match relays with
  | [] => Ret (Ok true)
  | relay :: rest =>
      match ok_or ClientUnavailable (monitor_json (monitor_payload config monitor monitor_until relay)) with
      | Err e => Ret (Err e)
      | Ok body =>
          let* now := call clock_now in
          let* entropy := call cipher_entropy in
          match map_err (fun _ => ClientUnavailable) (for_registration_post endpoint body signing_key now entropy) with
          | Err e => Ret (Err e)
          | Ok auth =>
              let* response := call (http_post url auth body) in
              match response with
              | Err _ => Ret (Err ClientUnavailable)
              | Ok status =>
                  if negb (status_is_success status) then Ret (Err ClientUnavailable)
                  else monitor_relays config signing_key url endpoint monitor monitor_until rest
              end
          end
      end
  end.

Definition update_invoice_settlement_monitor (built : bool) (config : InvoiceSettlementMonitorConfig) (event_id : EventId)
    (signing_key : Nip98SigningKey) : Prog (Result WakeHttpRegistrationError bool) :=
  let* monitor := ledger (read (nwc_invoice_monitor event_id)) in
  match map_err Http_Ledger monitor with
  | Err e => Ret (Err e)
  | Ok None => Ret (Ok false)
  | Ok (Some monitor) =>
      match
        let? signing_pubkey := map_err (fun _ => ClientUnavailable) (signing_public_key signing_key) in
        if negb (bool_decide (signing_pubkey = im_wallet_service_pubkey monitor)) then Err ClientUnavailable
        else if negb built then Err ClientUnavailable
        else
        let? url := map_err (fun _ => ClientUnavailable) (settlement_monitor_endpoint_url (mc_server_url config)) in
        let? endpoint := map_err (fun _ => ClientUnavailable) (SecureWakeServerUrl_parse (url_to_string url)) in
        Ok (url_to_string url, endpoint)
      with
      | Err e => Ret (Err e)
      | Ok (url, endpoint) =>
          let* now := call clock_now in
          let monitor_until := Z.min (im_expires_at monitor)
            (saturating_add_u64 now (duration_as_secs MAX_SETTLEMENT_MONITOR_DURATION)) in
          monitor_relays config signing_key url endpoint monitor monitor_until (im_relays monitor)
      end
  end.

(** [InvoiceSettlementCompletion::complete], after the key was loaded. *)
Definition complete_settlement (built : bool) (config : InvoiceSettlementMonitorConfig) (event_id : EventId)
    (load_key : Result HostError Nip98SigningKey) : Prog (Result HostError unit) :=
  let* cancelled := call is_cancelled in
  if (cancelled : bool) then Ret (Err Cancelled)
  else
    match load_key with
    | Err e => Ret (Err e)
    | Ok signing_key =>
        let* updated := update_invoice_settlement_monitor built config event_id signing_key in
        Ret (map_err (fun _ => Unavailable) (let? _ := updated in Ok tt))
    end.

End Transport.

(** ** Public addresses

    The reference: an address as one number, against the blocks of the IANA
    registries of special-purpose addresses that are not for hosts of the public
    internet, and the multicast blocks. *)

Definition in_block (width n base len : Z) : bool := n / 2 ^ (width - len) =? base / 2 ^ (width - len).
Definition ipv4_number (a b c d : Z) : Z := ((a * 256 + b) * 256 + c) * 256 + d.
Definition ipv6_number (segments : list Z) : Z := fold_left (fun n s => n * 65536 + s) segments 0.
(** An IPv6 block by the leading segments of its base. *)
Definition block6 (segments : list Z) (len : Z) : Z * Z :=
  (ipv6_number (segments ++ repeat 0 (8 - length segments)), len).
Definition octet (b : Z) : Prop := 0 <= b <= 255.

(** "This network", private use, shared address space, loopback, link-local,
    private use, IETF protocol assignments, documentation, private use,
    benchmarking, documentation twice, multicast, reserved with the limited
    broadcast, and the former 6to4 relay anycast. *)
Definition special_ipv4_blocks : list (Z * Z) :=
  [(ipv4_number 0 0 0 0, 8); (ipv4_number 10 0 0 0, 8); (ipv4_number 100 64 0 0, 10); (ipv4_number 127 0 0 0, 8);
   (ipv4_number 169 254 0 0, 16); (ipv4_number 172 16 0 0, 12); (ipv4_number 192 0 0 0, 24);
   (ipv4_number 192 0 2 0, 24); (ipv4_number 192 168 0 0, 16); (ipv4_number 198 18 0 0, 15);
   (ipv4_number 198 51 100 0, 24); (ipv4_number 203 0 113 0, 24); (ipv4_number 224 0 0 0, 4);
   (ipv4_number 240 0 0 0, 4); (ipv4_number 192 88 99 0, 24)].
(** The unspecified and the loopback address, IPv4-mapped, local translation,
    discard-only, segment routing, unique-local, link-local, multicast,
    documentation twice, the IETF protocol assignments with Teredo, and 6to4. *)
Definition special_ipv6_blocks : list (Z * Z) :=
  [block6 [] 128; block6 [0; 0; 0; 0; 0; 0; 0; 1] 128; block6 [0; 0; 0; 0; 0; 0xffff] 96;
   block6 [0x64; 0xff9b; 1] 48; block6 [0x100] 64; block6 [0x5f00] 16; block6 [0xfc00] 7; block6 [0xfe80] 10;
   block6 [0xff00] 8; block6 [0x2001; 0xdb8] 32; block6 [0x3fff] 20; block6 [0x2001] 23; block6 [0x2002] 16].

(** The blocks the filter does not know as a whole; of the protocol assignments it
    refuses benchmarking, here /32 in place of the registry's /48, and the two
    ORCHID blocks. *)
Definition passed_ipv4_blocks : list (Z * Z) := [(ipv4_number 192 88 99 0, 24)].
Definition passed_ipv6_blocks : list (Z * Z) := [block6 [0x2001] 23; block6 [0x2002] 16].
Definition refused_assignments : list (Z * Z) :=
  [block6 [0x2001; 2] 32; block6 [0x2001; 0x10] 28; block6 [0x2001; 0x20] 28].

Definition outside (width n : Z) (blocks : list (Z * Z)) (except : list (Z * Z)) : Prop :=
  forall block, block ∈ blocks -> block ∉ except -> in_block width n block.1 block.2 = false.

Definition globally_routable (address : SocketAddr) : Prop :=
  match address with
  | SocketV4 a b c d _ => outside 32 (ipv4_number a b c d) special_ipv4_blocks passed_ipv4_blocks
  | SocketV6 segments _ _ _ =>
      let n := ipv6_number segments in
      in_block 128 n (block6 [0x2000] 3).1 3 = true
      /\ outside 128 n special_ipv6_blocks passed_ipv6_blocks /\ outside 128 n refused_assignments []
  end.

Definition socket_typed (address : SocketAddr) : Prop :=
  match address with
  | SocketV4 a b c d _ => octet a /\ octet b /\ octet c /\ octet d
  | SocketV6 segments _ _ _ => length segments = 8%nat /\ Forall (fun s => 0 <= s <= 65535) segments
  end.

Lemma outside_Forall width n refused except :
  Forall (fun block => block ∉ except) refused ->
  outside width n (refused ++ except) except <-> Forall (fun block => in_block width n block.1 block.2 = false) refused.
Proof.
  intros Hr. rewrite Forall_forall in Hr |- *. unfold outside. split.
  - intros H block Hb. apply H; [apply elem_of_app; by left|auto].
  - intros H block [Hb|Hb]%elem_of_app Hn; [auto|done].
Qed.

Lemma block_tests a b : octet a -> octet b ->
  (a * 4 + b / 64 <> 401 <-> (a <> 100 \/ b < 64 \/ 127 < b))
  /\ (a * 16 + b / 16 <> 2753 <-> ((a <> 172 \/ b < 16) \/ 31 < b))
  /\ (a * 128 + b / 2 <> 25353 <-> (a <> 198 \/ b <> 18 /\ b <> 19))
  /\ (a / 16 <> 14 /\ a / 16 <> 15 <-> (a < 224 \/ 239 < a) /\ a < 240)
  /\ (a * 256 + b <> 43518 <-> a <> 169 \/ b <> 254)
  /\ (a * 256 + b <> 49320 <-> a <> 192 \/ b <> 168).
Proof. unfold octet. intros ??. split_and!; Z.to_euclidean_division_equations; lia. Qed.

Lemma block24_tests a b c : octet a -> octet b -> octet c ->
  ((a * 256 + b) * 256 + c <> 12582912 <-> ((a <> 192 \/ b <> 0) \/ c <> 0))
  /\ ((a * 256 + b) * 256 + c <> 12582914 <-> ((a <> 192 \/ b <> 0) \/ c <> 2))
  /\ ((a * 256 + b) * 256 + c <> 12989284 <-> ((a <> 198 \/ b <> 51) \/ c <> 100))
  /\ ((a * 256 + b) * 256 + c <> 13303921 <-> ((a <> 203 \/ b <> 0) \/ c <> 113)).
Proof. unfold octet. intros ???. split_and!; lia. Qed.

Lemma public_ipv4_blocks a b c d port : octet a -> octet b -> octet c -> octet d ->
  is_public_ipv4 a b c d = true <-> globally_routable (SocketV4 a b c d port).
Proof.
  unfold octet. intros Ha Hb Hc Hd. unfold globally_routable.
  change special_ipv4_blocks with (take 14 special_ipv4_blocks ++ passed_ipv4_blocks).
  rewrite outside_Forall by (by apply (bool_decide_unpack _); vm_compute).
  set (n := ipv4_number a b c d).
  assert (n / 2 ^ 8 = (a * 256 + b) * 256 + c /\ n / 2 ^ 16 = a * 256 + b /\ n / 2 ^ 24 = a
    /\ n / 2 ^ 22 = a * 4 + b / 64 /\ n / 2 ^ 20 = a * 16 + b / 16 /\ n / 2 ^ 17 = a * 128 + b / 2
    /\ n / 2 ^ 28 = a / 16) as (E8 & E16 & E24 & E22 & E20 & E17 & E28).
  { subst n. unfold ipv4_number. cbn. split_and!; Z.to_euclidean_division_equations; lia. }
  unfold special_ipv4_blocks. cbn [take]. rewrite !Forall_cons, Forall_nil. unfold in_block. cbn [fst snd].
  change (32 - 8) with 24. change (32 - 10) with 22. change (32 - 16) with 16. change (32 - 12) with 20.
  change (32 - 24) with 8. change (32 - 15) with 17. change (32 - 4) with 28.
  rewrite E8, E16, E24, E22, E20, E17, E28. unfold is_public_ipv4, is_private, is_loopback, is_link_local,
    is_broadcast, is_documentation, is_multicast, is_unspecified, ipv4_number. cbn -[Z.div].
  repeat match goal with
  | |- context [Z.div ?x ?y] =>
      let v := eval vm_compute in (Z.div x y) in
      match v with Z0 => idtac | Zpos _ => idtac end; change (Z.div x y) with v
  end.
  rewrite !andb_true_iff, !negb_true_iff, !orb_false_iff, !andb_false_iff, !orb_false_iff, !Z.eqb_neq, !Z.leb_gt,
    !Z.ltb_lt.
  clear n E8 E16 E24 E22 E20 E17 E28. pose proof (block_tests a b Ha Hb) as (-> & -> & -> & E28 & -> & ->).
  pose proof (block24_tests a b c Ha Hb Hc) as (-> & -> & -> & ->).
  assert (a < 240 -> ((a <> 255 \/ b <> 255) \/ c <> 255) \/ d <> 255) as Hcast by lia.
  split; intros H; repeat match goal with H : _ /\ _ |- _ => destruct H end;
    repeat match goal with |- _ /\ _ => split end; try assumption; try (apply E28; by split).
  - done.
  - apply Hcast, E28; by split.
  - by left; left; left.
Qed.

(** The high bits of a 16-bit word, selected by a mask. *)
Lemma mask_high x k : 0 <= x <= 65535 -> 0 <= k ->
  Z.land x (Z.ldiff (Z.ones 16) (Z.ones k)) = x / 2 ^ k * 2 ^ k.
Proof.
  intros Hx Hk. rewrite <- Z.shiftr_div_pow2, <- Z.shiftl_mul_pow2, <- Z.ldiff_ones_r by lia.
  assert (x = Z.land x (Z.ones 16)) as E by (rewrite Z.land_ones, Z.mod_small; lia).
  apply Z.bits_inj'. intros n Hn. rewrite E at 2. rewrite !Z.land_spec, !Z.ldiff_spec, !Z.land_spec. btauto.
Qed.

(** The first two segments decide a block of length at most 32. *)
Definition ipv6_prefix (s0 s1 : Z) : Z := s0 * 65536 + s1.

Lemma block_prefix prefix low base len :
  0 <= low < 2 ^ 96 -> 0 <= len <= 32 ->
  in_block 128 (prefix * 2 ^ 96 + low) (base * 2 ^ 96) len = in_block 32 prefix base len.
Proof.
  intros Hlow Hlen. unfold in_block. replace (2 ^ (128 - len)) with (2 ^ 96 * 2 ^ (32 - len))
    by (rewrite <- Z.pow_add_r by lia; f_equal; lia).
  assert (0 < 2 ^ (32 - len)) by (apply Z.pow_pos_nonneg; lia).
  rewrite <- !Z.div_div by lia. rewrite Z.div_add_l, (Z.div_small low), Z.add_0_r, Z.div_mul by lia. done.
Qed.

(** A block lies in every shorter block of its base. *)
Lemma block_shorter width n base len len' : 0 <= len' <= len -> len <= width ->
  in_block width n base len = true -> in_block width n base len' = true.
Proof.
  intros Hl Hw. unfold in_block. rewrite !Z.eqb_eq. intros H.
  replace (2 ^ (width - len')) with (2 ^ (width - len) * 2 ^ (len - len'))
    by (rewrite <- Z.pow_add_r by lia; f_equal; lia).
  assert (0 < 2 ^ (width - len) /\ 0 < 2 ^ (len - len')) as [] by (split; apply Z.pow_pos_nonneg; lia).
  rewrite <- !Z.div_div, H by lia. done.
Qed.

Lemma not_unicast n block : in_block 128 n (block6 [0x2000] 3).1 3 = true -> 3 <= block.2 <= 128 ->
  in_block 128 block.1 (block6 [0x2000] 3).1 3 = false -> in_block 128 n block.1 block.2 = false.
Proof.
  intros Hn Hlen Hb. apply not_true_iff_false. intros H. apply (block_shorter _ _ _ _ 3) in H; [|lia..].
  unfold in_block in *. rewrite Z.eqb_eq in Hn, H. rewrite Z.eqb_neq in Hb. congruence.
Qed.

Lemma prefix_decides s0 s1 rest : 0 <= s0 <= 65535 -> 0 <= s1 <= 65535 ->
  let p := ipv6_prefix s0 s1 in
  is_public_ipv6 (s0 :: s1 :: rest) = true <->
  in_block 32 p (ipv6_prefix 0x2000 0) 3 = true
  /\ (in_block 32 p (ipv6_prefix 0x2001 0xdb8) 32 = false /\ in_block 32 p (ipv6_prefix 0x3fff 0) 20 = false /\ True)
  /\ in_block 32 p (ipv6_prefix 0x2001 2) 32 = false /\ in_block 32 p (ipv6_prefix 0x2001 0x10) 28 = false
  /\ in_block 32 p (ipv6_prefix 0x2001 0x20) 28 = false /\ True.
Proof.
  intros H0 H1. cbv zeta. set (n := ipv6_prefix s0 s1).
  assert (n / 2 ^ 29 = s0 / 2 ^ 13 /\ n / 2 ^ 0 = s0 * 65536 + s1 /\ n / 2 ^ 4 = s0 * 4096 + s1 / 2 ^ 4
    /\ n / 2 ^ 12 = s0 * 16 + s1 / 2 ^ 12) as (E29 & E0 & E4 & E12).
  { subst n. unfold ipv6_prefix. cbn. split_and!; Z.to_euclidean_division_equations; lia. }
  unfold in_block.
  change (32 - 3) with 29. change (32 - 32) with 0. change (32 - 28) with 4. change (32 - 20) with 12.
  rewrite E29, E0, E4, E12. unfold is_public_ipv6, ipv6_prefix. cbn [nth].
  change 0xe000 with (Z.ldiff (Z.ones 16) (Z.ones 13)). change 0xfff0 with (Z.ldiff (Z.ones 16) (Z.ones 4)).
  change 0xf000 with (Z.ldiff (Z.ones 16) (Z.ones 12)). rewrite !mask_high by lia.
  rewrite !andb_true_iff, !negb_true_iff, !andb_false_iff, !orb_false_iff, !Z.eqb_neq, !Z.eqb_eq.
  clear n E29 E0 E4 E12. cbn. Z.to_euclidean_division_equations. lia.
Qed.

Lemma number_prefix s0 s1 rest : length rest = 6%nat -> Forall (fun s => 0 <= s <= 65535) rest ->
  exists low, 0 <= low < 2 ^ 96 /\ ipv6_number (s0 :: s1 :: rest) = ipv6_prefix s0 s1 * 2 ^ 96 + low.
Proof.
  intros Hl Hs. do 6 (destruct rest as [|? rest]; [done|]). destruct rest; [|done].
  rewrite !Forall_cons in Hs. destruct Hs as (? & ? & ? & ? & ? & ? & _).
  unfold ipv6_number, ipv6_prefix. cbn [fold_left].
  match goal with |- exists low, _ /\ ?n = ?p * ?q + low => exists (n - p * q) end. lia.
Qed.

Lemma public_ipv6_blocks segments port flowinfo scope_id :
  socket_typed (SocketV6 segments port flowinfo scope_id) ->
  is_public_ipv6 segments = true <-> globally_routable (SocketV6 segments port flowinfo scope_id).
Proof.
  intros (Hl & Hs). unfold globally_routable. cbv zeta.
  destruct segments as [|s0 [|s1 rest]]; [done..|]. rewrite !Forall_cons in Hs. destruct Hs as (H0 & H1 & Hrest).
  destruct (number_prefix s0 s1 rest) as (low & Hlow & ->); [by injection Hl|done|].
  set (n := ipv6_prefix s0 s1 * 2 ^ 96 + low).
  change special_ipv6_blocks with (take 11 special_ipv6_blocks ++ passed_ipv6_blocks).
  rewrite <- (app_nil_r refused_assignments), !outside_Forall
    by first [by apply (bool_decide_unpack _); vm_compute|by apply Forall_true; intros ? ?%elem_of_nil].
  assert (in_block 128 n (block6 [0x2000] 3).1 3 = true ->
    Forall (fun block => in_block 128 n block.1 block.2 = false) (take 9 special_ipv6_blocks)) as Hfar.
  { intros Hn. cbn [take special_ipv6_blocks]. repeat (apply Forall_cons; split; [by apply not_unicast|]). done. }
  assert (Forall (fun block => in_block 128 n block.1 block.2 = false) (take 11 special_ipv6_blocks)
    <-> Forall (fun block => in_block 128 n block.1 block.2 = false) (take 9 special_ipv6_blocks)
        /\ Forall (fun block => in_block 128 n block.1 block.2 = false) [block6 [0x2001; 0xdb8] 32; block6 [0x3fff] 20])
    as -> by (rewrite <- Forall_app; done).
  assert (is_public_ipv6 (s0 :: s1 :: rest) = true <-> in_block 128 n (block6 [0x2000] 3).1 3 = true
    /\ Forall (fun block => in_block 128 n block.1 block.2 = false) [block6 [0x2001; 0xdb8] 32; block6 [0x3fff] 20]
    /\ Forall (fun block => in_block 128 n block.1 block.2 = false) refused_assignments) as ->; [|tauto].
  unfold refused_assignments. rewrite !Forall_cons, !Forall_nil. subst n. cbn [fst snd block6].
  change (ipv6_number ([0x2000] ++ _)) with (ipv6_prefix 0x2000 0 * 2 ^ 96).
  change (ipv6_number ([0x2001; 0xdb8] ++ _)) with (ipv6_prefix 0x2001 0xdb8 * 2 ^ 96).
  change (ipv6_number ([0x3fff] ++ _)) with (ipv6_prefix 0x3fff 0 * 2 ^ 96).
  change (ipv6_number ([0x2001; 2] ++ _)) with (ipv6_prefix 0x2001 2 * 2 ^ 96).
  change (ipv6_number ([0x2001; 0x10] ++ _)) with (ipv6_prefix 0x2001 0x10 * 2 ^ 96).
  change (ipv6_number ([0x2001; 0x20] ++ _)) with (ipv6_prefix 0x2001 0x20 * 2 ^ 96).
  rewrite !block_prefix by lia. by apply prefix_decides.
Qed.

(** C34: Which addresses the code's filter takes for public.  An IPv4 address passes
    exactly when it lies in none of the special-purpose blocks, the former 6to4
    relay anycast block 192.88.99.0/24 excepted.  An IPv6 address passes exactly
    when it lies in the global unicast block 2000::/3 and in none of the special-
    purpose blocks but 2002::/16 and 2001::/23, nor in the three assignments of
    the latter the filter refuses.  The excepted blocks do pass: the relay
    anycast address, the 6to4 addresses of a private network, and Teredo. *)
Theorem public_address_spec address : socket_typed address ->
  (is_public_socket_address address = true <-> globally_routable address)
  /\ forall port flowinfo scope_id,
       is_public_socket_address (SocketV4 192 88 99 1 port) = true
       /\ is_public_socket_address (SocketV6 [0x2002; 0x0a00; 1; 0; 0; 0; 0; 1] port flowinfo scope_id) = true
       /\ is_public_socket_address (SocketV6 [0x2001; 0; 0x4136; 0xe378; 0; 0; 0; 1] port flowinfo scope_id) = true.
Proof.
  intros Ht. split; [|done].
  destruct address; [destruct Ht as (?&?&?&?); by apply public_ipv4_blocks | by apply public_ipv6_blocks].
Qed.

(** ** Icon downloads *)

Lemma elem_of_dedup {A} `{EqDecision A} (l : list A) x : x ∈ dedup l <-> x ∈ l.
Proof.
  induction l as [|a [|b l] IH]; [done..|]. cbn [dedup].
  destruct (bool_decide_reflect (a = b)) as [->|Hab].
  - rewrite IH, !elem_of_cons. tauto.
  - by rewrite elem_of_cons, IH, (elem_of_cons (b :: l) x a).
Qed.

Lemma elem_of_filter_public addresses x :
  x ∈ dedup (order_by socket_order (List.filter is_public_socket_address addresses))
  <-> x ∈ addresses /\ is_public_socket_address x = true.
Proof.
  rewrite elem_of_dedup, order_by_Permutation, !list_elem_of_In, filter_In. done.
Qed.

(** Reading succeeds exactly on chunks that all arrive and fit. *)
Lemma read_icon_Ok chunks : forall bytes r, Z.of_nat (length bytes) <= MAX_APPLICATION_ICON_BYTES ->
  read_icon bytes chunks = Ok r ->
  Z.of_nat (length r) <= MAX_APPLICATION_ICON_BYTES
  /\ exists parts, chunks = Ok <$> parts /\ r = bytes ++ concat parts.
Proof.
  induction chunks as [|[c|e] chunks IH]; intros bytes r Hb H; cbn [read_icon] in H; [|pass_guard H Hm|done].
  - injection H as <-. split; [done|]. exists []. by rewrite app_nil_r.
  - apply IH in H as (Hr & parts & -> & ->).
    + split; [done|]. exists (c :: parts). by rewrite <- (assoc_L (++)).
    + apply Z.ltb_ge in Hm. rewrite length_app, Nat2Z.inj_add. unfold saturating_add_u64, u64_max in Hm.
      unfold MAX_APPLICATION_ICON_BYTES in *. lia.
Qed.

Section IconProofs.
Context `{L : UrlLib} `{ED : !UrlEdit L}.

(** A download that gives an icon connected only to addresses the resolver
    answered among its first sixteen for the URL's host and port and that are
    public, took a successful image response, and gives its whole body, of 1 byte
    to 5 MiB. *)
Theorem icon_download_bounded remote_url resolve joined built fetch bytes
    (Hrun : download_application_icon remote_url resolve joined built fetch = Ok bytes) :
  1 <= Z.of_nat (length bytes) <= MAX_APPLICATION_ICON_BYTES
  /\ exists url host port addresses targets response parts,
    url_parse remote_url = Some url /\ url_host_str url = Some host /\ url_known_port url = Some port
    /\ resolve host port = Some addresses /\ fetch targets = Ok response
    /\ targets <> [] /\ (forall a, a ∈ targets <-> a ∈ take 16 addresses /\ is_public_socket_address a = true)
    /\ 200 <= ir_status response <= 299
    /\ (exists value, ir_content_type response = Some value /\ is_image value = true)
    /\ ir_chunks response = Ok <$> parts /\ bytes = concat parts.
Proof.
  unfold download_application_icon in Hrun.
  apply bind_Ok in Hrun as (url & Hurl & H). apply bind_Ok in H as (host & Hhost & H).
  apply bind_Ok in H as (port & Hport & H). apply bind_Ok in H as (addresses & Haddr & H).
  apply ok_or_Ok in Hurl, Hhost, Hport.
  apply map_err_Ok, resolve_socket_addresses_Ok in Haddr as (_ & _ & all & Hall & ->).
  pass_guard H Hne. pass_guard H Hbuilt. apply bind_Ok in H as (response & Hf & H). apply map_err_Ok in Hf.
  pass_guard H Hstatus. pass_guard H Htype. pass_guard H Hlen.
  apply bind_Ok in H as (read & Hread & H). pass_guard H Hempty. injection H as ->.
  apply read_icon_Ok in Hread as (Hmax & parts & Hparts & Hcat); [|done].
  apply negb_false_iff in Hstatus, Htype. unfold status_is_success in Hstatus.
  apply andb_true_iff in Hstatus as [H1 H2]. apply Z.leb_le in H1, H2. apply Nat.eqb_neq in Hempty, Hne.
  split; [lia|].
  exists url, host, port, all, (dedup (order_by socket_order (List.filter is_public_socket_address (take 16 all)))),
    response, parts.
  split_and!; try done.
  - intros E. by rewrite E in Hne.
  - apply elem_of_filter_public.
  - destruct (ir_content_type response) as [value|]; [by exists value|done].
Qed.
End IconProofs.

(** ** Registration requests *)

(** A request that was sent: where, with what, and its answer. *)
Record Post := mkPost {
  po_url : string;
  po_authorization : string;
  po_body : list Z;
  po_answer : Result HttpFailure Z;
}.

Definition posts_note (X : Type) (c : HostCall X) : X -> list Post -> list Post :=
  match c in HostCall X return X -> list Post -> list Post with
  | http_post url authorization body => fun answer posts => posts ++ [mkPost url authorization body answer]
  | _ => fun _ posts => posts
  end.

(** What the answer to one request means for the registration. *)
Definition post_result (p : Post) : Result HostError unit :=
  match po_answer p with
  | Err e => Err (classify_request_error e)
  | Ok status =>
      if status_is_success status then Ok tt
      else Err (if ((500 <=? status) && (status <=? 599)) || (status =? 429) then Unavailable else HostRejected)
  end.

Definition accepted (p : Post) : Prop := post_result p = Ok tt.

Section PostProofs.
Context `{L : UrlLib} `{P : !UrlParts L} `{ED : !UrlEdit L} `{N : NostrLib} `{A : HttpAuth} `{PJ : PushJson}
  `{NK : NostrKeys} `{SH : Sha256}.
Variables (config : ReadyApnsWakeRegistrationConfig) (signing_key : Nip98SigningKey) (change : WakeRegistrationChange).

(** A request that registers the change for a relay, authorized by the key. *)
Definition registers (url endpoint relay : string) (p : Post) : Prop :=
  po_url p = url /\ register_json (register_payload config change relay) = Some (po_body p)
  /\ exists now entropy, for_registration_post endpoint (po_body p) signing_key now entropy = Ok (po_authorization p).

(** The requests went to the relays in order, each after the one before it was
    accepted, and the result is that of the last. *)
Definition posts_match (url endpoint : string) (relays : list string) (posts : list Post)
    (r : Result HostError unit) : Prop :=
  exists sent rest, relays = sent ++ rest /\ Forall2 (registers url endpoint) sent posts
    /\ match r with
       | Ok _ => rest = [] /\ Forall accepted posts
       | Err e => (Forall accepted posts /\ rest <> [] /\ e = Internal)
                  \/ exists before p, posts = before ++ [p] /\ Forall accepted before /\ post_result p = Err e
       end.

Lemma register_relays_ends url endpoint rest : forall sent posts,
  Forall2 (registers url endpoint) sent posts -> Forall accepted posts ->
  ends_in posts_note id (posts_match url endpoint (sent ++ rest)) posts
    (register_relays config signing_key url endpoint change rest).
Proof.
  induction rest as [|relay rest IH]; intros sent posts Hsent Hacc.
  { exists sent, []. by split_and!. }
  assert (forall e, e = Internal -> posts_match url endpoint (sent ++ relay :: rest) posts (Err e)) as Hfail.
  { intros e ->. exists sent, (relay :: rest). split_and!; [done..|]. left. by split_and!. }
  cbn [register_relays]. destruct (register_json _) as [body|] eqn:Ejson; cbn [ok_or]; [|by apply Hfail].
  unfold call. cbn [bind ends_in posts_note]. intros now entropy.
  destruct (for_registration_post endpoint body signing_key now entropy) as [auth|e] eqn:Eauth;
    cbn [map_err]; [|by apply Hfail].
  cbn [bind ends_in posts_note]. intros answer.
  set (p := mkPost url auth body answer).
  assert (Forall2 (registers url endpoint) (sent ++ [relay]) (posts ++ [p])) as Hsent'.
  { apply Forall2_app; [done|]. apply Forall2_cons; split; [|done]. split_and!; [done|done|by exists now, entropy]. }
  replace (sent ++ relay :: rest) with ((sent ++ [relay]) ++ rest) by by rewrite <- (assoc_L (++)).
  assert (forall e, post_result p = Err e ->
    posts_match url endpoint ((sent ++ [relay]) ++ rest) (posts ++ [p]) (Err e)) as Hlast.
  { intros e He. exists (sent ++ [relay]), rest. split_and!; [done..|]. right. by exists posts, p. }
  destruct answer as [status|e]; [|by apply Hlast].
  destruct (status_is_success status) eqn:Est; cbn [negb].
  - apply IH; [done|]. apply Forall_app; split; [done|]. apply Forall_singleton. unfold accepted, post_result.
    cbn [p po_answer]. by rewrite Est.
  - apply Hlast. unfold post_result. cbn [p po_answer]. by rewrite Est.
Qed.

(** C33: Whatever the provider answers, a change is registered with one request
    per relay, in the order of its relays and each sent only after the one before
    it was accepted; it counts as applied only when every relay was accepted, and
    nothing is sent unless the signing key is the change's wallet key. *)
Theorem registration_posts env server_url d d' posts r
    (Hrun : rtc (history_step posts_note id env)
      (apply_change config signing_key server_url change, d, []) (Ret r, d', posts)) :
  (posts = [] /\ r <> Ok tt)
  \/ exists u endpoint, signing_public_key signing_key = Ok (wr_wallet_service_pubkey change)
       /\ registration_endpoint_url server_url = Ok u
       /\ SecureWakeServerUrl_parse (url_to_string u) = Ok endpoint
       /\ posts_match (url_to_string u) endpoint (wr_relays change) posts r.
Proof.
  pattern posts, r. eapply ends_in_adequate; [|exact Hrun]. unfold apply_change.
  match goal with |- ends_in _ _ _ _ (match ?x with _ => _ end) => destruct x as [[url endpoint]|e] eqn:E end;
    [|by left].
  apply bind_Ok in E as (u & Hu & H). apply bind_Ok in H as (s & Hs & H). apply bind_Ok in H as (pk & Hpk & H).
  pass_guard H Hkey. injection H as <- <-. apply map_err_Ok in Hs, Hpk.
  apply negb_false_iff, bool_decide_eq_true in Hkey as ->.
  eapply ends_in_mono; [|apply (register_relays_ends _ s (wr_relays change) [] []); constructor].
  intros posts' r' Hm. right. by exists u, s.
Qed.
End PostProofs.

(** ** Concrete runs *)

Definition provider_urls : @UrlEdit link_urls :=
  @Build_UrlEdit link_urls (fun _ => Some 443) (fun u _ => u)
    (fun (u : string) path => Some (u ++ "/" ++ path)%string).
Definition provider_auth : HttpAuth := {|
  http_auth_event := fun _ _ _ _ _ _ => Some "{}"%string;
  sha256_hash := fun _ => repeat 0 32;
  base64_standard := fun _ => "e30="%string |}.
Definition provider_json : PushJson := {|
  register_json := fun p => Some (as_bytes (rp_relay p));
  monitor_json := fun p => Some (as_bytes (mp_relay p)) |}.
Definition provider_config : ReadyApnsWakeRegistrationConfig :=
  mkReadyConfig "https://push.example" "token" "app" "sandbox" "install" true.

Lemma public_address_spec_witness :
  (is_public_socket_address (SocketV4 172 32 0 1 443) = true <-> globally_routable (SocketV4 172 32 0 1 443))
  /\ is_public_socket_address (SocketV4 172 32 0 1 443) = true.
Proof. split; [apply (public_address_spec (SocketV4 172 32 0 1 443)); cbn; unfold octet; lia | reflexivity]. Defined.

Definition download_sample (addresses : list SocketAddr) := @download_application_icon link_urls provider_urls
  "https://app.example/icon.png" (fun _ _ => Some addresses) true true
  (fun _ => Ok (mkIconResponse 200 (Some "Image/PNG; q=1"%string) (Some 5) [Ok [1; 2]; Ok [3; 4; 5]])).

Lemma icon_download_bounded_witness :
  download_sample [SocketV4 10 0 0 1 443; SocketV4 8 8 8 8 443] = Ok [1; 2; 3; 4; 5]
  /\ 1 <= Z.of_nat (length [1; 2; 3; 4; 5]) <= MAX_APPLICATION_ICON_BYTES
  /\ download_sample [SocketV4 10 0 0 1 443] = Err Icon_PrivateAddress.
Proof.
  assert (download_sample [SocketV4 10 0 0 1 443; SocketV4 8 8 8 8 443] = Ok [1; 2; 3; 4; 5]) as E
    by (vm_compute; reflexivity).
  split; [exact E|]. split; [exact (proj1 (@icon_download_bounded link_urls provider_urls _ _ _ _ _ _ E))|].
  vm_compute. reflexivity.
Defined.

Definition register_sample : Prog (Result HostError unit) :=
  @apply_change link_urls link_parts provider_urls sample_nostr provider_auth provider_json provider_config
    (repeat 8 32) "https://push.example" sample_change.
Definition registered := history_after posts_note id accepting_host 6 register_sample empty_database [].

Lemma registered_end : registered.1.1 = Ret (Ok tt) /\ length registered.2 = 2%nat.
Proof. vm_compute. by split. Qed.

Lemma registration_posts_witness :
  exists d' posts, rtc (history_step posts_note id alone) (register_sample, empty_database, []) (Ret (Ok tt), d', posts)
    /\ length posts = 2%nat /\ Forall accepted posts.
Proof.
  destruct registered_end as [E1 E2].
  pose proof (history_after_reaches posts_note id alone accepting_host accepting_host_typed 6 register_sample
    empty_database []) as Hrun.
  fold registered in Hrun. destruct registered as [[p d'] posts]. cbn in E1, E2. subst p.
  exists d', posts. split; [exact Hrun|]. split; [exact E2|].
  destruct (@registration_posts link_urls link_parts provider_urls sample_nostr provider_auth provider_json
    provider_config (repeat 8 32) sample_change alone "https://push.example" empty_database d' posts (Ok tt) Hrun)
    as [[-> _]|(u & endpoint & _ & _ & _ & sent & rest & _ & _ & _ & H)]; [done|exact H].
Defined.
