(* ===== verification/Application.v ===== *)
(** * The application workflow

    Models [application.rs]: the connections an application creates, approves,
    exports and revokes, over the mobile service and the platform's store of
    client secrets.  The [nostr] crate's keys, relay URLs and connection URIs are
    parameters ([NostrUri]). *)
From stdpp Require Import strings.
From S2P Require Import Prelude Sqlite Types Text Policy Host Nwa Schema Ledger Registry Metadata Program ConnectionService MobileService.
#[local] Open Scope Z_scope.

Definition DEFAULT_MAXIMUM_CONNECTION_RELAYS : Z := 2.
Definition CLIENT_SECRET_KEY_PREFIX : string := "nwc_client_secret:".

(** The [nostr] crate: [PublicKey::from_hex], [SecretKey::parse],
    [RelayUrl::parse] and the text of [NostrWalletConnectURI::new]. *)
Class NostrUri := {
  NostrRelayUrl : Type;
  nostr_public_key_from_hex : string -> option PublicKey;
  nostr_secret_key_parse : string -> option NwcSecretKey;
  nostr_relay_url_parse : string -> option NostrRelayUrl;
  wallet_connect_uri : PublicKey -> list NostrRelayUrl -> NwcSecretKey -> option string -> string;
}.

Inductive ApplicationError : Type :=
| App_MissingRelay | App_TooManyRelays | App_InvalidRelay | App_InvalidKey | App_InvalidConnection.

#[export] Instance ApplicationError_eq_dec : EqDecision ApplicationError.
Proof. solve_decision. Defined.

Inductive ApplicationWorkflowError : Type :=
| InvalidInput (e : ApplicationError)
| Workflow_Service (e : MobileServiceError)
| SecretStoreUnavailable
| ClientSecretUnavailable
| CallbackPending.

(** ** Input *)

(** [char::is_whitespace] or a comma. *)
Definition relay_separator (c : Z) : bool := is_whitespace c || (c =? 44).

Section Relays.
Context `{L : UrlLib}.

(** The loop over the pieces of the input: the relays kept so far, in order. *)
Fixpoint keep_relays (pieces : list (list Z)) (relays : list string) : Result ApplicationError (list string) :=
  match pieces with
  | [] => Ok relays
  | piece :: rest =>
      let relay := trim piece in
      if Nat.eqb (length relay) 0 then keep_relays rest relays
      else
      let? secure := map_err (fun _ => App_InvalidRelay) (SecureRelayUrl_parse (of_chars relay)) in
      keep_relays rest (if bool_decide (secure ∈ relays) then relays else relays ++ [secure])
  end.

Definition parse_connection_relays (input fallback : string) (maximum_relays : Z)
  : Result ApplicationError (list string) :=
  let selected := if Nat.eqb (length (trim (chars input))) 0 then fallback else input in
  let? relays := keep_relays (split_on relay_separator (chars selected)) [] in
  if Nat.eqb (length relays) 0 then Err App_MissingRelay
  else if (maximum_relays =? 0) || (maximum_relays <? Z.of_nat (length relays)) then Err App_TooManyRelays
  else Ok relays.
End Relays.

(** A newline between the relays. *)
Definition RELAY_STORAGE_SEPARATOR : string := of_chars [10].
Definition encode_connection_relays (relays : list string) : string :=
  String.concat RELAY_STORAGE_SEPARATOR relays.

Definition client_secret_storage_key (client_pubkey_hex : string) : string :=
  (CLIENT_SECRET_KEY_PREFIX ++ client_pubkey_hex)%string.

Definition normalize_methods (methods : list NwcMethod) : list NwcMethod :=
  List.filter (fun method => bool_decide (method ∈ methods))
    [GetInfo; GetBalance; PayInvoice; MakeInvoice; LookupInvoice; ListTransactions].

(** ** Selections and drafts *)

Record ConnectionSelection := mkConnectionSelection {
  cs_relay_urls : list string;
  cs_methods : list NwcMethod;
  cs_budget_limit_sat : Z;
  cs_budget_interval : BudgetInterval;
}.

Record ConnectionDraft := mkConnectionDraft {
  dr_authorization : HostConnectionAuthorization;
  dr_relay_storage : string;
  dr_methods : list NwcMethod;
  dr_budget_limit_sat : Z;
  dr_budget_interval : BudgetInterval;
}.

Record WalletConnectionRequest := mkWalletConnectionRequest {
  wq_wallet_service_pubkey_hex : string;
  wq_relay_input : string;
  wq_fallback_relay_input : string;
  wq_requested_methods : list NwcMethod;
  wq_budget_limit_sat : Z;
  wq_budget_interval : BudgetInterval;
  wq_encryption : NwcEncryption;
  wq_expires_at : option UnixTimestamp;
  wq_lud16 : option string;
}.

Record NwaApprovalSelection := mkNwaApprovalSelection {
  ns_request_id_hex : string;
  ns_wallet_service_pubkey_hex : string;
  ns_relay_input : string;
  ns_fallback_relay_input : string;
  ns_methods : list NwcMethod;
  ns_budget_limit_sat : Z;
  ns_budget_interval : BudgetInterval;
  ns_encryption : NwcEncryption;
  ns_expires_at : option UnixTimestamp;
  ns_lud16 : option string;
}.

Record CreatedWalletConnection := mkCreatedWalletConnection {
  cw_draft : ConnectionDraft;
  cw_connection : ActiveConnection;
  cw_uri : string;
}.

Record ApprovedApplicationConnection := mkApprovedApplicationConnection {
  aa_draft : ConnectionDraft;
  aa_approval : ApprovedNwaConnection;
}.

(** [ApplicationRevocation]. *)
Record ApplicationRevocation := mkApplicationRevocation { client_secret_deleted : bool }.

Section Application.
Context `{L : UrlLib} `{P : !UrlParts L} `{NK : NostrKeys} `{NU : NostrUri}.

(** [ConnectionSelection::from_host_input]. *)
Definition from_host_input (relay_input fallback_relay_input : string) (methods : list NwcMethod)
    (budget_limit_sat : Z) (budget_interval : BudgetInterval) : Result ApplicationError ConnectionSelection :=
  let? relay_urls := parse_connection_relays relay_input fallback_relay_input DEFAULT_MAXIMUM_CONNECTION_RELAYS in
  let methods := normalize_methods methods in
  if Nat.eqb (length methods) 0 then Err App_InvalidConnection
  else Ok (mkConnectionSelection relay_urls methods budget_limit_sat budget_interval).

(** [ConnectionDraft::new]. *)
Definition ConnectionDraft_new (connection_id client_pubkey_hex wallet_service_pubkey_hex : string)
    (selection : ConnectionSelection) (encryption : NwcEncryption) (expires_at : option UnixTimestamp)
  : Result ApplicationError ConnectionDraft :=
  let fee_policy := CountTowardBudget (maximum_mobile_fee_sat (cs_budget_limit_sat selection)) in
  let authorization := mkHostConnectionAuthorization connection_id client_pubkey_hex
    wallet_service_pubkey_hex (cs_relay_urls selection) (cs_methods selection)
    (cs_budget_limit_sat selection) (cs_budget_interval selection) fee_policy encryption expires_at in
  let? _ := map_err (fun _ => App_InvalidConnection) (validate_authorization authorization) in
  Ok (mkConnectionDraft authorization (encode_connection_relays (cs_relay_urls selection))
        (cs_methods selection) (cs_budget_limit_sat selection) (cs_budget_interval selection)).

Definition build_connection_uri (wallet_service_pubkey_hex : string) (relay_urls : list string)
    (client_secret : string) (lud16 : option string) : Result ApplicationError string :=
  let? public_key := ok_or App_InvalidKey (nostr_public_key_from_hex wallet_service_pubkey_hex) in
  let? secret := ok_or App_InvalidKey (nostr_secret_key_parse client_secret) in
  let? relays := collect_results (fun relay => ok_or App_InvalidRelay (nostr_relay_url_parse relay)) relay_urls in
  if Nat.eqb (length relays) 0 then Err App_MissingRelay
  else Ok (wallet_connect_uri public_key relays secret lud16).

Definition application_client_pubkey_from_id (connection_id : string) : option string :=
  if Stdlib.Strings.String.prefix "nwc-" connection_id
  then Hex32_to_hex <$> nostr_public_key_from_hex (String.substring 4 (String.length connection_id - 4) connection_id)
  else None.

(** ** Workflows *)

Definition create_wallet_connection (request : WalletConnectionRequest) (s : NwcMobileService)
  : Prog (Result ApplicationWorkflowError CreatedWalletConnection) :=
  let* (public_key, secret_key) := call generate_keys in
  let client_pubkey_hex := Hex32_to_hex public_key in
  let client_secret := Hex32_to_hex secret_key in
  match map_err InvalidInput
    (let? selection := from_host_input (wq_relay_input request) (wq_fallback_relay_input request)
       (wq_requested_methods request) (wq_budget_limit_sat request) (wq_budget_interval request) in
     let? draft := ConnectionDraft_new ("nwc-" ++ client_pubkey_hex) client_pubkey_hex
       (wq_wallet_service_pubkey_hex request) selection (wq_encryption request) (wq_expires_at request) in
     let? uri := build_connection_uri (ha_wallet_service_pubkey_hex (dr_authorization draft))
       (ha_relay_urls (dr_authorization draft)) client_secret (wq_lud16 request) in
     Ok (draft, uri))
  with
  | Err e => Ret (Err e)
  | Ok (draft, uri) =>
      let storage_key := client_secret_storage_key client_pubkey_hex in
      let* stored := call (store_client_secret storage_key client_secret) in
      match stored with
      | Err _ => Ret (Err SecretStoreUnavailable)
      | Ok _ =>
          let* created := create_host_connection s (dr_authorization draft) in
          match created with
          | Ok connection => Ret (Ok (mkCreatedWalletConnection draft connection uri))
          | Err error =>
              let* _ := call (delete_client_secret storage_key) in
              Ret (Err (Workflow_Service error))
          end
      end
  end.

Definition approve_application_nwa (selection : NwaApprovalSelection) (s : NwcMobileService)
  : Prog (Result ApplicationWorkflowError ApprovedApplicationConnection * NwcMobileService) :=
  match
    let? pending := map_err Workflow_Service (pending_nwa_request s) in
    let? request := ok_or (Workflow_Service NoPendingNwa) pending in
    map_err InvalidInput
      (let? authority := from_host_input (ns_relay_input selection) (ns_fallback_relay_input selection)
         (ns_methods selection) (ns_budget_limit_sat selection) (ns_budget_interval selection) in
       ConnectionDraft_new ("nwc-" ++ np_client_pubkey_hex request) (np_client_pubkey_hex request)
         (ns_wallet_service_pubkey_hex selection) authority (ns_encryption selection) (ns_expires_at selection))
  with
  | Err e => Ret (Err e, s)
  | Ok draft =>
      let* (approval, s) := approve_pending_nwa (ns_request_id_hex selection) (dr_authorization draft)
                              (ns_lud16 selection) s in
      Ret (let? approval := map_err Workflow_Service approval in
           Ok (mkApprovedApplicationConnection draft approval), s)
  end.

(** The presentation of one connection, out of those of all active ones. *)
Definition find_presentation (connection_id : string) (shown : list ConnectionPresentation)
  : option ConnectionPresentation :=
  List.find (fun connection => bool_decide (cp_id connection = connection_id)) shown.

Definition export_wallet_connection_uri (connection_id : string) (lud16 : option string)
  : Prog (Result ApplicationWorkflowError string) :=
  let* shown := connection_presentations in
  match
    let? shown := map_err Workflow_Service shown in
    ok_or (Workflow_Service (Service_Registry Reg_NotFound)) (find_presentation connection_id shown)
  with
  | Err e => Ret (Err e)
  | Ok connection =>
      let* loaded := call (load_client_secret (client_secret_storage_key (cp_client_pubkey_hex connection))) in
      Ret (let? secret := map_err (fun _ => SecretStoreUnavailable) loaded in
           let? secret := ok_or ClientSecretUnavailable secret in
           map_err InvalidInput (build_connection_uri (cp_wallet_service_pubkey_hex connection)
             (cp_relay_urls connection) secret lud16))
  end.

Definition revoke_application_connection (connection_id : string)
  : Prog (Result ApplicationWorkflowError ApplicationRevocation) :=
  let* shown := connection_presentations in
  match map_err Workflow_Service shown with
  | Err e => Ret (Err e)
  | Ok shown =>
      let client_pubkey_hex := match find_presentation connection_id shown with
                               | Some connection => Some (cp_client_pubkey_hex connection)
                               | None => application_client_pubkey_from_id connection_id
                               end in
      let* revoked := service_revoke_host_connection connection_id in
      match map_err Workflow_Service revoked with
      | Err e => Ret (Err e)
      | Ok _ =>
          match client_pubkey_hex with
          | None => Ret (Ok (mkApplicationRevocation false))
          | Some client_pubkey_hex =>
              let* deleted := call (delete_client_secret (client_secret_storage_key client_pubkey_hex)) in
              Ret (Ok (mkApplicationRevocation (is_ok deleted)))
          end
      end
  end.

End Application.
