(* ===== verification/ApplicationProofs.v ===== *)
(** * Properties of the application workflow

    Canonical relay lists survive their storage form; a wallet-created
    connection carries exactly the drafted authority, its secret is in the
    platform's store before the connection exists; a secret is deleted only after
    its connection is revoked. *)
From stdpp Require Import strings.
From S2P Require Import Prelude Sqlite Types Text Policy Host Nwa Schema Ledger Registry Metadata Program Reconciliation Library ConnectionService MobileService ServiceProofs Application.
#[local] Open Scope Z_scope.

(** ** Relay lists *)

Lemma split_on_piece separator l c rest :
  (forall x, x ∈ l -> separator x = false) -> separator c = true ->
  split_on separator (l ++ c :: rest) = l :: split_on separator rest.
Proof.
  intros Hl Hc. induction l as [|x l IH]; cbn [app split_on]; [by rewrite Hc|].
  rewrite (Hl x (list_elem_of_here _ _)). rewrite IH; [done|]. intros y Hy. by apply Hl, list_elem_of_further.
Qed.

Lemma split_on_whole separator l : (forall x, x ∈ l -> separator x = false) -> split_on separator l = [l].
Proof.
  induction l as [|x l IH]; intros Hl; cbn [split_on]; [done|].
  rewrite (Hl x (list_elem_of_here _ _)), IH; [done|]. intros y Hy. by apply Hl, list_elem_of_further.
Qed.

(** The pieces of a stored list are its elements, when none of them contains a
    separator. *)
Lemma split_stored (relays : list string) : relays <> [] ->
  (forall r, r ∈ relays -> Forall (fun b => 0 <= b < 128 /\ relay_separator b = false) (as_bytes r)) ->
  split_on relay_separator (chars (encode_connection_relays relays)) = as_bytes <$> relays.
Proof.
  intros Hne Hall. unfold chars. rewrite ascii_decode.
  - induction relays as [|r relays IH]; [done|]. destruct relays as [|r' relays].
    + apply split_on_whole. intros x Hx. pose proof (Hall r (list_elem_of_here _ _)) as Hr.
      rewrite Forall_forall in Hr. by apply Hr.
    + change (encode_connection_relays (r :: r' :: relays))
        with (r ++ RELAY_STORAGE_SEPARATOR ++ encode_connection_relays (r' :: relays))%string.
      rewrite !as_bytes_app. change (as_bytes RELAY_STORAGE_SEPARATOR) with [10].
      change ([10] ++ ?l) with (10 :: l). rewrite split_on_piece.
      * rewrite IH; [done|done|]. intros s Hs. by apply Hall, list_elem_of_further.
      * intros x Hx. pose proof (Hall r (list_elem_of_here _ _)) as Hr. rewrite Forall_forall in Hr. by apply Hr.
      * done.
  - clear Hne. induction relays as [|r relays IH]; [constructor|]. destruct relays as [|r' relays].
    + eapply Forall_impl; [apply (Hall r), list_elem_of_here|]. by intros b [? _].
    + change (encode_connection_relays (r :: r' :: relays))
        with (r ++ RELAY_STORAGE_SEPARATOR ++ encode_connection_relays (r' :: relays))%string.
      rewrite !as_bytes_app, !Forall_app. split_and!.
      * eapply Forall_impl; [apply (Hall r), list_elem_of_here|]. by intros b [? _].
      * repeat constructor; lia.
      * apply IH. intros s Hs. by apply Hall, list_elem_of_further.
Qed.

Section ApplicationProofs.
Context `{L : UrlLib} `{P : !UrlParts L} `{NK : NostrKeys} `{NU : NostrUri}.
Context `{LL : !UrlLaws L} `{PL : !UrlPartsLaws P}.

Lemma relay_plain r : SecureRelayUrl_parse r = Ok r ->
  Forall (fun b => 33 <= b <= 126) (as_bytes r) /\ r <> EmptyString.
Proof.
  intros H. destruct (SecureRelayUrl_parse_secure r r H) as (u & Hu & Hr & Hs & _).
  pose proof (url_reparse r u Hu) as Hu'. rewrite <- Hr in Hu'. split.
  - rewrite Hr. eapply url_plain_text; [exact Hu|by right].
  - rewrite Hr. by eapply url_nonempty.
Qed.

(** What the loop keeps: canonical relays, each once. *)
Lemma keep_relays_Ok pieces : forall kept relays, keep_relays pieces kept = Ok relays ->
  NoDup kept -> Forall (fun r => SecureRelayUrl_parse r = Ok r) kept ->
  NoDup relays /\ Forall (fun r => SecureRelayUrl_parse r = Ok r) relays
  /\ (forall r, r ∈ relays <-> r ∈ kept \/ exists piece, piece ∈ pieces /\ trim piece <> []
        /\ SecureRelayUrl_parse (of_chars (trim piece)) = Ok r).
Proof.
  induction pieces as [|piece pieces IH]; intros kept relays H Hnd Hc; cbn [keep_relays] in H.
  { injection H as <-. split_and!; [done..|]. intros r. split; [by left|].
    intros [|(p & ?%elem_of_nil & _)]; done. }
  destruct (Nat.eqb (length (trim piece)) 0) eqn:E.
  - destruct (IH _ _ H Hnd Hc) as (A & B & C). split_and!; [done..|]. intros r. rewrite C.
    setoid_rewrite elem_of_cons. split; [intros [|(p & ? & ?)]; eauto 6|].
    intros [|(p & [->|] & Hne & ?)]; [by left| |eauto 6]. by destruct (trim piece).
  - apply bind_Ok in H as (secure & Hs%map_err_Ok & H). pose proof (SecureRelayUrl_parse_canonical _ _ Hs) as Hcan.
    assert (trim piece <> []) as Hne by (intros Heq; by rewrite Heq in E).
    set (kept' := if bool_decide (secure ∈ kept) then kept else kept ++ [secure]) in *.
    assert (NoDup kept' /\ Forall (fun r => SecureRelayUrl_parse r = Ok r) kept'
      /\ forall r, r ∈ kept' <-> r ∈ kept \/ r = secure) as (Hnd' & Hc' & Hin).
    { subst kept'. case_bool_decide as Hd; [split_and!; [done..|]; intros r; split; [by left|by intros [| ->]]|].
      split_and!.
      - apply NoDup_app. split_and!; [done| |apply NoDup_singleton]. by intros r Hr ->%list_elem_of_singleton.
      - apply Forall_app. split; [done|by constructor].
      - intros r. by rewrite elem_of_app, list_elem_of_singleton. }
    destruct (IH _ _ H Hnd' Hc') as (A & B & C). split_and!; [done..|]. intros r. rewrite C, Hin.
    setoid_rewrite elem_of_cons. split.
    + intros [[| ->]|(p & ? & ?)]; [by left|right; exists piece; auto|right; exists p; auto].
    + intros [|(p & [->|] & Hn & Hp)]; [by left; left|left; right; congruence|right; eauto].
Qed.

(** The relays an application accepts are canonical secure relays, each once, at
    most the maximum, and they are those of the input. *)
Lemma parse_connection_relays_Ok input fallback maximum relays :
  parse_connection_relays input fallback maximum = Ok relays ->
  NoDup relays /\ Forall (fun r => SecureRelayUrl_parse r = Ok r) relays
  /\ 1 <= Z.of_nat (length relays) <= maximum.
Proof.
  unfold parse_connection_relays. intros H. apply bind_Ok in H as (rs & Hrs & H).
  pass_guard H E1. pass_guard H E2. injection H as ->.
  destruct (keep_relays_Ok _ _ _ Hrs (NoDup_nil_2) (List.Forall_nil _)) as (A & B & _).
  split_and!; [done..| |]; destruct relays; simpl in *; bool_to_prop; lia.
Qed.

Lemma keep_canonical relays : forall kept, Forall (fun r => SecureRelayUrl_parse r = Ok r) relays ->
  NoDup (kept ++ relays) -> keep_relays (as_bytes <$> relays) kept = Ok (kept ++ relays).
Proof.
  induction relays as [|r relays IH]; intros kept Hc Hnd; [by rewrite app_nil_r|].
  inversion Hc as [|? ? Hr Hc']; subst. destruct (relay_plain r Hr) as [Hplain Hne].
  rewrite fmap_cons. cbn [keep_relays].
  assert (Forall (fun b => 0 <= b < 128) (as_bytes r)) as Ha by (eapply Forall_impl; [exact Hplain|simpl; lia]).
  assert (chars r = as_bytes r) as Hch by (by apply ascii_decode).
  assert (trim (as_bytes r) = as_bytes r) as Htrim.
  { apply trim_id; intros c rest Heq.
    - rewrite Heq in Hplain. inversion Hplain; subst. unfold is_whitespace, in_range. lia.
    - assert (Forall (fun b => 33 <= b <= 126) (rev (as_bytes r))) as Hrev by (by apply Forall_rev).
      rewrite Heq in Hrev. inversion Hrev; subst. unfold is_whitespace, in_range. lia. }
  assert (Nat.eqb (length (as_bytes r)) 0 = false) as Hlen.
  { destruct r as [|a r]; [done|]. by rewrite as_bytes_cons. }
  rewrite Htrim, Hlen, <- Hch, (ascii_of_chars r Ha), Hr. cbn [map_err].
  rewrite bool_decide_false.
  - change (keep_relays (as_bytes <$> relays) (kept ++ [r]) = Ok (kept ++ r :: relays)).
    rewrite IH; [by rewrite <- app_assoc|done|by rewrite <- app_assoc].
  - intros Hin. apply NoDup_app in Hnd as (_ & Hd & _). apply (Hd r Hin), list_elem_of_here.
Qed.

(** A list of distinct canonical relays without commas is read back from its
    storage form as it was; what an application accepts is such a list, up to
    commas. *)
Theorem relay_storage_roundtrip relays fallback maximum
    (Hc : Forall (fun r => SecureRelayUrl_parse r = Ok r) relays) (Hnd : NoDup relays)
    (Hcomma : Forall (fun r => 44 ∉ as_bytes r) relays)
    (Hlen : 1 <= Z.of_nat (length relays) <= maximum) :
  parse_connection_relays (encode_connection_relays relays) fallback maximum = Ok relays
  /\ (forall input fallback' relays', parse_connection_relays input fallback' maximum = Ok relays' ->
       Forall (fun r => SecureRelayUrl_parse r = Ok r) relays' /\ NoDup relays'
       /\ 1 <= Z.of_nat (length relays') <= maximum).
Proof.
  split; [|intros; by edestruct parse_connection_relays_Ok as (? & ? & ?)].
  assert (relays <> []) as Hne by (destruct relays; simpl in Hlen; [lia|done]).
  assert (forall r, r ∈ relays -> Forall (fun b => 0 <= b < 128 /\ relay_separator b = false) (as_bytes r)) as Hall.
  { rewrite Forall_forall in Hc, Hcomma. intros r Hr. destruct (relay_plain r (Hc r Hr)) as [Hplain _].
    specialize (Hcomma r Hr). rewrite Forall_forall in *. intros b Hb. specialize (Hplain b Hb).
    split; [lia|]. unfold relay_separator, is_whitespace, in_range. assert (b <> 44) by congruence. lia. }
  unfold parse_connection_relays.
  assert (Nat.eqb (length (trim (chars (encode_connection_relays relays)))) 0 = false) as ->.
  { destruct (trim (chars (encode_connection_relays relays))) eqn:Htrim; [exfalso|done].
    destruct relays as [|r relays]; [done|]. rewrite Forall_forall in Hc.
    destruct (relay_plain r (Hc r (list_elem_of_here _ _))) as [Hplain Hr].
    destruct r as [|a r]; [done|]. rewrite as_bytes_cons in Hplain. inversion Hplain as [|b ? Hb _ Heq]; subst.
    assert (is_whitespace (Z.of_N (Ascii.N_of_ascii a)) = true) as Hw; [|unfold is_whitespace, in_range in Hw; lia].
    eapply trim_nil; [exact Htrim|]. eapply split_on_elem; [rewrite split_stored by done; apply list_elem_of_here|].
    rewrite as_bytes_cons. apply list_elem_of_here. }
  rewrite split_stored by done. rewrite keep_canonical by done. cbn [app].
  assert (Nat.eqb (length relays) 0 = false) as -> by (by destruct relays).
  by rewrite (proj2 (Z.eqb_neq maximum 0)), (proj2 (Z.ltb_ge maximum (Z.of_nat (length relays)))) by lia.
Qed.
(** ** Drafts *)

Lemma into_connection_Ok a wake n : into_connection a wake = Ok n ->
  connection_valid n /\ nc_id n = ha_id a
  /\ Hex32_from_hex (ha_client_pubkey_hex a) = Ok (nc_client_pubkey n)
  /\ Hex32_from_hex (ha_wallet_service_pubkey_hex a) = Ok (nc_wallet_service_pubkey n)
  /\ collect_results SecureRelayUrl_parse (ha_relay_urls a) = Ok (nc_relays n)
  /\ nc_policy n = ConnectionPolicy_new (ha_methods a)
       (mkBudgetPolicy (ha_budget_limit_sat a) (ha_budget_interval a) (ha_fee_policy a))
  /\ nc_encryption n = ha_encryption a /\ nc_expires_at n = ha_expires_at a.
Proof.
  unfold into_connection. intros H. apply bind_Ok in H as (m & Hm & H). injection H as <-.
  destruct (from_host_strings_valid _ _ _ _ _ _ _ _ _ Hm) as (Hv & A1 & A2 & A3 & A4 & A5 & A6 & _).
  split_and!; try done. by apply with_expiration_valid.
Qed.

Lemma canonical_collect relays : Forall (fun r => SecureRelayUrl_parse r = Ok r) relays ->
  collect_results SecureRelayUrl_parse relays = Ok relays.
Proof.
  intros Hc. rewrite <- (list_fmap_id relays) at 1. rewrite (collect_results_map _ _ id); [by rewrite list_fmap_id|].
  rewrite Forall_forall in Hc. intros r Hr. by apply Hc.
Qed.

(** What a selection of the host's input bounds. *)
Record selected (selection : ConnectionSelection) : Prop := {
  sel_relays : Forall (fun r => SecureRelayUrl_parse r = Ok r) (cs_relay_urls selection);
  sel_distinct : NoDup (cs_relay_urls selection);
  sel_count : 1 <= Z.of_nat (length (cs_relay_urls selection)) <= DEFAULT_MAXIMUM_CONNECTION_RELAYS;
  sel_methods : cs_methods selection <> [];
}.

Lemma from_host_input_Ok relay_input fallback methods limit itv selection :
  from_host_input relay_input fallback methods limit itv = Ok selection ->
  selected selection /\ cs_budget_limit_sat selection = limit /\ cs_budget_interval selection = itv
  /\ forall m, m ∈ cs_methods selection <-> m ∈ methods.
Proof.
  unfold from_host_input. intros H. apply bind_Ok in H as (relays & Hr & H). pass_guard H E. injection H as <-.
  destruct (parse_connection_relays_Ok _ _ _ _ Hr) as (A & B & C). split_and!; [|done|done|].
  - split; [done..|]. simpl. by destruct (normalize_methods methods).
  - intros m. simpl. unfold normalize_methods. rewrite list_elem_of_In, filter_In, bool_decide_eq_true.
    split; [by intros [_ ?]|]. intros Hm. split; [|done]. destruct m; simpl; tauto.
Qed.

(** A draft's authorization, and the connection the registry would make of it. *)
Lemma ConnectionDraft_new_Ok id client wallet selection encryption expires draft :
  ConnectionDraft_new id client wallet selection encryption expires = Ok draft ->
  dr_authorization draft = mkHostConnectionAuthorization id client wallet (cs_relay_urls selection)
    (cs_methods selection) (cs_budget_limit_sat selection) (cs_budget_interval selection)
    (CountTowardBudget (maximum_mobile_fee_sat (cs_budget_limit_sat selection))) encryption expires
  /\ dr_relay_storage draft = encode_connection_relays (cs_relay_urls selection)
  /\ exists n, into_connection (dr_authorization draft) default_wake_policy = Ok n.
Proof.
  unfold ConnectionDraft_new. intros H. apply bind_Ok in H as ([] & Hv%map_err_Ok & H). injection H as <-.
  split_and!; [done..|]. unfold validate_authorization in Hv. apply bind_Ok in Hv as (n & Hn & _). by exists n.
Qed.

(** ** Creation *)

(** The outcome of a creation with the generated [keys]. *)
Definition created_from (keys : PublicKey * NwcSecretKey) (request : WalletConnectionRequest) (s : NwcMobileService)
    (w : CreatedWalletConnection) (n : NewConnection) : Prop :=
  exists selection,
    from_host_input (wq_relay_input request) (wq_fallback_relay_input request) (wq_requested_methods request)
      (wq_budget_limit_sat request) (wq_budget_interval request) = Ok selection
    /\ ConnectionDraft_new ("nwc-" ++ Hex32_to_hex keys.1) (Hex32_to_hex keys.1)
         (wq_wallet_service_pubkey_hex request) selection (wq_encryption request) (wq_expires_at request)
       = Ok (cw_draft w)
    /\ build_connection_uri (wq_wallet_service_pubkey_hex request) (cs_relay_urls selection)
         (Hex32_to_hex keys.2) (wq_lud16 request) = Ok (cw_uri w)
    /\ into_connection (dr_authorization (cw_draft w)) (wake_policy s) = Ok n.

Lemma create_wallet_wp env guar request s d :
  (forall n a b now c, insert_connection n now a = Ok (c, b) -> guar a b) ->
  wp env guar any_call (create_wallet_connection request s)
    (fun r d' => forall w, r = Ok w -> exists keys n, hash_bytes keys.1 /\ created_from keys request s w n
       /\ committed env n (cw_connection w) d d') d.
Proof.
  intros Hg. unfold create_wallet_connection. apply wp_bind_call. intros d1 H1. split; [done|].
  intros [pk sk] [Hpk _]. cbn [fst snd] in Hpk.
  match goal with |- context [map_err InvalidInput ?x] => destruct x as [[draft uri]|e] eqn:Hin end; cbn [map_err].
  2:{ intros d2 _ w [=]. }
  apply bind_Ok in Hin as (selection & Hsel & Hin). apply bind_Ok in Hin as (dr & Hdr & Hin).
  apply bind_Ok in Hin as (u & Hu & Hin). injection Hin as -> ->.
  destruct (ConnectionDraft_new_Ok _ _ _ _ _ _ _ Hdr) as (Ha & _). rewrite Ha in Hu.
  apply wp_bind_call. intros d2 H2. split; [done|]. intros stored _.
  destruct stored as [[]|[]]; [|intros d3 _ w [=]].
  apply wp_bind. unfold create_host_connection.
  destruct (into_connection (dr_authorization draft) (wake_policy s)) as [n|e] eqn:Hn; cbn [from_registry map_err].
  2:{ intros d3 H3. apply wp_bind_call. intros d4 H4. split; [done|]. intros x _ d5 H5 w [=]. }
  apply wp_bind, create_wp; [eauto|]. intros [c|e] d3 H3 d4 H4; cbn [from_registry map_err].
  - intros d5 H5 w [= <-]. exists (pk, sk), n. split_and!; [done|by exists selection|].
    destruct H3 as (now & a & b & A1 & A2 & A3). exists now, a, b.
    split_and!; [etrans; [exact H1|]; by etrans|done|]. etrans; [exact A3|]. by etrans.
  - apply wp_bind_call. intros d5 H5. split; [done|]. intros x _ d6 H6 w [=].
Qed.

(** C26: A wallet-created connection that is returned, whatever the other processes do
    meanwhile, is stored under the identifier of its fresh key until it is
    revoked, with the authority of the validated draft: the canonical relays of
    the input, at most two; the methods asked for; the budget with its
    conservative fee reserve; and the wallet service key of the request.  The
    exported URI is built from this wallet service key, these relays and the
    secret of the fresh key. *)
Theorem wallet_connection_created request s d w d' (Hwf : library_wf d)
    (Hrun : reaches library_step (create_wallet_connection request s, d) (Ret (Ok w), d')) :
  let c := cw_connection w in
  stored_or_revoked c d'
  /\ Hex32_from_hex (wq_wallet_service_pubkey_hex request) = Ok (ac_wallet_service_pubkey c)
  /\ Forall (fun r => SecureRelayUrl_parse r = Ok r) (ac_relays c) /\ NoDup (ac_relays c)
  /\ 1 <= Z.of_nat (length (ac_relays c)) <= 2
  /\ (forall m, allows (ac_policy c) m = true <-> m ∈ wq_requested_methods request)
  /\ cp_budget (ac_policy c) = mkBudgetPolicy (wq_budget_limit_sat request) (wq_budget_interval request)
       (CountTowardBudget (maximum_mobile_fee_sat (wq_budget_limit_sat request)))
  /\ ac_expires_at c = wq_expires_at request
  /\ dr_relay_storage (cw_draft w) = encode_connection_relays (ac_relays c)
  /\ exists client secret, hash_bytes client /\ ac_id c = ("nwc-" ++ Hex32_to_hex client)%string
       /\ Hex32_from_hex (Hex32_to_hex client) = Ok (ac_client_pubkey c)
       /\ build_connection_uri (wq_wallet_service_pubkey_hex request) (ac_relays c) (Hex32_to_hex secret)
            (wq_lud16 request) = Ok (cw_uri w).
Proof.
  assert (forall n a b now c, insert_connection n now a = Ok (c, b) -> (fun _ _ => True) a b) as Hg by done.
  destruct (wp_adequate _ _ _ _ _ _ _ _ (create_wallet_wp library_step (fun _ _ => True) request s d Hg) Hrun)
    as [Hq _].
  apply wp_Ret in Hq. destruct (Hq w eq_refl) as (keys & n & Hpk & (selection & Hsel & Hdr & Huri & Hn) & Hc).
  destruct (from_host_input_Ok _ _ _ _ _ _ Hsel) as ([S1 S2 S3 S4] & S5 & S6 & S7).
  destruct (ConnectionDraft_new_Ok _ _ _ _ _ _ _ Hdr) as (Ha & Hst & _).
  destruct (into_connection_Ok _ _ _ Hn) as (Hv & N1 & N2 & N3 & N4 & N5 & N6 & N7). rewrite Ha in *. simpl in *.
  rewrite (canonical_collect _ S1) in N4. injection N4 as N4.
  destruct (committed_stored _ _ _ _ Hwf Hv Hc) as (Hs & now & E).
  rewrite E in Hs |- *. simpl in *.
  rewrite N4 in S1, S2, S3, Hst, Huri. split_and!; try done; [apply S3|apply S3| | |by exists keys.1, keys.2].
  - intros m. rewrite N5. unfold allows. simpl. by rewrite bool_decide_eq_true, elem_of_btree_methods.
  - rewrite N5. simpl. by rewrite S5, S6.
Qed.

(** ** The order of a creation

    The history of a creation is the keys under which the platform has stored a
    secret and has not been asked to delete it. *)
Definition secrets_note (X : Type) (c : HostCall X) : X -> list string -> list string :=
  match c in HostCall X return X -> list string -> list string with
  | store_client_secret key _ => fun r held => match r with Ok _ => key :: held | Err _ => held end
  | delete_client_secret key => fun _ held => List.filter (fun k => negb (bool_decide (k = key))) held
  | _ => fun _ held => held
  end.

(** The insertion of a connection whose client secret is held. *)
Definition secured_insertion (held : list string) (d d' : Database) : Prop :=
  exists n now c client_hex, insert_connection n now d = Ok (c, d')
    /\ Hex32_from_hex client_hex = Ok (nc_client_pubkey n)
    /\ client_secret_storage_key client_hex ∈ held.

(** The secret of the returned connection is held; a creation that fails holds
    nothing. *)
Definition secrets_settled (held : list string) (r : Result ApplicationWorkflowError CreatedWalletConnection) : Prop :=
  match r with
  | Ok w => held = [client_secret_storage_key (ha_client_pubkey_hex (dr_authorization (cw_draft w)))]
  | Err _ => held = []
  end.

Lemma held_once (key : string) : List.filter (fun k => negb (bool_decide (k = key))) [key] = [].
Proof. cbn [List.filter]. by rewrite bool_decide_true. Qed.

Lemma creation_follows request s :
  follows secrets_note id secured_insertion [] (create_wallet_connection request s)
  /\ ends_in secrets_note id secrets_settled [] (create_wallet_connection request s).
Proof.
  unfold create_wallet_connection. cbn [bind call follows ends_in secrets_note].
  split; intros [pk sk];
    (match goal with |- context [map_err InvalidInput ?x] => destruct x as [[draft uri]|e] eqn:Hin end;
      cbn [map_err]; [|done]);
    apply bind_Ok in Hin as (selection & _ & Hin); apply bind_Ok in Hin as (dr & Hdr & Hin);
    apply bind_Ok in Hin as (u & _ & Hin); injection Hin as -> ->;
    destruct (ConnectionDraft_new_Ok _ _ _ _ _ _ _ Hdr) as (Ha & _);
    cbn [bind call follows ends_in]; intros [[]|[]]; cbn [secrets_note follows ends_in bind]; try done;
    unfold create_host_connection;
    (destruct (into_connection (dr_authorization draft) (wake_policy s)) as [n|e] eqn:Hn;
      cbn [from_registry map_err bind follows ends_in]).
  - unfold create, call, ledger. cbn [bind follows secrets_note]. intros now. split.
    + intros d0 c d' H. right. exists n, now, c, (Hex32_to_hex pk). split; [done|].
      destruct (into_connection_Ok _ _ _ Hn) as (_ & _ & Hc & _). rewrite Ha in Hc. split; [exact Hc|].
      apply list_elem_of_here.
    + intros [c|e]; cbn [bind from_registry map_err follows]; [done|]. by intros _.
  - by intros _.
  - unfold create, call, ledger. cbn [bind ends_in secrets_note]. intros now [c|e];
      cbn [bind from_registry map_err ends_in secrets_settled cw_draft]; [by rewrite Ha|].
    intros x. exact (held_once _).
  - intros x. exact (held_once _).
Qed.


(** ** Revocation *)

Lemma presentations_wp env guar (safe : forall X, HostCall X -> Database -> Prop) Q d :
  (forall d', guar d' d') -> (forall d', safe _ clock_now d') ->
  (forall r d', rtc env d d' -> Q r d') -> wp env guar safe connection_presentations Q d.
Proof.
  intros Hg Hs HQ. unfold connection_presentations, service_active_connections, active_connections.
  apply wp_bind, wp_bind_read; [done|]. intros d1 H1 d2 H2.
  destruct (from_registry (list_active_connections d1)) as [l|e].
  2:{ intros d3 H3. apply HQ. do 2 (etrans; [eassumption|]). done. }
  assert (forall r d', rtc env d2 d' -> Q r d') as HQ2 by (intros; apply HQ; do 2 (etrans; [eassumption|]); done).
  clear -Hg Hs HQ2. revert Q d2 HQ2. induction l as [|c l IH]; intros Q d2 HQ; cbn [presentations_of].
  { intros d3 H3. by apply HQ. }
  apply wp_bind. unfold presentation_of. apply wp_bind_read; [done|]. intros d3 H3.
  destruct (from_ledger_error _) as [last|e]; [|intros d4 H4 d5 H5; apply HQ; by etrans; [|etrans]].
  apply wp_bind_read; [done|]. intros d4 H4.
  destruct (from_ledger_error _) as [m|e].
  2:{ intros d5 H5 d6 H6. apply HQ. etrans; [exact H3|]. etrans; [exact H4|]. by etrans. }
  apply wp_bind_call. intros d5 H5. split; [done|]. intros now _. apply wp_bind_read; [done|].
  intros d6 H6 d7 H7. assert (rtc env d2 d7) as H27.
  { etrans; [exact H3|]. etrans; [exact H4|]. etrans; [exact H5|]. by etrans. }
  match goal with |- context [match ?x with _ => _ end] => destruct x as [shown|e] end.
  - apply wp_bind, IH. intros r d8 H8 d9 H9. apply HQ. etrans; [exact H27|]. by etrans.
  - intros d8 H8. apply HQ. by etrans.
Qed.

(** A client secret is deleted only once the connection is revoked. *)
Definition revoke_safe (id : string) (X : Type) (c : HostCall X) (d : Database) : Prop :=
  match c with
  | clock_now => True
  | delete_client_secret _ => is_revoked id d
  | _ => False
  end.

Definition revokes (id : string) (d d' : Database) : Prop :=
  d = d' \/ exists revision now t, tombstone_connection id revision now d = Ok (t, d').

Lemma revoke_application_wp id d : library_wf d ->
  wp library_step (revokes id) (revoke_safe id) (revoke_application_connection id)
    (fun r d' => forall a, r = Ok a -> is_revoked id d') d.
Proof.
  intros Hwf. unfold revoke_application_connection.
  apply wp_bind, presentations_wp; [by left|done|]. intros shown d1 H1.
  destruct (map_err Workflow_Service shown) as [l|e]; [|intros d2 H2 a [=]].
  destruct (library_steps_library d d1 H1 Hwf) as [Hwf1 _].
  apply wp_bind. unfold service_revoke_host_connection. apply wp_bind.
  eapply wp_mono; [apply revoke_host_wp; [done|done]|].
  intros r d2 (Hwf2 & _ & Hr & _) d3 H3. destruct r as [t|e]; cbn [from_registry map_err]; [|intros d4 H4 a [=]].
  specialize (Hr t eq_refl).
  assert (forall d4, rtc library_step d2 d4 -> is_revoked id d4) as Hkeep.
  { intros d4 H4. destruct (library_steps_library d2 d4 H4 Hwf2) as [_ Hp]. by eapply revoked_persists. }
  destruct (match find_presentation id l with Some _ => _ | None => _ end) as [hex|].
  - apply wp_bind_call. intros d4 H4. split; [apply Hkeep; by etrans|]. intros x _ d5 H5 a _.
    apply Hkeep. etrans; [exact H3|]. by etrans.
  - intros d4 H4 a _. apply Hkeep. by etrans.
Qed.

End ApplicationProofs.

(** ** A concrete wallet

    Keys are the bytes of their hexadecimal text and a connection URI is its
    scheme. *)

Definition sample_nostr : NostrUri := {|
  NostrRelayUrl := string;
  nostr_public_key_from_hex := fun s => match Hex32_from_hex s with Ok k => Some k | Err _ => None end;
  nostr_secret_key_parse := fun s => match Hex32_from_hex s with Ok k => Some k | Err _ => None end;
  nostr_relay_url_parse := Some;
  wallet_connect_uri := fun _ _ _ _ => "nostr+walletconnect://"%string |}.
Definition sample_request : WalletConnectionRequest :=
  mkWalletConnectionRequest (Hex32_to_hex (repeat 2 32)) " wss://b, wss://a,wss://b" "" [PayInvoice; GetInfo]
    400 Monthly Nip44V2 None None.
Definition idle_service : @NwcMobileService link_urls :=
  @mkNwcMobileService link_urls (Held None) link_policy default_wake_policy.
Definition create_sample :=
  @create_wallet_connection link_urls sample_keys sample_nostr sample_request idle_service.
Definition wallet_database : Database := (run_prog sample_host 0 create_sample empty_database).2.
Definition sample_wallet : CreatedWalletConnection :=
  let key := Hex32_to_hex (repeat 4 32) in
  let fee := CountTowardBudget (maximum_mobile_fee_sat 400) in
  mkCreatedWalletConnection
    (mkConnectionDraft (mkHostConnectionAuthorization ("nwc-" ++ key) key (Hex32_to_hex (repeat 2 32))
       ["wss://b"; "wss://a"]%string [GetInfo; PayInvoice] 400 Monthly fee Nip44V2 None)
       (encode_connection_relays ["wss://b"; "wss://a"]%string) [GetInfo; PayInvoice] 400 Monthly)
    (mkActiveConnection ("nwc-" ++ key) 0 (repeat 4 32) (repeat 2 32) ["wss://b"; "wss://a"]%string
       (ConnectionPolicy_new [GetInfo; PayInvoice] (mkBudgetPolicy 400 Monthly fee)) Nip44V2 300 None 300)
    "nostr+walletconnect://".

Lemma create_sample_runs : (run_prog sample_host 0 create_sample empty_database).1 = Ok sample_wallet.
Proof. clear. by vm_compute. Qed.

Lemma wallet_created env : reaches env (create_sample, empty_database) (Ret (Ok sample_wallet), wallet_database).
Proof.
  pose proof (run_prog_reaches env sample_host sample_host_typed create_sample 0 empty_database) as H.
  rewrite create_sample_runs in H. exact H.
Qed.

Lemma wallet_connection_created_witness :
  @stored_or_revoked link_urls sample_keys (cw_connection sample_wallet) wallet_database
  /\ Hex32_from_hex (wq_wallet_service_pubkey_hex sample_request) = Ok (repeat 2 32).
Proof.
  destruct (@wallet_connection_created link_urls link_parts sample_keys sample_nostr link_urls_laws link_parts_laws
    sample_request idle_service empty_database sample_wallet wallet_database empty_library_wf (wallet_created _))
    as (Hs & Hw & _).
  exact (conj Hs Hw).
Defined.

Lemma relay_storage_roundtrip_witness :
  @parse_connection_relays link_urls (encode_connection_relays ["wss://b"; "wss://a"]%string) "" 2
  = Ok ["wss://b"; "wss://a"]%string.
Proof.
  refine (proj1 (@relay_storage_roundtrip link_urls link_parts link_urls_laws link_parts_laws
    ["wss://b"; "wss://a"]%string "" 2 _ _ _ _)).
  - repeat constructor; by vm_compute.
  - apply NoDup_cons. split; [|apply NoDup_singleton]. by intros ?%list_elem_of_singleton.
  - clear. repeat constructor; vm_compute; intros H; repeat (apply elem_of_cons in H as [H|H]; [discriminate H|]);
      by apply elem_of_nil in H.
  - clear. split; by vm_compute.
Defined.

Definition creation_end := history_after secrets_note id (sample_host 0) 9 create_sample empty_database [].

Lemma creation_end_result : creation_end.1.1 = Ret (Ok sample_wallet).
Proof. clear. by vm_compute. Qed.


Definition revoke_shop := @revoke_application_connection link_urls link_parts sample_keys sample_nostr "app".

Lemma revoke_shop_result :
  (run_prog sample_host 0 revoke_shop shop_database).1 = Ok (mkApplicationRevocation true).
Proof. clear. by vm_compute. Qed.

