(* ===== verification/ApplicationManager.v ===== *)
(** * The application manager

    Models [application_manager.rs]: one object over the mobile service, the
    callback of an approval and the registration passes, and what it adds to
    them: no approval while a callback awaits completion, the refresh of the
    durable registrations before a pass, the delay of a retry. *)
From stdpp Require Import strings.
From S2P Require Import Prelude Sqlite Types Policy Host Nwa Schema Ledger Registry Registration Program Coordinator Reconciliation Library Metadata ConnectionService MobileService ServiceProofs Application ApplicationProofs.
#[local] Open Scope Z_scope.

Definition NWC_MOBILE_DATABASE_FILE : string := "nwc-mobile.sqlite3".
Definition MINIMUM_REGISTRATION_RETRY_DELAY : Duration := from_secs 5.

Inductive RegistrationStart : Type := Start_Busy | Start_Ready.

Record ApprovedNwaApplication := mkApprovedNwaApplication {
  ap_connection : ApprovedApplicationConnection;
  ap_callback : NwaCallbackBegin;
}.

(** [registration_retry_delay]. *)
Definition registration_retry_delay (next_attempt_at : Z) (now : UnixTimestamp) : Duration :=
  from_secs (Z.max (saturating_sub_u64 next_attempt_at now) (duration_as_secs MINIMUM_REGISTRATION_RETRY_DELAY)).

Section ApplicationManager.
Context `{L : UrlLib} `{P : !UrlParts L} `{NK : NostrKeys} `{NU : NostrUri}.

Record NwcApplicationManager := mkNwcApplicationManager {
  service : NwcMobileService;
  nwa_callback : NwaCallbackCoordinator;
  registration : ApplicationRegistrationCoordinator;
}.

Definition from_service (service : NwcMobileService) : NwcApplicationManager :=
  mkNwcApplicationManager service None default_registration.

Definition with_service (s : NwcMobileService) (m : NwcApplicationManager) : NwcApplicationManager :=
  mkNwcApplicationManager s (nwa_callback m) (registration m).
Definition with_callback (c : NwaCallbackCoordinator) (m : NwcApplicationManager) : NwcApplicationManager :=
  mkNwcApplicationManager (service m) c (registration m).
Definition with_registration (r : ApplicationRegistrationCoordinator) (m : NwcApplicationManager)
  : NwcApplicationManager :=
  mkNwcApplicationManager (service m) (nwa_callback m) r.

(** What the manager leaves to the service. *)
Definition manager_connections (_ : NwcApplicationManager)
  : Prog (Result MobileServiceError (list ConnectionPresentation)) := connection_presentations.
Definition manager_set_connection_metadata (connection_id : string) (metadata : ApplicationConnectionMetadata)
    (_ : NwcApplicationManager) : Prog (Result MobileServiceError unit) :=
  service_set_connection_metadata connection_id metadata.
Definition manager_acknowledge_nwc_info_event (connection_id relay_url : string) (_ : NwcApplicationManager)
  : Prog (Result MobileServiceError unit) := service_acknowledge_nwc_info_event connection_id relay_url.
Definition manager_open_nwa_request (uri : string) (m : NwcApplicationManager)
  : Prog (Result MobileServiceError NwaRequestPresentation * NwcApplicationManager) :=
  let* (r, s) := open_nwa_request uri (service m) in Ret (r, with_service s m).
Definition manager_pending_nwa_request (m : NwcApplicationManager)
  : Result MobileServiceError (option NwaRequestPresentation) := pending_nwa_request (service m).
Definition manager_create_connection (request : WalletConnectionRequest) (m : NwcApplicationManager)
  : Prog (Result ApplicationWorkflowError CreatedWalletConnection) := create_wallet_connection request (service m).
Definition manager_export_connection_uri (connection_id : string) (lud16 : option string) (_ : NwcApplicationManager)
  : Prog (Result ApplicationWorkflowError string) := export_wallet_connection_uri connection_id lud16.
Definition manager_revoke_connection (connection_id : string) (_ : NwcApplicationManager)
  : Prog (Result ApplicationWorkflowError ApplicationRevocation) := revoke_application_connection connection_id.

Definition approve_nwa_application (selection : NwaApprovalSelection) (m : NwcApplicationManager)
  : Prog (Result ApplicationWorkflowError ApprovedNwaApplication * NwcApplicationManager) :=
  if is_pending (nwa_callback m) then Ret (Err CallbackPending, m)
  else
    let* (connection, s) := approve_application_nwa selection (service m) in
    let m := with_service s m in
    Ret match connection with
        | Err e => (Err e, m)
        | Ok connection =>
            let '(callback, c) := begin_callback (an_callback_url (aa_approval connection)) (nwa_callback m) in
            (Ok (mkApprovedNwaApplication connection callback), with_callback c m)
        end.

Definition retry_nwa_callback (m : NwcApplicationManager) : option string := retry_url (nwa_callback m).
Definition complete_nwa_callback (opened : bool) (m : NwcApplicationManager)
  : NwaCallbackCompletion * NwcApplicationManager :=
  let '(completion, c) := complete_open opened (nwa_callback m) in (completion, with_callback c m).

Definition cancel_nwa (m : NwcApplicationManager) : Result MobileServiceError unit * NwcApplicationManager :=
  let '(cleared, s) := clear_pending_nwa (service m) in
  let m := with_service s m in
  match cleared with
  | Err e => (Err e, m)
  | Ok _ => (Ok tt, with_callback (clear_callback (nwa_callback m)) m)
  end.

Definition mark_registration_refresh_pending (m : NwcApplicationManager) : NwcApplicationManager :=
  with_registration (mark_refresh_pending (registration m)) m.

Definition begin_registration (enabled : bool) (m : NwcApplicationManager)
  : Prog (Result MobileServiceError RegistrationStart * NwcApplicationManager) :=
  let '(answer, r) := begin_pass (registration m) in
  let m := with_registration r m in
  match answer with
  | Busy => Ret (Ok Start_Busy, m)
  | Ready => Ret (Ok Start_Ready, m)
  | RefreshRequired =>
      let* refreshed := refresh_wake_registrations enabled in
      Ret match refreshed with
          | Err e => (Err e, m)
          | Ok _ =>
              let '(answer, r) := begin_pass (complete_refresh (registration m)) in
              (Ok match answer with Ready => Start_Ready | Busy | RefreshRequired => Start_Busy end,
               with_registration r m)
          end
  end.

Definition finish_registration (pass : ApplicationRegistrationPass) (now : UnixTimestamp) (m : NwcApplicationManager)
  : ApplicationRegistrationCompletion * NwcApplicationManager :=
  let '(completion, r) := finish_pass pass now (registration m) in (completion, with_registration r m).

Definition schedule_registration_retry (m : NwcApplicationManager) : Z * NwcApplicationManager :=
  let '(token, r) := schedule_retry (registration m) in (token, with_registration r m).
Definition registration_retry_is_current (token : Z) (m : NwcApplicationManager) : bool :=
  retry_is_current token (registration m).

Definition reset_session (m : NwcApplicationManager) : Result MobileServiceError unit * NwcApplicationManager :=
  let '(cleared, s) := clear_pending_nwa (service m) in
  let m := with_service s m in
  match cleared with
  | Err e => (Err e, m)
  | Ok _ => (Ok tt, with_registration (reset_registration (registration m))
                      (with_callback (clear_callback (nwa_callback m)) m))
  end.

(** ** Properties *)

(** Some time between [d] and [d'] every active registration was queued again in
    the state [enabled]. *)
Definition refreshed (env : Database -> Database -> Prop) (enabled : bool) (d d' : Database) : Prop :=
  exists now n d1 d2, rtc env d d1 /\ requeue_active_wake_registrations_with_state enabled now d1 = Ok (n, d2)
    /\ rtc env d2 d'.

Lemma begin_registration_wp env enabled m d :
  wp env (fun a b => exists now n, requeue_active_wake_registrations_with_state enabled now a = Ok (n, b)) any_call
    (begin_registration enabled m) (fun '(r, m') d' =>
      service m' = service m /\ nwa_callback m' = nwa_callback m
      /\ match r with
         | Ok Start_Busy => registration m' = registration m /\ pass_in_flight (registration m) = true
         | Ok Start_Ready => pass_in_flight (registration m) = false
             /\ registration m' = mkRegistrationCoordinator true false (wrapping_add_u64 (retry_token (registration m)) 1)
             /\ (refresh_pending (registration m) = true -> refreshed env enabled d d')
         | Err _ => registration m' = registration m /\ refresh_pending (registration m) = true
         end) d.
Proof.
  unfold begin_registration, begin_pass. destruct (registration m) as [flying pending token] eqn:Hm.
  cbn [pass_in_flight refresh_pending retry_token].
  destruct flying; [intros d1 H1; split_and!; done|]. destruct pending; [|intros d1 H1; split_and!; done].
  unfold refresh_wake_registrations. apply wp_bind, wp_bind_call. intros d1 H1. split; [done|]. intros now _.
  apply wp_bind_ledger. intros d2 H2.
  destruct (requeue_active_wake_registrations_with_state enabled now d2) as [[n d3]|e] eqn:Hr.
  - split; [by eauto|]. intros d4 H4 d5 H5. cbn [map_err]. split_and!; try done.
    intros _. exists now, n, d2, d3. split_and!; [by etrans|done|by etrans].
  - intros d3 H3 d4 H4. cbn [map_err]. split_and!; done.
Qed.

(** A pass is claimed only when none is in flight, and when a refresh was asked
    for, only after the durable registrations of every active connection were
    queued in the current permission state; a refresh that fails stays asked for,
    and nothing is claimed. *)
Theorem registration_refreshed_first env enabled m d r m' d'
    (Hrun : reaches env (begin_registration enabled m, d) (Ret (r, m'), d')) :
  service m' = service m /\ nwa_callback m' = nwa_callback m
  /\ match r with
     | Ok Start_Busy => registration m' = registration m /\ pass_in_flight (registration m) = true
     | Ok Start_Ready => pass_in_flight (registration m) = false
         /\ registration m' = mkRegistrationCoordinator true false (wrapping_add_u64 (retry_token (registration m)) 1)
         /\ (refresh_pending (registration m) = true -> refreshed env enabled d d')
     | Err _ => registration m' = registration m /\ refresh_pending (registration m) = true
     end.
Proof.
  destruct (wp_adequate _ _ _ _ _ _ _ _ (begin_registration_wp env enabled m d) Hrun) as [Hq _].
  by apply wp_Ret in Hq.
Qed.

(** What an approval through the manager comes to. *)
Definition approval_outcome (env : Database -> Database -> Prop) (selection : NwaApprovalSelection)
    (m : NwcApplicationManager) (pending : option NwaRequest) (d : Database)
    (r : Result ApplicationWorkflowError ApprovedNwaApplication) (m' : NwcApplicationManager) (d' : Database) : Prop :=
  registration m' = registration m /\
  match r with
  | Ok a => is_pending (nwa_callback m) = false
      /\ pending_nwa (service m') = Held None
      /\ nwa_callback m' = an_callback_url (aa_approval (ap_connection a))
      /\ ap_callback a = match nwa_callback m' with Some url => OpenUrl url | None => Begin_Complete end
      /\ exists request n, pending = Some request
         /\ ns_request_id_hex selection = Hex32_to_hex (nwr_id request)
         /\ within_request request n
         /\ nc_id n = ("nwc-" ++ Hex32_to_hex (nwr_client_pubkey request))%string
         /\ committed env n (an_connection (aa_approval (ap_connection a))) d d'
         /\ (nwa_callback m' = None <-> nwr_callback request = None)
  | Err e => m' = m /\ rtc env d d' /\ (is_pending (nwa_callback m) = true -> e = CallbackPending)
  end.

Context `{LL : !UrlLaws L}.

Lemma approve_nwa_application_wp env guar selection m pending d :
  pending_nwa (service m) = Held pending ->
  (forall n a b now c, insert_connection n now a = Ok (c, b) -> guar a b) ->
  wp env guar any_call (approve_nwa_application selection m)
    (fun '(r, m') d' => approval_outcome env selection m pending d r m' d') d.
Proof.
  intros Hp Hg. unfold approve_nwa_application.
  destruct (is_pending (nwa_callback m)) eqn:Hcb; [intros d1 H1; by split_and!|].
  unfold approve_application_nwa, pending_nwa_request. rewrite Hp.
  assert (forall e, wp env guar any_call (Ret (@Err ApplicationWorkflowError ApprovedNwaApplication e, with_service (service m) m))
    (fun '(r, m') d' => approval_outcome env selection m pending d r m' d') d) as Hrefused.
  { intros e d1 H1. unfold approval_outcome. rewrite Hcb. split_and!; [done|by destruct m|done|done]. }
  destruct pending as [request|]; cbn [map_err fmap option_fmap option_map ok_or];
    [|exact (Hrefused _)].
  match goal with |- context [map_err InvalidInput ?x] => destruct x as [draft|e] eqn:Hin end; cbn [map_err];
    [|exact (Hrefused _)].
  apply bind_Ok in Hin as (selection' & _ & Hdr).
  destruct (ConnectionDraft_new_Ok _ _ _ _ _ _ _ Hdr) as (Ha & _).
  apply wp_bind, wp_bind. eapply wp_mono; [by apply (approve_pending_wp env guar _ _ _ _ (Some request))|].
  intros [r s'] d1 (pending' & -> & Hs) d2 H2 d3 H3. inversion Hs; subst; cbn [map_err begin_callback].
  - match goal with H : into_connection _ _ = Ok _ |- _ =>
      destruct (into_connection_Ok _ _ _ H) as (_ & Hid & _) end.
    rewrite Ha in Hid. split; [done|]. split_and!; [done..|]. exists request, n. split_and!; try done.
    eapply committed_later; [eassumption|by etrans].
  - split; [done|]. unfold approval_outcome. rewrite Hcb.
    split_and!; [by rewrite <- Hp; destruct m as [[]]| |done]. etrans; [eassumption|]. by etrans.
Qed.

(** An approval is refused while a callback awaits completion.  One that succeeds
    consumes the reviewed request, within its authority and under the
    identifier of its client, and starts exactly the callback of that request;
    one that fails changes nothing, so that it can be tried again. *)
Theorem manager_approval env selection m pending d r m' d' (Hp : pending_nwa (service m) = Held pending)
    (Hrun : reaches env (approve_nwa_application selection m, d) (Ret (r, m'), d')) :
  approval_outcome env selection m pending d r m' d'.
Proof.
  assert (forall n a b now c, insert_connection n now a = Ok (c, b) -> (fun _ _ => True) a b) as Hg by done.
  destruct (wp_adequate _ _ _ _ _ _ _ _
    (approve_nwa_application_wp env (fun _ _ => True) selection m pending d Hp Hg) Hrun) as [Hq _].
  by apply wp_Ret in Hq.
Qed.

End ApplicationManager.

(** ** A concrete application *)

Definition sample_manager : @NwcApplicationManager link_urls :=
  @mkNwcApplicationManager link_urls sample_service None (mark_refresh_pending default_registration).
Definition sample_selection : NwaApprovalSelection :=
  mkNwaApprovalSelection (Hex32_to_hex (repeat 7 16)) (Hex32_to_hex (repeat 2 32)) "wss://b" "" [PayInvoice]
    400 Monthly Nip44V2 (Some 2000) None.
Definition approve_sample_application :=
  @approve_nwa_application link_urls link_parts sample_keys sample_selection sample_manager.
Definition approved_application := run_prog sample_host 0 approve_sample_application empty_database.

Lemma approved_callback :
  match approved_application.1.1 with
  | Ok a => bool_decide (nwa_callback approved_application.1.2 = Some "https://app.example/nwa"%string)
  | Err _ => false
  end = true.
Proof. clear. by vm_compute. Qed.

Lemma manager_approval_witness :
  exists a, approved_application.1.1 = Ok a
  /\ ap_callback a = OpenUrl "https://app.example/nwa" /\ pending_nwa (service approved_application.1.2) = Held None.
Proof.
  pose proof (run_prog_reaches (fun _ _ => False) sample_host sample_host_typed approve_sample_application 0
    empty_database) as Hrun. fold approved_application in Hrun.
  pose proof approved_callback as Hcb. destruct approved_application as [[r m'] d']. cbn [fst snd] in *.
  pose proof (@manager_approval link_urls link_parts sample_keys link_urls_laws _ sample_selection sample_manager
    (Some linked_request) empty_database r m' d' eq_refl Hrun) as [_ H].
  destruct r as [a|e]; [|discriminate Hcb]. apply bool_decide_eq_true_1 in Hcb.
  destruct H as (_ & H1 & _ & H2 & _). rewrite Hcb in H2. exists a. split_and!; [reflexivity|exact H2|exact H1].
Defined.

Definition begin_sample :=
  @begin_registration link_urls true sample_manager.
Definition begun := run_prog sample_host 0 begin_sample approved_database.

Lemma begun_ready : begun.1.1 = Ok Start_Ready.
Proof. clear. by vm_compute. Qed.

Lemma registration_refreshed_first_witness :
  refreshed (fun _ _ => False) true approved_database begun.2 /\ pass_in_flight (registration begun.1.2) = true.
Proof.
  pose proof (run_prog_reaches (fun _ _ => False) sample_host sample_host_typed begin_sample 0
    approved_database) as Hrun. fold begun in Hrun.
  pose proof begun_ready as Hr. destruct begun as [[r m'] d']. cbn [fst snd] in *. subst r.
  destruct (@registration_refreshed_first link_urls _ true sample_manager
    approved_database _ m' d' Hrun) as (_ & _ & _ & H1 & H2). split; [exact (H2 eq_refl)|by rewrite H1].
Defined.
