(* ===== verification/ApplicationSession.v ===== *)
(** * Sessions of an application

    Everything an application asks of its manager and of the service behind it,
    in any order: what it can commit to the ledger, what it can ask of the
    platform, and how the registration passes of its process go. *)
From stdpp Require Import strings.
From S2P Require Import Prelude Sqlite Types Text Policy Host Nwa Schema Ledger Registry Registration Program Coordinator Reconciliation Metadata Library ConnectionService MobileService ServiceProofs Application ApplicationProofs ApplicationManager.
#[local] Open Scope Z_scope.

Section ApplicationSession.
Context `{L : UrlLib} `{P : !UrlParts L} `{NK : NostrKeys} `{NU : NostrUri}.

(** The operations of the manager, and those an application reaches through
    [NwcApplicationManager::service]. *)
Inductive ManagerCall : Type :=
| Manager_connections
| Manager_set_connection_metadata (connection_id : string) (metadata : ApplicationConnectionMetadata)
| Manager_acknowledge_nwc_info_event (connection_id relay_url : string)
| Manager_open_nwa_request (uri : string)
| Manager_pending_nwa_request
| Manager_approve_nwa (selection : NwaApprovalSelection)
| Manager_retry_nwa_callback
| Manager_complete_nwa_callback (opened : bool)
| Manager_cancel_nwa
| Manager_create_connection (request : WalletConnectionRequest)
| Manager_export_connection_uri (connection_id : string) (lud16 : option string)
| Manager_revoke_connection (connection_id : string)
| Manager_mark_registration_refresh_pending
| Manager_begin_registration (enabled : bool)
| Manager_finish_registration (pass : ApplicationRegistrationPass) (now : UnixTimestamp)
| Manager_schedule_registration_retry
| Manager_registration_retry_is_current (token : Z)
| Manager_reset_session
| Service_migrate_legacy_connections (connections : list LegacyHostConnection)
| Service_import_host_connection (authorization : HostConnectionAuthorization) (created_at : UnixTimestamp)
| Service_refresh_nwc_info_events
| Service_revoke_connection (id : string) (expected_revision : ConnectionRevision).

(** The manager after an operation; the application is free to use its answer. *)
Definition run_manager_call (c : ManagerCall) (m : NwcApplicationManager) : Prog NwcApplicationManager :=
  match c with
  | Manager_connections => let* _ := manager_connections m in Ret m
  | Manager_set_connection_metadata id metadata => let* _ := manager_set_connection_metadata id metadata m in Ret m
  | Manager_acknowledge_nwc_info_event id relay => let* _ := manager_acknowledge_nwc_info_event id relay m in Ret m
  | Manager_open_nwa_request uri => let* (_, m) := manager_open_nwa_request uri m in Ret m
  | Manager_pending_nwa_request => let _ := manager_pending_nwa_request m in Ret m
  | Manager_approve_nwa selection => let* (_, m) := approve_nwa_application selection m in Ret m
  | Manager_retry_nwa_callback => let _ := retry_nwa_callback m in Ret m
  | Manager_complete_nwa_callback opened => let '(_, m) := complete_nwa_callback opened m in Ret m
  | Manager_cancel_nwa => let '(_, m) := cancel_nwa m in Ret m
  | Manager_create_connection request => let* _ := manager_create_connection request m in Ret m
  | Manager_export_connection_uri id lud16 => let* _ := manager_export_connection_uri id lud16 m in Ret m
  | Manager_revoke_connection id => let* _ := manager_revoke_connection id m in Ret m
  | Manager_mark_registration_refresh_pending => Ret (mark_registration_refresh_pending m)
  | Manager_begin_registration enabled => let* (_, m) := begin_registration enabled m in Ret m
  | Manager_finish_registration pass now => let '(_, m) := finish_registration pass now m in Ret m
  | Manager_schedule_registration_retry => let '(_, m) := schedule_registration_retry m in Ret m
  | Manager_registration_retry_is_current token => let _ := registration_retry_is_current token m in Ret m
  | Manager_reset_session => let '(_, m) := reset_session m in Ret m
  | Service_migrate_legacy_connections connections =>
      let* _ := migrate_legacy_connections (service m) connections in Ret m
  | Service_import_host_connection authorization created_at =>
      let* _ := import_host_connection (service m) authorization created_at in Ret m
  | Service_refresh_nwc_info_events => let* _ := refresh_nwc_info_events in Ret m
  | Service_revoke_connection id expected_revision => let* _ := revoke_connection id expected_revision in Ret m
  end.

Fixpoint run_manager (calls : list ManagerCall) (m : NwcApplicationManager) : Prog NwcApplicationManager :=
  match calls with
  | [] => Ret m
  | c :: calls => let* m := run_manager_call c m in run_manager calls m
  end.

(** What the types of the arguments bound: metadata comes from its constructor. *)
Definition manager_call_typed (c : ManagerCall) : Prop :=
  match c with
  | Manager_set_connection_metadata _ metadata => exists name icon relays,
      Forall scalar (chars name) /\ ApplicationConnectionMetadata_new name icon relays = Ok metadata
  | _ => True
  end.

(** What an application asks of the platform: the time, randomness and its own
    secret store; never the wallet, a relay, a wallet key or the wake provider. *)
Definition application_call (X : Type) (c : HostCall X) : Prop :=
  match c with
  | clock_now | random_bytes _ | generate_keys
  | load_client_secret _ | store_client_secret _ _ | delete_client_secret _ => True
  | _ => False
  end.

(** ** The text of the operations *)

Context `{LL : !UrlLaws L} `{PL : !UrlPartsLaws P}.

Notation conducts := (only application_call library_step).

(** Case analysis on the result a program goes on with. *)
#[local] Tactic Notation "by_result" simple_intropattern(pat) :=
  cbn beta zeta iota; match goal with |- only _ _ _ (match ?x with Ok _ => _ | Err _ => _ end) => destruct x as pat end.

Lemma create_conducts n (Q : Result RegistryError ActiveConnection -> Prop) :
  connection_valid n -> (forall r, Q r) -> conducts Q (create n).
Proof.
  intros Hn HQ. apply only_bind, only_call; [done|]. intros now. apply only_ledger; [|done].
  intros d c d' H. by eapply by_registry, step_insert.
Qed.

Lemma import_conducts n created used (Q : Result RegistryError ActiveConnection -> Prop) :
  connection_valid n -> (forall r, Q r) -> conducts Q (import_legacy n created used).
Proof.
  intros Hn HQ. apply only_bind, only_call; [done|]. intros now. apply only_ledger; [|done].
  intros d c d' H. by eapply by_registry, step_import.
Qed.

Lemma revoke_conducts id revision (Q : Result RegistryError ConnectionTombstone -> Prop) :
  (forall r, Q r) -> conducts Q (revoke id revision).
Proof.
  intros HQ. apply only_bind, only_call; [done|]. intros now. apply only_ledger; [|done].
  intros d c d' H. by eapply by_registry, step_tombstone.
Qed.

Lemma presentations_conducts (Q : Result MobileServiceError (list ConnectionPresentation) -> Prop) :
  (forall r, Q r) -> conducts Q connection_presentations.
Proof.
  intros HQ. unfold connection_presentations, service_active_connections, active_connections.
  apply only_bind, only_bind, only_read. intros r. destruct (from_registry r) as [l|e]; [|apply HQ].
  cbn [only]. revert Q HQ. induction l as [|c l IH]; intros Q HQ; cbn [presentations_of]; [apply HQ|].
  apply only_bind. unfold presentation_of. apply only_bind, only_read. intros last.
  destruct (from_ledger_error last); [|apply HQ]. apply only_bind, only_read. intros metadata.
  destruct (from_ledger_error metadata); [|apply HQ]. apply only_bind, only_call; [done|]. intros now.
  apply only_bind, only_read. intros usage. cbn [only].
  destruct (from_ledger_error usage); [|apply HQ]. apply only_bind, IH. intros r'. apply HQ.
Qed.

Lemma create_host_conducts s a (Q : Result MobileServiceError ActiveConnection -> Prop) :
  (forall r, Q r) -> conducts Q (create_host_connection s a).
Proof.
  intros HQ. unfold create_host_connection.
  destruct (into_connection a (wake_policy s)) as [n|e] eqn:Hn; [|apply HQ].
  apply only_bind, create_conducts; [by apply into_connection_Ok in Hn as []|]. intros r. apply HQ.
Qed.

Lemma create_wallet_conducts request s (Q : Result ApplicationWorkflowError CreatedWalletConnection -> Prop) :
  (forall r, Q r) -> conducts Q (create_wallet_connection request s).
Proof.
  intros HQ. apply only_bind, only_call; [done|]. intros [pk sk].
  by_result [[draft uri]|e]; [|apply HQ].
  apply only_bind, only_call; [done|]. intros [[]|[]]; [|apply HQ].
  apply only_bind, create_host_conducts. intros [c|e]; [apply HQ|].
  apply only_bind, only_call; [done|]. intros x. apply HQ.
Qed.

Lemma revoke_host_conducts id (Q : Result RegistryError (option ConnectionTombstone) -> Prop) :
  (forall r, Q r) -> conducts Q (revoke_host_connection id).
Proof.
  intros HQ. unfold revoke_host_connection. destruct (map_err _ (ConnectionId_parse id)) as [i|e]; [|apply HQ].
  apply only_bind, only_read. intros [[[active|t]|]|e]; try apply HQ.
  apply only_bind, revoke_conducts. intros r. apply HQ.
Qed.

Lemma revoke_application_conducts id (Q : Result ApplicationWorkflowError ApplicationRevocation -> Prop) :
  (forall r, Q r) -> conducts Q (revoke_application_connection id).
Proof.
  intros HQ. apply only_bind, presentations_conducts. intros shown.
  destruct (map_err _ shown) as [l|e]; [|apply HQ].
  apply only_bind, only_bind, revoke_host_conducts. intros r. cbn [only].
  by_result [u|e]; [|apply HQ].
  match goal with |- context [match ?x with Some _ => _ | None => _ end] => destruct x as [hex|] end; [|apply HQ].
  apply only_bind, only_call; [done|]. intros x. apply HQ.
Qed.

Lemma migrate_conducts l : Forall (fun x => connection_valid (li_connection x)) l ->
  forall result (Q : Result RegistryError LegacyMigrationResult -> Prop), (forall r, Q r) ->
  conducts Q (migrate_from l result).
Proof.
  induction 1 as [|x l Hx _ IH]; intros result Q HQ; cbn [migrate_from]; [apply HQ|].
  apply only_bind, only_read. intros [[[active|t]|]|e]; [|by apply IH| |apply HQ].
  - destruct (matches x active); [by apply IH|apply HQ].
  - apply only_bind, import_conducts; [done|]. intros [c|e]; [by apply IH|apply HQ].
Qed.

Lemma approve_pending_conducts id a lud16 s (Q : _ -> Prop) :
  (forall r s', Q (r, s')) -> conducts Q (approve_pending_nwa id a lud16 s).
Proof.
  intros HQ. unfold approve_pending_nwa. destruct (pending_nwa s) as [[request|]|]; [|apply HQ..].
  destruct (negb _); [apply HQ|].
  destruct (into_connection a (wake_policy s)) as [n|e] eqn:Hn; [|apply HQ].
  cbn [from_registry map_err]. apply only_bind. unfold approve_nwa_connection.
  by_result [url|e].
  - apply only_bind, create_conducts; [by apply into_connection_Ok in Hn as []|]. intros r. cbn [only].
    destruct (map_err _ _); apply HQ.
  - apply HQ.
Qed.

(** ** One operation *)

(** The registration passes of the manager go on as a history of the coordinator. *)
Definition carries_on (m m' : NwcApplicationManager) : Prop :=
  inhabited (registration_history (registration m) (registration m')).

Lemma carries_on_same m m' : registration m' = registration m -> carries_on m m'.
Proof. intros E. unfold carries_on. rewrite E. constructor. apply hs_nil. Qed.

Lemma carries_on_event m m' : registration_event (registration m) (registration m') -> carries_on m m'.
Proof. intros e. constructor. exact (hs_cons _ _ _ e (hs_nil _)). Qed.

Lemma carries_on_trans m1 m2 m3 : carries_on m1 m2 -> carries_on m2 m3 -> carries_on m1 m3.
Proof.
  intros [h1] [h2]. constructor. revert h2. induction h1 as [c|c1 c2 c3 e _ IH]; intros h2; [done|].
  exact (hs_cons _ _ _ e (IH h2)).
Qed.

Lemma begin_registration_conducts enabled m :
  conducts (fun x => carries_on m x.2) (begin_registration enabled m).
Proof.
  unfold begin_registration. destruct (begin_pass (registration m)) as [answer r] eqn:Hb.
  assert (carries_on m (with_registration r m)) as Hm by exact (carries_on_event m (with_registration r m) (ev_begin _ _ _ Hb)).
  destruct answer; [done| |done]. unfold refresh_wake_registrations.
  apply only_bind, only_bind, only_call; [done|]. intros now. apply only_bind, only_ledger.
  { intros d n d' H. by eapply by_registration, step_requeue. }
  intros refreshed. cbn [only]. destruct (map_err _ refreshed) as [n|e]; cbn [only]; [|done].
  destruct (begin_pass (complete_refresh (registration (with_registration r m)))) as [answer r'] eqn:Hb'.
  cbn [snd]. eapply carries_on_trans; [exact Hm|].
  eapply (carries_on_trans _ (with_registration (complete_refresh r) m));
    [exact (carries_on_event (with_registration r m) (with_registration (complete_refresh r) m) (ev_refreshed r))|].
  exact (carries_on_event (with_registration (complete_refresh r) m) (with_registration r' m) (ev_begin _ _ _ Hb')).
Qed.

Lemma run_call_conducts c m : manager_call_typed c -> conducts (carries_on m) (run_manager_call c m).
Proof.
  intros Ht. assert (carries_on m m) as Hm by by apply carries_on_same.
  destruct c; cbn [run_manager_call]; try exact Hm; try apply only_bind.
  - by apply presentations_conducts.
  - unfold manager_set_connection_metadata, service_set_connection_metadata. destruct (parse_id _); [|done].
    apply only_bind, only_ledger; [|done]. intros d [] d' H. destruct Ht as (name & icon & relays & Hn & Hnew).
    by eapply by_metadata, step_metadata.
  - unfold manager_acknowledge_nwc_info_event, service_acknowledge_nwc_info_event. destruct (parse_id _); [|done].
    apply only_bind, only_ledger; [|done]. intros d [] d' H. by eapply by_metadata, step_acknowledge_info.
  - unfold manager_open_nwa_request, open_nwa_request, open_nwa_request_at.
    apply only_bind, only_bind, only_call; [done|]. intros now.
    destruct (pending_nwa (service m)) as [[request|]|]; try by apply carries_on_same.
    apply only_bind, only_call; [done|]. intros random. cbn [only]. destruct (map_err _ _); by apply carries_on_same.
  - unfold approve_nwa_application. destruct (is_pending _); [done|]. apply only_bind.
    unfold approve_application_nwa.
    by_result [draft|e];
      [|by apply carries_on_same].
    apply only_bind, approve_pending_conducts. intros r s. cbn [only].
    destruct (map_err _ r); by apply carries_on_same.
  - unfold complete_nwa_callback. destruct (complete_open _ _). by apply carries_on_same.
  - unfold cancel_nwa. destruct (clear_pending_nwa _) as [[]]; by apply carries_on_same.
  - by apply create_wallet_conducts.
  - apply only_bind, presentations_conducts. intros shown.
    by_result [connection|e]; [|done].
    by apply only_bind, only_call.
  - by apply revoke_application_conducts.
  - exact (carries_on_event m (mark_registration_refresh_pending m) (ev_mark _)).
  - eapply only_mono; [|apply begin_registration_conducts]. by intros [r m'].
  - unfold finish_registration. destruct (finish_pass pass now (registration m)) as [answer r] eqn:E.
    exact (carries_on_event m (with_registration r m) (ev_finish _ _ _ _ _ E)).
  - unfold schedule_registration_retry. destruct (schedule_retry (registration m)) as [token r] eqn:E.
    exact (carries_on_event m (with_registration r m) (ev_schedule _ _ _ E)).
  - unfold reset_session. destruct (clear_pending_nwa _) as [[] s]; [|by apply carries_on_same].
    exact (carries_on_event m (with_registration (reset_registration (registration m)) m) (ev_reset _)).
  - unfold migrate_legacy_connections.
    match goal with |- context [from_registry ?x] => destruct x as [imports|e] eqn:Hc end; [|done].
    apply collect_results_Forall2 in Hc. cbn [from_registry map_err]. apply only_bind, migrate_conducts; [|done].
    clear -Hc LL. induction Hc as [|x y xs ys H _ IH]; [done|]. constructor; [|done].
    apply bind_Ok in H as (n & Hn & H). injection H as <-. by apply into_connection_Ok in Hn as [].
  - unfold import_host_connection.
    destruct (into_connection authorization (wake_policy (service m))) as [n|e] eqn:Hn; [|done].
    cbn [from_registry map_err]. apply only_bind, import_conducts; [by apply into_connection_Ok in Hn as []|done].
  - apply only_bind, only_ledger; [|done]. intros d n d' H. by eapply by_metadata, step_requeue_info.
  - unfold revoke_connection. destruct (parse_id id); [|done]. by apply only_bind, revoke_conducts.
Qed.

Lemma run_manager_conducts calls : forall m, Forall manager_call_typed calls ->
  conducts (carries_on m) (run_manager calls m).
Proof.
  induction calls as [|c calls IH]; intros m Hc; cbn [run_manager]; [by apply carries_on_same|].
  apply Forall_cons in Hc as [Hc Hcs]. apply only_bind. eapply only_mono; [|by apply run_call_conducts].
  intros m1 H1. eapply only_mono; [|by apply IH]. intros m2 H2. by eapply carries_on_trans.
Qed.

(** ** Sessions *)

(** C28: Whatever an application does through its manager, in whatever order, wherever it
    stops and whatever the other processes commit meanwhile: the ledger takes
    only transactions of the library, so that its invariants hold and everything
    permanent is kept; the platform is asked only for the time, randomness and
    the application's own secrets, never for the wallet, a relay, a wallet key
    or the wake provider; and the registration passes of its process go on as
    one history of the coordinator. *)
Theorem application_session_is_safe calls m d p d' (Hwf : library_wf d)
    (Hcalls : Forall manager_call_typed calls)
    (Hrun : reaches library_step (run_manager calls m, d) (p, d')) :
  library_wf d' /\ rtc library_step d d' /\ persists d d'
  /\ (forall X (c : HostCall X) k, p = Host c k -> application_call X c)
  /\ (forall m', p = Ret m' -> carries_on m m').
Proof.
  pose proof (only_wp _ _ library_step _ _ (run_manager_conducts calls m Hcalls) d) as Hwp.
  destruct (wp_adequate _ _ _ _ _ _ _ _ Hwp Hrun) as [Hw Hm].
  assert (rtc library_step d d') as Hsteps.
  { clear -Hm. induction Hm as [d|d d1 d2 [H|[->|H]] _ IH]; [done|by eapply rtc_l|done|by eapply rtc_l]. }
  destruct (library_steps_library d d' Hsteps Hwf) as [H1 H2]. split_and!; [done..| |].
  - intros X c k ->. exact (wp_Host _ _ _ _ _ _ _ Hw).
  - intros m' ->. exact (wp_Ret _ _ _ _ _ _ Hw).
Qed.

End ApplicationSession.

(** ** A session of the model

    The application refreshes its registrations, approves the link it holds,
    creates a connection of its own, lists both and ends the pass. *)
Definition sample_session_calls : list ManagerCall :=
  [Manager_begin_registration true; Manager_approve_nwa sample_selection;
   Manager_complete_nwa_callback true; Manager_create_connection sample_request;
   Manager_connections; Manager_finish_registration (pass_completed 1 0 None) 300;
   Manager_reset_session].
Definition sample_session_run : Prog (@NwcApplicationManager link_urls) :=
  @run_manager link_urls link_parts sample_keys sample_nostr sample_session_calls sample_manager.
Definition sample_session_end := run_prog sample_host 0 sample_session_run empty_database.

Lemma sample_session_stored :
  length (connections sample_session_end.2) = 2%nat
  /\ registration sample_session_end.1 = mkRegistrationCoordinator false false 2.
Proof. split; vm_compute; reflexivity. Qed.

Lemma sample_session_reaches : reaches (@library_step link_urls link_parts sample_keys)
  (sample_session_run, empty_database) (Ret sample_session_end.1, sample_session_end.2).
Proof. unfold sample_session_end. apply run_prog_reaches, sample_host_typed. Qed.

Lemma application_session_is_safe_witness :
  @library_wf link_urls link_parts sample_keys sample_session_end.2
  /\ length (connections sample_session_end.2) = 2%nat
  /\ carries_on sample_manager sample_session_end.1
  /\ registration sample_session_end.1 = mkRegistrationCoordinator false false 2.
Proof.
  pose proof sample_session_reaches as Hrun.
  pose proof sample_session_stored as [E1 E2]. destruct sample_session_end as [m' d']. cbn [fst snd] in *.
  destruct (@application_session_is_safe link_urls link_parts sample_keys sample_nostr link_urls_laws link_parts_laws
    sample_session_calls sample_manager empty_database (Ret m') d' empty_library_wf
    ltac:(repeat (constructor; [exact I|]); constructor) Hrun) as (H1 & _ & _ & _ & H2).
  split; [exact H1|]. split; [exact E1|]. split; [exact (H2 m' eq_refl)|exact E2].
Defined.
