(* ===== verification/NotificationProofs.v ===== *)
(** * What the settlement-notification worker guarantees

    Safety of the passes of InvoiceWorker.v, whatever the host answers, wherever
    they stop, and whatever other processes commit: only outbox transactions
    are committed; only stored events are published, and only of the records the
    pass is for; a relay counts as reached only after it accepted the event. *)
From stdpp Require Import gmap strings.
From S2P Require Import Prelude Sqlite Types Policy Host Nwa Schema Ledger Registry NostrValidation Invoices Outbox.
From S2P Require Import Program InvoiceWorker Library.
#[local] Open Scope Z_scope.

(** ** Delivery *)

(** The last answer of a relay, until a transaction uses it up. *)
Definition relay_answer : Type := option (string * string * Result HostError unit).
Definition note_relay (X : Type) (c : HostCall X) : X -> relay_answer -> relay_answer :=
  match c in HostCall X return X -> relay_answer -> relay_answer with
  | publish_event relay json _ => fun r _ => Some (relay, json, r)
  | _ => fun _ g => g
  end.

(** The commits an answer entitles the worker to: a relay is marked as reached only
    when it has just accepted an event. *)
Inductive may_commit (g : relay_answer) (d d' : Database) : Prop :=
| may_acknowledge_sent e relay json now : g = Some (relay, json, Ok tt) ->
    acknowledge_nwc_sent_relay e relay now d = Ok (tt, d') -> may_commit g d d'
| may_acknowledge_invoice e relay json now : g = Some (relay, json, Ok tt) ->
    acknowledge_nwc_invoice_relay e relay now d = Ok (tt, d') -> may_commit g d d'
| may_keep_relays :
    (forall e, waiting e (nwc_sent_payment_relays d') = waiting e (nwc_sent_payment_relays d)
      \/ exists r, r ∈ nwc_sent_payments d /\ sp_request_event_id r = e /\ r ∉ nwc_sent_payments d') ->
    (forall e, waiting e (nwc_invoice_notification_relays d') = waiting e (nwc_invoice_notification_relays d)
      \/ exists r, r ∈ nwc_created_invoices d /\ iv_request_event_id r = e /\ r ∉ nwc_created_invoices d') ->
    may_commit g d d'.

Lemma update_sent_relays p f d d1 : update_sent p f d = Ok d1 ->
  nwc_sent_payment_relays d1 = nwc_sent_payment_relays d
  /\ nwc_invoice_notification_relays d1 = nwc_invoice_notification_relays d.
Proof. unfold update_sent. intros H. by inv_run H. Qed.
Lemma update_invoices_relays p f d d1 : update_invoices p f d = Ok d1 ->
  nwc_sent_payment_relays d1 = nwc_sent_payment_relays d
  /\ nwc_invoice_notification_relays d1 = nwc_invoice_notification_relays d.
Proof. unfold update_invoices. intros H. by inv_run H. Qed.

Lemma relays_kept g d d' :
  nwc_sent_payment_relays d' = nwc_sent_payment_relays d
  /\ nwc_invoice_notification_relays d' = nwc_invoice_notification_relays d -> may_commit g d d'.
Proof. intros [H1 H2]. apply may_keep_relays; intros e; left; by rewrite ?H1, ?H2. Qed.

(** A record that is dropped takes its relays along. *)
Lemma dropped_relays {Row} (key : Row -> list Z) p (t : list Row) relays e :
  waiting e (drop_relays (key <$> select p t) relays) = waiting e relays
  \/ exists r, r ∈ t /\ key r = e /\ r ∉ (delete_where p t).1.
Proof.
  destruct (decide (e ∈ key <$> select p t)) as [He|He]; [right|left; by apply drop_relays_waiting].
  apply list_elem_of_fmap in He as (r & -> & [Hr Hp]%elem_of_select). exists r. split_and!; [done..|].
  intros [_ Hno]%elem_of_delete. congruence.
Qed.

Lemma discard_keeps g e d d' : discard_nwc_sent_payment e d = Ok (tt, d') -> may_commit g d d'.
Proof.
  intros [= <-]. apply may_keep_relays; intros e'; [|by left].
  apply (dropped_relays sp_request_event_id (event_is sp_request_event_id e)).
Qed.

Lemma expire_keeps g e d d' : expire_nwc_invoice e d = Ok (tt, d') -> may_commit g d d'.
Proof.
  intros [= <-]. apply may_keep_relays; intros e'; [by left|].
  apply (dropped_relays iv_request_event_id
    (fun r => event_is iv_request_event_id e r && null (iv_notification_event_json r))).
Qed.

(** Every other transaction of the worker leaves the relays alone. *)
Lemma store_sent_keeps g e json c d d' :
  store_nwc_sent_notification_event e json d = Ok (c, d') -> may_commit g d d'.
Proof.
  unfold store_nwc_sent_notification_event. destruct (_ || _); [done|]. intros H.
  apply bind_Ok in H as (d1 & Hu & H). do 2 (apply bind_Ok in H as (? & _ & H)). injection H as _ <-.
  by eapply relays_kept, update_sent_relays.
Qed.
Lemma complete_sent_keeps g e now d d' :
  complete_nwc_sent_notification e now d = Ok (tt, d') -> may_commit g d d'.
Proof.
  unfold complete_nwc_sent_notification. intros H. apply bind_Ok in H as (? & _ & H).
  apply bind_Ok in H as (d1 & Hu & [= <-]). by eapply relays_kept, update_sent_relays.
Qed.
Lemma touch_keeps g e now d d' : touch_nwc_invoice e now d = Ok (tt, d') -> may_commit g d d'.
Proof.
  unfold touch_nwc_invoice. intros H. apply bind_Ok in H as (? & _ & H). destruct (exists_row _ _); [done|].
  apply bind_Ok in H as (d1 & Hu & [= <-]). by eapply relays_kept, update_invoices_relays.
Qed.
Lemma store_invoice_keeps g e json now c d d' :
  store_nwc_invoice_notification_event e json now d = Ok (c, d') -> may_commit g d d'.
Proof.
  unfold store_nwc_invoice_notification_event. destruct (_ || _); [done|]. intros H.
  apply bind_Ok in H as (? & _ & H). apply bind_Ok in H as (d1 & Hu & H).
  do 2 (apply bind_Ok in H as (? & _ & H)). injection H as _ <-. by eapply relays_kept, update_invoices_relays.
Qed.
Lemma complete_invoice_keeps g e now d d' :
  complete_nwc_invoice_notification e now d = Ok (tt, d') -> may_commit g d d'.
Proof.
  unfold complete_nwc_invoice_notification. intros H. apply bind_Ok in H as (? & _ & H).
  apply bind_Ok in H as (d1 & Hu & [= <-]). by eapply relays_kept, update_invoices_relays.
Qed.

Section Delivery.
Context `{L : UrlLib} `{UP : !UrlParts L} `{NK : NostrKeys} `{N : NostrLib} `{NJ : NotificationJson} `{LL : !UrlLaws L} `{PL : !UrlPartsLaws UP}.

Abbreviation worker_follows := (follows note_relay (fun _ => None) may_commit).

Lemma ledger_or_follows {A R} (t : Tx LedgerError A) (k : A -> Prog (Result InvoiceNotificationError R)) g :
  (forall d a d', t d = Ok (a, d') -> d' = d \/ may_commit g d d') ->
  (forall a, worker_follows None (k a)) -> worker_follows g (ledger_or t k).
Proof. intros Ht Hk. split; [done|]. by intros [a|e]; simpl. Qed.

Lemma read_follows {A R} (f : Database -> Result LedgerError A)
    (k : A -> Prog (Result InvoiceNotificationError R)) g :
  (forall a, worker_follows None (k a)) -> worker_follows g (ledger_or (read f) k).
Proof. apply ledger_or_follows. intros d a d' H. left. unfold read in H. by inv_run H. Qed.

Lemma relay_context_follows {S} deadline (f : option Duration -> Prog S) g :
  (forall b, worker_follows g (f b)) -> worker_follows g (bind (context deadline) f).
Proof. intros Hf [|]; simpl; auto. Qed.

Lemma owner_follows {R} id revision (k : option ActiveConnection -> Prog (Result InvoiceNotificationError R)) g :
  (forall c, worker_follows None (k c)) -> worker_follows g (load_owner id revision k).
Proof.
  intros Hk. split; [intros d a d' H; left; unfold read in H; by inv_run H|]. by intros [c|e]; cbn [bind].
Qed.

Lemma publish_sent_follows deadline e json relays : forall failed g,
  worker_follows g (publish_sent deadline e json relays failed).
Proof.
  induction relays as [|relay rest IH]; intros failed g; [done|].
  cbn [publish_sent]. apply relay_context_follows. intros [b|]; [|done]. intros [[]|err]; [|apply IH].
  intros now. apply ledger_or_follows; [|intros _; apply IH].
  intros d [] d' H. right. by eapply may_acknowledge_sent.
Qed.

Lemma publish_invoice_follows deadline e json relays : forall failed g,
  worker_follows g (publish_invoice deadline e json relays failed).
Proof.
  induction relays as [|relay rest IH]; intros failed g; [done|].
  cbn [publish_invoice]. intros [|]; [done|]. apply relay_context_follows. intros [b|]; [|done].
  intros [[]|err]; [|apply IH]. intros now. apply ledger_or_follows; [|intros _; apply IH].
  intros d [] d' H. right. by eapply may_acknowledge_invoice.
Qed.

Lemma sent_event_follows deadline connection payment g :
  worker_follows g (sent_event deadline connection payment).
Proof.
  unfold sent_event. destruct (tp_notification_event_json payment); [done|].
  apply relay_context_follows. intros [b|]; [|done]. intros [secret|err]; [|done]. intros entropy.
  cbn [bind]. destruct (build_payment_sent_notification_event _ _ _ _) as [proposed|]; [|done].
  apply ledger_or_follows; [|done]. intros d a d' H. right. by eapply store_sent_keeps.
Qed.

Lemma process_payments_follows deadline payments : forall report g,
  worker_follows g (process_payments deadline payments report).
Proof.
  induction payments as [|payment rest IH]; intros report g; [done|].
  cbn [process_payments]. intros [|]; [done|]. apply owner_follows. intros [connection|].
  - apply follows_bind; [apply sent_event_follows|]. intros [[json|]|e] g1; [|done..].
    apply read_follows. intros relays. apply follows_bind; [apply publish_sent_follows|].
    intros [[|]|e] g2; [apply IH| |done]. intros now. apply ledger_or_follows; [|intros _; apply IH].
    intros d [] d' H. right. by eapply complete_sent_keeps.
  - apply ledger_or_follows; [|intros _; apply IH]. intros d [] d' H. right. by eapply discard_keeps.
Qed.

Lemma defer_or_expire_follows invoice report g : worker_follows g (defer_or_expire_invoice invoice report).
Proof.
  intros now. cbn [bind]. destruct (_ <=? now); [|done]. intros now'. apply ledger_or_follows; [|done].
  intros d [] d' H. right. by eapply expire_keeps.
Qed.

Lemma deferred_follows {R} invoice report (f : _ -> Prog R) g :
  (forall r g', worker_follows g' (f r)) -> worker_follows g (bind (defer_or_expire_invoice invoice report) f).
Proof. intros Hf. apply follows_bind; [apply defer_or_expire_follows|exact Hf]. Qed.

Lemma invoice_event_follows deadline invoice report g :
  worker_follows g (invoice_event deadline invoice report).
Proof.
  unfold invoice_event. destruct (ti_notification_event_json invoice); [done|].
  apply relay_context_follows. intros [b|]; [|done]. intros [[tx|]|err]; cbn [bind]; [| |done].
  2:{ by apply deferred_follows. }
  destruct (tx_status tx);
    try (by apply deferred_follows).
  apply owner_follows. intros [connection|].
  - apply relay_context_follows. intros [b'|]; [|done]. intros [secret|err]; [|done]. intros entropy.
    cbn [bind]. destruct (build_payment_received_notification_event _ _ _ _ _) as [proposed|]; [|done].
    apply follows_bind; [by destruct (tx_settled_at tx)|]. intros at' g'.
    apply ledger_or_follows; [|done]. intros d a d' H. right. by eapply store_invoice_keeps.
  - intros now. apply ledger_or_follows; [|done]. intros d [] d' H. right. by eapply expire_keeps.
Qed.

Lemma process_invoice_follows deadline invoice report g :
  worker_follows g (process_invoice deadline invoice report).
Proof.
  intros now. apply ledger_or_follows; [intros d [] d' H; right; by eapply touch_keeps|]. intros _.
  apply follows_bind; [apply invoice_event_follows|]. intros [[json|r]|e] g1; [|done..].
  apply read_follows. intros relays.
  assert (forall g2, worker_follows g2
    (let* now := call clock_now in
     ledger_or (complete_nwc_invoice_notification (ti_request_event_id invoice) now)
       (fun _ => Ret (Ok (nr_deliver (nr_inspect report)))))) as Hcomplete.
  { intros g2 t. apply ledger_or_follows; [|done]. intros d [] d' H. right. by eapply complete_invoice_keeps. }
  destruct relays as [|relay relays]; [apply Hcomplete|].
  apply follows_bind; [apply publish_invoice_follows|]. intros [[|]|e] g2; [done|apply Hcomplete|done].
Qed.

Lemma process_invoices_follows deadline invoices : forall report g,
  worker_follows g (process_invoices deadline invoices report).
Proof.
  induction invoices as [|invoice rest IH]; intros report g; [done|].
  cbn [process_invoices]. intros [|]; cbn [bind]; [done|]. apply follows_bind; [apply process_invoice_follows|].
  intros [r|e] g1; [apply IH|done].
Qed.

Lemma run_scoped_follows wallet budget : worker_follows None (run_scoped wallet budget).
Proof.
  apply read_follows. intros payments. apply follows_bind; [apply process_payments_follows|].
  intros [report|e] g1; [|done]. apply read_follows. intros invoices. apply process_invoices_follows.
Qed.

Lemma run_invoice_follows e budget : worker_follows None (run_invoice e budget).
Proof. apply read_follows. intros [invoice|]; [apply process_invoice_follows|done]. Qed.

End Delivery.

(** ** Publication *)

(** What a pass works on: all records, those of the connections of one wallet, or
    one invoice. *)
Inductive PassScope : Type :=
| Scope_all
| Scope_wallet (wallet : PublicKey)
| Scope_invoice (event : EventId).

Definition invoice_in_scope (scope : PassScope) (r : InvoiceRow) (d : Database) : Prop :=
  match scope with
  | Scope_all => True
  | Scope_wallet wallet => owned_by_wallet d wallet (iv_connection_id r) (iv_connection_revision r) = true
  | Scope_invoice e => iv_request_event_id r = e
  end.
(** A pass for one invoice touches no sent payment. *)
Definition payment_in_scope (scope : PassScope) (r : SentPaymentRow) (d : Database) : Prop :=
  match scope with
  | Scope_all => True
  | Scope_wallet wallet => owned_by_wallet d wallet (sp_connection_id r) (sp_connection_revision r) = true
  | Scope_invoice _ => False
  end.

Section Publication.
Context `{L : UrlLib} `{UP : !UrlParts L} `{NK : NostrKeys} `{N : NostrLib} `{NJ : NotificationJson} `{LL : !UrlLaws L} `{PL : !UrlPartsLaws UP}.
Context (d0 : Database) (scope : PassScope).

Definition since (d : Database) : Prop := library_wf d /\ rtc library_step d0 d.

(** [json] is the event of the invoice [e], which no transaction can change. *)
Definition invoice_published (e : EventId) (json : string) (d : Database) : Prop :=
  exists n, invoice_notice e d = Some n /\ nt_event n = Some json.
(** [json] was stored as the event of the sent payment [e] during the run; only
    dropping the record of a revoked connection can take it away. *)
Definition sent_published (e : EventId) (json : string) (d : Database) : Prop :=
  exists d1 n, since d1 /\ rtc library_step d1 d /\ sent_notice e d1 = Some n /\ nt_event n = Some json.

(** [relay] was read during the run as one that waits for the event. *)
Definition awaited (read : Database -> Result LedgerError (list string)) (relay : string) (d : Database) : Prop :=
  exists d1 l, since d1 /\ rtc library_step d1 d /\ read d1 = Ok l /\ relay ∈ l.

(** During the run the ledger held the invoice [e] with this payment hash, or the
    sent payment [e], in the scope of the pass and not yet announced. *)
Definition invoice_due (e : EventId) (hash : PaymentHash) (d : Database) : Prop :=
  exists d1 r, since d1 /\ rtc library_step d1 d /\ r ∈ nwc_created_invoices d1
    /\ iv_request_event_id r = e /\ iv_payment_hash r = hash /\ iv_completed_at r = None
    /\ invoice_in_scope scope r d1.
Definition payment_due (e : EventId) (d : Database) : Prop :=
  exists d1 r, since d1 /\ rtc library_step d1 d /\ r ∈ nwc_sent_payments d1
    /\ sp_request_event_id r = e /\ sp_completed_at r = None /\ payment_in_scope scope r d1.

Definition publishable (relay json : string) (d : Database) : Prop :=
  exists e, (exists hash, invoice_due e hash d) /\ invoice_published e json d
      /\ awaited (undelivered_nwc_invoice_relays e) relay d
    \/ payment_due e d /\ sent_published e json d /\ awaited (undelivered_nwc_sent_relays e) relay d.

(** A secret is used for a connection that was active during the run. *)
Definition owned (id : ConnectionId) (d : Database) : Prop :=
  exists d1 id' c, since d1 /\ rtc library_step d1 d
    /\ load_active_connection id' d1 = Ok (Some c) /\ ac_id c = id.

Definition notify_safe (X : Type) (c : HostCall X) (d : Database) : Prop :=
  match c with
  | publish_event relay json _ => publishable relay json d
  | load_nwc_secret id _ => owned id d
  | lookup_invoice request _ => exists e hash, invoice_due e hash d /\ request = Lookup_PaymentHash hash
  | clock_now | is_cancelled | elapsed | cipher_entropy => True
  | _ => False
  end.

Definition own (d d' : Database) : Prop := d' = d \/ outbox_step d d'.

Definition nwp {R} (p : Prog R) (Q : R -> Database -> Prop) (d : Database) : Prop :=
  wp library_step own notify_safe p Q d.

Lemma steps_trans d1 d2 d3 : rtc library_step d1 d2 -> rtc library_step d2 d3 -> rtc library_step d1 d3.
Proof. intros. by etrans. Qed.

Lemma since_steps d d' : rtc library_step d d' -> since d -> since d'.
Proof. intros H [Hwf Hr]. split; [by eapply library_steps_library|by etrans]. Qed.

Lemma own_steps d d' : own d d' -> rtc library_step d d'.
Proof. intros [->|H]; [apply rtc_refl|by apply rtc_once, by_outbox]. Qed.

Lemma invoice_published_steps e json d d' :
  rtc library_step d d' -> since d -> invoice_published e json d -> invoice_published e json d'.
Proof.
  intros Hs [Hwf _] (n & Hn & Hj). destruct (library_steps_library d d' Hs Hwf) as [_ [_ _ Hk]].
  destruct (Hk e n Hn) as [|(n' & Hn' & He & _)]; [congruence|]. exists n'. split; [done|congruence].
Qed.

Lemma sent_published_steps e json d d' :
  rtc library_step d d' -> sent_published e json d -> sent_published e json d'.
Proof. intros Hs (d1 & n & H1 & H2 & H). exists d1, n. split_and!; try apply H; [done|by etrans]. Qed.

Lemma awaited_steps read relay d d' : rtc library_step d d' -> awaited read relay d -> awaited read relay d'.
Proof. intros Hs (d1 & l & H1 & H2 & H). exists d1, l. split_and!; try apply H; [done|by etrans]. Qed.

Lemma invoice_due_steps e hash d d' : rtc library_step d d' -> invoice_due e hash d -> invoice_due e hash d'.
Proof. intros Hs (d1 & r & H1 & H2 & H). exists d1, r. split_and!; try apply H; [done|by etrans]. Qed.

Lemma payment_due_steps e d d' : rtc library_step d d' -> payment_due e d -> payment_due e d'.
Proof. intros Hs (d1 & r & H1 & H2 & H). exists d1, r. split_and!; try apply H; [done|by etrans]. Qed.

(** The records of a pass, with what is stored of them. *)
Definition sent_record (x : TrackedNwcPayment) (d : Database) : Prop :=
  payment_due (tp_request_event_id x) d
  /\ forall json, tp_notification_event_json x = Some json -> sent_published (tp_request_event_id x) json d.
Definition invoice_record (x : TrackedNwcInvoice) (d : Database) : Prop :=
  invoice_due (ti_request_event_id x) (ti_payment_hash x) d
  /\ forall json, ti_notification_event_json x = Some json -> invoice_published (ti_request_event_id x) json d.

Lemma sent_record_steps x d d' : rtc library_step d d' -> sent_record x d -> sent_record x d'.
Proof.
  intros Hs [H1 H2]. split; [by eapply payment_due_steps|]. intros json Hj.
  eapply sent_published_steps; [exact Hs|auto].
Qed.
Lemma invoice_record_steps x d d' : rtc library_step d d' -> since d -> invoice_record x d -> invoice_record x d'.
Proof.
  intros Hs Hd [H1 H2]. split; [by eapply invoice_due_steps|]. intros json Hj.
  eapply invoice_published_steps; [exact Hs|done|auto].
Qed.

Lemma sent_record_now r x d : since d -> r ∈ nwc_sent_payments d -> sp_completed_at r = None ->
  payment_in_scope scope r d -> decode_sent_payment r = Ok x -> sent_record x d.
Proof.
  intros Hd Hr Hn Hs Hx. pose proof (stored_sent_event r x d (lw_settlements _ (proj1 Hd)) Hr Hx) as He.
  pose proof Hx as [E _]%decode_sent_Ok. split.
  - exists d, r. split_and!; [done|apply rtc_refl|done..].
  - intros json Hj. destruct (He json Hj) as (n & H). exists d, n. split_and!; try apply H; [done|apply rtc_refl].
Qed.
Lemma invoice_record_now r x d : since d -> r ∈ nwc_created_invoices d -> iv_completed_at r = None ->
  invoice_in_scope scope r d -> decode_invoice r = Ok x -> invoice_record x d.
Proof.
  intros Hd Hr Hn Hs Hx. pose proof (stored_invoice_event r x d (lw_settlements _ (proj1 Hd)) Hr Hx) as He.
  pose proof Hx as (E1 & E2 & _)%decode_invoice_Ok. split; [|exact He].
  exists d, r. split_and!; [done|apply rtc_refl|done..].
Qed.

Lemma owned_steps id d d' : rtc library_step d d' -> owned id d -> owned id d'.
Proof. intros Hs (d1 & i & c & H1 & H2 & H). exists d1, i, c. split_and!; try apply H; [done|by etrans]. Qed.

(** *** The calls of the worker *)

Definition anything {R} (_ : R) (_ : Database) : Prop := True.

Lemma nwp_ret {R} (r : R) d : nwp (Ret r) anything d.
Proof. done. Qed.

(** A program leads to a later database. *)
Lemma nwp_later {R} (p : Prog R) Q : forall d,
  nwp p Q d -> nwp p (fun r d' => Q r d' /\ rtc library_step d d') d.
Proof.
  unfold nwp, wp. induction p as [r|X c k IH|E A t k IH]; simpl; intros d Hw d1 H1; specialize (Hw d1 H1).
  - by split.
  - destruct Hw as [Hs Hw]. split; [done|]. intros x Hx. eapply (wp_mono library_step own notify_safe); [exact (IH x d1 (Hw x Hx))|].
    intros r d' [HQ H]. split; [done|by etrans].
  - destruct (t d1) as [[a d2]|e].
    + destruct Hw as [Ho Hw]. split; [done|]. eapply (wp_mono library_step own notify_safe); [exact (IH _ d2 Hw)|].
      intros r d' [HQ H]. split; [done|]. apply own_steps in Ho. etrans; [exact H1|by etrans].
    + eapply (wp_mono library_step own notify_safe); [exact (IH _ d1 Hw)|]. intros r d' [HQ H]. split; [done|by etrans].
Qed.

Lemma nwp_bind {R S} (p : Prog R) (k : R -> Prog S) Q Q' d : since d -> nwp p Q d ->
  (forall r d', since d' -> rtc library_step d d' -> Q r d' -> nwp (k r) Q' d') -> nwp (bind p k) Q' d.
Proof.
  intros Hd Hp Hk. apply wp_bind. eapply wp_mono; [exact (nwp_later p Q d Hp)|]. intros r d' [HQ H].
  apply Hk; [by eapply since_steps|done|done].
Qed.

Lemma nwp_call {X R} (c : HostCall X) (k : X -> Prog R) Q d : since d ->
  (forall d', since d' -> rtc library_step d d' -> notify_safe X c d') ->
  (forall x d', since d' -> rtc library_step d d' -> nwp (k x) Q d') -> nwp (bind (call c) k) Q d.
Proof.
  intros Hd Hs Hk. apply wp_bind_call. intros d' H. pose proof (since_steps _ _ H Hd).
  split; [by apply Hs|]. intros x _. by apply Hk.
Qed.

Lemma nwp_context {R} deadline (k : option Duration -> Prog R) Q d : since d ->
  (forall b d', since d' -> rtc library_step d d' -> nwp (k b) Q d') -> nwp (bind (context deadline) k) Q d.
Proof.
  intros Hd Hk. apply wp_bind, wp_context; [done..|]. intros d' b H. apply Hk; [by eapply since_steps|done].
Qed.

Lemma nwp_ledger_or {A R} (t : Tx LedgerError A) (k : A -> Prog (Result InvoiceNotificationError R))
    (Q : Result InvoiceNotificationError R -> Database -> Prop) d : since d ->
  (forall d', since d' -> Q (Err Notify_Ledger) d') ->
  (forall d1 a d2, since d1 -> rtc library_step d d1 -> t d1 = Ok (a, d2) -> own d1 d2
     /\ (since d2 -> rtc library_step d d2 -> nwp (k a) Q d2)) ->
  nwp (ledger_or t k) Q d.
Proof.
  intros Hd HQ Hk. apply wp_bind_ledger. intros d1 H1. pose proof (since_steps _ _ H1 Hd) as Hs1.
  destruct (t d1) as [[a d2]|e] eqn:Ht; [|intros d2 H2; apply HQ; by eapply since_steps]. destruct (Hk d1 a d2 Hs1 H1 Ht) as [Ho Hw].
  split; [done|]. apply own_steps in Ho. apply Hw; [by eapply since_steps|by etrans].
Qed.

Lemma nwp_read {A R} (f : Database -> Result LedgerError A) (k : A -> Prog (Result InvoiceNotificationError R))
    (Q : Result InvoiceNotificationError R -> Database -> Prop) d : since d ->
  (forall d', since d' -> Q (Err Notify_Ledger) d') ->
  (forall a d', since d' -> rtc library_step d d' -> f d' = Ok a -> nwp (k a) Q d') ->
  nwp (ledger_or (read f) k) Q d.
Proof.
  intros Hd HQ Hk. apply nwp_ledger_or; [done..|]. intros d1 a d2 H1 H2 H. unfold read in H.
  destruct (f d1) as [a'|] eqn:Hf; [|done]. injection H as -> <-. split; [by left|]. intros _ _. by apply Hk.
Qed.

Lemma nwp_owner {R} id revision (k : option ActiveConnection -> Prog (Result InvoiceNotificationError R))
    (Q : Result InvoiceNotificationError R -> Database -> Prop) d : since d ->
  (forall d', since d' -> Q (Err Notify_Ledger) d') ->
  (forall c d', since d' -> rtc library_step d d' -> (forall x, c = Some x -> owned (ac_id x) d') -> nwp (k c) Q d') ->
  nwp (load_owner id revision k) Q d.
Proof.
  intros Hd HQ Hk. apply wp_bind_read; [by left|]. intros d1 H1. pose proof (since_steps _ _ H1 Hd) as Hs1.
  destruct (load_active_connection id d1) as [c|e] eqn:Hl; [|intros d2 H2; apply HQ; by eapply since_steps]. apply Hk; [done..|].
  intros x Hx. destruct c as [c|]; [|done]. destruct (_ =? _); [|done]. injection Hx as <-.
  exists d1, id, c. split_and!; try done; apply rtc_refl.
Qed.

(** *** The passes *)

Lemma sent_now e json d : since d -> (exists n, sent_notice e d = Some n /\ nt_event n = Some json) ->
  sent_published e json d.
Proof. intros Hd (n & H). exists d, n. split_and!; try apply H; [done|apply rtc_refl]. Qed.

Lemma awaited_now (read : Database -> Result LedgerError (list string)) d l : since d -> read d = Ok l ->
  forall relay, relay ∈ l -> awaited read relay d.
Proof. intros Hd Hr relay Hin. exists d, l. by split_and!. Qed.

Lemma outbox_own d d' : outbox_step d d' -> own d d'.
Proof. by right. Qed.

Lemma publish_sent_nwp deadline e json relays : forall failed d, since d -> payment_due e d -> sent_published e json d ->
  (forall relay, relay ∈ relays -> awaited (undelivered_nwc_sent_relays e) relay d) ->
  nwp (publish_sent deadline e json relays failed) anything d.
Proof.
  induction relays as [|relay rest IH]; intros failed d Hd Hdue Hs Ha; [done|]. cbn [publish_sent].
  assert (forall f d', since d' -> rtc library_step d d' -> nwp (publish_sent deadline e json rest f) anything d') as Hrest.
  { intros f d' Hd' Hst. apply IH; [done|by eapply payment_due_steps|by eapply sent_published_steps|].
    intros r Hr. eapply awaited_steps; [exact Hst|]. apply Ha. by apply elem_of_cons; right. }
  apply nwp_context; [done|]. intros [b|] d1 Hd1 H1; [|done]. apply nwp_call; [done| |].
  - intros d2 _ H2. exists e. right. assert (rtc library_step d d2) as Hst by (by etrans).
    split_and!; [by eapply payment_due_steps|by eapply sent_published_steps|]. eapply awaited_steps; [exact Hst|]. apply Ha. apply elem_of_cons; by left.
  - intros [[]|err] d2 Hd2 H2; [|apply Hrest; [done|by etrans]].
    apply nwp_call; [done..|]. intros now d3 Hd3 H3. apply nwp_ledger_or; [done..|].
    intros d4 [] d5 _ H4 Hack. split; [by eapply outbox_own, step_acknowledge_sent|].
    intros Hd5 H5. apply Hrest; [done|]. etrans; [exact H1|]. etrans; [exact H2|]. by etrans.
Qed.

Lemma publish_invoice_nwp deadline e json relays : forall failed d, since d -> (exists hash, invoice_due e hash d) ->
  invoice_published e json d ->
  (forall relay, relay ∈ relays -> awaited (undelivered_nwc_invoice_relays e) relay d) ->
  nwp (publish_invoice deadline e json relays failed) anything d.
Proof.
  induction relays as [|relay rest IH]; intros failed d Hd [hash Hdue] Hs Ha; [done|]. cbn [publish_invoice].
  assert (forall f d', since d' -> rtc library_step d d' -> nwp (publish_invoice deadline e json rest f) anything d') as Hrest.
  { intros f d' Hd' Hst. apply IH; [done|by eexists; eapply invoice_due_steps|by eapply invoice_published_steps|].
    intros r Hr. eapply awaited_steps; [exact Hst|]. apply Ha. by apply elem_of_cons; right. }
  apply nwp_call; [done..|]. intros [|] d1 Hd1 H1; [done|].
  apply nwp_context; [done|]. intros [b|] d2 Hd2 H2; [|done]. apply nwp_call; [done| |].
  - intros d3 _ H3. exists e. left. assert (rtc library_step d d3) as Hst by (etrans; [exact H1|]; by etrans).
    split_and!; [by eexists; eapply invoice_due_steps|by eapply invoice_published_steps|]. eapply awaited_steps; [exact Hst|]. apply Ha. apply elem_of_cons; by left.
  - intros [[]|err] d3 Hd3 H3; [|apply Hrest; [done|]; etrans; [exact H1|]; by etrans].
    apply nwp_call; [done..|]. intros now d4 Hd4 H4. apply nwp_ledger_or; [done..|].
    intros d5 [] d6 _ H5 Hack. split; [by eapply outbox_own, step_acknowledge_invoice|].
    intros Hd6 H6. apply Hrest; [done|]. etrans; [exact H1|]. etrans; [exact H2|]. etrans; [exact H3|]. by etrans.
Qed.

Lemma sent_event_nwp deadline connection payment d : since d -> owned (ac_id connection) d ->
  (forall json, tp_notification_event_json payment = Some json ->
     sent_published (tp_request_event_id payment) json d) ->
  nwp (sent_event deadline connection payment) (fun r d' =>
    forall json, r = Ok (Some json) -> sent_published (tp_request_event_id payment) json d') d.
Proof.
  intros Hd Ho Hstored. unfold sent_event.
  assert (forall d' (r : Result InvoiceNotificationError (option string)), since d' -> (forall json, r <> Ok (Some json)) ->
    nwp (Ret r) (fun r d' =>
      forall json, r = Ok (Some json) -> sent_published (tp_request_event_id payment) json d') d') as Hend.
  { intros d' r Hd' Hr d2 H2 json ->. by destruct (Hr json). }
  destruct (tp_notification_event_json payment) as [json|].
  { intros d1 H1 j [= <-]. eapply sent_published_steps; [exact H1|auto]. }
  apply nwp_context; [done|]. intros [b|] d1 Hd1 H1; [|by apply Hend].
  apply nwp_call; [done|intros d2 _ H2; apply (owned_steps _ d); [by etrans|done]|].
  intros [secret|err] d2 Hd2 H2; [|by apply Hend]. apply nwp_call; [done..|]. intros entropy d3 Hd3 H3.
  destruct (build_payment_sent_notification_event _ _ _ _) as [proposed|err]; [|by apply Hend].
  apply wp_bind_ledger. intros d4 H4. pose proof (since_steps _ _ H4 Hd3) as Hd4.
  destruct (store_nwc_sent_notification_event _ _ d4) as [[c d5]|err] eqn:Hst; [|by apply Hend].
  assert (outbox_step d4 d5) as Hstep by (by eapply step_store_sent).
  split; [by apply outbox_own|]. assert (since d5) as Hd5 by (eapply since_steps; [by apply rtc_once, by_outbox|done]).
  intros d6 H6 j [= <-]. eapply sent_published_steps; [exact H6|].
  apply sent_now; [done|]. by eapply store_sent_Ok; [apply Hd4|].
Qed.

Lemma process_payments_nwp deadline payments : forall report d, since d ->
  (forall x, x ∈ payments -> sent_record x d) ->
  nwp (process_payments deadline payments report) anything d.
Proof.
  induction payments as [|payment rest IH]; intros report d Hd Hp; [done|]. cbn [process_payments].
  assert (forall r d', since d' -> rtc library_step d d' ->
    nwp (process_payments deadline rest r) anything d') as Hrest.
  { intros r d' Hd' H. apply IH; [done|]. intros x Hx. eapply sent_record_steps; [exact H|].
    apply Hp. by apply elem_of_cons; right. }
  destruct (Hp payment) as [Hdue Hstored]; [by apply elem_of_cons; left|].
  apply nwp_call; [done..|]. intros [|] d1 Hd1 H1; [done|].
  apply nwp_owner; [done..|]. intros [connection|] d2 Hd2 H2 Ho.
  2:{ apply nwp_ledger_or; [done..|]. intros d3 [] d4 _ H3 Hdrop.
      split; [by eapply outbox_own, step_discard_sent|]. intros Hd4 H4. apply Hrest; eauto using steps_trans. }
  eapply nwp_bind; [done|apply sent_event_nwp; [done|by apply Ho|]|].
  { intros json Hj. eapply (sent_published_steps _ _ d); [by etrans|auto]. }
  intros [[json|]|err] d3 Hd3 H3 Hj; [|done..]. apply nwp_read; [done..|]. intros relays d4 Hd4 H4 Hread.
  eapply nwp_bind; [done|apply publish_sent_nwp; [done| | |by eapply awaited_now]|].
  { eapply (payment_due_steps _ d); eauto 8 using steps_trans. }
  { eapply sent_published_steps; [exact H4|by apply Hj]. }
  intros [[|]|err] d5 Hd5 H5 _; [apply Hrest; eauto using steps_trans| |done].
  apply nwp_call; [done..|]. intros now d6 Hd6 H6. apply nwp_ledger_or; [done..|].
  intros d7 [] d8 _ H7 Hc. split; [by eapply outbox_own, step_complete_sent|].
  intros Hd8 H8. apply Hrest; eauto 8 using steps_trans.
Qed.

Lemma defer_or_expire_nwp invoice report d : since d ->
  nwp (defer_or_expire_invoice invoice report) anything d.
Proof.
  intros Hd. apply nwp_call; [done..|]. intros now d1 Hd1 H1. destruct (_ <=? now); [|done].
  apply nwp_call; [done..|]. intros now' d2 Hd2 H2. apply nwp_ledger_or; [done..|].
  intros d3 [] d4 _ H3 He. split; [by eapply outbox_own, step_expire_invoice|done].
Qed.

Lemma deferred_nwp {R} invoice report (f : _ -> Prog R) Q d : since d ->
  (forall r d', since d' -> nwp (f r) Q d') -> nwp (bind (defer_or_expire_invoice invoice report) f) Q d.
Proof. intros Hd Hf. eapply nwp_bind; [done|by apply defer_or_expire_nwp|]. intros r d' Hd' _ _. by apply Hf. Qed.

Definition invoice_event_post (invoice : TrackedNwcInvoice)
    (r : Result InvoiceNotificationError (string + InvoiceNotificationWorkerReport)) (d : Database) : Prop :=
  forall json, r = Ok (inl json) -> invoice_published (ti_request_event_id invoice) json d.

Lemma invoice_event_nwp deadline invoice report d : since d -> invoice_record invoice d ->
  nwp (invoice_event deadline invoice report) (invoice_event_post invoice) d.
Proof.
  intros Hd [Hdue Hstored]. unfold invoice_event.
  assert (forall d' r, (forall json, r <> Ok (inl json)) -> nwp (Ret r) (invoice_event_post invoice) d') as Hend.
  { intros d' r Hr d2 H2 json ->. by destruct (Hr json). }
  assert (forall d', invoice_event_post invoice (Err Notify_Ledger) d') as Herr by (by intros d' json).
  assert (forall d' r', since d' -> nwp (bind (defer_or_expire_invoice invoice r')
    (fun r => Ret (let? report := r in Ok (inr report)))) (invoice_event_post invoice) d') as Hdefer.
  { intros d' r' Hd'. apply deferred_nwp; [done|]. intros r d2 _. apply Hend. by destruct r. }
  destruct (ti_notification_event_json invoice) as [json|].
  { intros d1 H1 j [= <-]. eapply invoice_published_steps; [exact H1|done|by apply Hstored]. }
  apply nwp_context; [done|]. intros [b|] d1 Hd1 H1; [|by apply Hend].
  apply nwp_call; [done| |].
  { intros d2 _ H2. exists (ti_request_event_id invoice), (ti_payment_hash invoice). split; [|done].
    eapply (invoice_due_steps _ _ d); [by etrans|done]. }
  intros [[tx|]|err] d2 Hd2 H2; [|by apply Hdefer|by apply Hend].
  destruct (tx_status tx); try (by apply Hdefer).
  apply nwp_owner; [done..|]. intros [connection|] d3 Hd3 H3 Ho.
  2:{ apply nwp_call; [done..|]. intros now d4 Hd4 H4. apply nwp_ledger_or; [done..|].
      intros d5 [] d6 _ H5 He. split; [by eapply outbox_own, step_expire_invoice|by intros; apply Hend]. }
  apply nwp_context; [done|]. intros [b'|] d4 Hd4 H4; [|by apply Hend].
  apply nwp_call; [done|intros d5 _ H5; eapply (owned_steps _ d3); [by etrans|by apply Ho]|].
  intros [secret|err] d5 Hd5 H5; [|by apply Hend]. apply nwp_call; [done..|]. intros entropy d6 Hd6 H6.
  destruct (build_payment_received_notification_event _ _ _ _ _) as [proposed|err]; [|by apply Hend].
  eapply (nwp_bind _ _ anything); [done|destruct (tx_settled_at tx); [done|apply wp_call; done]|].
  intros at' d7 Hd7 H7 _. apply nwp_ledger_or; [done..|].
  intros d8 json d9 Hd8 H8 Hst. split; [by eapply outbox_own, step_store_invoice|].
  intros Hd9 H9 d10 H10 j [= <-]. eapply invoice_published_steps; [exact H10|done|].
  destruct (store_invoice_Ok _ _ _ _ _ _ (lw_settlements _ (proj1 Hd8)) Hst) as (n & Hn & _ & -> & _ & _ & Hn').
  specialize (Hn' (ti_request_event_id invoice)). rewrite bool_decide_true in Hn' by done. by eexists.
Qed.

Lemma process_invoice_nwp deadline invoice report d : since d -> invoice_record invoice d ->
  nwp (process_invoice deadline invoice report) anything d.
Proof.
  intros Hd Hstored. unfold process_invoice. apply nwp_call; [done..|]. intros now d1 Hd1 H1.
  apply nwp_ledger_or; [done..|]. intros d2 [] d3 _ H2 Ht. split; [by eapply outbox_own, step_touch_invoice|].
  intros Hd3 H3. eapply nwp_bind; [done|apply invoice_event_nwp; [done|]|].
  { eapply (invoice_record_steps _ d); [by etrans|done..]. }
  intros [[json|r]|err] d4 Hd4 H4 Hj; [|done..]. apply nwp_read; [done..|]. intros relays d5 Hd5 H5 Hread.
  assert (forall d', since d' -> nwp (let* now := call clock_now in
    ledger_or (complete_nwc_invoice_notification (ti_request_event_id invoice) now)
      (fun _ => Ret (Ok (nr_deliver (nr_inspect report))))) anything d') as Hcomplete.
  { intros d' Hd'. apply nwp_call; [done..|]. intros t d6 Hd6 H6. apply nwp_ledger_or; [done..|].
    intros d7 [] d8 _ H7 Hc. split; [by eapply outbox_own, step_complete_invoice|done]. }
  destruct relays as [|relay relays]; [by apply Hcomplete|].
  eapply nwp_bind; [done|apply publish_invoice_nwp; [done| | |by eapply awaited_now]|].
  { eexists. eapply (invoice_due_steps _ _ d); [eauto 8 using steps_trans|apply Hstored]. }
  { eapply invoice_published_steps; [exact H5|done|by apply Hj]. }
  intros [[|]|err] d6 Hd6 H6 _; [done|by apply Hcomplete|done].
Qed.

Lemma process_invoices_nwp deadline invoices : forall report d, since d ->
  (forall x, x ∈ invoices -> invoice_record x d) ->
  nwp (process_invoices deadline invoices report) anything d.
Proof.
  induction invoices as [|invoice rest IH]; intros report d Hd Hp; [done|]. cbn [process_invoices].
  apply nwp_call; [done..|]. intros [|] d1 Hd1 H1; [done|].
  eapply nwp_bind; [done|apply process_invoice_nwp; [done|]|].
  { eapply invoice_record_steps; [exact H1|done|]. apply Hp. by apply elem_of_cons; left. }
  intros [r|err] d2 Hd2 H2 _; [|done]. apply IH; [done|]. intros x Hx.
  eapply (invoice_record_steps _ d); [by etrans|done|]. apply Hp. by apply elem_of_cons; right.
Qed.

Lemma run_scoped_nwp wallet budget d :
  scope = match wallet with Some k => Scope_wallet k | None => Scope_all end ->
  since d -> nwp (run_scoped wallet budget) anything d.
Proof.
  intros Hscope Hd. apply nwp_read; [done..|]. intros payments d1 Hd1 H1 Hp.
  eapply nwp_bind; [done|apply process_payments_nwp; [done|]|].
  { intros x Hx. destruct wallet; (destruct (pending_sent_rows _ _ _ _ Hp x Hx) as (r & Hr & Hn & Hs & Hdec);
      eapply sent_record_now; [done..| |exact Hdec]; by rewrite Hscope). }
  intros [report|err] d2 Hd2 H2 _; [|done]. apply nwp_read; [done..|]. intros invoices d3 Hd3 H3 Hi.
  apply process_invoices_nwp; [done|]. intros x Hx.
  destruct wallet; (destruct (pending_invoice_rows _ _ _ _ Hi x Hx) as (r & Hr & Hn & Hs & Hdec);
    eapply invoice_record_now; [done..| |exact Hdec]; by rewrite Hscope).
Qed.

Lemma run_invoice_nwp e budget d : scope = Scope_invoice e -> since d -> nwp (run_invoice e budget) anything d.
Proof.
  intros Hscope Hd. apply nwp_read; [done..|]. intros [invoice|] d1 Hd1 H1 Hp; [|done].
  apply process_invoice_nwp; [done|]. destruct (pending_invoice_row _ _ _ Hp) as (r & Hr & Hn & Hs & Hdec).
  eapply invoice_record_now; [done..| |exact Hdec]. by rewrite Hscope.
Qed.

End Publication.

(** ** Properties *)

(** A pass over all records, over those of one wallet, or for one invoice. *)
Inductive notification_pass `{L : UrlLib} `{NK : NostrKeys} `{N : NostrLib} `{NJ : NotificationJson} :
  PassScope -> Prog (Result InvoiceNotificationError InvoiceNotificationWorkerReport) -> Prop :=
| pass_all budget : notification_pass Scope_all (notify_run budget)
| pass_wallet wallet budget : notification_pass (Scope_wallet wallet) (run_for_wallet wallet budget)
| pass_invoice e budget : notification_pass (Scope_invoice e) (run_invoice e budget).

Section Properties.
Context `{L : UrlLib} `{UP : !UrlParts L} `{NK : NostrKeys} `{N : NostrLib} `{NJ : NotificationJson} `{LL : !UrlLaws L} `{PL : !UrlPartsLaws UP}.

(** A relay counts as reached only after it accepted the event: every commit of a
    pass either acknowledges the relay that has just accepted an event, once
    for that answer, or leaves the relays that wait as they are, except those
    of a record it drops. *)
Theorem delivered_after_acceptance env scope p d p1 d1 g1 p2 d2 g2 (Hp : notification_pass scope p)
    (Hrun : rtc (history_step note_relay (fun _ => None) env) (p, d, None) (p1, d1, g1))
    (Hstep : history_step note_relay (fun _ => None) env (p1, d1, g1) (p2, d2, g2)) :
  d2 = d1 \/ env d1 d2 \/ may_commit g1 d1 d2.
Proof.
  eapply (follows_adequate note_relay (fun _ => None) may_commit env); [|exact Hrun|exact Hstep].
  destruct Hp; [apply run_scoped_follows..|apply run_invoice_follows].
Qed.

(** C22: Wherever a pass stops, and whatever the host answers and other processes
    commit meanwhile, all it has committed are outbox transactions, so that the
    invariants of the library hold and what is permanent is kept; and the call
    it makes next is harmless: it publishes nothing but the stored event of an
    invoice, or an event that was stored for a sent payment, to a relay it read
    as waiting for it; it opens the key of no connection that was not active
    during the run; and it asks the wallet for nothing but the state of an
    invoice.  The invoice or payment was stored during the run, not yet announced,
    and in the scope of the pass: of its wallet, or the one invoice it is for. *)
Theorem publishes_stored_events env (Henv : forall d d', env d d' -> library_step d d')
    scope d0 p p1 d1 (Hp : notification_pass scope p) (Hwf : library_wf d0)
    (Hrun : reaches env (p, d0) (p1, d1)) :
  rtc (fun d d' => env d d' \/ outbox_step d d') d0 d1
  /\ library_wf d1 /\ persists d0 d1
  /\ forall X (c : HostCall X) k, p1 = Host c k ->
       match c with
       | publish_event relay json _ => publishable d0 scope relay json d1
       | load_nwc_secret id _ => owned d0 id d1
       | lookup_invoice request _ =>
           exists e hash, invoice_due d0 scope e hash d1 /\ request = Lookup_PaymentHash hash
       | clock_now | is_cancelled | elapsed | cipher_entropy => True
       | _ => False
       end.
Proof.
  assert (since d0 d0) as Hd by (split; [done|apply rtc_refl]).
  assert (nwp d0 scope p anything d0) as Hw
    by (destruct Hp; [by eapply run_scoped_nwp..|by apply run_invoice_nwp]).
  apply (wp_weaken library_step env own own _ _ _ _ Henv (fun _ _ H => H) (fun _ _ _ H => H)) in Hw.
  destruct (wp_adequate _ _ _ _ _ _ _ _ Hw Hrun) as [Hw1 Hm].
  assert (rtc (fun d d' => env d d' \/ outbox_step d d') d0 d1) as Hm1.
  { clear -Hm. induction Hm as [d|d d2 d' [Hs|[->|Hs]] _ IH]; [apply rtc_refl| |done|];
      (eapply rtc_l; [|exact IH]); [by left|by right]. }
  assert (rtc library_step d0 d1) as Hst.
  { eapply (rtc_congruence (fun d => d)); [|exact Hm1]. intros a b [?|?]; [by apply Henv|by apply by_outbox]. }
  destruct (library_steps_library d0 d1 Hst Hwf) as [Hwf1 Hps]. split_and!; [done..|].
  intros X c k ->. exact (wp_Host _ _ _ _ _ _ _ Hw1).
Qed.

End Properties.

(** ** A run of the model

    The wallet reports the invoice of the imported connection as settled. *)

Definition sample_notification_json : NotificationJson := {| notification_as_json := fun _ _ => "{}"%string |}.

Definition settled_transaction : WalletTransaction :=
  mkWalletTransaction (Some (repeat 6 32)) Incoming 1000 0 240 (Some 245) (Status_Succeeded (repeat 7 32) 1000 0).

Definition settled_host (X : Type) (c : HostCall X) : X :=
  match c in HostCall X return X with
  | clock_now => 250
  | is_cancelled => false
  | elapsed => 0
  | lookup_invoice _ _ => Ok (Some settled_transaction)
  | load_nwc_secret _ _ => Ok (repeat 8 32)
  | publish_event _ _ _ => Ok tt
  | get_info _ | get_balance _ | make_invoice _ _ | quote_payment _ _ _ | payment_status _ _
  | start_payment _ _ | list_transactions _ _ | fetch_event _ _ _ _ | apply_registration _ _ _ =>
      Err Unavailable
  | record_diagnostic _ => tt
  | random_bytes n => Some (repeat 4 n)
  | cipher_entropy => []
  | generate_keys => (repeat 4 32, repeat 5 32)
  | load_client_secret _ => Ok (Some "secret"%string)
  | store_client_secret _ _ | delete_client_secret _ => Ok tt
  | http_post _ _ _ => Ok 200
  | instant_now => 0
  | sleep _ => tt
  | open_node _ _ => Ok (mkWalletInfo None [] [])
  | complete_wake _ _ => Ok tt
  end.

Lemma settled_host_typed X (c : HostCall X) : answer_typed c (settled_host X c).
Proof.
  assert (u64 250 /\ u64 1000 /\ u64 240 /\ u64 245 /\ u64 0 /\ duration 0) as (H1 & H2 & H3 & H4 & H5 & H6)
    by (by repeat split).
  destruct c; simpl; try exact I; try exact H1; try exact H6; try (by intros).
  - intros t [= <-]. split_and!; simpl; try done; by intros h [= <-].
  - by intros s [= <-].
  - intros b [= <-]. apply repeat_length.
  - by intros i [= <-].
Qed.

Definition sample_notify : Prog (Result InvoiceNotificationError InvoiceNotificationWorkerReport) :=
  @run_invoice sample_urls sample_keys sample_nostr sample_notification_json (repeat 3 32) (from_secs 20).

Lemma invoiced_library_wf : @library_wf sample_urls sample_parts sample_keys invoiced_database.
Proof.
  destruct invoiced_step as [i Hi].
  eapply (@library_steps_library sample_urls sample_parts sample_keys
    sample_url_laws sample_parts_laws empty_database); [|apply empty_library_wf].
  eapply rtc_l; [apply by_registry, imported_step|]. eapply rtc_once, by_outbox, step_record_invoice, Hi.
Qed.

Definition sample_notify_history (n : nat) :=
  history_after note_relay (fun _ => None) settled_host n sample_notify invoiced_database None.

Lemma delivered_after_acceptance_witness :
  may_commit (sample_notify_history 18).2 (sample_notify_history 18).1.2 (sample_notify_history 19).1.2
  /\ waiting (repeat 3 32) (nwc_invoice_notification_relays (sample_notify_history 18).1.2)
     <> waiting (repeat 3 32) (nwc_invoice_notification_relays (sample_notify_history 19).1.2).
Proof.
  pose proof (history_after_reaches note_relay (fun _ => None) (fun _ _ => False) settled_host
    settled_host_typed 18 sample_notify invoiced_database None) as Hrun.
  pose proof (history_after_step note_relay (fun _ => None) (fun _ _ => False) settled_host
    settled_host_typed 18 sample_notify invoiced_database None) as Hstep.
  fold (sample_notify_history 18) in Hrun, Hstep. fold (sample_notify_history 19) in Hstep.
  assert (waiting (repeat 3 32) (nwc_invoice_notification_relays (sample_notify_history 18).1.2)
    <> waiting (repeat 3 32) (nwc_invoice_notification_relays (sample_notify_history 19).1.2)) as Hne.
  { clear. intros H. assert (bool_decide (waiting (repeat 3 32)
      (nwc_invoice_notification_relays (sample_notify_history 18).1.2)
      = waiting (repeat 3 32) (nwc_invoice_notification_relays (sample_notify_history 19).1.2)) = false) as Hd
      by (clear; by vm_compute). exact (bool_decide_eq_false_1 _ Hd H). }
  assert (match (sample_notify_history 18).1.1 with Transact _ _ => true | _ => false end = true) as Ht
    by (clear; by vm_compute).
  destruct (sample_notify_history 18) as [[p1 d1] g1], (sample_notify_history 19) as [[p2 d2] g2].
  destruct p1 as [r|X c k|E A t k]; [discriminate Ht..|].
  destruct (@delivered_after_acceptance sample_urls sample_keys sample_nostr sample_notification_json
    (fun _ _ => False) _ _ _ _ _ _ _ _ _ (@pass_invoice sample_urls sample_keys sample_nostr sample_notification_json
      (repeat 3 32) (from_secs 20)) Hrun Hstep) as [H|[[]|H]].
  - destruct Hne. simpl. by rewrite H.
  - split; [exact H|exact Hne].
Defined.

Lemma publishes_stored_events_witness :
  exists relay json budget k d,
    advance settled_host 16 sample_notify invoiced_database = (Host (publish_event relay json budget) k, d)
    /\ @publishable sample_urls sample_parts sample_keys invoiced_database (Scope_invoice (repeat 3 32)) relay json d.
Proof.
  assert (match (advance settled_host 16 sample_notify invoiced_database).1 with
          | Host (publish_event _ _ _) _ => true | _ => false end = true) as Hp by (clear; by vm_compute).
  pose proof (advance_reaches (@library_step sample_urls sample_parts sample_keys) settled_host settled_host_typed 16
    sample_notify invoiced_database) as Hr.
  destruct (advance settled_host 16 sample_notify invoiced_database) as [p d].
  destruct p as [r|X c k|E A t k]; [discriminate Hp| |discriminate Hp].
  destruct c; try discriminate Hp.
  destruct (@publishes_stored_events sample_urls sample_parts sample_keys sample_nostr sample_notification_json
    sample_url_laws sample_parts_laws _ (fun _ _ H => H) _
    invoiced_database _ _ _ (@pass_invoice sample_urls sample_keys sample_nostr sample_notification_json
      (repeat 3 32) (from_secs 20)) invoiced_library_wf Hr) as (_ & _ & _ & H).
  exists relay, event_json, context, k, d. split; [reflexivity|]. exact (H _ _ _ eq_refl).
Defined.

(** A cancelled pass says that no other pass is needed although it left the invoice
    unfinished: the loop ends without counting what it did not inspect. *)
Definition cancelled_host (X : Type) (c : HostCall X) : X :=
  match c in HostCall X return X -> X with
  | is_cancelled => fun _ => true
  | _ => fun x => x
  end (settled_host X c).

Lemma cancelled_pass_hides_work :
  let p := @notify_run sample_urls sample_keys sample_nostr sample_notification_json (from_secs 20) in
  let s := run_prog (fun _ => cancelled_host) 0 p invoiced_database in
  match s.1 with Ok report => has_pending_work report = false | Err _ => False end
  /\ nt_completed <$> invoice_notice (repeat 3 32) s.2 = Some false.
Proof. split; by vm_compute. Qed.
