(* ===== verification/Engine.v ===== *)
(** * The wake engine

    Models [engine.rs]: one wake request validated, claimed, executed,
    committed and published, as a program over ledger transactions and host
    calls.  The arguments the source threads through its methods (lease,
    connection, validated event, relay, deadline) are threaded the same way. *)
From S2P Require Import Prelude Sqlite Types Policy Outcome Host Schema.
From S2P Require Import Ledger Registry NostrValidation Invoices Accounting Requests Program.
#[local] Open Scope Z_scope.

Record EngineConfig := mkEngineConfig {
  engine_policy : WakePolicy;
  engine_has_diagnostics : bool;
}.

Record DirectRequestResult := mkDirectRequestResult {
  drr_method : Method;
  drr_result : ResponseResult;
}.

Section Engine.
Context `{L : UrlLib} `{NK : NostrKeys} `{N : NostrLib} `{J : Nip47Json} (engine : EngineConfig).

Definition record_code (code : WakeDiagnosticCode) : Prog unit :=
  if engine_has_diagnostics engine then call (record_diagnostic code) else Ret tt.

(** ** Ending a claim *)

Definition reject_claim (lease : EventLease) (code : RejectionCode) : Prog WakeDisposition :=
  let* now := call clock_now in
  let* done := ledger (complete_event lease Kind_rejected None now) in
  Ret (match done with Ok _ => rejected code | Err _ => queued Queue_LedgerBusy end).

Definition retry_claim (lease : EventLease) (reason : RetryReason) : Prog WakeDisposition :=
  let* now := call clock_now in
  let* done := ledger (retry_later lease now ENGINE_RETRY_DELAY) in
  Ret (match done with Ok _ => retry ENGINE_RETRY_DELAY reason | Err _ => queued Queue_LedgerBusy end).

Definition release_to_application (lease : EventLease) (reason : QueueReason) : Prog WakeDisposition :=
  let* now := call clock_now in
  let* done := ledger (retry_later lease now ENGINE_RETRY_DELAY) in
  Ret (match done with Ok _ => queued reason | Err _ => queued Queue_LedgerBusy end).

Definition completion_failed (lease : EventLease) (error : LedgerError) : Prog WakeDisposition :=
  match error with
  | ConnectionUnavailable => Ret (rejected Reject_ConnectionUnavailable)
  | LostLease => Ret (retry ENGINE_RETRY_DELAY Retry_ResponsePersistenceFailed)
  | ResponseTooLarge => Ret (queued Queue_UnsupportedInBackground)
  | _ => retry_claim lease Retry_ResponsePersistenceFailed
  end.

Definition revision_is_active (connection : ActiveConnection) : Prog (Result RegistryError bool) :=
  ledger (read (is_connection_revision_active (ac_id connection) (ac_revision connection))).

Definition ensure_claim_connection_active (connection : ActiveConnection) (lease : EventLease)
  : Prog (Result WakeDisposition unit) :=
  let* active := revision_is_active connection in
  match active with
  | Ok true => Ret (Ok tt)
  | Ok false => let* d := reject_claim lease Reject_ConnectionUnavailable in Ret (Err d)
  | Err _ => let* d := release_to_application lease Queue_LedgerBusy in Ret (Err d)
  end.

(** ** Responses *)

Definition republish_terminal (connection : ActiveConnection) (relay : string)
    (event_json : option string) (notification : NotificationHint) (deadline : OperationDeadline)
  : Prog WakeDisposition :=
  match event_json with
  | None => Ret already_processed
  | Some event_json =>
  let* active := revision_is_active connection in
  match active with
  | Ok false => Ret (rejected Reject_ConnectionUnavailable)
  | Err _ => Ret (queued Queue_LedgerBusy)
  | Ok true =>
  let* budget := context deadline in
  match budget with
  | None =>
      let* _ := record_code ResponsePublishFailed in
      Ret (retry ENGINE_RETRY_DELAY Retry_ResponsePublishFailed)
  | Some budget =>
      let* published := call (publish_event relay event_json budget) in
      match published with
      | Ok _ => Ret (completed notification)
      | Err _ =>
          let* _ := record_code ResponsePublishFailed in
          Ret (retry ENGINE_RETRY_DELAY Retry_ResponsePublishFailed)
      end
  end
  end
  end.

Definition request_notification (method : option NwcMethod) : NotificationHint :=
  match method with Some method => Hint_Request method | None => Hint_Completed end.

Definition commit_and_publish (lease : EventLease) (connection : ActiveConnection)
    (validated : ValidatedNwcEvent) (relay : string) (response : Response)
    (deadline : OperationDeadline) : Prog WakeDisposition :=
  let request_method := domain_method (rsp_result_type response) in
  let notification := request_notification request_method in
  let response_json := response_as_json response in
  let* budget := context deadline in
  match budget with
  | None => release_to_application lease Queue_Deadline
  | Some budget =>
  let* secret := call (load_nwc_secret (ac_id connection) budget) in
  match secret with
  | Err _ => release_to_application lease Queue_SecureStorageUnavailable
  | Ok secret =>
  let* now := call clock_now in
  let* entropy := call cipher_entropy in
  match build_response_event validated secret response_json now entropy with
  | Err _ => reject_claim lease Reject_InvalidRequest
  | Ok event_json =>
  let* now := call clock_now in
  let* completion := ledger
    (match request_method with
     | Some method => complete_nwc_event_for_active_connection lease (ac_id connection)
                        (ac_revision connection) event_json method now
     | None => complete_event_for_active_connection lease (ac_id connection)
                 (ac_revision connection) event_json now
     end) in
  match completion with
  | Err error => completion_failed lease error
  | Ok _ => republish_terminal connection relay (Some event_json) notification deadline
  end
  end
  end
  end.

Definition respond_with_error (lease : EventLease) (connection : ActiveConnection)
    (validated : ValidatedNwcEvent) (relay : string) (method : Method) (error_code : ErrorCode)
    (rejection : RejectionCode) (deadline : OperationDeadline) : Prog WakeDisposition :=
  let* active := ensure_claim_connection_active connection lease in
  match active with
  | Err disposition => Ret disposition
  | Ok _ =>
  let response := mkResponse method (Some (error_code, protocol_error_message error_code)) None in
  let* disposition := commit_and_publish lease connection validated relay response deadline in
  Ret (match disposition with
       | Completed notification => Rejected rejection notification
       | other => other
       end)
  end.

Definition payment_error (lease : EventLease) (connection : ActiveConnection)
    (validated : ValidatedNwcEvent) (relay : string) (error_code : ErrorCode)
    (rejection : RejectionCode) (deadline : OperationDeadline) : Prog WakeDisposition :=
  respond_with_error lease connection validated relay Method_PayInvoice error_code rejection deadline.

(** ** Payments *)

Definition failure_diagnostic (reason : PaymentFailure) : WakeDiagnosticCode :=
  match reason with InsufficientFunds => PaymentInsufficientFunds | _ => PaymentBackendFailed end.

Definition finish_payment_status (lease : EventLease) (connection : ActiveConnection)
    (validated : ValidatedNwcEvent) (relay invoice : string) (payment_hash : PaymentHash)
    (status : PaymentStatus) (deadline : OperationDeadline) : Prog WakeDisposition :=
  match status with
  | Status_Unknown | Status_Pending =>
      let* _ := record_code PaymentPending in
      let* now := call clock_now in
      let* marked := ledger (mark_payment_pending payment_hash now) in
      match marked with
      | Err _ => release_to_application lease Queue_LedgerBusy
      | Ok _ => retry_claim lease Retry_WalletUnavailable
      end
  | Status_Succeeded preimage amount fee =>
      let* _ := record_code PaymentSucceeded in
      let* settled_at := call clock_now in
      let* marked := ledger (mark_payment_succeeded payment_hash amount fee settled_at) in
      match marked with
      | Err _ => release_to_application lease Queue_LedgerBusy
      | Ok _ =>
      let notification := TrackedNwcPayment_new (ve_id validated) payment_hash connection invoice
        amount fee preimage settled_at settled_at in
      let* recorded := ledger (record_nwc_sent_payment notification (ac_relays connection)) in
      match recorded with
      | Err _ => release_to_application lease Queue_LedgerBusy
      | Ok _ =>
      let* active := ensure_claim_connection_active connection lease in
      match active with
      | Err disposition => Ret disposition
      | Ok _ =>
      commit_and_publish lease connection validated relay
        (mkResponse Method_PayInvoice None
           (Some (Result_PayInvoice (Hex32_to_hex preimage) fee))) deadline
      end
      end
      end
  | Status_Failed reason =>
      let* _ := record_code (failure_diagnostic reason) in
      let* now := call clock_now in
      let* marked := ledger (mark_payment_failed payment_hash now) in
      match marked with
      | Err _ => release_to_application lease Queue_LedgerBusy
      | Ok _ => payment_error lease connection validated relay (payment_failure_code reason)
                  Reject_InvalidRequest deadline
      end
  end.

(** The end of [continue_payment]: the marker is durable, the wallet is called. *)
Definition start_durable_payment (lease : EventLease) (connection : ActiveConnection)
    (validated : ValidatedNwcEvent) (relay invoice : string) (request : PayInvoiceRequest)
    (payment_hash : PaymentHash) (deadline : OperationDeadline) : Prog WakeDisposition :=
  let* budget := context deadline in
  match budget with
  | None => retry_claim lease Retry_WalletUnavailable
  | Some budget =>
  let* started := call (start_payment request budget) in
  match started with
  | Ok status => finish_payment_status lease connection validated relay invoice payment_hash status deadline
  | Err error =>
      if negb (confirms_payment_was_not_submitted error) then
        let* _ := record_code PaymentBackendFailed in
        let* now := call clock_now in
        let* marked := ledger (mark_payment_pending payment_hash now) in
        match marked with
        | Err _ => release_to_application lease Queue_LedgerBusy
        | Ok _ => retry_claim lease Retry_WalletUnavailable
        end
      else finish_payment_status lease connection validated relay invoice payment_hash
             (Status_Failed PaymentFailure_Other) deadline
  end
  end.

(** From the recheck of the connection to the initiation marker. *)
Definition initiate_payment (lease : EventLease) (connection : ActiveConnection)
    (validated : ValidatedNwcEvent) (relay invoice : string) (explicit_amount : option AmountMsat)
    (attempt : PaymentAttempt) (deadline : OperationDeadline) : Prog WakeDisposition :=
  let* active := ensure_claim_connection_active connection lease in
  match active with
  | Err disposition => Ret disposition
  | Ok _ =>
  if bool_decide (at_state attempt = State_Succeeded)
  then retry_claim lease Retry_WalletUnavailable
  else
  let request := mkPayInvoiceRequest invoice explicit_amount (at_fee_reserve_sat attempt)
    (ve_id validated) in
  let start := start_durable_payment lease connection validated relay invoice request
    (at_payment_hash attempt) deadline in
  if was_initiated attempt then start
  else
  let* budget := context deadline in
  match budget with
  | None => retry_claim lease Retry_WalletUnavailable
  | Some _ =>
  let* now := call clock_now in
  let* marked := ledger (mark_payment_initiated (at_payment_hash attempt) now) in
  match marked with
  | Err _ => release_to_application lease Queue_LedgerBusy
  | Ok _ => start
  end
  end
  end.

Definition status_is_unknown (s : PaymentStatus) : bool :=
  match s with Status_Unknown => true | _ => false end.

Definition continue_payment (lease : EventLease) (connection : ActiveConnection)
    (validated : ValidatedNwcEvent) (relay invoice : string) (explicit_amount : option AmountMsat)
    (attempt : PaymentAttempt) (deadline : OperationDeadline) : Prog WakeDisposition :=
  let error := fun code =>
    payment_error lease connection validated relay code Reject_InvalidRequest deadline in
  if at_legacy_initiation_ambiguous attempt then error Code_Other
  else if bool_decide (at_state attempt = State_Failed) then
    let* active := ensure_claim_connection_active connection lease in
    match active with
    | Err disposition => Ret disposition
    | Ok _ => error Code_PaymentFailed
    end
  else
  let resume := initiate_payment lease connection validated relay invoice explicit_amount attempt deadline in
  if bool_decide (at_state attempt = State_Reserved) && was_initiated attempt then resume
  else
  let* budget := context deadline in
  match budget with
  | None => retry_claim lease Retry_WalletUnavailable
  | Some budget =>
  let* status := call (payment_status (at_payment_hash attempt) budget) in
  match status with
  | Err _ =>
      let* _ := record_code PaymentStatusLookupFailed in
      retry_claim lease Retry_WalletUnavailable
  | Ok status =>
  if status_is_unknown status then resume
  else if negb (may_disclose_settlement attempt) then
    let* now := call clock_now in
    let* released := ledger (release_uninitiated_payment (at_payment_hash attempt) now) in
    match released with
    | Err _ => release_to_application lease Queue_LedgerBusy
    | Ok _ => error Code_Other
    end
  else finish_payment_status lease connection validated relay invoice (at_payment_hash attempt)
         status deadline
  end
  end.

Definition execute_payment (lease : EventLease) (connection : ActiveConnection)
    (validated : ValidatedNwcEvent) (relay : string) (payment : Nip47PayInvoice)
    (deadline : OperationDeadline) : Prog WakeDisposition :=
  let error := fun code rejection =>
    payment_error lease connection validated relay code rejection deadline in
  let explicit_amount := npi_amount payment in
  let invoice := npi_invoice payment in
  let* existing := ledger (read (load_payment_attempt_by_event (ve_id validated))) in
  match existing with
  | Err _ => release_to_application lease Queue_LedgerBusy
  | Ok (Some attempt) =>
      if negb (bool_decide (at_connection_id attempt = ac_id connection))
         || negb (at_connection_revision attempt =? ac_revision connection)
      then error Code_Other Reject_InvalidRequest
      else continue_payment lease connection validated relay invoice explicit_amount attempt deadline
  | Ok None =>
  if string_is_empty invoice || (16384 <? str_len invoice)
  then error Code_Other Reject_InvalidRequest
  else
  let* budget := context deadline in
  match budget with
  | None => release_to_application lease Queue_Deadline
  | Some budget =>
  let* quoted := call (quote_payment invoice explicit_amount budget) in
  match quoted with
  | Err e =>
      let* _ := record_code PaymentQuoteFailed in
      if is_retryable e then retry_claim lease Retry_WalletUnavailable
      else if bool_decide (e = Cancelled) then release_to_application lease Queue_Deadline
      else error Code_Other Reject_InvalidRequest
  | Ok quote =>
  match engine_msat_to_sat_ceil (pq_principal quote) with
  | None => error Code_Other Reject_InvalidRequest
  | Some principal_sat =>
  if principal_sat =? 0 then error Code_Other Reject_InvalidRequest
  else
  let* now := call clock_now in
  let* reservation := ledger
    (reserve_payment (ve_id validated) (pq_payment_hash quote) connection principal_sat now) in
  match reservation with
  | Err Pay_BudgetExceeded =>
      let* _ := record_code PaymentBudgetExceeded in
      error Code_QuotaExceeded Reject_BudgetExceeded
  | Err Pay_ConnectionUnavailable => reject_claim lease Reject_ConnectionUnavailable
  | Err (Pay_InvalidAmount | Pay_ValueOutOfRange | Pay_ReservationConflict) =>
      error Code_Other Reject_InvalidRequest
  | Err _ => release_to_application lease Queue_LedgerBusy
  | Ok (Outcome_AlreadyTracked _) => error Code_RateLimited Reject_InvalidRequest
  | Ok (Outcome_Reserved attempt | Outcome_Existing attempt) =>
      continue_payment lease connection validated relay invoice explicit_amount attempt deadline
  end
  end
  end
  end
  end.

(** ** Direct requests *)

Definition unavailable_error {E A} (r : Result E A) : Result HostError A :=
  map_err (fun _ => Unavailable) r.

Definition make_invoice_result (tracked : TrackedNwcInvoice) : DirectRequestResult :=
  mkDirectRequestResult Method_MakeInvoice (Result_MakeInvoice
    (mkNip47MakeInvoiceResponse (ti_invoice tracked) (Hex32_to_hex (ti_payment_hash tracked))
       (ti_description tracked) (ti_amount tracked) (ti_created_at tracked) (ti_expires_at tracked))).

Definition execute_make_invoice (r : Nip47MakeInvoice) (connection : ActiveConnection)
    (validated : ValidatedNwcEvent) (budget : Duration) : Prog (Result HostError DirectRequestResult) :=
  match parse_make_invoice_request r with
  | Err e => Ret (Err e)
  | Ok (request, description) =>
  let* created_at := call clock_now in
  let* existing := ledger (read (load_nwc_invoice (ve_id validated))) in
  match existing with
  | Err _ => Ret (Err Unavailable)
  | Ok (Some existing) => Ret (Ok (make_invoice_result existing))
  | Ok None =>
  let* created := call (make_invoice request budget) in
  match created with
  | Err e => Ret (Err e)
  | Ok created =>
  let tracked := TrackedNwcInvoice_new (ve_id validated) (ci_payment_hash created) (ac_id connection)
    (ac_revision connection) (ci_invoice created) description (ci_amount created) created_at
    (ci_expires_at created) in
  let* token := call (random_bytes 32) in
  let* recorded := ledger (record_nwc_invoice token tracked (ac_relays connection)) in
  Ret (let? tracked := unavailable_error recorded in Ok (make_invoice_result tracked))
  end
  end
  end.

(** The tracked invoice a lookup selects. *)
Definition find_tracked (r : Nip47LookupInvoice) : Prog (Result HostError (option TrackedNwcInvoice)) :=
  match nli_invoice r, nli_payment_hash r with
  | Some invoice, _ =>
      let* found := ledger (read (load_nwc_invoice_by_encoded_invoice invoice)) in
      Ret (unavailable_error found)
  | None, Some hash =>
      match Hex32_from_hex hash with
      | Err _ => Ret (Err HostRejected)
      | Ok hash =>
          let* found := ledger (read (load_nwc_invoice_by_payment_hash hash)) in
          Ret (unavailable_error found)
      end
  | None, None => Ret (Ok None)
  end.

Definition execute_lookup_invoice (r : Nip47LookupInvoice) (budget : Duration)
  : Prog (Result HostError DirectRequestResult) :=
  let respond := fun t : option WalletTransaction =>
    let? response := traverse_option transaction_response t in
    let? response := ok_or NotFound response in
    Ok (mkDirectRequestResult Method_LookupInvoice (Result_LookupInvoice response)) in
  let* tracked := find_tracked r in
  match tracked with
  | Err e => Ret (Err e)
  | Ok tracked =>
  match (match tracked with
         | Some invoice => Ok (Lookup_PaymentHash (ti_payment_hash invoice))
         | None => parse_lookup_request r
         end) with
  | Err e => Ret (Err e)
  | Ok lookup =>
  let* transaction := call (lookup_invoice lookup budget) in
  match transaction with
  | Err e => Ret (Err e)
  | Ok (Some transaction) => Ret (respond (Some transaction))
  | Ok None =>
      match tracked with
      | None => Ret (respond None)
      | Some invoice =>
          let* now := call clock_now in
          Ret (respond (if now <? ti_expires_at invoice
                        then Some (pending_tracked_invoice_transaction invoice) else None))
      end
  end
  end
  end.

Definition get_info_result (connection : ActiveConnection) (info : WalletInfo) : DirectRequestResult :=
  mkDirectRequestResult Method_GetInfo (Result_GetInfo (mkNip47GetInfoResponse
    (Hex32_to_hex <$> wallet_public_key info)
    (protocol_method <$> List.filter
       (fun m => allows (ac_policy connection) m && is_engine_supported m) (wallet_methods info))
    (notification_as_str <$> wallet_notifications info))).

Definition execute_request (request : Request) (connection : ActiveConnection)
    (validated : ValidatedNwcEvent) (budget : Duration) : Prog (Result HostError DirectRequestResult) :=
  match req_params request with
  | Params_GetInfo =>
      let* info := call (get_info budget) in
      Ret (let? info := info in Ok (get_info_result connection info))
  | Params_GetBalance =>
      let* balance := call (get_balance budget) in
      Ret (let? balance := balance in
           Ok (mkDirectRequestResult Method_GetBalance (Result_GetBalance balance)))
  | Params_MakeInvoice r => execute_make_invoice r connection validated budget
  | Params_LookupInvoice r => execute_lookup_invoice r budget
  | Params_ListTransactions r =>
      match parse_list_request r with
      | Err e => Ret (Err e)
      | Ok request =>
      let* transactions := call (list_transactions request budget) in
      Ret (let? transactions := transactions in
           let? responses := collect_results transaction_response transactions in
           Ok (mkDirectRequestResult Method_ListTransactions (Result_ListTransactions responses)))
      end
  | Params_PayInvoice _ | Params_Unsupported => Ret (Err HostRejected)
  end.

(** The direct half of [execute]: from the recheck of the connection on. *)
Definition execute_direct (lease : EventLease) (connection : ActiveConnection)
    (validated : ValidatedNwcEvent) (relay : string) (request : Request) (method : NwcMethod)
    (deadline : OperationDeadline) : Prog WakeDisposition :=
  let* active := ensure_claim_connection_active connection lease in
  match active with
  | Err disposition => Ret disposition
  | Ok _ =>
  let* budget := context deadline in
  match budget with
  | None => release_to_application lease Queue_Deadline
  | Some budget =>
  let* result := execute_request request connection validated budget in
  match result with
  | Err error =>
      if is_retryable error then retry_claim lease Retry_WalletUnavailable
      else if bool_decide (error = Cancelled) then release_to_application lease Queue_Deadline
      else respond_with_error lease connection validated relay (protocol_method method)
             (host_error_code error) Reject_InvalidRequest deadline
  | Ok result =>
  let* active := ensure_claim_connection_active connection lease in
  match active with
  | Err disposition => Ret disposition
  | Ok _ =>
  commit_and_publish lease connection validated relay
    (mkResponse (drr_method result) None (Some (drr_result result))) deadline
  end
  end
  end
  end.

(** ** One wake *)

(** The authorized request, once the event is claimed and decrypted. *)
Definition dispatch_request (lease : EventLease) (connection : ActiveConnection)
    (validated : ValidatedNwcEvent) (relay : string) (request : Request)
    (deadline : OperationDeadline) : Prog WakeDisposition :=
  let error := fun code rejection =>
    respond_with_error lease connection validated relay (req_method request) code rejection deadline in
  match domain_method (req_method request) with
  | None => error Code_NotImplemented Reject_InvalidRequest
  | Some method =>
  if negb (allows (ac_policy connection) method) then error Code_Restricted Reject_MethodNotAllowed
  else if bool_decide (method = PayInvoice) then
    let* _ := record_code PaymentRequestAccepted in
    match req_params request with
    | Params_PayInvoice payment => execute_payment lease connection validated relay payment deadline
    | _ => reject_claim lease Reject_InvalidRequest
    end
  else if negb (is_direct_request method) then error Code_NotImplemented Reject_InvalidRequest
  else execute_direct lease connection validated relay request method deadline
  end.

(** From the secret to the parsed request. *)
Definition decrypt_request (validated : ValidatedNwcEvent) (secret : NwcSecretKey)
  : Result NostrEventError Request :=
  let? plaintext := decrypt validated secret in
  ok_or MalformedEvent (request_from_json plaintext).

Definition execute_claimed (lease : EventLease) (connection : ActiveConnection)
    (validated : ValidatedNwcEvent) (relay : string) (deadline : OperationDeadline)
  : Prog WakeDisposition :=
  let* budget := context deadline in
  match budget with
  | None => release_to_application lease Queue_Deadline
  | Some budget =>
  let* secret := call (load_nwc_secret (ac_id connection) budget) in
  match secret with
  | Err _ => release_to_application lease Queue_SecureStorageUnavailable
  | Ok secret =>
  match decrypt_request validated secret with
  | Err _ => reject_claim lease Reject_InvalidRequest
  | Ok request => dispatch_request lease connection validated relay request deadline
  end
  end
  end.

(** Freshness is checked once per event, when it is first claimed. *)
Definition accept_and_execute (lease : EventLease) (connection : ActiveConnection)
    (validated : ValidatedNwcEvent) (relay : string) (deadline : OperationDeadline)
  : Prog WakeDisposition :=
  if el_freshness_accepted lease then execute_claimed lease connection validated relay deadline
  else
  let* now := call clock_now in
  if negb (accepts_event_time (engine_policy engine) (ve_created_at validated) now)
  then reject_claim lease Reject_EventOutsideFreshnessWindow
  else
  let* now := call clock_now in
  let* accepted := ledger (accept_event_freshness lease now) in
  match accepted with
  | Err _ => release_to_application lease Queue_LedgerBusy
  | Ok _ => execute_claimed lease connection validated relay deadline
  end.

Definition claim_and_execute (connection : ActiveConnection) (validated : ValidatedNwcEvent)
    (relay : string) (deadline : OperationDeadline) : Prog WakeDisposition :=
  let* time := call elapsed in
  match lease_duration_for_budget (remaining deadline time) with
  | None => Ret (queued Queue_Deadline)
  | Some lease_duration =>
  let* now := call clock_now in
  let* token := call (random_bytes 16) in
  let* claim := ledger
    (claim_event token (ve_id validated) (ac_id connection) (ac_revision connection) now lease_duration) in
  match claim with
  | Err _ => Ret (queued Queue_LedgerBusy)
  | Ok (InProgress _) => Ret already_processed
  | Ok (Terminal terminal) =>
      republish_terminal connection relay (te_response_event_json terminal)
        (request_notification (te_request_method terminal)) deadline
  | Ok (Acquired lease) => accept_and_execute lease connection validated relay deadline
  end
  end.

(** From the event's text to its validation against the connection that owns
    its keys. *)
Definition execute_event (wake : WakeInput) (relay event_json : string)
    (authorization_time : UnixTimestamp) (deadline : OperationDeadline) : Prog WakeDisposition :=
  match candidate_author (engine_policy engine) event_json with
  | Err _ => Ret (rejected Reject_InvalidEvent)
  | Ok author =>
  let* loaded := ledger (read (load_active_connection_by_keys author (wi_wallet_service_pubkey wake))) in
  match loaded with
  | Err _ => Ret (queued Queue_LedgerBusy)
  | Ok None => Ret (rejected Reject_ConnectionUnavailable)
  | Ok (Some connection) =>
  if is_expired_at connection authorization_time then Ret (rejected Reject_ConnectionUnavailable)
  else if negb (allows_relay connection relay) then Ret (rejected Reject_RelayNotAllowed)
  else
  match validate_request_for_replay (engine_policy engine) event_json (wi_event_id wake)
          (ac_client_pubkey connection) (ac_wallet_service_pubkey connection)
          (ac_encryption connection) with
  | Err e => Ret (rejected (event_rejection e))
  | Ok validated => claim_and_execute connection validated relay deadline
  end
  end
  end.

(** [WakeEngine::execute]. *)
Definition execute (wake : WakeInput) (budget : OperationBudget) : Prog WakeDisposition :=
  let deadline := mkOperationDeadline budget in
  let* cancelled := call is_cancelled in
  if (cancelled : bool) then Ret (queued Queue_Deadline)
  else
  let* authorization_time := call clock_now in
  match SecureRelayUrl_parse (wi_relay wake) with
  | Err _ => Ret (rejected Reject_InvalidWakePayload)
  | Ok relay =>
  let* approved := ledger
    (read (is_relay_approved_for_wallet (wi_wallet_service_pubkey wake) relay authorization_time)) in
  match approved with
  | Err _ => Ret (queued Queue_LedgerBusy)
  | Ok false => Ret (rejected Reject_RelayNotAllowed)
  | Ok true =>
  match wi_embedded_event_json wake with
  | Some event_json => execute_event wake relay event_json authorization_time deadline
  | None =>
  let* budget := context deadline in
  match budget with
  | None => Ret (queued Queue_Deadline)
  | Some budget =>
  let* fetched := call (fetch_event relay (wi_event_id wake)
                          (maximum_payload_bytes (engine_policy engine)) budget) in
  match fetched with
  | Ok (Some event_json) => execute_event wake relay event_json authorization_time deadline
  | Err HostRejected => Ret (rejected Reject_InvalidEvent)
  | Ok None | Err _ => Ret (retry ENGINE_RETRY_DELAY Retry_RelayUnavailable)
  end
  end
  end
  end
  end.

End Engine.
