(* ===== verification/MobileNode.v ===== *)
(** * The mobile node

    Models [nwc-mobile-tokio/src/node.rs], which assembles the engine and the
    notification worker over one Lightning node, and [mobile.rs], which runs a
    wake of the operating system in a single window: it resolves the kind of the
    wake, opens the node, executes, reconciles and completes.  The node provider
    and the completion handler are host calls; the [tokio] timers and threads
    around a whole wake are data, as in [Runtime]. *)
From S2P Require Import Prelude Sqlite Types Policy Outcome Host Schema Ledger Registry NostrValidation Invoices Accounting Requests Program Runtime InvoiceWorker MobileService Engine.
#[local] Open Scope Z_scope.

(** ** One Lightning node *)

(** The methods of the trait [NwcLightningNode]: what each gives for its
    arguments. *)
Record NwcLightningNode := mkLightningNode {
  ln_get_balance : Result HostError AmountMsat;
  ln_create_invoice : MakeInvoiceRequest -> Result HostError CreatedInvoice;
  ln_quote_invoice : string -> option AmountMsat -> Result HostError PaymentQuote;
  ln_pay_invoice : PayInvoiceRequest -> Result HostError PaymentStatus;
  ln_lookup_invoice : InvoiceLookup -> option Duration -> Result HostError (option WalletTransaction);
  ln_list_transactions : ListTransactionsRequest -> Result HostError (list WalletTransaction);
}.

Definition INVOICE_SETTLEMENT_COMPLETION_RESERVE : Duration := from_secs 3.
Definition DEFAULT_INVOICE_SETTLEMENT_POLL_INTERVAL : Duration := 750 * 1000000.

(** [RuntimeWallet]: the node as the wallet of the engine.  Every call runs under
    [run_with_context]: [cancelled] is the signal before it and [race] what ends
    it. *)
Section RuntimeWallet.
Context (node : NwcLightningNode) (wallet_info : WalletInfo) (await_settlement : bool)
  (cancelled : bool) (race : Race).

Definition runtime_get_info : Result HostError WalletInfo := run_with_context cancelled race (Ok wallet_info).
Definition runtime_get_balance : Result HostError AmountMsat := run_with_context cancelled race (ln_get_balance node).
Definition runtime_make_invoice (request : MakeInvoiceRequest) : Result HostError CreatedInvoice :=
  run_with_context cancelled race (ln_create_invoice node request).
Definition runtime_quote_payment (invoice : string) (amount : option AmountMsat) : Result HostError PaymentQuote :=
  run_with_context cancelled race (ln_quote_invoice node invoice amount).
Definition runtime_payment_status (payment_hash : PaymentHash) : Result HostError PaymentStatus :=
  run_with_context cancelled race
    (let? found := ln_lookup_invoice node (Lookup_PaymentHash payment_hash) None in
     Ok (match found with Some transaction => tx_status transaction | None => Status_Unknown end)).
Definition runtime_start_payment (request : PayInvoiceRequest) : Result HostError PaymentStatus :=
  run_with_context cancelled race (ln_pay_invoice node request).
Definition runtime_lookup_invoice (request : InvoiceLookup) (budget : OperationBudget)
  : Result HostError (option WalletTransaction) :=
  let settlement_timeout := if await_settlement
    then Some (duration_saturating_sub budget INVOICE_SETTLEMENT_COMPLETION_RESERVE) else None in
  run_with_context cancelled race (ln_lookup_invoice node request settlement_timeout).
Definition runtime_list_transactions (request : ListTransactionsRequest) : Result HostError (list WalletTransaction) :=
  run_with_context cancelled race (ln_list_transactions node request).
End RuntimeWallet.

(** [ReadyLightningNodeProvider::open_node]: the signal before and after, and what
    the blocking factory gives unless it panics. *)
Definition ready_open_node {A} (cancelled_before : bool) (opened : option (Result HostError A))
    (cancelled_after : bool) : Result HostError A :=
  if cancelled_before then Err Cancelled
  else match opened with
       | None => Err Internal
       | Some opened => if cancelled_after then Err Cancelled else opened
       end.

Definition lingers_for_invoice_settlement (disposition : WakeDisposition) : bool :=
  match disposition_notification disposition with Hint_Request MakeInvoice => true | _ => false end.

(** ** The runtime of one application *)

(** The capabilities are host calls; what is left of [NwcMobileConfig]. *)
Record NwcMobileConfig := mkNwcMobileConfig {
  nm_engine : EngineConfig;
  nm_has_completion_handler : bool;
  nm_completion_reserve : Duration;
  nm_poll_interval : Duration;
}.

Definition DEFAULT_NWC_MOBILE_COMPLETION_RESERVE : Duration := from_secs 5.
Definition DEFAULT_NWC_MOBILE_SETTLEMENT_RETRY_DELAY : Duration := from_secs 5.

(** [NwcMobileConfig::new]. *)
Definition NwcMobileConfig_new : NwcMobileConfig :=
  mkNwcMobileConfig (mkEngineConfig default_wake_policy false) false DEFAULT_NWC_MOBILE_COMPLETION_RESERVE
    DEFAULT_INVOICE_SETTLEMENT_POLL_INTERVAL.

Inductive NwcMobileWakeKind : Type := Wake_Request | Wake_InvoiceSettlement.
Inductive NwcMobileSettlementStatus : Type := Settlement_NotTracked | Settlement_Pending | Settlement_Delivered.
Record NwcMobileWakeResult := mkWakeResult {
  wr_disposition : WakeDisposition;
  wr_settlement_status : NwcMobileSettlementStatus;
}.

#[export] Instance NwcMobileWakeKind_eq_dec : EqDecision NwcMobileWakeKind.
Proof. solve_decision. Defined.
#[export] Instance NwcMobileSettlementStatus_eq_dec : EqDecision NwcMobileSettlementStatus.
Proof. solve_decision. Defined.

Definition from_settlement_check (settlement_check : bool) : NwcMobileWakeKind :=
  if settlement_check then Wake_InvoiceSettlement else Wake_Request.

Definition notification_host_error (e : InvoiceNotificationError) : HostError :=
  match e with Notify_Wallet | Notify_Secret => Unavailable | Notify_Ledger | Notify_Build => Internal end.

Definition settlement_wake_matches (monitor : option InvoiceSettlementMonitor) (input : WakeInput) : bool :=
  match monitor with
  | Some monitor => bool_decide (im_wallet_service_pubkey monitor = wi_wallet_service_pubkey input)
                    && existsb (fun relay => bool_decide (relay = wi_relay input)) (im_relays monitor)
  | None => false
  end.

Definition settlement_status (monitor : option InvoiceSettlementMonitor) : NwcMobileSettlementStatus :=
  match monitor with
  | None => Settlement_NotTracked
  | Some monitor => if im_completed monitor then Settlement_Delivered else Settlement_Pending
  end.

Definition queued_result (reason : QueueReason) (monitor : option InvoiceSettlementMonitor) : NwcMobileWakeResult :=
  mkWakeResult (disposition_queued reason) (settlement_status monitor).

Definition settlement_disposition
    (report : Result InvoiceNotificationError InvoiceNotificationWorkerReport) : WakeDisposition :=
  let retry := RetryAfter DEFAULT_NWC_MOBILE_SETTLEMENT_RETRY_DELAY Retry_WalletUnavailable Hint_Processing in
  match report with
  | Ok report => if has_pending_work report then retry else Completed Hint_Processing
  | Err Notify_Ledger => disposition_queued Queue_LedgerBusy
  | Err Notify_Secret => disposition_queued Queue_SecureStorageUnavailable
  | Err _ => retry
  end.

Section Node.
Context `{L : UrlLib} `{NK : NostrKeys} `{N : NostrLib} `{J : Nip47Json} `{NJ : NotificationJson} `{SH : Sha256}.

(** The loop of [run_notification_worker] until the instant [deadline]; the
    counters of a report stay far below the width of [usize].  The result is
    [None] when the fuel ends, which [linger_terminates] excludes. *)
Fixpoint notification_loop (fuel : nat) (request_event_id : EventId) (linger : bool) (interval deadline : Duration)
    (aggregate : InvoiceNotificationWorkerReport)
  : Prog (option (Result InvoiceNotificationError InvoiceNotificationWorkerReport)) :=
  match fuel with
  | O => Ret None
  | S fuel =>
      let* now := call instant_now in
      match OperationBudget_new (duration_saturating_sub deadline now) with
      | Err _ => Ret (Some (Ok aggregate))
      | Ok pass_budget =>
      let* report := notify_run pass_budget in
      match report with
      | Err e => Ret (Some (Err e))
      | Ok report =>
      let aggregate := mkNotifyReport (nr_inspected aggregate + nr_inspected report) (nr_pending report)
        (nr_expired aggregate + nr_expired report) (nr_delivered aggregate + nr_delivered report)
        (nr_retryable report) in
      let* monitor := ledger (read (nwc_invoice_monitor request_event_id)) in
      match monitor with
      | Err _ => Ret (Some (Err Notify_Ledger))
      | Ok monitor =>
      let target_pending := match monitor with Some monitor => negb (im_completed monitor) | None => false end in
      if negb linger || negb target_pending then Ret (Some (Ok aggregate))
      else
      let* cancelled := call is_cancelled in
      if (cancelled : bool) then Ret (Some (Ok aggregate))
      else
      let* now := call instant_now in
      let remaining := duration_saturating_sub deadline now in
      if duration_is_zero interval || (remaining <=? interval) then Ret (Some (Ok aggregate))
      else
      let* _ := call (sleep interval) in
      notification_loop fuel request_event_id linger interval deadline aggregate
      end
      end
      end
  end.

(** The passes a budget leaves room for, with the interval between them. *)
Definition passes (budget interval : Duration) : nat := S (Z.to_nat (budget / interval)).

Definition run_notification_worker (request_event_id : EventId) (linger : bool) (interval : Duration)
    (budget : OperationBudget) : Prog (option (Result InvoiceNotificationError InvoiceNotificationWorkerReport)) :=
  let* now := call instant_now in
  notification_loop (passes budget interval) request_event_id linger interval (now + budget) default_notify_report.

(** [NwcNode::handle_wake]. *)
Definition node_handle_wake (engine : EngineConfig) (interval : Duration) (input : WakeInput)
    (budget : OperationBudget) : Prog WakeDisposition :=
  let* disposition := execute engine input budget in
  let* spent := call elapsed in
  match OperationBudget_new (duration_saturating_sub budget spent) with
  | Ok notification_budget =>
      let* _ := run_notification_worker (wi_event_id input) (lingers_for_invoice_settlement disposition) interval
                  notification_budget in
      Ret disposition
  | Err _ => Ret disposition
  end.

(** [run_notifications], [run_notifications_for_wallet] and [handle_settlement_wake]
    of the node: the worker over its wallet.  Only the last lets a lookup wait
    for the settlement, which [runtime_lookup_invoice] bounds. *)
Definition node_run_notifications (budget : OperationBudget)
  : Prog (Result InvoiceNotificationError InvoiceNotificationWorkerReport) := notify_run budget.
Definition node_run_notifications_for_wallet (wallet_service_pubkey : PublicKey) (budget : OperationBudget)
  : Prog (Result InvoiceNotificationError InvoiceNotificationWorkerReport) := run_for_wallet wallet_service_pubkey budget.
Definition node_handle_settlement_wake (request_event_id : EventId) (budget : OperationBudget)
  : Prog (Result InvoiceNotificationError InvoiceNotificationWorkerReport) := run_invoice request_event_id budget.

(** [NwcMobile::engine_budget] and [run_completion_handler], in a window of [total]
    time. *)
Definition engine_budget (m : NwcMobileConfig) (total : Duration) : Prog (option OperationBudget) :=
  let reserve := if nm_has_completion_handler m then nm_completion_reserve m else 0 in
  let* spent := call elapsed in
  Ret (match OperationBudget_new (duration_saturating_sub (duration_saturating_sub total spent) reserve) with
       | Ok budget => Some budget | Err _ => None end).

Definition run_completion_handler (m : NwcMobileConfig) (total : Duration) (event_id : EventId) : Prog unit :=
  if negb (nm_has_completion_handler m) then Ret tt
  else
  let* spent := call elapsed in
  match OperationBudget_new (duration_saturating_sub total spent) with
  | Err _ => Ret tt
  | Ok budget => let* _ := call (complete_wake event_id budget) in Ret tt
  end.

(** What [NwcMobile::handle_wake] does once the node is open. *)
Definition execute_opened (m : NwcMobileConfig) (input : WakeInput) (kind : NwcMobileWakeKind) (total : Duration)
    (initial_monitor : option InvoiceSettlementMonitor) : Prog NwcMobileWakeResult :=
  let event_id := wi_event_id input in
  let* operation_budget := engine_budget m total in
  match operation_budget with
  | None => Ret (queued_result Queue_Deadline initial_monitor)
  | Some operation_budget =>
  let* disposition :=
    match kind with
    | Wake_Request => node_handle_wake (nm_engine m) (nm_poll_interval m) input operation_budget
    | Wake_InvoiceSettlement =>
        let* report := node_handle_settlement_wake event_id operation_budget in
        Ret (settlement_disposition report)
    end in
  let* monitor := ledger (read (nwc_invoice_monitor event_id)) in
  match monitor with
  | Err _ => Ret (mkWakeResult (disposition_queued Queue_LedgerBusy) (settlement_status initial_monitor))
  | Ok monitor =>
  let status := settlement_status monitor in
  let disposition :=
    if bool_decide (kind = Wake_InvoiceSettlement) && bool_decide (status = Settlement_Delivered)
    then Completed Hint_Completed else disposition in
  let* _ := match monitor with
            | Some _ => run_completion_handler m total event_id
            | None => Ret tt
            end in
  Ret (mkWakeResult disposition status)
  end
  end.

(** [NwcMobile::handle_wake]. *)
Definition handle_wake (m : NwcMobileConfig) (input : WakeInput) (kind : NwcMobileWakeKind) (total : Duration)
  : Prog NwcMobileWakeResult :=
  let event_id := wi_event_id input in
  let* initial := ledger (read (nwc_invoice_monitor event_id)) in
  match initial with
  | Err _ => Ret (queued_result Queue_LedgerBusy None)
  | Ok initial_monitor =>
  if bool_decide (kind = Wake_InvoiceSettlement) && negb (settlement_wake_matches initial_monitor input)
  then Ret (mkWakeResult (disposition_rejected Reject_InvalidWakePayload) Settlement_NotTracked)
  else
  let* open_budget := engine_budget m total in
  match open_budget with
  | None => Ret (queued_result Queue_Deadline initial_monitor)
  | Some open_budget =>
  let* opened := call (open_node (wi_wallet_service_pubkey input) open_budget) in
  match opened with
  | Err _ => Ret (mkWakeResult (disposition_queued Queue_WalletUnavailable) (settlement_status initial_monitor))
  | Ok _ => execute_opened m input kind total initial_monitor
  end
  end
  end.

(** [NwcMobile::reconcile_notifications]. *)
Definition reconcile_notifications (wallet_service_pubkey : PublicKey) (execution_time : Duration)
  : Prog (Result HostError InvoiceNotificationWorkerReport) :=
  match OperationBudget_new execution_time with
  | Err _ => Ret (Err TimedOut)
  | Ok open_budget =>
  let* opened := call (open_node wallet_service_pubkey open_budget) in
  match opened with
  | Err e => Ret (Err e)
  | Ok _ =>
  let* spent := call elapsed in
  match OperationBudget_new (duration_saturating_sub execution_time spent) with
  | Err _ => Ret (Err TimedOut)
  | Ok budget =>
      let* report := node_run_notifications_for_wallet wallet_service_pubkey budget in
      Ret (map_err notification_host_error report)
  end
  end
  end.

End Node.

(** ** One window of the operating system

    [handled] is what [handle_wake] gives, unless the timer comes first. *)

Definition execute_wake (execution_time : Duration) (cancelled_before : bool)
    (handled : option NwcMobileWakeResult) (cancelled_after : bool) : NwcMobileWakeResult :=
  if duration_is_zero execution_time || cancelled_before then queued_result Queue_Deadline None
  else match handled with
       | Some result => if cancelled_after then queued_result Queue_Deadline None else result
       | None => queued_result Queue_Deadline None
       end.

(** How opening the ledger on a blocking thread ends. *)
Inductive Opening : Type := Opened | Open_Failed | Open_Panicked.

(** [NwcMobile::execute_native_wake]: whether the runtime ran the task, how the
    ledger opened and how long that took, and whether the timer of the whole
    task came first. *)
Definition execute_native_wake (execution_time : Duration) (cancelled_before : bool) (ran : bool)
    (opening : Opening) (spent : Duration) (timed_out : bool)
    (wake : Duration -> NwcMobileWakeResult) : NwcMobileWakeResult :=
  if duration_is_zero execution_time || cancelled_before then queued_result Queue_Deadline None
  else if negb ran then queued_result Queue_WalletUnavailable None
  else if timed_out then queued_result Queue_Deadline None
  else match opening with
       | Open_Failed => queued_result Queue_LedgerBusy None
       | Open_Panicked => queued_result Queue_WalletUnavailable None
       | Opened => wake (duration_saturating_sub execution_time spent)
       end.
