(* ===== verification/EngineProofs.v ===== *)
(** * What the wake engine guarantees

    The engine runs while other processes commit their own transactions and the
    host answers what it likes.  The proofs follow the engine's functions: each
    keeps the library's invariants, makes every host call under the authority
    it needs, and ends in a disposition that is backed by the ledger. *)
From S2P Require Import Prelude Sqlite Types Policy Outcome Host Nwa Schema Ledger Registry.
From S2P Require Import NostrValidation Invoices Outbox Accounting AccountingProofs Requests Program Library Engine.
#[local] Open Scope Z_scope.

(** ** What the components give the engine *)

Section Components.
Context `{L : UrlLib} `{UP : !UrlParts L} `{NK : NostrKeys} `{LL : !UrlLaws L} `{PL : !UrlPartsLaws UP}.

Lemma hydrate_id d r s : hydrate_stored_connection d r = Ok s ->
  ConnectionId_parse (cn_id r) = Ok (cn_id r).
Proof.
  unfold hydrate_stored_connection. destruct (ConnectionId_parse (cn_id r)) as [id|] eqn:E; [|done].
  intros _. by rewrite (ConnectionId_parse_id _ _ E).
Qed.

(** A connection found by its keys is the one stored under its id. *)
Lemma loaded_by_keys d client wallet c :
  registry_wf d -> load_active_connection_by_keys client wallet d = Ok (Some c) ->
  load_active_connection (ac_id c) d = Ok (Some c) /\ ac_client_pubkey c = client
  /\ ac_wallet_service_pubkey c = wallet /\ ConnectionId_parse (ac_id c) = Ok (ac_id c)
  /\ 0 <= ac_revision c.
Proof.
  intros Hwf H. unfold load_active_connection_by_keys in H.
  destruct (query_row _ (connections d)) as [r|] eqn:Hq; simpl in H; [|done].
  apply query_row_Some in Hq as [Hin Hk]. rewrite !andb_true_iff, !bool_decide_eq_true in Hk.
  destruct Hk as [[_ Hcl] Hwl]. unfold hydrate_active_row in H.
  destruct (hydrate_stored_connection d r) as [[c'|t]|] eqn:Hh; [|done..].
  injection H as ->. pose proof (hydrate_fields d r _ Hh) as (_ & Hid & Hrev & _ & _ & Hc & Hw & _).
  destruct (rw_connections d Hwf) as [Hchk [Hnd _]].
  assert (find_key cn_id (cn_id r) (connections d) = Some r) as Hf by (by apply find_key_unique).
  rewrite Forall_forall in Hchk. destruct (check_row_nonneg r (Hchk r Hin)) as [? _].
  split_and!; [|congruence..| |lia].
  - unfold load_active_connection. rewrite Hid. by rewrite (load_connection_find d (cn_id r) r _ Hf Hh).
  - rewrite Hid. by eapply hydrate_id.
Qed.

(** A committed response is the event's terminal result. *)
Lemma response_committed d lease c rev response m now d' :
  events_wf (wake_events d) -> u64 now -> 0 <= rev ->
  complete_event_for_active_connection_inner lease c rev response m now d = Ok (tt, d') ->
  exists o ev, claim_state d' (el_event_id lease) = Some (Finished o ev)
    /\ te_response_event_json ev = Some response.
Proof.
  intros Hwf [Hn _] Hr H. pose proof H as H0.
  unfold complete_event_for_active_connection_inner, sqlite_revision in H0.
  destruct (MAX_RESPONSE_EVENT_BYTES <? str_len response) eqn:Elen; [done|]. bool_to_prop.
  destruct (sqlite_timestamp now) as [now'|] eqn:E1; [|done].
  destruct (ok_or ValueOutOfRange (i64_try_from rev)) as [rev'|] eqn:E2; [|done].
  apply sqlite_timestamp_Ok in E1 as [-> ?]. use_results.
  pose proof (complete_active_tx d lease c rev response m now Hwf ltac:(lia) ltac:(lia) Elen) as Ht.
  unfold tx_refines in Ht.
  destruct (spec_complete_active _ _ _ _ _ _ _) as [[[] s]|x] eqn:Es; [|congruence].
  destruct Ht as (d1 & Heq & Hst & _). rewrite H in Heq. injection Heq as <-. rewrite Hst.
  unfold spec_complete_active in Es. destruct (claim_state d (el_event_id lease)) as [[o t u| |]|]; try done.
  inv_run Es. eauto.
Qed.

(** What a claim returns. *)
Lemma claim_outcome d token e c rev now dur o d' :
  events_wf (wake_events d) -> u64 now -> 0 <= rev -> length token = 16%nat -> length e = 32%nat ->
  claim_event (Some token) e c rev now dur d = Ok (o, d') ->
  match o with
  | Acquired lease => el_event_id lease = e
  | Terminal ev => d' = d /\ exists ow, claim_state d e = Some (Finished ow ev)
  | InProgress _ => True
  end.
Proof.
  intros Hwf [Hn _] Hr Ht He H. pose proof H as H0. unfold claim_event, sqlite_revision in H0.
  destruct (sqlite_timestamp now) as [now'|] eqn:E1; [|done].
  destruct (ok_or ValueOutOfRange (i64_try_from rev)) as [rev'|] eqn:E2; [|done].
  destruct (lease_expiry now' dur) as [expires|] eqn:E3; [|done].
  apply sqlite_timestamp_Ok in E1 as [-> ?]. use_results.
  pose proof (claim_tx d token e c rev now dur expires Hwf ltac:(lia) ltac:(lia) Ht He E3) as Href.
  unfold tx_refines in Href. destruct (spec_claim _ _ _ _ _ _ _) as [[a s]|x] eqn:Es; [|congruence].
  destruct Href as (d1 & Heq & _). rewrite H in Heq. injection Heq as <- <-.
  clear E3. unfold spec_claim in Es.
  destruct (claim_state d e) as [[ow t u|ow u|ow ev]|] eqn:Hcs; inv_run Es; try done.
  split; [|eauto]. inv_run H0; done.
Qed.

(** Without randomness a claim can only report what is stored. *)
Lemma claim_without_token d e c rev now dur o d' :
  claim_event None e c rev now dur d = Ok (o, d') ->
  d' = d /\ (forall lease, o <> Acquired lease)
  /\ forall token, claim_event (Some token) e c rev now dur d = Ok (o, d').
Proof.
  intros H. assert (forall token, claim_event (Some token) e c rev now dur d = Ok (o, d')) as Hsame.
  { intros token. revert H. unfold claim_event.
    destruct (sqlite_timestamp now); [|done]. destruct (sqlite_revision rev); [|done].
    destruct (lease_expiry _ dur); [|done]. destruct (load_existing e d); [|done].
    destruct (_ || _); [done|]. destruct (bool_decide _); [done|]. destruct (_ || _); [|done].
    destruct (ok_or CorruptData _); [|done]. by destruct (_ <? _). }
  unfold claim_event in H. inv_run H; done.
Qed.

Lemma loaded_attempt base d e a :
  accounting_wf base d -> load_payment_attempt_by_event e d = Ok (Some a) ->
  exists r, r ∈ payment_attempts d /\ a = attempt_of r /\ pa_event_id r = e.
Proof.
  unfold load_payment_attempt_by_event. intros Hwf. rewrite (load_by_event base) by done.
  destruct (find_key pa_event_id e (payment_attempts d)) as [r|] eqn:Hf; [|done]. intros [= <-].
  apply find_key_Some in Hf as [??]. by exists r.
Qed.

Lemma reserved_attempt base d e h c principal now o d' :
  accounting_wf base d -> length e = 32%nat -> length h = 32%nat ->
  ConnectionId_parse (ac_id c) = Ok (ac_id c) -> u64 principal -> u64 now -> 0 <= ac_revision c ->
  reserve_payment e h c principal now d = Ok (o, d') ->
  match o with
  | Outcome_Reserved a | Outcome_Existing a => exists r, r ∈ payment_attempts d'
      /\ a = attempt_of r /\ pa_event_id r = e /\ pa_connection_id r = ac_id c
      /\ pa_connection_revision r = ac_revision c
  | Outcome_AlreadyTracked _ => True
  end.
Proof.
  intros Hwf He Hh Hid [Hp _] [Hn _] Hr H.
  destruct (reserve_run e h c principal now d o d' base Hwf Hp H)
    as [[-> Ho]|(b & start & Hb & Hs & Hp' & Hn' & Hr' & Hl & Hf & Hfe & Hfh)]; [by destruct o|].
  pose proof (reserve_tx base d e h c principal now b start Hwf Hp' ltac:(lia) ltac:(lia) He Hh Hid Hb Hs Hl Hf)
    as Ht.
  unfold reserve_spec in Ht. rewrite Hfe, Hfh, H in Ht. cbv zeta in Ht.
  destruct (_ || _); [done|]. destruct (negb _); [done|]. destruct (_ <? _); [done|].
  destruct Ht as (d1 & Heq & Hnew). injection Heq as -> <-.
  eexists. split_and!; [|done..].
  eapply find_key_Some. rewrite (rn_find _ _ _ _ _ Hnew). by rewrite bool_decide_true.
Qed.

(** The initiation marker is on the attempt once it is committed. *)
Lemma initiated_attempt base d h now a d' :
  accounting_wf base d -> u64 now -> mark_payment_initiated h now d = Ok (a, d') ->
  exists x, attempt_of_hash h d' = Some x /\ pa_initiated_at x <> None.
Proof.
  intros Hwf Hn H. destruct (initiated_run base _ now a d d' Hwf Hn H) as (x & Hf & [[Hi ->]|[Hi Hrep]]); [by exists x|].
  exists (pa_with_initiated now x). split; [|done]. unfold attempt_of_hash. rewrite (rp_find _ _ _ _ _ Hrep).
  apply find_key_Some in Hf as [_ <-]. by rewrite bool_decide_true.
Qed.

End Components.

(** ** Runs

    While the wake runs, the other processes commit any transactions [env] of
    the library; [own] is what the engine commits. *)

Section Runs.
Context `{L : UrlLib} `{UP : !UrlParts L} `{NK : NostrKeys} `{N : NostrLib} `{J : Nip47Json} `{LL : !UrlLaws L} `{PL : !UrlPartsLaws UP}.
Context (env : Database -> Database -> Prop) (Henv : forall d d', env d d' -> library_step d d').
Context (engine : EngineConfig) (wake : WakeInput) (d0 : Database).

Definition own (d d' : Database) : Prop := d' = d \/ library_step d d'.

(** The connection [c] acts for this wake: at some moment of the run it was the
    active connection of the wallet named by the wake, it allows the relay,
    and the request [v] is authentically its own. *)
Definition acting (c : ActiveConnection) (relay : string) (v : ValidatedNwcEvent) (d : Database) : Prop :=
  exists d1 json, rtc library_step d0 d1 /\ rtc library_step d1 d
    /\ load_active_connection (ac_id c) d1 = Ok (Some c)
    /\ ac_wallet_service_pubkey c = wi_wallet_service_pubkey wake
    /\ SecureRelayUrl_parse (wi_relay wake) = Ok relay /\ allows_relay c relay = true
    /\ validate_request_for_replay (engine_policy engine) json (wi_event_id wake)
         (ac_client_pubkey c) (ac_wallet_service_pubkey c) (ac_encryption c) = Ok v.

(** The decrypted request asks for [m], and the policy of its connection grants it. *)
Definition authorized (c : ActiveConnection) (m : NwcMethod) (d : Database) : Prop :=
  exists relay v secret request, acting c relay v d
    /\ decrypt_request v secret = Ok request /\ domain_method (req_method request) = Some m
    /\ allows (ac_policy c) m = true.

(** The attempt the engine works on, as it was at some moment of the run. *)
Definition reserved_for (c : ActiveConnection) (fee : Z) (d1 : Database) (r : PaymentAttemptRow) : Prop :=
  library_wf d1 /\ rtc library_step d0 d1 /\ attempt_of_hash (pa_payment_hash r) d1 = Some r
  /\ pa_event_id r = wi_event_id wake /\ pa_fee_reserve_sat r = fee
  /\ pa_connection_id r = ac_id c /\ pa_connection_revision r = ac_revision c.

(** Nobody else releases a reservation of this event. *)
Definition undisturbed : Prop :=
  forall d d' r, env d d' -> r ∈ payment_attempts d -> pa_event_id r = wi_event_id wake -> keeps_attempt r d'.

(** The durable attempt behind a payment that is started: the payment was reserved
    for this event and connection with the fee reserve the request caps, and the
    attempt of its payment hash is initiated now.  It is that reservation, if
    nobody else releases it. *)
Definition backed (c : ActiveConnection) (request : PayInvoiceRequest) (d : Database) : Prop :=
  pir_idempotency_key request = wi_event_id wake
  /\ exists d1 r r', reserved_for c (pir_maximum_fee request) d1 r /\ rtc library_step d1 d
    /\ attempt_of_hash (pa_payment_hash r) d = Some r' /\ pa_initiated_at r' <> None
    /\ (undisturbed -> pa_terms r' = pa_terms r).

Definition running (d : Database) : Prop := library_wf d /\ rtc library_step d0 d.

(** At some moment of the run the response was the stored result of the event,
    and from then on it stays so, until a prune removes it. *)
Definition committed (json : string) (d : Database) : Prop :=
  exists d1 o ev, running d1 /\ rtc library_step d1 d
    /\ claim_state d1 (wi_event_id wake) = Some (Finished o ev)
    /\ te_response_event_json ev = Some json
    /\ final_until_pruned library_step (wi_event_id wake) o ev d1 d.

Definition engine_safe (X : Type) (c : HostCall X) (d : Database) : Prop :=
  match c with
  | get_info _ => exists c, authorized c GetInfo d
  | get_balance _ => exists c, authorized c GetBalance d
  | make_invoice _ _ => exists c, authorized c MakeInvoice d
  | lookup_invoice _ _ => exists c, authorized c LookupInvoice d
  | list_transactions _ _ => exists c, authorized c ListTransactions d
  | quote_payment _ _ _ | payment_status _ _ => exists c, authorized c PayInvoice d
  | start_payment request _ => exists c, authorized c PayInvoice d /\ backed c request d
  | load_nwc_secret id _ => exists c relay v, acting c relay v d /\ id = ac_id c
  | publish_event relay json _ =>
      committed json d /\ exists c v, acting c relay v d
  | clock_now | is_cancelled | elapsed | fetch_event _ _ _ _ | record_diagnostic _ | random_bytes _ | cipher_entropy => True
  | _ => False
  end.

(** A completed wake has a stored response. *)
Definition engine_post (disposition : WakeDisposition) (d : Database) : Prop :=
  match disposition with Completed _ => exists json, committed json d | _ => True end.

Definition ewp {R} (p : Prog R) (Q : R -> Database -> Prop) (d : Database) : Prop :=
  wp env own engine_safe p Q d.

(** *** Stability *)

Lemma own_library_steps d d' : own d d' -> rtc library_step d d'.
Proof. intros [->|H]; [done|by apply rtc_once]. Qed.

Lemma run_steps d d' : rtc (fun a b => env a b \/ own a b) d d' -> rtc library_step d d'.
Proof.
  induction 1 as [d|d d1 d' [Hs%Henv|Ho] _ IH]; [done|by eapply rtc_l|]. etrans; [by apply own_library_steps|done].
Qed.

Lemma running_steps d d' : rtc library_step d d' -> running d -> running d'.
Proof. intros Hm [Hwf Hr]. split; [by eapply library_steps_library|by etrans]. Qed.

Lemma acting_steps c relay v d d' : rtc library_step d d' -> acting c relay v d -> acting c relay v d'.
Proof. intros Hm (d1 & json & H1 & H2 & H). exists d1, json. split_and!; try apply H; [done|by etrans]. Qed.

Lemma authorized_steps c m d d' : rtc library_step d d' -> authorized c m d -> authorized c m d'.
Proof.
  intros Hm (relay & v & s & q & Ha & H). exists relay, v, s, q. split; [|done].
  by eapply acting_steps.
Qed.

Lemma committed_steps json d d' : rtc library_step d d' -> committed json d -> committed json d'.
Proof.
  intros Hm (d1 & o & ev & Hr & H1 & H2 & H3 & _). exists d1, o, ev.
  assert (rtc library_step d1 d') by (by etrans). split_and!; [done..|].
  by apply library_steps_terminal; [|apply Hr|].
Qed.

Lemma stored_now json o ev d : running d -> claim_state d (wi_event_id wake) = Some (Finished o ev) ->
  te_response_event_json ev = Some json -> committed json d.
Proof. intros Hd H1 H2. exists d, o, ev. split_and!; [done|apply rtc_refl|done|done|by left]. Qed.

(** The loaded attempt [a] is the one reserved for this event, and still there if
    nobody else releases it. *)
Definition tracked (c : ActiveConnection) (a : PaymentAttempt) (d : Database) : Prop :=
  exists d1 r, reserved_for c (at_fee_reserve_sat a) d1 r /\ rtc library_step d1 d
    /\ pa_payment_hash r = at_payment_hash a /\ (was_initiated a = true -> pa_initiated_at r <> None)
    /\ (undisturbed -> exists x, attempt_of_hash (pa_payment_hash r) d = Some x /\ pa_terms x = pa_terms r).

Lemma env_steps d d' : rtc env d d' -> rtc library_step d d'.
Proof. apply (rtc_congruence (fun d => d)). exact Henv. Qed.

Lemma undisturbed_followed r x d d' : undisturbed -> rtc env d d' -> library_wf d ->
  pa_event_id r = wi_event_id wake -> attempt_of_hash (pa_payment_hash r) d = Some x -> pa_terms x = pa_terms r ->
  exists x', attempt_of_hash (pa_payment_hash r) d' = Some x' /\ pa_terms x' = pa_terms r.
Proof.
  intros Hq Hs. revert x. induction Hs as [d|d d1 d' Hstep _ IH]; intros x Hwf He Hx Ht; [by exists x|].
  destruct (find_key_Some _ _ _ _ Hx) as [Hin Hh]. pose proof Ht as Hxe. unfold pa_terms, pa_key in Hxe.
  injection Hxe as E1 _ _ _ _ _. destruct (Hq d d1 x Hstep Hin ltac:(congruence)) as (x1 & Hin1 & Hh1 & Ht1 & _).
  destruct (library_step_library d d1 (Henv _ _ Hstep) Hwf) as [Hwf1 _].
  destruct (lw_books d1 Hwf1) as [base Hb]. pose proof (attempt_of_hash_unique base d1 x1 Hb Hin1) as Hx1.
  apply (IH x1); [done|done| |congruence]. by rewrite <- Hx1, Hh1, Hh.
Qed.

Lemma tracked_steps c a d d' : rtc env d d' -> library_wf d -> tracked c a d -> tracked c a d'.
Proof.
  intros Hs Hwf (d1 & r & Hr & Hd & Hh & Hi & Hq). exists d1, r.
  split_and!; [done|etrans; [exact Hd|by apply env_steps]|done|done|].
  intros Hu. destruct (Hq Hu) as (x & Hx & Ht). eapply undisturbed_followed; [done|exact Hs|done|apply Hr|exact Hx|done].
Qed.

Lemma tracked_own c a d d' : library_step d d' -> library_wf d -> tracked c a d ->
  attempt_of_hash (at_payment_hash a) d' <> None -> tracked c a d'.
Proof.
  intros Hs Hwf (d1 & r & Hr & Hd & Hh & Hi & Hq) Hsome. exists d1, r.
  split_and!; [done|by eapply rtc_r|done|done|]. intros Hu. destruct (Hq Hu) as (x & Hx & Ht).
  pose proof (library_step_attempt (pa_payment_hash r) d d' Hs Hwf) as He. rewrite Hx in He. rewrite <- Hh in Hsome.
  destruct (attempt_of_hash (pa_payment_hash r) d') as [x'|]; [|done]. exists x'. split; [done|].
  destruct He as (-> & _). done.
Qed.

(** An attempt that was loaded as initiated still is. *)
Lemma tracked_initiated c a d : tracked c a d -> was_initiated a = true ->
  exists r', attempt_of_hash (at_payment_hash a) d = Some r' /\ pa_initiated_at r' <> None.
Proof.
  intros (d1 & r & (Hwf & _ & Hr & _) & Hd & <- & Hi & _) Hw. specialize (Hi Hw).
  destruct (initiated_followed r d1 d Hd Hwf Hr Hi) as (r' & H1 & _ & H2). exists r'. split; [done|]. by rewrite H2.
Qed.

(** *** Rules

    A property that survives the moves of the run holds after every step. *)

Class Stable (P : Database -> Prop) : Prop := stable : forall d d', rtc library_step d d' -> P d -> P d'.

#[export] Instance running_stable : Stable running.
Proof. intros d d'. apply running_steps. Qed.

Section Rules.
Context (P : Database -> Prop) `{HP : !Stable P}.

Lemma steps_stable d d' : rtc env d d' -> P d -> P d'.
Proof. intros H%env_steps. by apply stable. Qed.

Lemma ewp_call {X S} (c : HostCall X) (k : X -> Prog S) Q d :
  P d -> (forall d', rtc env d d' -> P d' -> engine_safe X c d') ->
  (forall d' x, rtc env d d' -> P d' -> answer_typed c x -> ewp (k x) Q d') ->
  ewp (bind (call c) k) Q d.
Proof.
  intros HPd Hs Hk. apply wp_bind_call. intros d' Hd.
  assert (P d') by (by eapply steps_stable). split; [by apply Hs|]. intros x Hx. by apply Hk.
Qed.

Lemma ewp_read {E A S} (f : Database -> Result E A) (k : Result E A -> Prog S) Q d :
  P d -> (forall d', rtc env d d' -> P d' -> ewp (k (f d')) Q d') ->
  ewp (bind (ledger (read f)) k) Q d.
Proof.
  intros HPd Hk. apply wp_bind_read; [by left|]. intros d' Hd. apply Hk; [done|].
  by eapply steps_stable.
Qed.

Lemma ewp_commit {E A S} (t : Tx E A) (k : Result E A -> Prog S) Q d :
  P d -> (forall d' a d2, P d' -> t d' = Ok (a, d2) -> own d' d2) ->
  (forall d' r, rtc library_step d d' -> P d' -> ewp (k r) Q d') -> ewp (bind (ledger t) k) Q d.
Proof.
  intros HPd Ht Hk. apply wp_bind_ledger. intros d' Hd.
  assert (P d') as HPd' by (by eapply steps_stable).
  destruct (t d') as [[a d2]|e] eqn:E1; [|by apply Hk; [apply env_steps|]].
  assert (own d' d2) as Ho by eauto. split; [done|].
  assert (rtc library_step d' d2) by (by apply own_library_steps).
  apply Hk; [etrans; [by apply env_steps|done]|]. by eapply stable.
Qed.

Lemma ewp_context {S} deadline (k : option Duration -> Prog S) Q d :
  P d -> (forall d' b, rtc env d d' -> P d' -> ewp (k b) Q d') ->
  ewp (bind (context deadline) k) Q d.
Proof.
  intros HPd Hk. apply wp_bind, wp_context; [done..|]. intros d' b Hd. apply Hk; [done|].
  by eapply steps_stable.
Qed.

Lemma ewp_record {S} code (k : unit -> Prog S) Q d :
  P d -> (forall d', rtc env d d' -> P d' -> ewp (k tt) Q d') ->
  ewp (bind (record_code engine code) k) Q d.
Proof.
  intros HPd Hk. unfold record_code. destruct (engine_has_diagnostics engine).
  - apply ewp_call; [done..|]. intros d' [] Hd HPd' _. auto.
  - apply Hk; [apply rtc_refl|done].
Qed.

End Rules.

(** A disposition that claims nothing. *)
Definition harmless (disposition : WakeDisposition) : bool :=
  match disposition with Completed _ => false | _ => true end.

Lemma ewp_end disposition d : harmless disposition = true -> ewp (Ret disposition) engine_post d.
Proof. intros H d' _. by destruct disposition. Qed.

Lemma ewp_ends (p : Prog WakeDisposition) d :
  ewp p (fun r _ => harmless r = true) d -> ewp p engine_post d.
Proof. intros H. eapply wp_mono; [exact H|]. by intros []. Qed.

(** *** Ending a claim *)

(** The claim the engine holds, for the connection that acts. *)
Record claimed (lease : EventLease) (c : ActiveConnection) (relay : string) (v : ValidatedNwcEvent)
    (d : Database) : Prop := {
  cl_running : running d;
  cl_acting : acting c relay v d;
  cl_event : el_event_id lease = wi_event_id wake;
  cl_id : ConnectionId_parse (ac_id c) = Ok (ac_id c);
  cl_revision : 0 <= ac_revision c;
}.

#[export] Instance claimed_stable lease c relay v : Stable (claimed lease c relay v).
Proof.
  intros d d' Hm [H1 H2 H3 H4 H5].
  split; [by eapply running_steps|by eapply acting_steps|done..].
Qed.

Section Endings.
Context (P : Database -> Prop) `{HP : !Stable P}.

Lemma ended_by {A} (t : Z -> Tx LedgerError A) (result : Result LedgerError A -> WakeDisposition) d :
  P d -> (forall now d1 a d2, u64 now -> t now d1 = Ok (a, d2) -> ledger_step d1 d2) ->
  (forall r, harmless (result r) = true) ->
  ewp (let* now := call clock_now in let* done := ledger (t now) in Ret (result done))
    (fun r _ => harmless r = true) d.
Proof.
  intros HPd Ht Hr. apply (ewp_call P); [done..|]. intros d1 now _ H1 Hnow.
  apply (ewp_commit P); [done| |].
  - intros d2 a d3 _ H. right. apply by_ledger. by eapply Ht.
  - intros d2 r _ _ d3 _. apply Hr.
Qed.

Lemma reject_claim_wp lease code d : P d -> ewp (reject_claim lease code) (fun r _ => harmless r = true) d.
Proof.
  intros HPd. apply (ended_by (fun now => complete_event lease Kind_rejected None now)
    (fun r => match r with Ok _ => rejected code | Err _ => queued Queue_LedgerBusy end)); [done| |by intros []].
  intros now d1 [] d2 Hn H. by eapply step_complete.
Qed.

Lemma engine_retry_typed : duration ENGINE_RETRY_DELAY.
Proof. split; by vm_compute. Qed.

Lemma retry_claim_wp lease reason d : P d -> ewp (retry_claim lease reason) (fun r _ => harmless r = true) d.
Proof.
  intros HPd. apply (ended_by (fun now => retry_later lease now ENGINE_RETRY_DELAY)
    (fun r => match r with Ok _ => retry ENGINE_RETRY_DELAY reason | Err _ => queued Queue_LedgerBusy end));
    [done| |by intros []].
  intros now d1 [] d2 Hn H. by eapply step_retry; [|apply engine_retry_typed|].
Qed.

Lemma release_to_application_wp lease reason d :
  P d -> ewp (release_to_application lease reason) (fun r _ => harmless r = true) d.
Proof.
  intros HPd. apply (ended_by (fun now => retry_later lease now ENGINE_RETRY_DELAY)
    (fun r => match r with Ok _ => queued reason | Err _ => queued Queue_LedgerBusy end));
    [done| |by intros []].
  intros now d1 [] d2 Hn H. by eapply step_retry; [|apply engine_retry_typed|].
Qed.

Lemma completion_failed_wp lease error d :
  P d -> ewp (completion_failed lease error) (fun r _ => harmless r = true) d.
Proof. intros HPd. destruct error; try (by intros d1 _); by apply retry_claim_wp. Qed.

(** The recheck of the connection changes nothing when it passes. *)
Lemma ensure_active_wp connection lease {S} (k : Result WakeDisposition unit -> Prog S) Q d :
  P d -> (forall d', rtc env d d' -> P d' -> ewp (k (Ok tt)) Q d') ->
  (forall disposition d', harmless disposition = true -> ewp (k (Err disposition)) Q d') ->
  ewp (bind (ensure_claim_connection_active connection lease) k) Q d.
Proof.
  intros HPd Hok Herr. apply wp_bind. unfold ensure_claim_connection_active, revision_is_active.
  apply (ewp_read P); [done|]. intros d1 H1 HP1.
  destruct (is_connection_revision_active _ _ d1) as [[]|e].
  - intros d2 H2. apply Hok; [by etrans|]. by eapply steps_stable.
  - apply wp_bind. eapply wp_mono; [by apply reject_claim_wp|]. intros r d2 Hr d3 _. by apply Herr.
  - apply wp_bind. eapply wp_mono; [by apply release_to_application_wp|].
    intros r d2 Hr d3 _. by apply Herr.
Qed.

End Endings.

(** *** Responses *)

Record answering (c : ActiveConnection) (relay : string) (v : ValidatedNwcEvent) (json : string)
    (d : Database) : Prop := {
  an_running : running d;
  an_acting : acting c relay v d;
  an_committed : committed json d;
}.

#[export] Instance answering_stable c relay v json : Stable (answering c relay v json).
Proof.
  intros d d' Hm [H1 H2 H3].
  split; [by eapply running_steps|by eapply acting_steps|by eapply committed_steps].
Qed.

Lemma republish_committed c relay v json notification deadline d :
  answering c relay v json d ->
  ewp (republish_terminal engine c relay (Some json) notification deadline) engine_post d.
Proof.
  intros Ha. unfold republish_terminal, revision_is_active.
  apply (ewp_read (answering c relay v json)); [done|]. intros d1 _ H1.
  destruct (is_connection_revision_active _ _ d1) as [[]|]; [|by apply ewp_end..].
  apply (ewp_context (answering c relay v json)); [done|]. intros d2 [b|] _ H2.
  - apply (ewp_call (answering c relay v json)); [done| |].
    + intros d3 _ [_ Hact Hcom]. split; [done|]. by exists c, v.
    + intros d3 [[]|e] _ H3 _.
      * intros d4 H4. apply (steps_stable (answering c relay v json)) in H4; [|done].
        exists json. apply (an_committed _ _ _ _ _ H4).
      * apply (ewp_record (answering c relay v json)); [done|]. intros. by apply ewp_end.
  - apply (ewp_record (answering c relay v json)); [done|]. intros. by apply ewp_end.
Qed.

(** The two completions are one transaction with or without a method. *)
Lemma completion_inner lease (c : ActiveConnection) json method now :
  match method with
  | Some m => complete_nwc_event_for_active_connection lease (ac_id c) (ac_revision c) json m now
  | None => complete_event_for_active_connection lease (ac_id c) (ac_revision c) json now
  end = complete_event_for_active_connection_inner lease (ac_id c) (ac_revision c) json method now.
Proof. by destruct method. Qed.

Lemma commit_and_publish_wp lease c relay v response deadline d :
  claimed lease c relay v d ->
  ewp (commit_and_publish engine lease c v relay response deadline) engine_post d.
Proof.
  intros Hcl. set (P := claimed lease c relay v). unfold commit_and_publish.
  apply (ewp_context P); [done|]. intros d1 [budget|] _ H1;
    [|by apply ewp_ends, (release_to_application_wp P)].
  apply (ewp_call P); [done|by intros d2 _ [_ Hact _ _ _]; exists c, relay, v|].
  intros d2 [secret|e] _ H2 _; [|by apply ewp_ends, (release_to_application_wp P)].
  apply (ewp_call P); [done..|]. intros d3 created _ H3 _.
  apply (ewp_call P); [done..|]. intros d4 entropy _ H4 _.
  destruct (build_response_event v secret _ created entropy) as [json|];
    [|by apply ewp_ends, (reject_claim_wp P)].
  apply (ewp_call P); [done..|]. intros d5 now _ H5 Hnow.
  rewrite completion_inner. apply wp_bind_ledger. intros d6 H6.
  apply (steps_stable P) in H6; [|done].
  destruct (complete_event_for_active_connection_inner lease (ac_id c) (ac_revision c) json _ now d6)
    as [[[] d7]|e] eqn:Hc; [|by apply ewp_ends, (completion_failed_wp P)].
  pose proof H6 as [[Hwf Hrun] Hact Hev _ Hrev].
  assert (own d6 d7) as Hown.
  { right. apply by_ledger. by eapply step_complete_active. }
  split; [done|]. apply (republish_committed c relay v).
  assert (running d7) as H7 by (by eapply running_steps; [apply own_library_steps|]).
  split; [done|by eapply acting_steps; [apply own_library_steps|]|].
  assert (exists o ev, claim_state d7 (el_event_id lease) = Some (Finished o ev)
    /\ te_response_event_json ev = Some json) as (o & ev & E1 & E2)
    by (by eapply response_committed; [apply (lw_events _ Hwf)|..]).
  rewrite Hev in E1. by eapply stored_now.
Qed.

Lemma respond_with_error_wp lease c relay v method code rejection deadline d :
  claimed lease c relay v d ->
  ewp (respond_with_error engine lease c v relay method code rejection deadline) engine_post d.
Proof.
  intros Hcl. set (P := claimed lease c relay v). unfold respond_with_error.
  apply (ensure_active_wp P); [done| |intros; by apply ewp_end].
  intros d1 _ H1. apply wp_bind. eapply wp_mono; [by apply commit_and_publish_wp|].
  intros r d2 Hr d3 _. by destruct r.
Qed.

Lemma payment_error_wp lease c relay v code rejection deadline d :
  claimed lease c relay v d ->
  ewp (payment_error engine lease c v relay code rejection deadline) engine_post d.
Proof. apply respond_with_error_wp. Qed.

(** *** Payments *)

Lemma accounting_own {A} (t : Tx PaymentAccountingError A) d a d' :
  (forall a d', t d = Ok (a, d') -> accounting_step d d') -> t d = Ok (a, d') -> own d d'.
Proof. intros Hs H. right. apply by_accounting. eauto. Qed.

Lemma finish_payment_status_wp lease c relay v invoice hash status deadline d :
  claimed lease c relay v d -> status_typed status ->
  ewp (finish_payment_status engine lease c v relay invoice hash status deadline) engine_post d.
Proof.
  intros Hcl Hty. set (P := claimed lease c relay v).
  destruct status as [| |preimage amount fee|reason]; unfold finish_payment_status;
    (apply (ewp_record P); [done|]; intros d1 _ H1; apply (ewp_call P); [done..|];
     intros d2 now _ H2 Hnow; apply (ewp_commit P); [done| |]).
  1,3: intros d3 a d4 _ H; right; apply by_accounting; by eapply step_pending.
  1,2: intros d3 [r|e] _ H3; [by apply ewp_ends, (retry_claim_wp P)
    |by apply ewp_ends, (release_to_application_wp P)].
  - destruct Hty as (_ & Ha & Hf). intros d3 a d4 _ H. right. apply by_accounting.
    by eapply (step_succeeded hash amount fee now).
  - intros d3 [r|e] _ H3; [|by apply ewp_ends, (release_to_application_wp P)].
    apply (ewp_commit P); [done| |].
    + intros d4 [] d5 _ H. right. apply by_outbox. by eapply step_record_sent.
    + intros d4 [u|e] _ H4; [|by apply ewp_ends, (release_to_application_wp P)].
      apply (ensure_active_wp P); [done| |intros; by apply ewp_end].
      intros d5 _ H5. by apply commit_and_publish_wp.
  - intros d3 a d4 _ H. right. apply by_accounting. by eapply step_failed.
  - intros d3 [r|e] _ H3; [|by apply ewp_ends, (release_to_application_wp P)].
    by apply payment_error_wp.
Qed.

(** The connection may pay. *)
Definition paying (lease : EventLease) (c : ActiveConnection) (relay : string) (v : ValidatedNwcEvent)
    (d : Database) : Prop :=
  claimed lease c relay v d /\ authorized c PayInvoice d.

#[export] Instance paying_stable lease c relay v : Stable (paying lease c relay v).
Proof. intros d d' Hm [H1 H2]. split; [by eapply stable|by eapply authorized_steps]. Qed.

Lemma start_durable_payment_wp lease c relay v invoice request hash deadline d :
  paying lease c relay v d -> (forall d', rtc env d d' -> backed c request d') ->
  ewp (start_durable_payment engine lease c v relay invoice request hash deadline) engine_post d.
Proof.
  intros Hp Hb. set (P := paying lease c relay v). unfold start_durable_payment.
  apply (ewp_context P); [done|]. intros d1 [budget|] Hd1 H1; [|by apply ewp_ends, (retry_claim_wp P)].
  apply (ewp_call P); [done| |].
  - intros d2 Hd2 [_ Hauth]. exists c. split; [done|]. apply Hb. by etrans.
  - intros d2 [status|e] _ [H2 Ha2] Hty; [by apply finish_payment_status_wp; [|apply Hty]|].
    destruct (negb (confirms_payment_was_not_submitted e)).
    + apply (ewp_record P); [done|]. intros d3 _ H3. apply (ewp_call P); [done..|].
      intros d4 now _ H4 Hnow. apply (ewp_commit P); [done| |].
      * intros d5 a d6 _ H. right. apply by_accounting. by eapply step_pending.
      * intros d5 [a|er] _ H5; [by apply ewp_ends, (retry_claim_wp P)
          |by apply ewp_ends, (release_to_application_wp P)].
    + by apply finish_payment_status_wp.
Qed.

Lemma acting_event c relay v d : acting c relay v d -> ve_id v = wi_event_id wake.
Proof.
  intros (d1 & json & _ & _ & _ & _ & _ & _ & Hv).
  apply validate_request_spec in Hv as (e & _ & _ & _ & _ & _ & _ & _ & _ & ->). done.
Qed.

Lemma tracked_backed c (a : PaymentAttempt) v relay invoice amount d :
  acting c relay v d -> library_wf d -> tracked c a d ->
  (exists x, attempt_of_hash (at_payment_hash a) d = Some x /\ pa_initiated_at x <> None) ->
  forall d', rtc env d d' ->
  backed c (mkPayInvoiceRequest invoice amount (at_fee_reserve_sat a) (ve_id v)) d'.
Proof.
  intros Hact Hwf (d1 & r & Hr & Hd1 & Hh & _ & Hq) (x & Hx & Hi) d' Hd%env_steps.
  split; [by apply (acting_event c relay v d)|].
  pose proof (proj2 (find_key_Some _ _ _ _ Hx)) as Hxh. rewrite <- Hxh in Hx.
  destruct (initiated_followed x d d' Hd Hwf Hx Hi) as (x' & Hx' & Ht & Hi').
  exists d1, r, x'. split; [done|]. rewrite Hh in Hq |- *. rewrite <- Hxh in Hq |- *.
  split_and!; [by etrans|done|by rewrite Hi'|]. intros Hu. destruct (Hq Hu) as (y & Hy & Hty). congruence.
Qed.

Lemma initiate_payment_wp lease c relay v invoice amount a deadline d :
  paying lease c relay v d -> tracked c a d ->
  ewp (initiate_payment engine lease c v relay invoice amount a deadline) engine_post d.
Proof.
  intros Hp Ht. set (P := paying lease c relay v). unfold initiate_payment.
  apply (ensure_active_wp P); [done| |intros; by apply ewp_end]. intros d1 Hd1 H1.
  apply (tracked_steps c a d d1 Hd1) in Ht; [|apply Hp].
  case_bool_decide; [by apply ewp_ends, (retry_claim_wp P)|].
  destruct (was_initiated a) eqn:Hi.
  - apply start_durable_payment_wp; [done|]. apply (tracked_backed c a v relay); [apply H1|apply H1|done|].
    by apply (tracked_initiated c).
  - apply (ewp_context P); [done|]. intros d2 [budget|] Hd2 H2; [|by apply ewp_ends, (retry_claim_wp P)].
    apply (tracked_steps c a d1 d2 Hd2) in Ht; [|apply H1].
    apply (ewp_call P); [done..|]. intros d3 now Hd3 H3 Hnow.
    apply (tracked_steps c a d2 d3 Hd3) in Ht; [|apply H2].
    apply wp_bind_ledger. intros d4 Hd4. apply (tracked_steps c a d3 d4 Hd4) in Ht; [|apply H3].
    apply (steps_stable P) in Hd4; [|done].
    destruct (mark_payment_initiated (at_payment_hash a) now d4) as [[a' d5]|e] eqn:Hm;
      [|by apply ewp_ends, (release_to_application_wp P)].
    assert (own d4 d5) as Hown by (right; apply by_accounting; by eapply step_initiated).
    split; [done|]. assert (P d5) as H5 by (by eapply (stable d4); [apply own_library_steps|]).
    pose proof Hd4 as [[[Hwf4 _] _ _ _ _] _]. destruct (lw_books d4 Hwf4) as [base Hb].
    destruct (initiated_attempt base d4 _ now a' d5 Hb Hnow Hm) as (x & Hx & Hxi).
    apply start_durable_payment_wp; [done|].
    apply (tracked_backed c a v relay); [apply H5|apply H5| |by exists x].
    apply (tracked_own c a d4); [apply by_accounting; by eapply step_initiated|done|done|by rewrite Hx].
Qed.

Lemma continue_payment_wp lease c relay v invoice amount a deadline d :
  paying lease c relay v d -> tracked c a d ->
  ewp (continue_payment engine lease c v relay invoice amount a deadline) engine_post d.
Proof.
  intros Hp Ht. set (P := paying lease c relay v). unfold continue_payment.
  destruct (at_legacy_initiation_ambiguous a); [by apply payment_error_wp, Hp|].
  case_bool_decide.
  { apply (ensure_active_wp P); [done| |intros; by apply ewp_end]. intros d1 _ H1.
    by apply payment_error_wp, H1. }
  destruct (_ && _); [by apply initiate_payment_wp|].
  apply (ewp_context P); [done|]. intros d1 [budget|] Hd1 H1; [|by apply ewp_ends, (retry_claim_wp P)].
  apply (tracked_steps c a d d1 Hd1) in Ht; [|apply Hp].
  apply (ewp_call P); [done|by intros d2 _ [_ Ha]; exists c|]. intros d2 [status|e] Hd2 H2 Hty.
  - apply (tracked_steps c a d1 d2 Hd2) in Ht; [|apply H1].
    destruct (status_is_unknown status); [by apply initiate_payment_wp|].
    destruct (negb (may_disclose_settlement a)).
    + apply (ewp_call P); [done..|]. intros d3 now _ H3 Hnow. apply (ewp_commit P); [done| |].
      * intros d4 [] d5 _ H'. right. apply by_accounting. by eapply step_release.
      * intros d4 [u|er] _ H4; [by apply payment_error_wp, H4|].
        by apply ewp_ends, (release_to_application_wp P).
    + apply finish_payment_status_wp; [apply H2|by apply Hty].
  - apply (ewp_record P); [done|]. intros d3 _ H3. by apply ewp_ends, (retry_claim_wp P).
Qed.

Lemma tracked_of c r d : running d -> r ∈ payment_attempts d -> pa_event_id r = wi_event_id wake ->
  pa_connection_id r = ac_id c -> pa_connection_revision r = ac_revision c ->
  tracked c (attempt_of r) d.
Proof.
  intros [Hwf Hd0] Hr He Hc Hv. exists d, r. destruct (lw_books d Hwf) as [base Hb].
  split; [|split_and!; [done|done|by apply initiated_some|]]. 2: intros _; exists r; split; [by eapply attempt_of_hash_unique|done].
  split_and!; try done. by eapply attempt_of_hash_unique.
Qed.

Lemma msat_to_sat_ceil_u64 m s : u64 m -> engine_msat_to_sat_ceil m = Some s -> u64 s.
Proof.
  unfold engine_msat_to_sat_ceil. intros [H1 H2] H.
  destruct (checked_add_u64 m 999) as [x|] eqn:E; [|done]. injection H as <-.
  apply checked_add_u64_Some in E as [-> ?]. split; [apply Z.div_pos; lia|].
  apply Z.div_le_upper_bound; lia.
Qed.

Lemma execute_payment_wp lease c relay v payment deadline d :
  length (wi_event_id wake) = 32%nat -> paying lease c relay v d ->
  ewp (execute_payment engine lease c v relay payment deadline) engine_post d.
Proof.
  intros He Hp. set (P := paying lease c relay v). unfold execute_payment.
  pose proof (acting_event c relay v d (cl_acting _ _ _ _ _ (proj1 Hp))) as Hev. rewrite Hev.
  apply (ewp_read P); [done|]. intros d1 _ H1.
  destruct (load_payment_attempt_by_event (wi_event_id wake) d1) as [[a|]|e] eqn:Hload;
    [| |by apply ewp_ends, (release_to_application_wp P)].
  { destruct (negb _ || negb _) eqn:Hmine; [by apply payment_error_wp, H1|]. bool_to_prop.
    pose proof H1 as [[[[[base Hb] _ _] _] _ _ _ _] _].
    destruct (loaded_attempt base d1 _ a Hb Hload) as (r & Hr & -> & Her).
    apply continue_payment_wp; [done|]. apply tracked_of; [apply H1|done..]. }
  destruct (_ || _); [by apply payment_error_wp, H1|].
  apply (ewp_context P); [done|]. intros d2 [budget|] _ H2;
    [|by apply ewp_ends, (release_to_application_wp P)].
  apply (ewp_call P); [done|by intros d3 _ [_ Ha]; exists c|]. intros d3 [quote|e] _ H3 Hty.
  2:{ apply (ewp_record P); [done|]. intros d4 _ H4.
      destruct (is_retryable e); [by apply ewp_ends, (retry_claim_wp P)|].
      case_bool_decide; [by apply ewp_ends, (release_to_application_wp P)|].
      by apply payment_error_wp, H4. }
  destruct (Hty quote eq_refl) as [Hhash Hamount].
  destruct (engine_msat_to_sat_ceil _) as [principal|] eqn:Hsat; [|by apply payment_error_wp, H3].
  apply msat_to_sat_ceil_u64 in Hsat; [|done].
  destruct (principal =? 0); [by apply payment_error_wp, H3|].
  apply (ewp_call P); [done..|]. intros d4 now _ H4 Hnow. apply wp_bind_ledger. intros d5 Hd5.
  apply (steps_stable P) in Hd5; [|done].
  destruct (reserve_payment _ _ c principal now d5) as [[o d6]|e] eqn:Hres.
  2:{ destruct e; first [by apply payment_error_wp, Hd5|by apply ewp_ends, (release_to_application_wp P)
        |by apply ewp_ends, (reject_claim_wp P)|idtac].
      apply (ewp_record P); [done|]. intros d6 _ H6. by apply payment_error_wp, H6. }
  pose proof Hd5 as [[[[[base Hb] _ _] _] _ _ Hid Hrev] _].
  assert (own d5 d6) as Hown by (right; apply by_accounting; eapply step_reserve; [..|exact Hres]; done).
  split; [done|]. assert (P d6) as H6 by (by eapply (stable d5); [apply own_library_steps|]).
  pose proof (reserved_attempt base d5 _ _ c principal now o d6 Hb He Hhash Hid Hsat Hnow Hrev Hres) as Ho.
  destruct o as [a|a|a]; [destruct Ho as (r & Hr & -> & Her & Hc & Hv)..|by apply payment_error_wp, H6];
    (apply continue_payment_wp; [done|apply tracked_of; [apply H6|done..]]).
Qed.

(** *** Direct requests *)

(** The connection may make the wallet calls of [m]. *)
Definition serving (lease : EventLease) (c : ActiveConnection) (relay : string) (v : ValidatedNwcEvent)
    (m : NwcMethod) (d : Database) : Prop :=
  claimed lease c relay v d /\ authorized c m d.

#[export] Instance serving_stable lease c relay v m : Stable (serving lease c relay v m).
Proof. intros d d' Hm [H1 H2]. split; [by eapply stable|by eapply authorized_steps]. Qed.

Lemma ewp_done {R} (P : Database -> Prop) `{!Stable P} (r : R) d : P d -> ewp (Ret r) (fun _ => P) d.
Proof. intros H d' Hd. by eapply steps_stable. Qed.

(** A request that is one wallet call. *)
Lemma one_call_wp {X R} (P : Database -> Prop) `{!Stable P} (call_ : HostCall X) (f : X -> R) d :
  P d -> (forall d', P d' -> engine_safe X call_ d') ->
  ewp (let* x := call call_ in Ret (f x)) (fun _ => P) d.
Proof.
  intros HP Hs. apply (ewp_call P); [done|by intros; apply Hs|]. intros. by apply (ewp_done P).
Qed.

Lemma execute_make_invoice_wp lease c relay v r budget d :
  serving lease c relay v MakeInvoice d ->
  ewp (execute_make_invoice r c v budget) (fun _ => serving lease c relay v MakeInvoice) d.
Proof.
  set (P := serving lease c relay v MakeInvoice). intros HP. unfold execute_make_invoice.
  destruct (parse_make_invoice_request r) as [[request description]|]; [|by apply (ewp_done P)].
  apply (ewp_call P); [done..|]. intros d1 created_at _ H1 _.
  apply (ewp_read P); [done|]. intros d2 _ H2.
  destruct (load_nwc_invoice _ d2) as [[existing|]|]; [by apply (ewp_done P)| |by apply (ewp_done P)].
  apply (ewp_call P); [done|by intros d3 _ [_ Ha]; exists c|].
  intros d3 [created|e] _ H3 _; [|by apply (ewp_done P)].
  apply (ewp_call P); [done..|]. intros d4 token _ H4 _. apply (ewp_commit P); [done| |].
  - intros d5 a d6 _ H. right. apply by_outbox. by eapply step_record_invoice.
  - intros d5 recorded _ H5. by apply (ewp_done P).
Qed.

Lemma find_tracked_wp (P : Database -> Prop) `{!Stable P} r {S} (k : _ -> Prog S) Q d :
  P d -> (forall d' x, P d' -> ewp (k x) Q d') -> ewp (bind (find_tracked r) k) Q d.
Proof.
  intros HP Hk. apply wp_bind. eapply (wp_mono _ _ _ _ (fun _ => P)); [|by intros x d'; apply Hk].
  unfold find_tracked. destruct (nli_invoice r) as [invoice|].
  - apply (ewp_read P); [done|]. intros. by apply (ewp_done P).
  - destruct (nli_payment_hash r) as [hash|]; [|by apply (ewp_done P)].
    destruct (Hex32_from_hex hash); [|by apply (ewp_done P)].
    apply (ewp_read P); [done|]. intros. by apply (ewp_done P).
Qed.

Lemma execute_lookup_invoice_wp lease c relay v r budget d :
  serving lease c relay v LookupInvoice d ->
  ewp (execute_lookup_invoice r budget) (fun _ => serving lease c relay v LookupInvoice) d.
Proof.
  set (P := serving lease c relay v LookupInvoice). intros HP. unfold execute_lookup_invoice.
  apply (find_tracked_wp P); [done|]. intros d1 [tracked|e] H1; [|by apply (ewp_done P)].
  destruct (match tracked with Some _ => _ | None => _ end) as [lookup|]; [|by apply (ewp_done P)].
  apply (ewp_call P); [done|by intros d2 _ [_ Ha]; exists c|].
  intros d2 [[transaction|]|e] _ H2 _; [by apply (ewp_done P)| |by apply (ewp_done P)].
  destruct tracked as [invoice|]; [|by apply (ewp_done P)].
  apply (ewp_call P); [done..|]. intros. by apply (ewp_done P).
Qed.

Lemma execute_request_wp lease c relay v request m budget d :
  params_match (req_method request) (req_params request) = true ->
  domain_method (req_method request) = Some m -> serving lease c relay v m d ->
  ewp (execute_request request c v budget) (fun _ => serving lease c relay v m) d.
Proof.
  intros Hmatch Hm. unfold execute_request.
  destruct (req_method request), (req_params request); try discriminate Hmatch;
    try discriminate Hm; injection Hm as <-; intros HP.
  - apply (one_call_wp (serving lease c relay v GetInfo)); [done|by intros d' [_ Ha]; exists c].
  - apply (one_call_wp (serving lease c relay v GetBalance)); [done|by intros d' [_ Ha]; exists c].
  - by apply execute_make_invoice_wp.
  - by apply (ewp_done (serving lease c relay v PayInvoice)).
  - by apply execute_lookup_invoice_wp.
  - set (P := serving lease c relay v ListTransactions).
    destruct (parse_list_request _); [|by apply (ewp_done P)].
    apply (one_call_wp P); [done|by intros d' [_ Ha]; exists c].
Qed.

Lemma execute_direct_wp lease c relay v request m deadline d :
  params_match (req_method request) (req_params request) = true ->
  domain_method (req_method request) = Some m -> serving lease c relay v m d ->
  ewp (execute_direct engine lease c v relay request m deadline) engine_post d.
Proof.
  intros Hmatch Hm HP. set (P := serving lease c relay v m). unfold execute_direct.
  apply (ensure_active_wp P); [done| |intros; by apply ewp_end]. intros d1 _ H1.
  apply (ewp_context P); [done|]. intros d2 [budget|] _ H2;
    [|by apply ewp_ends, (release_to_application_wp P)].
  apply wp_bind. eapply wp_mono; [by apply (execute_request_wp lease c relay v request m)|].
  intros [result|e] d3 H3.
  - apply (ensure_active_wp P); [done| |intros; by apply ewp_end]. intros d4 _ H4.
    apply commit_and_publish_wp, H4.
  - destruct (is_retryable e); [by apply ewp_ends, (retry_claim_wp P)|].
    case_bool_decide; [by apply ewp_ends, (release_to_application_wp P)|].
    apply respond_with_error_wp, H3.
Qed.

(** *** One wake *)

Lemma dispatch_request_wp `{JL : !Nip47Laws J} lease c relay v plain request deadline d secret :
  length (wi_event_id wake) = 32%nat -> request_from_json plain = Some request ->
  decrypt_request v secret = Ok request -> claimed lease c relay v d ->
  ewp (dispatch_request engine lease c v relay request deadline) engine_post d.
Proof.
  intros He Hjson Hdec Hcl. set (P := claimed lease c relay v). unfold dispatch_request.
  destruct (domain_method (req_method request)) as [m|] eqn:Hm; [|by apply respond_with_error_wp].
  destruct (allows (ac_policy c) m) eqn:Hallow; cbn [negb]; [|by apply respond_with_error_wp].
  assert (forall d', P d' -> authorized c m d') as Hauth.
  { intros d' H'. exists relay, v, secret, request. split; [apply H'|done]. }
  case_bool_decide as Hpay.
  - apply (ewp_record P); [done|]. intros d1 _ H1.
    destruct (req_params request); try by apply ewp_ends, (reject_claim_wp P).
    apply execute_payment_wp; [done|]. split; [done|]. subst m. by apply Hauth.
  - destruct (negb (is_direct_request m)); [by apply respond_with_error_wp|].
    apply execute_direct_wp; [by eapply request_params_match|done|]. split; [done|by apply Hauth].
Qed.

Lemma decrypt_request_json v secret request :
  decrypt_request v secret = Ok request -> exists plain, request_from_json plain = Some request.
Proof.
  unfold decrypt_request. destruct (decrypt v secret) as [plain|]; [|done]. intros H%ok_or_Ok. eauto.
Qed.

Lemma execute_claimed_wp `{JL : !Nip47Laws J} lease c relay v deadline d :
  length (wi_event_id wake) = 32%nat -> claimed lease c relay v d ->
  ewp (execute_claimed engine lease c v relay deadline) engine_post d.
Proof.
  intros He Hcl. set (P := claimed lease c relay v). unfold execute_claimed.
  apply (ewp_context P); [done|]. intros d1 [budget|] _ H1;
    [|by apply ewp_ends, (release_to_application_wp P)].
  apply (ewp_call P); [done|by intros d2 _ [_ Hact _ _ _]; exists c, relay, v|].
  intros d2 [secret|e] _ H2 _; [|by apply ewp_ends, (release_to_application_wp P)].
  destruct (decrypt_request v secret) as [request|] eqn:Hdec; [|by apply ewp_ends, (reject_claim_wp P)].
  destruct (decrypt_request_json v secret request Hdec) as [plain Hplain].
  by eapply dispatch_request_wp.
Qed.

Lemma accept_and_execute_wp `{JL : !Nip47Laws J} lease c relay v deadline d :
  length (wi_event_id wake) = 32%nat -> claimed lease c relay v d ->
  ewp (accept_and_execute engine lease c v relay deadline) engine_post d.
Proof.
  intros He Hcl. set (P := claimed lease c relay v). unfold accept_and_execute.
  destruct (el_freshness_accepted lease); [by apply execute_claimed_wp|].
  apply (ewp_call P); [done..|]. intros d1 now _ H1 _.
  destruct (negb _); [by apply ewp_ends, (reject_claim_wp P)|].
  apply (ewp_call P); [done..|]. intros d2 now' _ H2 Hnow. apply (ewp_commit P); [done| |].
  - intros d3 [] d4 _ H. right. apply by_ledger. by eapply step_accept.
  - intros d3 [u|e] _ H3; [by apply execute_claimed_wp|].
    by apply ewp_ends, (release_to_application_wp P).
Qed.

Lemma lease_duration_typed r dur :
  duration r -> lease_duration_for_budget r = Some dur -> duration dur.
Proof.
  unfold lease_duration_for_budget. intros [H1 H2] H. destruct (duration_is_zero r); [done|].
  destruct (checked_add_u64 _ _) as [s|] eqn:E1; [|done].
  destruct (checked_add_u64 s 1) as [x|] eqn:E2; [|done]. injection H as <-.
  apply checked_add_u64_Some in E1 as [-> _]. apply checked_add_u64_Some in E2 as [-> Hx].
  assert (0 <= duration_as_secs r) by (apply Z.div_pos; [done|by vm_compute]).
  unfold duration, from_secs, duration_max, NANOS_PER_SEC in *.
  destruct (_ =? 0); lia.
Qed.

Definition ready (c : ActiveConnection) (relay : string) (v : ValidatedNwcEvent) (d : Database) : Prop :=
  running d /\ acting c relay v d.
#[export] Instance ready_stable c relay v : Stable (ready c relay v).
Proof. intros d d' Hm [H1 H2]. split; [by eapply running_steps|by eapply acting_steps]. Qed.

Lemma claim_and_execute_wp `{JL : !Nip47Laws J} c relay v deadline d :
  length (wi_event_id wake) = 32%nat -> duration (od_budget deadline) ->
  ConnectionId_parse (ac_id c) = Ok (ac_id c) -> 0 <= ac_revision c -> ready c relay v d ->
  ewp (claim_and_execute engine c v relay deadline) engine_post d.
Proof.
  intros He Hbud Hid Hrev Hr. set (P := ready c relay v). unfold claim_and_execute.
  apply (ewp_call P); [done..|]. intros d1 time _ H1 [Ht _].
  destruct (lease_duration_for_budget _) as [dur|] eqn:Hdur; [|by apply ewp_end].
  apply lease_duration_typed in Hdur; [|].
  2:{ destruct Hbud. unfold remaining, duration_saturating_sub, duration in *. lia. }
  apply (ewp_call P); [done..|]. intros d2 now _ H2 Hnow.
  apply (ewp_call P); [done..|]. intros d3 token _ H3 Htok.
  rewrite (acting_event c relay v d3 (proj2 H3)).
  apply wp_bind_ledger. intros d4 Hd4. apply (steps_stable P) in Hd4; [|done].
  pose proof Hd4 as [[Hwf _] _].
  destruct (claim_event token _ _ _ now dur d4) as [[o d5]|e] eqn:Hc; [|by apply ewp_end].
  assert (own d4 d5 /\ match o with
    | Acquired lease => el_event_id lease = wi_event_id wake
    | Terminal ev => exists ow, claim_state d5 (wi_event_id wake) = Some (Finished ow ev)
    | InProgress _ => True end) as [Hown Ho].
  { destruct token as [token|].
    - specialize (Htok token eq_refl). pose proof (claim_outcome d4 token _ _ _ now dur o d5
        (lw_events _ Hwf) Hnow Hrev Htok He Hc) as Ho.
      split; [right; apply by_ledger; eapply step_claim; [..|exact Hc]; done|]. destruct o; [done..|].
      by destruct Ho as [-> ?].
    - destruct (claim_without_token _ _ _ _ _ _ _ _ Hc) as (-> & Hno & Hsame). split; [by left|].
      pose proof (claim_outcome d4 (repeat 0 16) _ _ _ now dur o d4
        (lw_events _ Hwf) Hnow Hrev eq_refl He (Hsame _)) as Ho.
      destruct o; [done..|]. by destruct Ho as [_ ?]. }
  split; [done|]. assert (P d5) as H5 by (by eapply (stable d4); [apply own_library_steps|]).
  destruct o as [lease|x|ev].
  - apply accept_and_execute_wp; [done|]. by destruct H5.
  - by apply ewp_end.
  - destruct (te_response_event_json ev) as [json|] eqn:Hj; [|by apply ewp_end].
    apply (republish_committed c relay v). destruct H5, Ho as [ow Ho]. split; [done..|].
    by eapply stored_now.
Qed.

Section Wake.
Context `{JL : !Nip47Laws J}.
Context (Hevent : length (wi_event_id wake) = 32%nat).

Lemma execute_event_wp relay json time deadline d :
  duration (od_budget deadline) -> SecureRelayUrl_parse (wi_relay wake) = Ok relay -> running d ->
  ewp (execute_event engine wake relay json time deadline) engine_post d.
Proof.
  intros Hbud Hrelay Hr. unfold execute_event.
  destruct (candidate_author _ json) as [author|]; [|by apply ewp_end].
  apply (ewp_read running); [done|]. intros d1 _ [Hwf Hrun].
  destruct (load_active_connection_by_keys author _ d1) as [[c|]|] eqn:Hload; [|by apply ewp_end..].
  destruct (is_expired_at c time); [by apply ewp_end|].
  destruct (allows_relay c relay) eqn:Hallow; cbn [negb]; [|by apply ewp_end].
  destruct (validate_request_for_replay _ _ _ _ _ _) as [v|] eqn:Hv; [|by apply ewp_end].
  destruct (loaded_by_keys d1 _ _ c (lw_registry _ Hwf) Hload) as (Hc & _ & Hw & Hid & Hrev).
  apply claim_and_execute_wp; [done..|]. split; [done|]. by exists d1, json.
Qed.

Lemma execute_wp budget d :
  duration budget -> running d -> ewp (execute engine wake budget) engine_post d.
Proof.
  intros Hbud Hr. unfold execute.
  apply (ewp_call running); [done..|]. intros d1 [] _ H1 _; [by apply ewp_end|].
  apply (ewp_call running); [done..|]. intros d2 time _ H2 _.
  destruct (SecureRelayUrl_parse (wi_relay wake)) as [relay|] eqn:Hrelay; [|by apply ewp_end].
  apply (ewp_read running); [done|]. intros d3 _ H3.
  destruct (is_relay_approved_for_wallet _ relay time d3) as [[]|]; [|by apply ewp_end..].
  destruct (wi_embedded_event_json wake) as [json|]; [by apply execute_event_wp|].
  apply (ewp_context running); [done|]. intros d4 [b|] _ H4; [|by apply ewp_end].
  apply (ewp_call running); [done..|]. intros d5 [[json|]|e] _ H5 _;
    [by apply execute_event_wp|by apply ewp_end|]. destruct e; by apply ewp_end.
Qed.

End Wake.

(** What every execution satisfies. *)
Lemma execution `{JL : !Nip47Laws J} budget p d :
  length (wi_event_id wake) = 32%nat -> duration budget -> library_wf d0 ->
  reaches env (execute engine wake budget, d0) (p, d) ->
  ewp p engine_post d /\ rtc library_step d0 d.
Proof.
  intros He Hb Hwf Hr.
  assert (ewp (execute engine wake budget) engine_post d0) as Hw by (by apply execute_wp; [| |split]).
  destruct (wp_adequate env own engine_safe _ p engine_post d0 d Hw Hr) as [H1 H2].
  split; [exact H1|by apply run_steps].
Qed.

Lemma run_library `{JL : !Nip47Laws J} budget p d :
  length (wi_event_id wake) = 32%nat -> duration budget -> library_wf d0 ->
  reaches env (execute engine wake budget, d0) (p, d) -> library_wf d /\ rtc library_step d0 d.
Proof.
  intros He Hb Hwf Hr. destruct (execution budget p d He Hb Hwf Hr) as [_ Hm].
  split; [by eapply library_steps_library|done].
Qed.

(** *** Properties *)

(** The method of NIP-47 a wallet call belongs to. *)
Definition required_method {X} (c : HostCall X) : option NwcMethod :=
  match c with
  | get_info _ => Some GetInfo
  | get_balance _ => Some GetBalance
  | make_invoice _ _ => Some MakeInvoice
  | lookup_invoice _ _ => Some LookupInvoice
  | list_transactions _ _ => Some ListTransactions
  | quote_payment _ _ _ | payment_status _ _ | start_payment _ _ => Some PayInvoice
  | _ => None
  end.

(** C8: Least authority.  Whatever the host answers and whatever other processes
    commit, the engine reaches into the wallet only on behalf of an authentic,
    decrypted request for exactly that method, of a connection that was active
    during the run and whose policy grants it. *)
Theorem least_authority `{JL : !Nip47Laws J} budget X (c : HostCall X) k d m
    (He : length (wi_event_id wake) = 32%nat) (Hb : duration budget) (Hwf : library_wf d0)
    (Hrun : reaches env (execute engine wake budget, d0) (Host c k, d))
    (Hm : required_method c = Some m) :
  exists connection, authorized connection m d.
Proof.
  destruct (execution budget _ d He Hb Hwf Hrun) as [Hw _]. apply wp_Host in Hw.
  destruct c; simplify_eq/=; try exact Hw. destruct Hw as (conn & ? & _). by exists conn.
Qed.


(** C7: A response is published only after it was stored, during the run, as the
    terminal result of the event, and only to a relay the connection allows.
    Whatever is committed afterwards, the ledger keeps exactly this result, which
    a redelivery replays, until a prune removes it, whose cutoff was after its
    completion. *)
Theorem commit_before_publish `{JL : !Nip47Laws J} budget relay json remaining k d
    (He : length (wi_event_id wake) = 32%nat) (Hb : duration budget) (Hwf : library_wf d0)
    (Hrun : reaches env (execute engine wake budget, d0)
              (Host (publish_event relay json remaining) k, d)) :
  (exists d1 o ev, running d1 /\ rtc library_step d1 d
     /\ claim_state d1 (wi_event_id wake) = Some (Finished o ev)
     /\ te_response_event_json ev = Some json
     /\ forall d', rtc library_step d d' ->
          final_until_pruned library_step (wi_event_id wake) o ev d1 d')
  /\ exists c v, acting c relay v d.
Proof.
  destruct (execution budget _ d He Hb Hwf Hrun) as [Hw _]. apply wp_Host in Hw as [Hc Hact].
  split; [|done]. destruct Hc as (d1 & o & ev & Hr & H1 & H2 & H3 & _). exists d1, o, ev.
  split_and!; [done..|]. intros d' Hs. apply library_steps_terminal; [by etrans|apply Hr|done].
Qed.

(** Wherever a wake stops, it and the others have only committed transactions of
    the library: every invariant holds and everything permanent is kept.  A
    wake that reports completion has a response that was stored during the run
    and is kept until it is pruned. *)
Theorem wake_conservative `{JL : !Nip47Laws J} budget p d
    (He : length (wi_event_id wake) = 32%nat) (Hb : duration budget) (Hwf : library_wf d0)
    (Hrun : reaches env (execute engine wake budget, d0) (p, d)) :
  library_wf d /\ rtc library_step d0 d /\ persists d0 d
  /\ forall notification, p = Ret (Completed notification) -> exists json, committed json d.
Proof.
  destruct (execution budget _ d He Hb Hwf Hrun) as [Hw Hm].
  destruct (library_steps_library d0 d Hm Hwf) as [Hwf' Hp]. split_and!; [done..|]. intros n ->. apply (Hw d), rtc_refl.
Qed.

End Runs.

(** ** Several wakes

    Two runs of the engine, by any processes, one of which starts its payment
    at a later state of the ledger. *)

Section TwoRuns.
Context `{L : UrlLib} `{UP : !UrlParts L} `{NK : NostrKeys} `{N : NostrLib} `{J : Nip47Json} `{LL : !UrlLaws L} `{PL : !UrlPartsLaws UP}.
Context `{JL : !Nip47Laws J}.

(** The attempt that stands behind the start of a payment. *)
Definition stands_behind (wake : WakeInput) (request : PayInvoiceRequest) (d : Database)
    (x : PaymentAttemptRow) : Prop :=
  x ∈ payment_attempts d /\ pa_initiated_at x <> None /\ pa_event_id x = wi_event_id wake
  /\ pir_idempotency_key request = pa_event_id x /\ pir_maximum_fee request = pa_fee_reserve_sat x.

(** The others commit any transactions of the library, except that nobody releases
    a reservation of the wake's own event. *)
Definition others (wake : WakeInput) (d d' : Database) : Prop :=
  library_step d d' /\ forall r, r ∈ payment_attempts d -> pa_event_id r = wi_event_id wake -> keeps_attempt r d'.

Lemma started_attempt engine wake budget d0 request remaining k d :
  length (wi_event_id wake) = 32%nat -> duration budget -> library_wf d0 ->
  reaches (others wake) (execute engine wake budget, d0) (Host (start_payment request remaining) k, d) ->
  library_wf d /\ exists x, stands_behind wake request d x.
Proof.
  intros He Hb Hwf Hrun. assert (forall a b, others wake a b -> library_step a b) as Hl by (by intros a b []).
  destruct (execution (others wake) Hl engine wake d0 budget _ d He Hb Hwf Hrun) as [Hw Hm].
  apply wp_Host in Hw as (c & _ & Hkey & d1 & r & r' & (_ & _ & _ & Hev & Hfee & _) & _ & Hr' & Hi & Ht).
  split; [by eapply library_steps_library|]. exists r'.
  destruct (find_key_Some _ _ _ _ Hr') as [Hin _].
  assert (pa_terms r' = pa_terms r) as Hterms by (apply Ht; intros a b x [_ Hab]; apply Hab).
  unfold pa_terms, pa_key in Hterms. injection Hterms as E1 E2 E3 E4 E5 E6.
  split_and!; [done|done|congruence..].
Qed.

End TwoRuns.

(** ** A run of the model

    The connection of the imported database asks to pay; the wallet quotes 500
    satoshis and settles the payment. *)

Definition sample_json : Nip47Json := {|
  request_from_json := fun _ => Some (mkRequest Method_PayInvoice
    (Params_PayInvoice (mkNip47PayInvoice "lnbc1" None)));
  response_as_json := fun _ => "{}"%string |}.

Lemma sample_json_laws : Nip47Laws sample_json.
Proof. split. by intros s r [= <-]. Qed.

Definition sample_wake : WakeInput := mkWakeInput "wss://a" sample_event (repeat 2 32) (Some "event"%string) 250.
Definition sample_engine : EngineConfig := mkEngineConfig sample_wake_policy true.

Definition paying_host (X : Type) (c : HostCall X) : X :=
  match c in HostCall X return X with
  | clock_now => 250
  | is_cancelled => false
  | elapsed => 0
  | quote_payment _ _ _ => Ok (mkPaymentQuote sample_hash 500000)
  | payment_status _ _ => Ok Status_Unknown
  | start_payment _ _ => Ok (Status_Succeeded (repeat 7 32) 500000 3000)
  | load_nwc_secret _ _ => Ok (repeat 8 32)
  | publish_event _ _ _ => Ok tt
  | get_info _ | get_balance _ | make_invoice _ _ | lookup_invoice _ _ | list_transactions _ _
  | fetch_event _ _ _ _ | apply_registration _ _ _ => Err Unavailable
  | record_diagnostic _ => tt
  | random_bytes n => Some (repeat 4 n)
  | cipher_entropy => []
  | generate_keys => (repeat 4 32, repeat 5 32)
  | load_client_secret _ => Ok (Some "secret"%string)
  | store_client_secret _ _ | delete_client_secret _ => Ok tt
  | http_post _ _ _ => Ok 200
  | instant_now => 0
  | sleep _ => tt
  | open_node _ _ => Ok (mkWalletInfo None [] [])
  | complete_wake _ _ => Ok tt
  end.

Lemma paying_host_typed X (c : HostCall X) : answer_typed c (paying_host X c).
Proof.
  assert (u64 250 /\ u64 500000 /\ u64 3000 /\ duration 0) as (H1 & H2 & H3 & H4)
    by (by repeat split).
  destruct c; simpl; try exact I; try exact H1; try exact H4; try (by intros).
  - intros q [= <-]. by split.
  - by intros s [= <-].
  - intros s [= <-]. by split_and!.
  - by intros s [= <-].
  - intros b [= <-]. apply repeat_length.
  - by intros i [= <-].
Qed.

Definition sample_execute : Prog WakeDisposition :=
  @execute sample_urls sample_keys sample_nostr sample_json sample_engine sample_wake (from_secs 20).

Lemma imported_library_wf : @library_wf sample_urls sample_parts sample_keys imported_database.
Proof.
  eapply (@library_step_library sample_urls sample_parts sample_keys
    sample_url_laws sample_parts_laws empty_database).
  - apply by_registry, imported_step.
  - apply empty_library_wf.
Qed.

(** The wake after [n] calls. *)
Definition sample_after (n : nat) : Prog WakeDisposition * Database :=
  advance paying_host n sample_execute imported_database.

Lemma sample_reaches n env p d :
  sample_after n = (p, d) -> reaches env (sample_execute, imported_database) (p, d).
Proof. intros <-. apply (advance_reaches env paying_host paying_host_typed). Qed.

Definition calls {R} (f : forall X, HostCall X -> bool) (p : Prog R) : bool :=
  match p with Host c _ => f _ c | _ => false end.
Definition is_start X (c : HostCall X) : bool :=
  match c with start_payment _ _ => true | _ => false end.
Definition is_publish X (c : HostCall X) : bool :=
  match c with publish_event _ _ _ => true | _ => false end.

Lemma sample_typed : length (wi_event_id sample_wake) = 32%nat /\ duration (from_secs 20).
Proof. by split. Qed.


Lemma least_authority_witness :
  exists k d request remaining connection,
    sample_after 31 = (Host (start_payment request remaining) k, d)
    /\ @authorized sample_urls sample_parts sample_keys sample_nostr sample_json sample_engine sample_wake
         imported_database connection PayInvoice d.
Proof.
  assert (calls is_start (sample_after 31).1 = true) as Hp by (clear; by vm_compute).
  destruct (sample_after 31) as [p d] eqn:E. apply (sample_reaches 31 (@library_step sample_urls sample_parts sample_keys)) in E as Hr.
  destruct p as [r|X c k|EE A t k]; [discriminate Hp| |discriminate Hp].
  destruct c; try discriminate Hp.
  destruct (@least_authority sample_urls sample_parts sample_keys sample_nostr sample_json
    sample_url_laws sample_parts_laws _ (fun _ _ H => H) sample_engine sample_wake
    imported_database sample_json_laws (from_secs 20) _ _ _ _ PayInvoice (proj1 sample_typed)
    (proj2 sample_typed) imported_library_wf Hr eq_refl) as (connection & Ha).
  exists k, d, request, context, connection. exact (conj eq_refl Ha).
Defined.

Lemma commit_before_publish_witness :
  exists relay json remaining k d,
    sample_after 47 = (Host (publish_event relay json remaining) k, d)
    /\ exists d1 o ev, claim_state d1 sample_event = Some (Finished o ev) /\ te_response_event_json ev = Some json
      /\ final_until_pruned (@library_step sample_urls sample_parts sample_keys) sample_event o ev d1 d.
Proof.
  assert (calls is_publish (sample_after 47).1 = true) as Hp by (clear; by vm_compute).
  destruct (sample_after 47) as [p d] eqn:E. apply (sample_reaches 47 (@library_step sample_urls sample_parts sample_keys)) in E as Hr.
  destruct p as [r|X c k|EE A t k]; [discriminate Hp| |discriminate Hp].
  destruct c; try discriminate Hp.
  destruct (@commit_before_publish sample_urls sample_parts sample_keys sample_nostr sample_json
    sample_url_laws sample_parts_laws _ (fun _ _ H => H) sample_engine sample_wake
    imported_database sample_json_laws (from_secs 20) _ _ _ _ _ (proj1 sample_typed)
    (proj2 sample_typed) imported_library_wf Hr) as ((d1 & o & ev & _ & _ & Hst & Hj & Hkeep) & _).
  exists relay, event_json, context, k, d. split; [exact eq_refl|]. exists d1, o, ev.
  exact (conj Hst (conj Hj (Hkeep d (rtc_refl _ _)))).
Defined.

Lemma wake_conservative_witness :
  (sample_after 48).1 = Ret (Completed (Hint_Request PayInvoice))
  /\ @library_wf sample_urls sample_parts sample_keys (sample_after 48).2
  /\ exists json, @committed sample_urls sample_parts sample_keys sample_wake imported_database json (sample_after 48).2.
Proof.
  assert ((sample_after 48).1 = Ret (Completed (Hint_Request PayInvoice))) as Hp by (clear; by vm_compute).
  assert (reaches (@library_step sample_urls sample_parts sample_keys) (sample_execute, imported_database)
    ((sample_after 48).1, (sample_after 48).2)) as Hr.
  { apply (sample_reaches 48). apply surjective_pairing. }
  destruct (@wake_conservative sample_urls sample_parts sample_keys sample_nostr sample_json
    sample_url_laws sample_parts_laws _ (fun _ _ H => H) sample_engine sample_wake
    imported_database sample_json_laws (from_secs 20) _ _ (proj1 sample_typed)
    (proj2 sample_typed) imported_library_wf Hr) as (H1 & _ & _ & H2).
  split_and!; [exact Hp|exact H1|]. exact (H2 _ Hp).
Defined.

(** The process dies when it has asked the wallet to pay; the redelivered wake, after
    the lease has expired, asks again. *)
Definition later_host (X : Type) (c : HostCall X) : X :=
  match c in HostCall X return X -> X with
  | clock_now => fun _ => 300
  | _ => fun x => x
  end (paying_host X c).

Lemma later_host_typed X (c : HostCall X) : answer_typed c (later_host X c).
Proof. destruct c; try exact (paying_host_typed _ _). by split. Qed.

Definition redelivered_after (n : nat) : Prog WakeDisposition * Database :=
  advance later_host n sample_execute (sample_after 31).2.

Lemma redelivered_reaches env n :
  reaches env (sample_execute, (sample_after 31).2) ((redelivered_after n).1, (redelivered_after n).2).
Proof.
  rewrite <- surjective_pairing. unfold redelivered_after.
  exact (advance_reaches env later_host later_host_typed n sample_execute _).
Qed.

Lemma interrupted_library_wf : @library_wf sample_urls sample_parts sample_keys (sample_after 31).2.
Proof.
  pose proof (sample_reaches 31 (@library_step sample_urls sample_parts sample_keys) _ _ (surjective_pairing _)) as Hr.
  by destruct (@run_library sample_urls sample_parts sample_keys sample_nostr sample_json
    sample_url_laws sample_parts_laws _ (fun _ _ H => H) sample_engine sample_wake
    imported_database sample_json_laws (from_secs 20) _ _ (proj1 sample_typed) (proj2 sample_typed)
    imported_library_wf Hr) as [H _].
Qed.


(** What the hypothesis on the others excludes.  The marker of the initiation names
    its attempt by the payment hash alone: when, between the load of the attempt
    and its marker, somebody releases the reservation and another event reserves
    the same payment, the engine initiates the attempt of that other event and
    starts the payment under its own idempotency key. *)
Definition other_event : EventId := repeat 5 32.
Definition released_database : Database :=
  match release_uninitiated_payment sample_hash 250 (sample_after 28).2 with
  | Ok (_, d) => d | Err _ => empty_database end.
Definition replaced_database : Database :=
  match reserve_payment other_event sample_hash sample_active 500 250 released_database with
  | Ok (_, d) => d | Err _ => empty_database end.
Definition replaced_after (n : nat) : Prog WakeDisposition * Database :=
  advance paying_host n (sample_after 28).1 replaced_database.

Lemma replacing_steps : rtc (@library_step sample_urls sample_parts sample_keys) (sample_after 28).2 replaced_database.
Proof.
  apply (rtc_l _ _ released_database).
  - apply by_accounting, (step_release sample_hash 250); [split; by vm_compute|by vm_compute].
  - apply rtc_once, by_accounting.
    eapply (step_reserve other_event sample_hash sample_active 500 250 (Outcome_Reserved _));
      first [by vm_compute|split; by vm_compute].
Qed.

Lemma replaced_reservation :
  exists request remaining k d r,
    reaches (@library_step sample_urls sample_parts sample_keys) (sample_execute, imported_database)
      (Host (start_payment request remaining) k, d)
    /\ payment_attempts d = [r] /\ pa_initiated_at r <> None
    /\ pir_idempotency_key request = sample_event /\ pa_event_id r = other_event.
Proof.
  assert (reaches (@library_step sample_urls sample_parts sample_keys) (sample_execute, imported_database)
    (replaced_after 3)) as Hr.
  { unfold reaches. etrans; [apply (sample_reaches 28); apply surjective_pairing|].
    etrans; [|apply (advance_reaches _ paying_host paying_host_typed)].
    generalize (sample_after 28).1, replacing_steps. intros p Hs. clear -Hs.
    induction Hs as [d|d d1 d2 Hs _ IH]; [apply rtc_refl|]. eapply rtc_l; [|exact IH]. by left. }
  assert (match replaced_after 3 with
          | (Host (start_payment request _) _, d) =>
              match payment_attempts d with
              | [r] => is_some (pa_initiated_at r) && bool_decide (pa_event_id r = other_event)
                       && bool_decide (pir_idempotency_key request = sample_event)
              | _ => false
              end
          | _ => false
          end = true) as H by (clear; by vm_compute).
  destruct (replaced_after 3) as [p d]. destruct p as [r|X c k|EE A t k]; [done| |done].
  destruct c; try discriminate H. destruct (payment_attempts d) as [|r [|]] eqn:E; [done| |done].
  exists request, context, k, d, r. apply andb_true_iff in H as [[H1 H2]%andb_true_iff H3].
  apply bool_decide_eq_true_1 in H2, H3. split_and!; [done|done| |done|done]. by destruct (pa_initiated_at r).
Qed.
