(* ===== verification/MobileNodeProofs.v ===== *)
(** * Properties of the mobile node

    The loop that waits for a settlement ends and keeps to the time of its budget,
    on any clock that does not run backwards; and a whole wake of the operating system, composed of the engine,
    the notification worker and the completion handler, keeps to what its parts
    promise. *)
From S2P Require Import Prelude Sqlite Types Policy Outcome Host Nwa Schema Ledger Registry NostrValidation Invoices Accounting Requests Program Runtime InvoiceWorker Library Outbox RegistrationWorker NotificationProofs Engine EngineProofs MobileNode.
#[local] Open Scope Z_scope.

(** ** Waiting for a settlement

    What the worker did with the clock: the latest instant, whether the clock
    never ran backwards, and, the latest first, the instants it read and the
    sleeps it asked for, each with the instant it began at. *)

Record Timeline := mkTimeline {
  tl_now : Z;
  tl_forward : bool;
  tl_read : list Z;
  tl_slept : list (Z * Duration);
}.
Definition clock_note (X : Type) (c : HostCall X) : X -> Timeline -> Timeline :=
  match c in HostCall X return X -> Timeline -> Timeline with
  | instant_now => fun now g =>
      mkTimeline now (tl_forward g && (tl_now g <=? now)) (now :: tl_read g) (tl_slept g)
  | sleep interval => fun _ g =>
      mkTimeline (tl_now g + Z.max interval 0) (tl_forward g) (tl_read g) ((tl_now g, interval) :: tl_slept g)
  | _ => fun _ g => g
  end.
Definition started (now : Z) : Timeline := mkTimeline now true [] [].

(** From the first instant the worker read, the budget gives its deadline: every
    instant before the last one it read was before it; every sleep was of one
    interval and over before it; the sleeps fit into the budget, and after the
    first instant the clock is read twice for each pass at most, so there is at
    most one pass more than sleeps; and the last thing that took time was not a
    sleep. *)
Record kept_time (interval budget : Duration) (g : Timeline) : Prop := {
  kt_reads : exists first later, tl_read g = later ++ [first]
    /\ Forall (fun t => t < first + budget) (tail later)
    /\ (length later <= 2 * length (tl_slept g) + 2)%nat
    /\ Forall (fun s => s.2 = interval /\ first <= s.1 /\ s.1 + interval < first + budget) (tl_slept g);
  kt_slept : interval * Z.of_nat (length (tl_slept g)) <= budget;
  kt_last : head (tl_read g) = Some (tl_now g);
}.

(** The worker is about to begin a pass. *)
Record waiting_at (interval budget first : Z) (g : Timeline) : Prop := {
  wa_reads : exists later, tl_read g = later ++ [first] /\ Forall (fun t => t < first + budget) later
    /\ (length later <= 2 * length (tl_slept g))%nat;
  wa_slept : Forall (fun s => s.2 = interval /\ first <= s.1 /\ s.1 + interval < first + budget) (tl_slept g);
  wa_spent : interval * Z.of_nat (length (tl_slept g)) <= tl_now g - first;
  wa_now : tl_now g = first \/ tl_now g < first + budget;
}.

Abbreviation ends := (ends_in clock_note id).

Lemma ends_forward {R} (p : Prog R) : forall g, ends (fun g' _ => tl_forward g' = true -> tl_forward g = true) g p.
Proof.
  induction p as [r|X c k IH|E A t k IH]; intros g; simpl; [done| |].
  - intros x. eapply ends_in_mono; [|apply IH]. intros g' r H H'. specialize (H H').
    destruct c; try exact H. by apply andb_true_iff in H as [? _].
  - intros r. apply IH.
Qed.

Definition untimed (X : Type) (c : HostCall X) : Prop :=
  match c with instant_now | sleep _ => False | _ => True end.
Abbreviation untimed_only := (only untimed (fun _ _ => True) (fun _ => True)).

Lemma untimed_bind {R S} (p : Prog R) (f : R -> Prog S) :
  untimed_only p -> (forall r, untimed_only (f r)) -> untimed_only (bind p f).
Proof. intros Hp Hf. apply only_bind. by eapply only_mono; [|exact Hp]. Qed.

Lemma untimed_ledger {E A} (t : Tx E A) : untimed_only (ledger t).
Proof. split; [by right|done]. Qed.

(** The clock of a pass is that of the deadline, not the node's. *)
Ltac untimed_step :=
  first
    [ exact I
    | apply only_call; [exact I|done]
    | apply untimed_ledger
    | apply untimed_bind; [|intros ?]
    | match goal with |- only _ _ _ (match ?x with _ => _ end) => destruct x end
    | progress (unfold ledger_or, load_owner, context) ].

Section Waiting.
Context `{L : UrlLib} `{UP : !UrlParts L} `{NK : NostrKeys} `{N : NostrLib} `{NJ : NotificationJson} `{SH : Sha256} `{LL : !UrlLaws L} `{PL : !UrlPartsLaws UP}.

Lemma publish_sent_untimed deadline e json relays : forall failed, untimed_only (publish_sent deadline e json relays failed).
Proof. induction relays as [|relay rest IH]; intros failed; [done|]. cbn [publish_sent]. repeat first [apply IH|untimed_step]. Qed.

Lemma publish_invoice_untimed deadline e json relays : forall failed, untimed_only (publish_invoice deadline e json relays failed).
Proof. induction relays as [|relay rest IH]; intros failed; [done|]. cbn [publish_invoice]. repeat first [apply IH|untimed_step]. Qed.

Lemma sent_event_untimed deadline connection payment : untimed_only (sent_event deadline connection payment).
Proof. unfold sent_event. repeat untimed_step. Qed.

Lemma process_payments_untimed deadline payments : forall report, untimed_only (process_payments deadline payments report).
Proof.
  induction payments as [|payment rest IH]; intros report; [done|]. cbn [process_payments].
  repeat first [apply IH|apply sent_event_untimed|apply publish_sent_untimed|untimed_step].
Qed.

Lemma process_invoices_untimed deadline invoices : forall report, untimed_only (process_invoices deadline invoices report).
Proof.
  induction invoices as [|invoice rest IH]; intros report; [done|]. cbn [process_invoices].
  unfold process_invoice, invoice_event, defer_or_expire_invoice.
  repeat first [apply IH|apply publish_invoice_untimed|untimed_step].
Qed.

Lemma notify_run_untimed budget : untimed_only (notify_run budget).
Proof.
  unfold notify_run, run_scoped.
  repeat first [apply process_payments_untimed|apply process_invoices_untimed|untimed_step].
Qed.

(** A pass leaves the timeline alone. *)
Lemma notify_run_ends budget Q g : (forall r, Q g r) -> ends Q g (notify_run budget).
Proof.
  intros HQ. eapply ends_in_mono; [|eapply (only_keeps clock_note id untimed); [| |apply notify_run_untimed]; [|done]].
  - intros g' r [-> _]. apply HQ.
  - intros X c x g'. by destruct c.
Qed.

Definition in_time {A} (interval budget : Z) (g : Timeline) (r : option A) : Prop :=
  tl_forward g = true -> r <> None /\ kept_time interval budget g.

Lemma ends_backwards {A} interval budget (p : Prog (option A)) g :
  tl_forward g = false -> ends (in_time interval budget) g p.
Proof.
  intros Hg. eapply ends_in_mono; [|apply (ends_forward p g)]. intros g' r H Hg'. specialize (H Hg'). congruence.
Qed.

(** The worker stops after the first look at the clock of a round, or the second. *)
Lemma read_once {A} interval budget first g now (a : A) : 0 <= interval -> 0 <= budget ->
  waiting_at interval budget first g -> tl_now g <= now ->
  in_time interval budget (mkTimeline now (tl_forward g && (tl_now g <=? now)) (now :: tl_read g) (tl_slept g)) (Some a).
Proof.
  intros Hi Hb [(later & Hr & Hl & Hn) Hs Hsp Hnow] Hle _. split; [done|]. split; cbn; [|destruct Hnow; lia|done].
  exists first, (now :: later). rewrite Hr. split_and!; [done|done|cbn; lia|done].
Qed.

Lemma read_twice {A} interval budget first g now1 now2 forward (a : A) : 0 <= interval -> 0 <= budget ->
  waiting_at interval budget first g -> tl_now g <= now1 -> now1 < first + budget ->
  in_time interval budget (mkTimeline now2 forward (now2 :: now1 :: tl_read g) (tl_slept g)) (Some a).
Proof.
  intros Hi Hb [(later & Hr & Hl & Hn) Hs Hsp Hnow] Hle Hlt _. split; [done|]. split; cbn; [|destruct Hnow; lia|done].
  exists first, (now2 :: now1 :: later). rewrite Hr. split_and!; [done|by constructor|cbn; lia|done].
Qed.

Lemma budget_left deadline now b : OperationBudget_new (duration_saturating_sub deadline now) = Ok b -> now < deadline.
Proof.
  unfold OperationBudget_new, duration_is_zero, duration_saturating_sub.
  destruct (Z.eqb_spec (Z.max (deadline - now) 0) 0); [done|]. intros _. lia.
Qed.

Lemma notification_loop_in_time event linger interval budget first fuel : forall aggregate g,
  0 <= interval -> 0 <= budget -> (0 < fuel)%nat -> waiting_at interval budget first g ->
  interval = 0 \/ first + budget - tl_now g < interval * Z.of_nat fuel ->
  ends (in_time interval budget) g (notification_loop fuel event linger interval (first + budget) aggregate).
Proof.
  induction fuel as [|fuel IH]; intros aggregate g Hi Hb Hf Hw Hfuel; [lia|]. cbn [notification_loop].
  unfold call at 1. cbn [bind ends_in clock_note]. intros now1.
  destruct (Z.leb_spec (tl_now g) now1) as [Hle1|]; [|apply ends_backwards, andb_false_r].
  pose proof (read_once (A:=Result InvoiceNotificationError InvoiceNotificationWorkerReport) interval budget first g now1) as Hone.
  rewrite (proj2 (Z.leb_le _ _) Hle1) in Hone.
  destruct (OperationBudget_new _) as [b|] eqn:Hb1; [|by apply Hone]. apply budget_left in Hb1.
  apply ends_in_bind, notify_run_ends. intros [report|e]; [|by apply Hone].
  unfold ledger. cbn [bind ends_in]. intros [monitor|e]; [|by apply Hone].
  destruct (negb linger || negb _); [by apply Hone|].
  unfold call. cbn [bind ends_in clock_note]. intros [|]; [by apply Hone|]. intros now2.
  unfold id. cbn [tl_now tl_forward tl_read tl_slept clock_note].
  destruct (Z.leb_spec now1 now2) as [Hle2|]; [|apply ends_backwards; cbn [tl_forward]; apply andb_false_r].
  pose proof (fun f a => read_twice (A:=Result InvoiceNotificationError InvoiceNotificationWorkerReport) interval budget first g now1 now2 f a Hi Hb Hw Hle1 Hb1) as Htwo.
  destruct (duration_is_zero interval) eqn:Hz; cbn [orb]; [by apply Htwo|].
  destruct (Z.leb_spec (duration_saturating_sub (first + budget) now2) interval) as [|Hrem]; [by apply Htwo|].
  cbn [bind ends_in clock_note]. intros _. unfold duration_is_zero in Hz. apply Z.eqb_neq in Hz.
  unfold duration_saturating_sub in Hrem. destruct Hw as [(later & Hr & Hl & Hn) Hs Hsp Hnow].
  assert (first <= tl_now g) by (destruct (tl_slept g); cbn in *; nia).
  destruct fuel as [|fuel]; [exfalso; lia|].
  apply IH; [done|done|lia| |right; cbn; lia]. split; cbn.
  - exists (now2 :: now1 :: later). rewrite Hr. split_and!; [done|constructor; [lia|by constructor]|cbn; lia].
  - constructor; [cbn; lia|done].
  - lia.
  - right. lia.
Qed.

End Waiting.

(** ** Errors of payments *)

(** An error of the adapter certifies that a payment was not submitted only when
    the node itself said so; a cancellation or a deadline never does. *)
Theorem node_payment_certificate node cancelled race request e :
  runtime_start_payment node cancelled race request = Err e -> confirms_payment_was_not_submitted e = true ->
  cancelled = false /\ race = Operation_first false /\ ln_pay_invoice node request = Err e.
Proof.
  unfold runtime_start_payment, run_with_context.
  destruct cancelled; [by intros [= <-]|]. destruct race as [|[|]|[|]]; by intros [= <-].
Qed.

(** ** A wake of the operating system *)

Section Wake.
Context `{L : UrlLib} `{UP : !UrlParts L} `{NK : NostrKeys} `{N : NostrLib} `{J : Nip47Json} `{NJ : NotificationJson} `{SH : Sha256} `{LL : !UrlLaws L} `{PL : !UrlPartsLaws UP}.
Context (env : Database -> Database -> Prop) (Henv : forall d d', env d d' -> library_step d d').
Context (m : NwcMobileConfig) (input : WakeInput) (kind : NwcMobileWakeKind) (d0 : Database).

Abbreviation live := (EngineProofs.running d0).

(** During the run the ledger had a monitor of this event's invoice. *)
Definition monitored (p : InvoiceSettlementMonitor -> Prop) (d : Database) : Prop :=
  exists d1 monitor, live d1 /\ rtc library_step d1 d /\ nwc_invoice_monitor (wi_event_id input) d1 = Ok (Some monitor)
    /\ p monitor.

(** The invoice was created for the wallet and a relay the wake names. *)
Definition names_invoice (monitor : InvoiceSettlementMonitor) : Prop :=
  im_wallet_service_pubkey monitor = wi_wallet_service_pubkey input /\ wi_relay input ∈ im_relays monitor.

(** What a wake commits: the wake of a settlement only outbox transactions. *)
Definition wake_step (d d' : Database) : Prop :=
  match kind with Wake_Request => library_step d d' | Wake_InvoiceSettlement => outbox_step d d' end.
Definition own (d d' : Database) : Prop := d' = d \/ wake_step d d'.

(** What the notification worker of a wake works on. *)
Definition wake_scope : PassScope :=
  match kind with Wake_Request => Scope_all | Wake_InvoiceSettlement => Scope_invoice (wi_event_id input) end.

(** What a wake may ask of the application. *)
Definition mobile_safe (X : Type) (c : HostCall X) (d : Database) : Prop :=
  match c with
  | get_info _ | get_balance _ | make_invoice _ _ | list_transactions _ _ | quote_payment _ _ _
  | payment_status _ _ | start_payment _ _ => kind = Wake_Request /\ engine_safe env (nm_engine m) input d0 X c d
  | publish_event _ _ _ | load_nwc_secret _ _ | lookup_invoice _ _ =>
      (kind = Wake_Request /\ engine_safe env (nm_engine m) input d0 X c d) \/ notify_safe d0 wake_scope X c d
  | fetch_event _ _ _ _ | random_bytes _ | record_diagnostic _ => kind = Wake_Request
  | open_node wallet _ => wallet = wi_wallet_service_pubkey input
      /\ (kind = Wake_InvoiceSettlement -> monitored names_invoice d)
  | complete_wake event _ => event = wi_event_id input /\ nm_has_completion_handler m = true
      /\ monitored (fun _ => True) d
  | clock_now | is_cancelled | elapsed | instant_now | sleep _ | cipher_entropy => True
  | _ => False
  end.

Definition mwp {R} (p : Prog R) (Q : R -> Database -> Prop) (d : Database) : Prop := wp env own mobile_safe p Q d.

(** *** Rules *)

Lemma wake_step_library d d' : wake_step d d' -> library_step d d'.
Proof. unfold wake_step. destruct kind; [done|by apply by_outbox]. Qed.

Lemma wake_moves d d' : rtc (fun a b => env a b \/ own a b) d d' ->
  rtc (fun a b => env a b \/ wake_step a b) d d'.
Proof.
  induction 1 as [d|d d1 d' [Hs|[->|Hs]] _ IH]; [apply rtc_refl| |done|];
    (eapply rtc_l; [|exact IH]); [by left|by right].
Qed.

Lemma wake_steps d d' : rtc (fun a b => env a b \/ own a b) d d' -> rtc library_step d d'.
Proof.
  intros H%wake_moves. eapply (rtc_congruence (fun d => d)); [|exact H].
  intros a b [?|?]; [by apply Henv|by apply wake_step_library].
Qed.

Lemma mwp_live {R} (p : Prog R) Q d :
  mwp p Q d -> live d -> mwp p (fun r d' => Q r d' /\ live d' /\ rtc library_step d d') d.
Proof.
  intros Hw Hd. eapply (wp_mono env own mobile_safe); [apply wp_later, Hw|].
  intros r d' [HQ Hm%wake_steps]. split_and!; [done|by eapply running_steps|done].
Qed.

Lemma mwp_bind {R S} (p : Prog R) (f : R -> Prog S) Q Q' d :
  live d -> mwp p Q' d -> (forall r d', Q' r d' -> live d' -> rtc library_step d d' -> mwp (f r) Q d') -> mwp (bind p f) Q d.
Proof.
  intros Hd Hp Hf. apply wp_bind. eapply (wp_mono env own mobile_safe); [by apply mwp_live|].
  intros r d' (HQ & Hl & Hm). by apply Hf.
Qed.

Lemma mwp_call {X S} (c : HostCall X) (k : X -> Prog S) Q d :
  live d -> (forall d', live d' -> rtc library_step d d' -> mobile_safe X c d') ->
  (forall x d', answer_typed c x -> live d' -> rtc library_step d d' -> mwp (k x) Q d') -> mwp (bind (call c) k) Q d.
Proof.
  intros Hd Hs Hk. apply wp_bind_call. intros d' Ho%(env_steps env Henv).
  assert (live d') by (by eapply running_steps). split; [by apply Hs|]. intros x Hx. by apply Hk.
Qed.

Lemma mwp_read {E A S} (f : Database -> Result E A) (k : Result E A -> Prog S) Q d :
  live d -> (forall d', live d' -> rtc library_step d d' -> mwp (k (f d')) Q d') -> mwp (bind (ledger (read f)) k) Q d.
Proof.
  intros Hd Hk. apply wp_bind_read; [by left|]. intros d' Ho%(env_steps env Henv).
  apply Hk; [by eapply running_steps|done].
Qed.

Lemma mwp_ret {R} (r : R) Q d : live d -> (forall d', live d' -> rtc library_step d d' -> Q r d') -> mwp (Ret r) Q d.
Proof. intros Hd HQ d' Ho%(env_steps env Henv). apply HQ; [by eapply running_steps|done]. Qed.

Lemma live_since d : live d -> NotificationProofs.since d0 d.
Proof. done. Qed.

(** *** The parts *)

Lemma notification_mwp {R} (p : Prog R) d : nwp d0 wake_scope p anything d -> mwp p anything d.
Proof.
  apply wp_weaken.
  - exact Henv.
  - intros a b [->|H]; [by left|right]. unfold wake_step. destruct kind; [by apply by_outbox|done].
  - intros X c d' H. destruct c; cbn in *; try done; by right.
Qed.

Lemma engine_mwp {R} (p : Prog R) Q d : kind = Wake_Request -> ewp env (nm_engine m) input d0 p Q d -> mwp p Q d.
Proof.
  intros Hk. apply wp_weaken; [done|unfold own, EngineProofs.own, wake_step; by rewrite Hk|]. intros X c d' H. destruct c; cbn in *; try done; by left.
Qed.

Lemma notification_loop_mwp event linger interval deadline fuel : kind = Wake_Request ->
  forall aggregate d, live d ->
  mwp (notification_loop fuel event linger interval deadline aggregate) anything d.
Proof.
  intros Hk. induction fuel as [|fuel IH]; intros aggregate d Hd; [done|]. cbn [notification_loop].
  apply mwp_call; [done..|]. intros now d1 _ H1 _. destruct (OperationBudget_new _) as [b|]; [|done].
  eapply mwp_bind; [done|by apply notification_mwp, run_scoped_nwp, live_since; [unfold wake_scope; by rewrite Hk|]|].
  intros [report|e] d2 _ H2 _; [|done]. apply mwp_read; [done|]. intros d3 H3 _.
  destruct (nwc_invoice_monitor event d3) as [monitor|e]; [|done]. destruct (negb linger || negb _); [done|].
  apply mwp_call; [done..|]. intros [|] d4 _ H4 _; [done|]. apply mwp_call; [done..|]. intros now2 d5 _ H5 _.
  destruct (duration_is_zero interval || _); [done|]. apply mwp_call; [done..|]. intros _ d6 _ H6 _. by apply IH.
Qed.

Lemma duration_sub a b : duration a -> 0 <= b -> duration (duration_saturating_sub a b).
Proof. unfold duration, duration_saturating_sub. lia. Qed.

Context `{JL : !Nip47Laws J} (Hevent : length (wi_event_id input) = 32%nat).

Lemma node_handle_wake_mwp interval budget d : kind = Wake_Request -> duration budget -> live d ->
  mwp (node_handle_wake (nm_engine m) interval input budget) (engine_post input d0) d.
Proof.
  intros Hk Hb Hd. unfold node_handle_wake.
  eapply mwp_bind; [done|apply engine_mwp; [done|by apply execute_wp]|]. intros disposition d1 Hpost H1 _.
  assert (forall d', rtc library_step d1 d' -> engine_post input d0 disposition d') as Hlast.
  { intros d' Hm. destruct disposition; [|done..]. destruct Hpost as [json Hj]. exists json.
    eapply committed_steps; [exact Hm|exact Hj]. }
  apply mwp_call; [done..|]. intros spent d2 _ H2 Hm2.
  destruct (OperationBudget_new _) as [b|]; [|apply mwp_ret; [done|]; intros d' _ Hm'; apply Hlast; by etrans].
  eapply mwp_bind with (Q' := anything); [done| |].
  { unfold run_notification_worker. apply mwp_call; [done..|]. intros now d3 _ H3 _. by apply notification_loop_mwp. }
  intros _ d3 _ H3 Hm3. apply mwp_ret; [done|]. intros d' _ Hm'. apply Hlast. etrans; [done|]. by etrans.
Qed.

(** What the result of a wake says of the ledger. *)
Definition mobile_post (r : NwcMobileWakeResult) (d : Database) : Prop :=
  (wr_settlement_status r = Settlement_Delivered -> monitored (fun monitor => im_completed monitor = true) d)
  /\ (kind = Wake_Request -> engine_post input d0 (wr_disposition r) d)
  /\ (kind = Wake_InvoiceSettlement -> wr_disposition r = Completed Hint_Completed ->
      wr_settlement_status r = Settlement_Delivered).

Lemma monitored_moves p d d' : rtc library_step d d' -> monitored p d -> monitored p d'.
Proof. intros Hm (d1 & monitor & H1 & H2 & H). exists d1, monitor. split_and!; try apply H; [done|by etrans]. Qed.

(** The status is what the ledger said at [d]. *)
Definition reported (monitor : option InvoiceSettlementMonitor) (d : Database) : Prop :=
  match monitor with Some monitor => monitored (fun monitor' => monitor' = monitor) d | None => True end.

Lemma reported_delivered monitor d : reported monitor d -> settlement_status monitor = Settlement_Delivered ->
  monitored (fun monitor => im_completed monitor = true) d.
Proof.
  destruct monitor as [monitor|]; [|done]. cbn. intros (d1 & x & H1 & H2 & H3 & ->) H. exists d1, monitor.
  split_and!; [done..|]. by destruct (im_completed monitor).
Qed.

Lemma reported_now d : live d -> forall monitor, nwc_invoice_monitor (wi_event_id input) d = Ok monitor -> reported monitor d.
Proof. intros Hd [monitor|] H; [|done]. exists d, monitor. split_and!; [done|apply rtc_refl|done|done]. Qed.

Lemma reported_moves monitor d d' : rtc library_step d d' -> reported monitor d -> reported monitor d'.
Proof. destruct monitor; [|done]. apply monitored_moves. Qed.

Lemma queued_post reason monitor d : reported monitor d -> mobile_post (queued_result reason monitor) d.
Proof. intros H. split; [|by split]. by apply reported_delivered. Qed.

Lemma mwp_queued reason monitor d : live d -> reported monitor d ->
  mwp (Ret (mkWakeResult (disposition_queued reason) (settlement_status monitor))) mobile_post d.
Proof. intros Hd H. apply mwp_ret; [done|]. intros d' _ Hm. by eapply queued_post, reported_moves. Qed.

Lemma engine_budget_mwp total d : live d -> duration total ->
  0 <= nm_completion_reserve m ->
  mwp (engine_budget m total) (fun b _ => forall budget, b = Some budget -> duration budget) d.
Proof.
  intros Hd Ht Hr. unfold engine_budget. apply mwp_call; [done..|]. intros spent d1 Hspent H1 _.
  apply mwp_ret; [done|]. intros d2 _ _ budget. unfold OperationBudget_new.
  destruct (duration_is_zero _); [done|]. intros [= <-].
  apply duration_sub; [apply duration_sub; [done|apply Hspent]|]. by destruct (nm_has_completion_handler m).
Qed.

Lemma run_completion_handler_mwp total d : live d -> monitored (fun _ => True) d ->
  mwp (run_completion_handler m total (wi_event_id input)) anything d.
Proof.
  intros Hd Hmon. unfold run_completion_handler. destruct (nm_has_completion_handler m) eqn:Hh; cbn [negb]; [|done].
  apply mwp_call; [done..|]. intros spent d1 _ H1 Hm1. destruct (OperationBudget_new _) as [b|]; [|done].
  apply mwp_call; [done| |done]. intros d2 H2 Hm2. split_and!; [done|done|].
  eapply monitored_moves; [|exact Hmon]. by etrans.
Qed.

Lemma settlement_never_completed report : settlement_disposition report <> Completed Hint_Completed.
Proof. by destruct report as [r|[]]; cbn; [destruct (has_pending_work r)| | | |]. Qed.

Lemma execute_opened_mwp total initial d : live d -> duration total -> 0 <= nm_completion_reserve m ->
  reported initial d -> mwp (execute_opened m input kind total initial) mobile_post d.
Proof.
  intros Hd Ht Hres Hinit. unfold execute_opened.
  eapply mwp_bind; [done|by apply engine_budget_mwp|]. intros [budget|] d1 Hb H1 Hm1;
    [|apply mwp_queued; [done|by eapply reported_moves]].
  specialize (Hb budget eq_refl).
  eapply mwp_bind with (Q' := fun disposition d' => (kind = Wake_Request -> engine_post input d0 disposition d')
    /\ (kind = Wake_InvoiceSettlement -> disposition <> Completed Hint_Completed)); [done| |].
  - destruct kind eqn:Hk.
    + rewrite <- Hk. eapply (wp_mono env own mobile_safe); [by apply node_handle_wake_mwp|].
      intros disposition d' H. split; [done|]. intros ?. congruence.
    + rewrite <- Hk. eapply mwp_bind; [done|by apply notification_mwp, run_invoice_nwp, live_since; [unfold wake_scope; by rewrite Hk|]|].
      intros report d2 _ H2 _. apply mwp_ret; [done|]. intros d3 _ _. split; [congruence|].
      intros _. apply settlement_never_completed.
  - intros disposition d2 [Hreq Hset] H2 Hm2. apply mwp_read; [done|]. intros d3 H3 Hm3.
    assert (reported initial d3) as Hinit3 by (eapply reported_moves; [|exact Hinit]; etrans; [done|]; by etrans).
    destruct (nwc_invoice_monitor (wi_event_id input) d3) as [monitor|e] eqn:Emon; [|by apply mwp_queued].
    pose proof (reported_now d3 H3 monitor Emon) as Hmon.
    set (final := if bool_decide (kind = Wake_InvoiceSettlement) && _ then Completed Hint_Completed else disposition).
    eapply mwp_bind with (Q' := anything); [done| |].
    { destruct monitor as [monitor|]; [|done]. apply run_completion_handler_mwp; [done|].
      destruct Hmon as (d' & x & ? & ? & ? & _). by exists d', x. }
    intros _ d4 _ H4 Hm4. apply mwp_ret; [done|]. intros d5 H5 Hm5.
    assert (rtc library_step d3 d5) as Hm35 by by etrans. split_and!; cbn.
    + intros Hs. eapply reported_delivered; [by eapply reported_moves|exact Hs].
    + intros Hk. subst final. rewrite bool_decide_false by congruence. cbn [andb].
      specialize (Hreq Hk). destruct disposition; try done. destruct Hreq as [json Hj]. exists json.
      eapply committed_steps; [etrans; [exact Hm3|exact Hm35]|exact Hj].
    + intros Hk Hf. subst final. rewrite bool_decide_true in Hf by done. cbn [andb] in Hf.
      case_bool_decide as Hs; [done|]. by destruct (Hset Hk).
Qed.

Lemma matches_names monitor : settlement_wake_matches (Some monitor) input = true -> names_invoice monitor.
Proof.
  intros [H1%bool_decide_eq_true H2]%andb_true_iff. split; [done|].
  apply existsb_exists in H2 as (relay & Hr & ->%bool_decide_eq_true). by apply list_elem_of_In.
Qed.

Lemma handle_wake_mwp total d : live d -> duration total -> 0 <= nm_completion_reserve m ->
  mwp (handle_wake m input kind total) mobile_post d.
Proof.
  intros Hd Ht Hres. unfold handle_wake. apply mwp_read; [done|]. intros d1 H1 _.
  destruct (nwc_invoice_monitor (wi_event_id input) d1) as [initial|e] eqn:Emon; [|by apply mwp_queued].
  pose proof (reported_now d1 H1 initial Emon) as Hinit.
  destruct (bool_decide (kind = Wake_InvoiceSettlement) && negb (settlement_wake_matches initial input)) eqn:Em.
  { apply mwp_ret; [done|]. intros d2 _ _. by split_and!. }
  eapply mwp_bind; [done|by apply engine_budget_mwp|]. intros [budget|] d2 _ H2 Hm2;
    [|apply mwp_queued; [done|by eapply reported_moves]].
  apply mwp_call; [done| |].
  - intros d3 _ Hm3. split; [done|]. intros Hk. rewrite bool_decide_true in Em by done. cbn [andb] in Em.
    apply negb_false_iff in Em. destruct initial as [monitor|]; [|done].
    exists d1, monitor. split_and!; [done|by etrans|done|by apply matches_names].
  - intros opened d3 _ H3 Hm3. assert (reported initial d3) by (eapply reported_moves; [|exact Hinit]; by etrans).
    destruct opened; [by apply execute_opened_mwp|by apply mwp_queued].
Qed.

(** C10: Wherever a wake stops, all it has committed are transactions of the library,
    those of the outbox if it checks a settlement, so the invariants hold and what
    is permanent is kept; and what it asks of the application next is what its
    kind allows.  A settlement opens the node only for an invoice the ledger knows
    for exactly that wallet and relay, and then asks the wallet for nothing but
    the state of this invoice.  A request asks the wallet for the state of tracked
    invoices, and for everything else only under the conditions of the engine.
    What is published is a stored response or a stored notification of the scope
    of the wake. *)
Theorem mobile_wake_is_safe total p d (Hwf : library_wf d0) (Ht : duration total)
    (Hres : 0 <= nm_completion_reserve m)
    (Hrun : reaches env (handle_wake m input kind total, d0) (p, d)) :
  rtc (fun a b => env a b \/ wake_step a b) d0 d
  /\ library_wf d /\ persists d0 d /\ forall X (c : HostCall X) k, p = Host c k -> mobile_safe X c d.
Proof.
  assert (live d0) as Hlive by (split; [done|apply rtc_refl]).
  destruct (wp_adequate _ _ _ _ _ _ _ _ (handle_wake_mwp total d0 Hlive Ht Hres) Hrun) as [Hw Hm].
  destruct (library_steps_library d0 d (wake_steps _ _ Hm) Hwf) as [H1 H2].
  split_and!; [by apply wake_moves|done..|]. intros X c k ->. exact (wp_Host _ _ _ _ _ _ _ Hw).
Qed.


End Wake.

(** ** Runs of the model

    The wake of the paid request, and the wake that settles the invoice of the
    imported connection. *)

Definition sample_sha : Sha256 := {| sha256_hex := fun _ => "00"%string |}.
Definition sample_mobile : NwcMobileConfig :=
  mkNwcMobileConfig sample_engine true (from_secs 5) DEFAULT_INVOICE_SETTLEMENT_POLL_INTERVAL.
Definition mobile_wake (input : WakeInput) (kind : NwcMobileWakeKind) : Prog NwcMobileWakeResult :=
  @handle_wake sample_urls sample_keys sample_nostr sample_json sample_notification_json sample_sha
    sample_mobile input kind (from_secs 25).
Definition settlement_input : WakeInput := mkWakeInput "wss://a" (repeat 3 32) (repeat 2 32) None 250.

Definition paid_after (n : nat) := advance paying_host n (mobile_wake sample_wake Wake_Request) imported_database.
Definition settled_run := run_prog (fun _ => settled_host) 0 (mobile_wake settlement_input Wake_InvoiceSettlement)
  invoiced_database.

Lemma mobile_typed : duration (from_secs 25) /\ 0 <= nm_completion_reserve sample_mobile.
Proof. by split. Qed.

Lemma paid_after_starts : calls is_start (paid_after 35).1 = true.
Proof. vm_compute. reflexivity. Qed.

Lemma mobile_wake_is_safe_witness :
  exists request remaining k d connection,
    paid_after 35 = (Host (start_payment request remaining) k, d)
    /\ @backed sample_urls sample_parts sample_keys (@library_step sample_urls sample_parts sample_keys) sample_wake imported_database connection request d /\ @library_wf sample_urls sample_parts sample_keys d.
Proof.
  pose proof paid_after_starts as Hp.
  pose proof (advance_reaches (@library_step sample_urls sample_parts sample_keys) paying_host paying_host_typed 35
    (mobile_wake sample_wake Wake_Request) imported_database) as Hr.
  fold (paid_after 35) in Hr. destruct (paid_after 35) as [p d].
  destruct p as [r|X c k|EE A t k]; [discriminate Hp| |discriminate Hp].
  destruct c; try discriminate Hp.
  destruct (@mobile_wake_is_safe sample_urls sample_parts sample_keys sample_nostr sample_json sample_notification_json sample_sha
    sample_url_laws sample_parts_laws _ (fun _ _ H => H)
    sample_mobile sample_wake Wake_Request imported_database sample_json_laws (proj1 sample_typed) (from_secs 25) _ d
    imported_library_wf (proj1 mobile_typed) (proj2 mobile_typed) Hr) as (_ & Hwf & _ & Hs).
  destruct (Hs _ _ _ eq_refl) as [_ (connection & _ & Hb)].
  exists request, context, k, d, connection. exact (conj eq_refl (conj Hb Hwf)).
Defined.

Lemma settled_run_result : settled_run.1 = mkWakeResult (Completed Hint_Completed) Settlement_Delivered.
Proof. vm_compute. reflexivity. Qed.


(** The invoice stays pending: the worker passes, sleeps, and passes again until its
    budget is over, on a clock that advances by 800 milliseconds with each call. *)
Definition pending_host (n : nat) (X : Type) (c : HostCall X) : X :=
  match c in HostCall X return X -> X with
  | instant_now => fun _ => Z.min (800 * 1000000 * Z.of_nat n) duration_max
  | lookup_invoice _ _ => fun _ => Ok None
  | _ => fun x => x
  end (settled_host X c).

Definition lingering_worker := @run_notification_worker sample_urls sample_keys sample_nostr sample_notification_json
  sample_sha (repeat 3 32) true DEFAULT_INVOICE_SETTLEMENT_POLL_INTERVAL (from_secs 25).
Definition lingered := run_history clock_note id pending_host 0 lingering_worker invoiced_database (started 0).

Lemma pending_host_typed n X (c : HostCall X) : answer_typed c (pending_host n X c).
Proof.
  destruct c; try exact (settled_host_typed _ _); [by intros t|].
  change (0 <= Z.min (800 * 1000000 * Z.of_nat n) duration_max <= duration_max).
  assert (0 <= duration_max) by (by vm_compute). lia.
Qed.

Lemma lingered_end : tl_forward lingered.2 = true /\ length (tl_slept lingered.2) = 3%nat.
Proof. vm_compute. by split. Qed.


(** A settlement wake that names another relay never opens the node. *)
Example foreign_settlement :
  (run_prog (fun _ => settled_host) 0
     (mobile_wake (mkWakeInput "wss://c" (repeat 3 32) (repeat 2 32) None 250) Wake_InvoiceSettlement)
     invoiced_database).1
  = mkWakeResult (disposition_rejected Reject_InvalidWakePayload) Settlement_NotTracked.
Proof. vm_compute. reflexivity. Qed.

Definition refusing_node : NwcLightningNode :=
  mkLightningNode (Err Unavailable) (fun _ => Err Unavailable) (fun _ _ => Err Unavailable)
    (fun _ => Err HostRejected) (fun _ _ => Ok None) (fun _ => Ok []).
Definition refused_request : PayInvoiceRequest := mkPayInvoiceRequest "lnbc1" None 10 sample_event.

Lemma node_payment_certificate_witness :
  runtime_start_payment refusing_node false (Operation_first false) refused_request = Err HostRejected
  /\ ln_pay_invoice refusing_node refused_request = Err HostRejected
  /\ runtime_start_payment refusing_node false (Timer_first false) refused_request = Err TimedOut.
Proof.
  split_and!; [reflexivity| |reflexivity].
  exact (proj2 (proj2 (node_payment_certificate refusing_node false (Operation_first false) refused_request
    HostRejected eq_refl eq_refl))).
Defined.
