(* ===== verification/MobileEngine.v ===== *)
(** * The engine object of foreign hosts

    Models [nwc-mobile-uniffi/src/mobile_engine.rs]: the long-lived object Swift
    and Kotlin call, its values and errors, and every operation as the one of the
    service, the engine or a worker it runs.  The wallet, relay and secret calls
    of its programs are answered through the adapter of [HostBridge]. *)
From Stdlib Require Import String Ascii DecimalString DecimalN.
From stdpp Require Import strings.
From S2P Require Import Prelude Sqlite Types Text Policy Outcome Host Schema Ledger Registry Registration NostrValidation Invoices Accounting Requests Program Reconciliation RegistrationWorker HostBridge WakeEnvelope InvoiceWorker Nwa ConnectionService MobileService Application Engine.
#[local] Open Scope Z_scope.

Definition MAX_DATABASE_PATH_BYTES : Z := 4096.
Definition MAX_BACKGROUND_EXECUTION_MILLISECONDS : Z := 30000.

(** ** Errors *)

Inductive MobileEngineError : Type :=
| Me_InvalidArgument | Me_DatabaseUnavailable | Me_UnsupportedSchema | Me_CorruptData | Me_AlreadyExists
| Me_NotFound | Me_StaleRevision | Me_AlreadyRevoked | Me_InvalidNwaRequest | Me_NwaAlreadyPending
| Me_NoPendingNwa | Me_NwaAuthorityEscalation.

#[export] Instance MobileEngineError_eq_dec : EqDecision MobileEngineError.
Proof. solve_decision. Defined.

Definition me_from_ledger (e : LedgerError) : MobileEngineError :=
  match e with
  | DatabaseUnavailable => Me_DatabaseUnavailable
  | UnsupportedSchema => Me_UnsupportedSchema
  | CorruptData => Me_CorruptData
  | _ => Me_CorruptData
  end.

Definition me_from_registry (e : RegistryError) : MobileEngineError :=
  match e with
  | Reg_DatabaseUnavailable => Me_DatabaseUnavailable
  | Reg_CorruptData => Me_CorruptData
  | Reg_ValueOutOfRange | Reg_InvalidConnection => Me_InvalidArgument
  | Reg_AlreadyExists => Me_AlreadyExists
  | Reg_NotFound => Me_NotFound
  | Reg_StaleRevision => Me_StaleRevision
  | Reg_AlreadyTombstoned => Me_AlreadyRevoked
  end.

Definition me_from_registration (e : WakeRegistrationError) : MobileEngineError :=
  match e with
  | Wr_DatabaseUnavailable => Me_DatabaseUnavailable
  | Wr_InvalidBatchSize => Me_InvalidArgument
  | _ => Me_CorruptData
  end.

Definition me_from_service (e : MobileServiceError) : MobileEngineError :=
  match e with
  | Service_Ledger e => me_from_ledger e
  | Service_Registry e => me_from_registry e
  | Service_Nwa _ => Me_InvalidNwaRequest
  | Service_NwaApproval AuthorityEscalation => Me_NwaAuthorityEscalation
  | Service_NwaApproval (Approval_Registry e) => me_from_registry e
  | Service_NwaApproval Approval_InvalidCallback => Me_InvalidNwaRequest
  | Service_Registration e => me_from_registration e
  | NwaAlreadyPending => Me_NwaAlreadyPending
  | NoPendingNwa => Me_NoPendingNwa
  | StateUnavailable => Me_CorruptData
  end.

Definition me_from_reconciliation (e : PaymentReconciliationError) : MobileEngineError :=
  match e with
  | InvalidBatchSize => Me_InvalidArgument
  | AccountingFailed Pay_DatabaseUnavailable => Me_DatabaseUnavailable
  | AccountingFailed _ => Me_CorruptData
  end.

Definition me_from_worker (e : WakeRegistrationWorkerError) : MobileEngineError :=
  match e with Worker_Outbox e => me_from_registration e end.

(** ** Values *)

Inductive MobileBudgetInterval : Type :=
| Mobile_Never | Mobile_Hourly | Mobile_Daily | Mobile_Weekly | Mobile_Monthly | Mobile_Yearly.

Definition interval_from_mobile (i : MobileBudgetInterval) : BudgetInterval :=
  match i with
  | Mobile_Never => Never | Mobile_Hourly => Hourly | Mobile_Daily => Daily
  | Mobile_Weekly => Weekly | Mobile_Monthly => Monthly | Mobile_Yearly => Yearly
  end.
(** [TryFrom<BudgetInterval>]; the last arm of the source is for later intervals. *)
Definition interval_to_mobile (i : BudgetInterval) : Result MobileEngineError MobileBudgetInterval :=
  Ok match i with
     | Never => Mobile_Never | Hourly => Mobile_Hourly | Daily => Mobile_Daily
     | Weekly => Mobile_Weekly | Monthly => Mobile_Monthly | Yearly => Mobile_Yearly
     end.

Inductive MobileFeePolicy : Type :=
| Mobile_CountTowardBudget (maximum_fee_sat : Z)
| Mobile_ExcludeForCompatibility.
Definition fee_from_mobile (p : MobileFeePolicy) : FeePolicy :=
  match p with
  | Mobile_CountTowardBudget maximum_fee_sat => CountTowardBudget maximum_fee_sat
  | Mobile_ExcludeForCompatibility => ExcludeForCompatibility
  end.

Inductive MobileNwcEncryption : Type := Mobile_Nip44V2 | Mobile_LegacyNip04.
Definition encryption_from_mobile (e : MobileNwcEncryption) : NwcEncryption :=
  match e with Mobile_Nip44V2 => Nip44V2 | Mobile_LegacyNip04 => LegacyNip04 end.

Record MobileConnectionRequest := mkMobileConnectionRequest {
  mq_connection_id : string;
  mq_client_public_key_hex : string;
  mq_wallet_service_public_key_hex : string;
  mq_relay_urls : list string;
  mq_methods : list MobileNwcMethod;
  mq_budget_limit_sat : Z;
  mq_budget_interval : MobileBudgetInterval;
  mq_fee_policy : MobileFeePolicy;
  mq_encryption : MobileNwcEncryption;
  mq_expires_at : option Z;
}.

Record MobileConnectionState := mkMobileConnectionState {
  ms_connection_id : string;
  ms_revision : Z;
  ms_active : bool;
}.

Record MobileConnectionPresentation := mkMobileConnectionPresentation {
  mcp_connection_id : string;
  mcp_client_public_key_hex : string;
  mcp_wallet_service_public_key_hex : string;
  mcp_relay_urls : list string;
  mcp_methods : list MobileNwcMethod;
  mcp_budget_limit_sat : Z;
  mcp_budget_interval : MobileBudgetInterval;
  mcp_created_at_seconds : Z;
  mcp_expires_at_seconds : option Z;
  mcp_last_used_at_seconds : option Z;
}.

Record MobileConnectionMetadata := mkMobileConnectionMetadata {
  mm_name : string;
  mm_icon_url : option string;
  mm_icon_display_url : option string;
  mm_wallet_managed_secret : bool;
}.

Record MobileConnectionView := mkMobileConnectionView {
  mv_id : string;
  mv_name : string;
  mv_icon_url : option string;
  mv_icon_display_url : option string;
  mv_relay : string;
  mv_wallet_managed_secret : bool;
  mv_service_pubkey : string;
  mv_client_pubkey : string;
  mv_budget_sat : Z;
  mv_spent_sat : Z;
  mv_budget_display : string;
  mv_spent_display : string;
  mv_budget_interval : MobileBudgetInterval;
  mv_budget_interval_display : string;
  mv_permissions : list MobileNwcMethod;
  mv_created_at : Z;
  mv_last_used_at : option Z;
  mv_expires_at : option Z;
  mv_budget_period_started_at : Z;
  mv_pending_info_event_relays : list string;
}.

Record MobileNwaRequestPresentation := mkMobileNwaPresentation {
  mn_request_id_hex : string;
  mn_client_public_key_hex : string;
  mn_display_name : string;
  mn_icon_url : option string;
  mn_requesting_app_description : option string;
  mn_callback_target_description : string;
  mn_relay_urls : list string;
  mn_budget_limit_sat : Z;
  mn_budget_interval : MobileBudgetInterval;
  mn_methods : list MobileNwcMethod;
  mn_expires_at : option Z;
}.

Record MobileNwaApprovalResult := mkMobileNwaApprovalResult {
  mr_connection : MobileConnectionState;
  mr_callback_url : option string;
}.

Record MobileLegacyConnection := mkMobileLegacyConnection {
  mg_authorization : MobileConnectionRequest;
  mg_created_at_seconds : Z;
  mg_budget_used_sat : Z;
}.

Record MobileMigrationReport := mkMobileMigrationReport {
  mmr_revoked_connection_ids : list string;
  mmr_revoked_client_public_keys_hex : list string;
}.

(** The counters are [u16]. *)
Record MobilePaymentReconciliationReport := mkMobileReconciliationReport {
  mpr_examined : Z;
  mpr_succeeded : Z;
  mpr_failed : Z;
  mpr_discarded : Z;
  mpr_unresolved : Z;
  mpr_deferred : Z;
  mpr_interrupted : bool;
  mpr_needs_retry : bool;
}.

Record MobileWakeRegistrationReport := mkMobileRegistrationReport {
  mwr_examined : Z;
  mwr_applied : Z;
  mwr_deferred : Z;
  mwr_superseded : Z;
  mwr_interrupted : bool;
  mwr_needs_retry : bool;
}.

(** ** Display *)

(** [u64::to_string]. *)
Definition decimal (amount : Z) : string := NilZero.string_of_uint (N.to_uint (Z.to_N amount)).

(** The loop of [display_sats] from the digit at [index] of [len] on. *)
Fixpoint group_digits (len index : nat) (digits : string) : string :=
  match digits with
  | EmptyString => EmptyString
  | String character rest =>
      let tail := String character (group_digits len (S index) rest) in
      if Nat.ltb 0 index && Nat.eqb (Nat.modulo (len - index) 3) 0 then String ","%char tail else tail
  end.
Definition display_sats (amount : Z) : string :=
  let digits := decimal amount in
  (group_digits (String.length digits) 0 digits ++ " sats")%string.

Definition display_budget_interval (interval : MobileBudgetInterval) : string :=
  match interval with
  | Mobile_Never => "Never" | Mobile_Hourly => "Hourly" | Mobile_Daily => "Daily"
  | Mobile_Weekly => "Weekly" | Mobile_Monthly => "Monthly" | Mobile_Yearly => "Yearly"
  end.

(** ** Conversions *)

Definition mobile_methods (methods : list NwcMethod) : Result MobileEngineError (list MobileNwcMethod) :=
  map_err (fun _ => Me_CorruptData) (collect_results method_to_mobile methods).

Definition operation_budget (execution_milliseconds : Z) : Result MobileEngineError OperationBudget :=
  if MAX_BACKGROUND_EXECUTION_MILLISECONDS <? execution_milliseconds then Err Me_InvalidArgument
  else map_err (fun _ => Me_InvalidArgument) (OperationBudget_new (from_millis execution_milliseconds)).

(** The methods are collected in a [BTreeSet], so a repeated one is noticed. *)
Definition core_authorization (request : MobileConnectionRequest)
  : Result MobileEngineError HostConnectionAuthorization :=
  let method_count := length (mq_methods request) in
  let methods := btree_methods (method_from_mobile <$> mq_methods request) in
  if Nat.eqb (length methods) 0 || negb (Nat.eqb (length methods) method_count) then Err Me_InvalidArgument
  else Ok (mkHostConnectionAuthorization (mq_connection_id request) (mq_client_public_key_hex request)
    (mq_wallet_service_public_key_hex request) (mq_relay_urls request) methods (mq_budget_limit_sat request)
    (interval_from_mobile (mq_budget_interval request)) (fee_from_mobile (mq_fee_policy request))
    (encryption_from_mobile (mq_encryption request)) (mq_expires_at request)).

Definition mobile_nwa_presentation (request : NwaRequestPresentation)
  : Result MobileEngineError MobileNwaRequestPresentation :=
  let? interval := interval_to_mobile (np_budget_interval request) in
  let? methods := mobile_methods (np_methods request) in
  Ok (mkMobileNwaPresentation (np_id_hex request) (np_client_pubkey_hex request) (np_display_name request)
    (np_icon_url request) (np_requesting_app_description request) (np_callback_target_description request)
    (np_relay_urls request) (np_budget_limit_sat request) interval methods (np_expires_at request)).

Definition mobile_connection_presentation (connection : ConnectionPresentation)
  : Result MobileEngineError MobileConnectionPresentation :=
  let? methods := mobile_methods (cp_authorized connection) in
  let? interval := interval_to_mobile (cp_budget_interval connection) in
  Ok (mkMobileConnectionPresentation (cp_id connection) (cp_client_pubkey_hex connection)
    (cp_wallet_service_pubkey_hex connection) (cp_relay_urls connection) methods (cp_budget_limit_sat connection)
    interval (cp_created_at connection) (cp_expires_at connection) (cp_last_used_at connection)).

Definition mobile_connection_state (connection : StoredConnection) : Result MobileEngineError MobileConnectionState :=
  match connection with
  | Stored_Active c => Ok (mkMobileConnectionState (ac_id c) (ac_revision c) true)
  | Stored_Tombstoned t => Ok (mkMobileConnectionState (ct_id t) (ct_revision t) false)
  end.
Definition mobile_active_connection_state (c : ActiveConnection) : MobileConnectionState :=
  mkMobileConnectionState (ac_id c) (ac_revision c) true.

(** [MobileConnectionView::from_presentation]. *)
Definition view_from_presentation (presentation : ConnectionPresentation) (fallback_name : string)
    (icon_display_url : option string) (wallet_managed_secret : bool) : Result MobileEngineError MobileConnectionView :=
  let? budget_interval := interval_to_mobile (cp_budget_interval presentation) in
  let name := default fallback_name (cp_display_name presentation) in
  let? permissions := mobile_methods (cp_authorized presentation) in
  Ok (mkMobileConnectionView (cp_id presentation) name (cp_icon_url presentation) icon_display_url
    (encode_connection_relays (cp_relay_urls presentation)) wallet_managed_secret
    (cp_wallet_service_pubkey_hex presentation) (cp_client_pubkey_hex presentation)
    (cp_budget_limit_sat presentation) (cp_spent_sat presentation)
    (display_sats (cp_budget_limit_sat presentation)) (display_sats (cp_spent_sat presentation))
    budget_interval (display_budget_interval budget_interval) permissions (cp_created_at presentation)
    (cp_last_used_at presentation) (cp_expires_at presentation) (cp_budget_period_started_at presentation)
    (cp_pending_info_event_relays presentation)).

Definition mobile_connection_view (draft : ConnectionDraft) (connection : ActiveConnection)
    (metadata : MobileConnectionMetadata) : Result MobileEngineError MobileConnectionView :=
  let authorization := dr_authorization draft in
  let? budget_interval := interval_to_mobile (dr_budget_interval draft) in
  let? permissions := mobile_methods (dr_methods draft) in
  Ok (mkMobileConnectionView (ha_id authorization) (mm_name metadata) (mm_icon_url metadata)
    (mm_icon_display_url metadata) (dr_relay_storage draft) (mm_wallet_managed_secret metadata)
    (ha_wallet_service_pubkey_hex authorization) (ha_client_pubkey_hex authorization)
    (dr_budget_limit_sat draft) 0 (display_sats (dr_budget_limit_sat draft)) (display_sats 0)
    budget_interval (display_budget_interval budget_interval) permissions (ac_created_at connection)
    None (ac_expires_at connection) (ac_created_at connection) (ha_relay_urls authorization)).
(** [from_created] and [from_approved]. *)
Definition view_from_created (created : CreatedWalletConnection) (metadata : MobileConnectionMetadata) :=
  mobile_connection_view (cw_draft created) (cw_connection created) metadata.
Definition view_from_approved (approved : ApprovedApplicationConnection) (metadata : MobileConnectionMetadata) :=
  mobile_connection_view (aa_draft approved) (an_connection (aa_approval approved)) metadata.

(** [std::path] on a POSIX path: the root, and the components between slashes; a
    dot stands for itself only at the start of a relative path. *)
Inductive PathComponent : Type := RootDir | CurDir | ParentDir | Normal (name : list Z).
Definition path_is_absolute (path : string) : bool :=
  match chars path with c :: _ => c =? 47 | [] => false end.
Definition path_component (name : list Z) : option PathComponent :=
  if bool_decide (name = []) || bool_decide (name = [46]) then None
  else if bool_decide (name = [46; 46]) then Some ParentDir else Some (Normal name).
Definition path_components (path : string) : list PathComponent :=
  let names := split_on (fun c => c =? 47) (chars path) in
  (if path_is_absolute path then [RootDir]
   else match names with name :: _ => if bool_decide (name = [46]) then [CurDir] else [] | [] => [] end)
  ++ omap path_component names.

Definition validate_database_path (database_path : string) : Result MobileEngineError unit :=
  if string_is_empty database_path || (MAX_DATABASE_PATH_BYTES <? str_len database_path)
     || negb (path_is_absolute database_path)
     || existsb (fun component => match component with CurDir | ParentDir => true | _ => false end)
          (path_components database_path)
  then Err Me_InvalidArgument
  else Ok tt.

(** [u16::try_from] of the counters of a registration pass. *)
Definition mobile_registration_report (report : WakeRegistrationWorkerReport)
  : Result MobileEngineError MobileWakeRegistrationReport :=
  let narrow n := ok_or Me_CorruptData (u16_try_from (Z.of_nat n)) in
  let? examined := narrow (wk_examined report) in
  let? applied := narrow (wk_applied report) in
  let? deferred := narrow (wk_deferred report) in
  let? superseded := narrow (wk_superseded report) in
  Ok (mkMobileRegistrationReport examined applied deferred superseded (wk_interrupted report) (wk_needs_retry report)).

Definition mobile_reconciliation_report (report : PaymentReconciliationReport) : MobilePaymentReconciliationReport :=
  mkMobileReconciliationReport (rr_examined report) (rr_succeeded report) (rr_failed report) (rr_discarded report)
    (rr_unresolved report) (rr_deferred report) (rr_interrupted report) (rr_needs_retry report).

(** ** The object

    Its state is the service's; the ledger is the database of the program. *)

Section MobileEngine.
Context `{L : UrlLib} `{P : !UrlParts L} `{NK : NostrKeys} `{N : NostrLib} `{J : Nip47Json} `{NJ : NotificationJson}.

Definition me_result {A} (r : Result MobileServiceError A) : Result MobileEngineError A := map_err me_from_service r.

(** [open]; [opened] is what opening the ledger at the path gives. *)
Definition mobile_open (database_path : string) (opened : Result MobileServiceError unit)
  : Result MobileEngineError NwcMobileService :=
  let? _ := validate_database_path database_path in
  let? _ := me_result opened in
  Ok from_ledger.

Definition add_connection (s : NwcMobileService) (request : MobileConnectionRequest)
  : Prog (Result MobileEngineError MobileConnectionState) :=
  match core_authorization request with
  | Err e => Ret (Err e)
  | Ok authorization =>
      let* created := create_host_connection s authorization in
      Ret (let? active := me_result created in Ok (mobile_active_connection_state active))
  end.

Definition connection_state (connection_id : string) : Prog (Result MobileEngineError (option MobileConnectionState)) :=
  let* stored := service_connection connection_id in
  Ret (let? connection := me_result stored in traverse_option mobile_connection_state connection).

Definition mobile_active_connections : Prog (Result MobileEngineError (list MobileConnectionState)) :=
  let* active := service_active_connections in
  Ret (let? connections := me_result active in Ok (mobile_active_connection_state <$> connections)).

Definition mobile_connection_presentations : Prog (Result MobileEngineError (list MobileConnectionPresentation)) :=
  let* shown := connection_presentations in
  Ret (let? connections := me_result shown in collect_results mobile_connection_presentation connections).

Definition mobile_migrate (s : NwcMobileService) (connections : list MobileLegacyConnection)
  : Prog (Result MobileEngineError MobileMigrationReport) :=
  match collect_results (fun legacy =>
    let? authorization := core_authorization (mg_authorization legacy) in
    Ok (mkLegacyHostConnection authorization (mg_created_at_seconds legacy) (mg_budget_used_sat legacy))) connections with
  | Err e => Ret (Err e)
  | Ok connections =>
      let* report := migrate_legacy_connections s connections in
      Ret (let? report := me_result report in
           Ok (mkMobileMigrationReport (hm_revoked_connection_ids report) (hm_revoked_client_pubkeys report)))
  end.

Definition mobile_revoke_host_connection (connection_id : string) : Prog (Result MobileEngineError unit) :=
  let* revoked := service_revoke_host_connection connection_id in Ret (me_result revoked).

Definition mobile_last_completed_event_at (connection_id : string) : Prog (Result MobileEngineError (option Z)) :=
  let* last := service_last_completed_event_at connection_id in Ret (me_result last).

Definition mobile_refresh_wake_registrations (enabled : bool) : Prog (Result MobileEngineError Z) :=
  let* count := refresh_wake_registrations enabled in
  Ret (me_result (let? count := count in ok_or StateUnavailable (u64_try_from (Z.of_nat count)))).

Definition mobile_revoke_connection (connection_id : string) (expected_revision : Z)
  : Prog (Result MobileEngineError MobileConnectionState) :=
  let* revoked := revoke_connection connection_id expected_revision in
  Ret (let? tombstone := me_result revoked in
       Ok (mkMobileConnectionState (ct_id tombstone) (ct_revision tombstone) false)).

Definition mobile_open_nwa_request (request_uri : string) (s : NwcMobileService)
  : Prog (Result MobileEngineError MobileNwaRequestPresentation * NwcMobileService) :=
  let* (opened, s) := open_nwa_request request_uri s in
  Ret ((let? request := me_result opened in mobile_nwa_presentation request), s).

Definition mobile_pending_nwa_request (s : NwcMobileService)
  : Result MobileEngineError (option MobileNwaRequestPresentation) :=
  let? request := me_result (pending_nwa_request s) in traverse_option mobile_nwa_presentation request.

Definition mobile_approve_pending_nwa (request_id_hex : string) (request : MobileConnectionRequest)
    (lud16 : option string) (s : NwcMobileService)
  : Prog (Result MobileEngineError MobileNwaApprovalResult * NwcMobileService) :=
  match core_authorization request with
  | Err e => Ret (Err e, s)
  | Ok authorization =>
      let* (approved, s) := approve_pending_nwa request_id_hex authorization lud16 s in
      Ret ((let? approved := me_result approved in
            Ok (mkMobileNwaApprovalResult (mobile_active_connection_state (an_connection approved))
                  (an_callback_url approved))), s)
  end.

Definition mobile_clear_pending_nwa (s : NwcMobileService) : Result MobileEngineError unit * NwcMobileService :=
  let '(cleared, s) := clear_pending_nwa s in (me_result cleared, s).

(** [execute_wake]: the engine, then one pass of the notification worker. *)
Definition mobile_execute_wake (wake : ValidatedMobileWake) (execution_milliseconds : Z)
  : Prog (Result MobileEngineError MobileWakeDisposition) :=
  match operation_budget execution_milliseconds with
  | Err e => Ret (Err e)
  | Ok budget =>
      let* disposition := execute (mkEngineConfig default_wake_policy false) (vm_input wake) budget in
      let* spent := call elapsed in
      let* _ := match OperationBudget_new (duration_saturating_sub budget spent) with
                | Ok notification_budget => let* _ := notify_run notification_budget in Ret tt
                | Err _ => Ret tt
                end in
      Ret (Ok (disposition_to_mobile disposition))
  end.

Definition reconcile_payments (maximum_attempts execution_milliseconds : Z)
  : Prog (Result MobileEngineError MobilePaymentReconciliationReport) :=
  match operation_budget execution_milliseconds with
  | Err e => Ret (Err e)
  | Ok budget =>
      let* report := reconcile maximum_attempts budget in
      Ret (let? report := map_err me_from_reconciliation report in Ok (mobile_reconciliation_report report))
  end.

Definition process_wake_registrations (server_url : string) (maximum_changes execution_milliseconds : Z)
  : Prog (Result MobileEngineError MobileWakeRegistrationReport) :=
  match
    let? server_url := map_err (fun _ => Me_InvalidArgument) (SecureWakeServerUrl_parse server_url) in
    let? budget := operation_budget execution_milliseconds in
    Ok (server_url, budget)
  with
  | Err e => Ret (Err e)
  | Ok (server_url, budget) =>
      let* report := worker_run server_url maximum_changes budget in
      Ret (let? report := map_err me_from_worker report in mobile_registration_report report)
  end.

End MobileEngine.
