(* ===== verification/MobileEngineProofs.v ===== *)
(** * Properties of the engine object

    What the foreign host sees is what the library holds: amounts read back from
    their display, authorizations carry exactly the requested methods, counters
    fit their width, and a wake of the object keeps to what the engine and the
    notification worker promise. *)
From Stdlib Require Import String Ascii DecimalString DecimalN DecimalPos.
From stdpp Require Import strings.
From S2P Require Import Prelude Sqlite Types Text Policy Outcome Host Schema Ledger Registry Registration NostrValidation Invoices Accounting Requests Program Reconciliation RegistrationWorker HostBridge WakeEnvelope InvoiceWorker Nwa ConnectionService MobileService Application Library Outbox NotificationProofs Engine EngineProofs MobileNode MobileNodeProofs MobileEngine.
#[local] Open Scope Z_scope.

(** ** Display *)

Definition is_digit (c : ascii) : bool := Nat.leb 48 (nat_of_ascii c) && Nat.leb (nat_of_ascii c) 57.
Fixpoint all_digits (s : string) : bool :=
  match s with EmptyString => true | String c rest => is_digit c && all_digits rest end.

(** Reading an amount: the digits before the space, without their commas. *)
Fixpoint until_space (s : string) : string :=
  match s with
  | EmptyString => EmptyString
  | String c rest => if Ascii.eqb c " "%char then EmptyString else String c (until_space rest)
  end.
Fixpoint drop_commas (s : string) : string :=
  match s with
  | EmptyString => EmptyString
  | String c rest => if Ascii.eqb c ","%char then drop_commas rest else String c (drop_commas rest)
  end.
Definition read_sats (s : string) : option Z :=
  match NilZero.uint_of_string (drop_commas (until_space s)) with
  | Some digits => Some (Z.of_N (N.of_uint digits))
  | None => None
  end.

Lemma uint_digits d : all_digits (NilEmpty.string_of_uint d) = true.
Proof. by induction d. Qed.

Lemma decimal_digits amount : all_digits (decimal amount) = true.
Proof. unfold decimal, NilZero.string_of_uint. destruct (N.to_uint _) eqn:E; [done|apply uint_digits..]. Qed.

Lemma digit_neither c : is_digit c = true -> Ascii.eqb c " "%char = false /\ Ascii.eqb c ","%char = false.
Proof. destruct c as [[] [] [] [] [] [] [] []]; cbn; done. Qed.

Lemma read_grouped len s tail : forall index, all_digits s = true ->
  drop_commas (until_space (group_digits len index s ++ String " "%char tail)) = s.
Proof.
  induction s as [|c s IH]; intros index H; [done|]. cbn [all_digits] in H.
  apply andb_true_iff in H as [Hc Hs]. destruct (digit_neither c Hc) as [H1 H2]. specialize (IH (S index) Hs).
  cbn [group_digits].
  assert (forall r, until_space (String c r) = String c (until_space r)) as Hu by (intros r; cbn [until_space]; by rewrite H1).
  assert (forall r, drop_commas (String c r) = String c (drop_commas r)) as Hd by (intros r; cbn [drop_commas]; by rewrite H2).
  assert (forall r, until_space (String ","%char r) = String ","%char (until_space r)) as Hu' by done.
  assert (forall r, drop_commas (String ","%char r) = drop_commas r) as Hd' by done.
  assert (forall c r t, (String c r ++ t)%string = String c (r ++ t)) as Happ by done.
  destruct (Nat.ltb 0 index && _); rewrite !Happ, ?Hu', ?Hd', Hu, Hd; by rewrite IH.
Qed.

(** An amount is read back from its display, whatever the commas. *)
Theorem display_sats_roundtrip amount (Ha : u64 amount) : read_sats (display_sats amount) = Some amount.
Proof.
  unfold read_sats, display_sats. rewrite (read_grouped _ _ "sats") by apply decimal_digits.
  unfold decimal. rewrite NilZero.usu by (destruct (Z.to_N amount); [done|apply DecimalPos.Unsigned.to_uint_nonnil]).
  rewrite DecimalN.Unsigned.of_to. f_equal. unfold u64 in Ha. lia.
Qed.

Lemma display_sats_roundtrip_witness :
  read_sats (display_sats 1234567) = Some 1234567 /\ display_sats 1234567 = "1,234,567 sats"%string
  /\ display_sats 0 = "0 sats"%string /\ display_sats 999 = "999 sats"%string.
Proof. split; [apply display_sats_roundtrip; by vm_compute|]. by vm_compute. Defined.

(** ** Authorizations *)

Lemma btree_methods_length_le l : (length (btree_methods l) <= length l)%nat.
Proof.
  apply submseteq_length, NoDup_submseteq.
  - apply NoDup_ListNoDup, List.NoDup_filter, NoDup_ListNoDup. by apply (bool_decide_unpack _).
  - intros m. apply elem_of_btree_methods.
Qed.

Lemma NoDup_btree_methods l : NoDup (btree_methods l).
Proof.
  apply NoDup_ListNoDup, List.NoDup_filter, NoDup_ListNoDup. by apply (bool_decide_unpack _).
Qed.

(** A set of methods has the size of a list exactly when the list repeats none. *)
Lemma btree_methods_length l : length (btree_methods l) = length l <-> NoDup l.
Proof.
  split.
  - intros H. assert (btree_methods l ≡ₚ l) as <-; [|apply NoDup_btree_methods].
    apply submseteq_length_Permutation; [|lia]. apply NoDup_submseteq; [apply NoDup_btree_methods|].
    intros m. apply elem_of_btree_methods.
  - intros H. apply Permutation_length, NoDup_Permutation; [apply NoDup_btree_methods|done|].
    intros m. apply elem_of_btree_methods.
Qed.

Lemma method_from_mobile_inj x y : method_from_mobile x = method_from_mobile y -> x = y.
Proof. by destruct x, y. Qed.

Lemma NoDup_from_mobile l : NoDup (method_from_mobile <$> l) <-> NoDup l.
Proof.
  split; [|apply NoDup_fmap_2; intros x y; apply method_from_mobile_inj]. apply NoDup_fmap_1.
Qed.

(** A foreign request is refused exactly when it names no method or one of them
    twice; otherwise it becomes an authorization of the same connection, keys,
    relays, limits and expiration, that grants exactly the methods it names, and
    shows the host these methods again. *)
Theorem authorization_is_exact request :
  (core_authorization request = Err Me_InvalidArgument <-> mq_methods request = [] \/ ~ NoDup (mq_methods request))
  /\ forall a, core_authorization request = Ok a ->
     (ha_id a, ha_client_pubkey_hex a, ha_wallet_service_pubkey_hex a, ha_relay_urls a, ha_budget_limit_sat a, ha_expires_at a)
     = (mq_connection_id request, mq_client_public_key_hex request, mq_wallet_service_public_key_hex request,
        mq_relay_urls request, mq_budget_limit_sat request, mq_expires_at request)
     /\ interval_to_mobile (ha_budget_interval a) = Ok (mq_budget_interval request)
     /\ (forall m, method_from_mobile m ∈ ha_methods a <-> m ∈ mq_methods request)
     /\ exists shown, mobile_methods (ha_methods a) = Ok shown /\ shown ≡ₚ mq_methods request.
Proof.
  unfold core_authorization. set (methods := method_from_mobile <$> mq_methods request).
  assert (length methods = length (mq_methods request)) as Hlen by apply length_fmap.
  assert (forall m, method_from_mobile m ∈ methods <-> m ∈ mq_methods request) as Hin.
  { intros m. unfold methods. rewrite list_elem_of_fmap. split; [|by exists m].
    by intros (y & ->%method_from_mobile_inj & ?). }
  destruct (Nat.eqb_spec (length (btree_methods methods)) 0) as [Hz|Hz]; cbn [orb].
  - split; [|done]. split; [intros _|done]. left.
    destruct (mq_methods request) as [|x l] eqn:E; [done|]. exfalso.
    assert (method_from_mobile x ∈ btree_methods methods) as H.
    { apply elem_of_btree_methods, Hin. apply list_elem_of_here. }
    destruct (btree_methods methods); [by apply elem_of_nil in H|done].
  - destruct (Nat.eqb_spec (length (btree_methods methods)) (length (mq_methods request))) as [He|He]; cbn [negb].
    + split.
      * split; [done|]. rewrite <- Hlen in He. apply btree_methods_length, NoDup_from_mobile in He.
        intros [Hn|Hn]; [|done]. assert (methods = []) as E by (unfold methods; by rewrite Hn). by rewrite E in Hz.
      * intros a [= <-]. cbn [ha_id ha_client_pubkey_hex ha_wallet_service_pubkey_hex ha_relay_urls ha_methods
          ha_budget_limit_sat ha_budget_interval ha_expires_at]. split_and!; [done|by destruct (mq_budget_interval request)| |].
        { intros m. etrans; [apply elem_of_btree_methods|apply Hin]. }
        assert (forall l, collect_results method_to_mobile (method_from_mobile <$> l) = Ok l) as Hback.
        { induction l as [|x l IH]; [done|]. cbn. rewrite IH. by destruct x. }
        assert (btree_methods methods ≡ₚ methods) as Hperm.
        { rewrite <- Hlen in He. apply NoDup_Permutation; [apply NoDup_btree_methods|by apply btree_methods_length|].
          intros m. apply elem_of_btree_methods. }
        apply Permutation_map_inv in Hperm as (l & El & Hl).
        exists l. split; [|by symmetry]. unfold mobile_methods. rewrite El. change (map method_from_mobile l) with (method_from_mobile <$> l).
          by rewrite (Hback l).
    + split; [|done]. split; [intros _|done]. right. intros Hnd. apply He. rewrite <- Hlen.
      by apply btree_methods_length, NoDup_from_mobile.
Qed.

Definition sample_mobile_request : MobileConnectionRequest :=
  mkMobileConnectionRequest "c9" client_hex wallet_hex ["wss://a"%string] [Mobile_PayInvoice; Mobile_GetInfo] 1000
    Mobile_Daily (Mobile_CountTowardBudget 10) Mobile_Nip44V2 None.

Lemma authorization_is_exact_witness :
  exists a, core_authorization sample_mobile_request = Ok a /\ ha_methods a = [GetInfo; PayInvoice]
    /\ (method_from_mobile Mobile_GetBalance ∈ ha_methods a <-> Mobile_GetBalance ∈ [Mobile_PayInvoice; Mobile_GetInfo]).
Proof.
  eexists. split; [reflexivity|]. split; [reflexivity|].
  destruct (authorization_is_exact sample_mobile_request) as [_ H].
  destruct (H _ eq_refl) as (_ & _ & Hm & _). exact (Hm Mobile_GetBalance).
Defined.

(** ** Counters *)

Definition any (_ _ : Database) : Prop := True.

Section Counters.
Context `{L : UrlLib} `{UP : !UrlParts L} `{NK : NostrKeys} `{LL : !UrlLaws L} `{PL : !UrlPartsLaws UP} (server_url : string).

(** A report counts what happened to the changes it examined, from [n] on. *)
Definition counts (n : nat) (r : Result WakeRegistrationWorkerError WakeRegistrationWorkerReport) (_ : Database) : Prop :=
  forall report, r = Ok report -> (worker_tally report <= wk_examined report <= n)%nat.

Lemma apply_changes_counts deadline changes : forall report d, (worker_tally report <= wk_examined report)%nat ->
  wp any nothing any_call (apply_changes server_url deadline changes report)
    (counts (wk_examined report + length changes)) d.
Proof.
  unfold worker_tally.
  induction changes as [|change rest IH]; intros report d Ht; cbn [apply_changes].
  { intros d1 _ report' [= <-]. unfold worker_tally. cbn. lia. }
  assert (forall report1 d1, (wk_applied report1 + wk_deferred report1 + wk_superseded report1 <= wk_examined report1)%nat ->
    wk_examined report1 = S (wk_examined report) ->
    wp any nothing any_call (apply_changes server_url deadline rest report1)
      (counts (wk_examined report + length (change :: rest))) d1) as Hnext.
  { intros report1 d1 H1 H2. eapply (wp_mono any nothing any_call); [by apply IH|].
    intros r d2 Hr report' E. specialize (Hr report' E). cbn [length]. lia. }
  apply wp_bind, wp_context; [done..|]. intros d0 [budget|] _.
  2:{ intros d1 _ report' [= <-]. unfold worker_tally. cbn. lia. }
  apply wp_bind_call. intros d1 _. split; [done|]. intros [[]|error] _.
  - apply wp_bind_ledger. intros d2 _. destruct (acknowledge_wake_registration change d2) as [[[] d3]|x].
    + split; [done|]. apply Hnext; cbn; lia.
    + destruct x; try (by intros d4 _ report' [=]). apply Hnext; cbn; lia.
  - destruct (bool_decide (error = Cancelled)).
    { intros d2 _ report' [= <-]. unfold worker_tally. cbn. lia. }
    apply wp_bind_call. intros d2 _. split; [done|]. intros t _.
    apply wp_bind_ledger. intros d3 _. destruct (retry_wake_registration _ _ _ d3) as [[[] d4]|x].
    + split; [done|]. apply Hnext; cbn; lia.
    + destruct x; try (by intros d5 _ report' [=]). apply Hnext; cbn; lia.
Qed.

(** The counters of a registration pass fit the width the object reports them in:
    for a maximum the foreign host can pass, every report of the worker converts,
    whatever the provider answers and other processes commit. *)
Theorem registration_report_fits env maximum budget d report d' (Hm : 0 <= maximum <= u16_max)
    (Hrun : reaches env (worker_run server_url maximum budget, d) (Ret (Ok report), d')) :
  mobile_registration_report report
  = Ok (mkMobileRegistrationReport (Z.of_nat (wk_examined report)) (Z.of_nat (wk_applied report))
          (Z.of_nat (wk_deferred report)) (Z.of_nat (wk_superseded report)) (wk_interrupted report)
          (wk_needs_retry report))
  /\ Z.of_nat (wk_examined report) <= maximum /\ (worker_tally report <= wk_examined report)%nat.
Proof.
  assert (wp env nothing any_call (worker_run server_url maximum budget) (fun r d =>
    counts (Z.to_nat maximum) r d) d) as Hw.
  { apply (wp_weaken any env nothing nothing any_call any_call); [done..|].
    unfold worker_run. apply wp_bind_call. intros d1 _. split; [done|]. intros now _. unfold run_at.
    apply wp_bind_read; [done|]. intros d2 _.
    destruct (load_due_wake_registrations now maximum d2) as [changes|e] eqn:Hl; [|by intros d3 _ r [=]].
    apply load_due_length in Hl; [|lia].
    apply wp_bind. eapply (wp_mono any nothing any_call); [apply apply_changes_counts; cbn; lia|].
    intros [report1|e] d3 Hc d4 _ report2 E; [|done]. injection E as <-.
    specialize (Hc report1 eq_refl). unfold worker_tally in *. cbn in *. lia. }
  destruct (wp_adequate _ _ _ _ _ _ _ _ Hw Hrun) as [Hr _]. apply wp_Ret in Hr. specialize (Hr report eq_refl).
  unfold worker_tally in Hr.
  assert (forall n, (n <= Z.to_nat maximum)%nat -> u16_try_from (Z.of_nat n) = Some (Z.of_nat n)) as Hfit.
  { intros n Hn. unfold u16_try_from. by rewrite (proj2 (Z.leb_le 0 _)), (proj2 (Z.leb_le _ u16_max)) by lia. }
  unfold mobile_registration_report, worker_tally. rewrite !Hfit by lia. cbn. split_and!; [done|lia|lia].
Qed.
End Counters.

(** ** Wakes of the object *)

Definition foreign_config : NwcMobileConfig :=
  mkNwcMobileConfig (mkEngineConfig default_wake_policy false) false 0 0.

Section ForeignWake.
Context `{L : UrlLib} `{UP : !UrlParts L} `{NK : NostrKeys} `{N : NostrLib} `{J : Nip47Json} `{NJ : NotificationJson} `{SH : Sha256} `{LL : !UrlLaws L} `{PL : !UrlPartsLaws UP}.
Context (env : Database -> Database -> Prop) (Henv : forall d d', env d d' -> library_step d d').
Context (wake : ValidatedMobileWake) (d0 : Database) `{JL : !Nip47Laws J}
  (Hevent : length (wi_event_id (vm_input wake)) = 32%nat).

Abbreviation live := (EngineProofs.running d0).
Abbreviation mwp := (mwp env foreign_config (vm_input wake) Wake_Request d0).

(** What a wake of the object reports. *)
Definition foreign_post (r : Result MobileEngineError MobileWakeDisposition) (d : Database) : Prop :=
  match r with
  | Err e => e = Me_InvalidArgument
  | Ok shown => exists disposition, shown = disposition_to_mobile disposition /\ engine_post (vm_input wake) d0 disposition d
  end.

Lemma operation_budget_Ok ms b : 0 <= ms -> operation_budget ms = Ok b -> duration b.
Proof.
  intros Hms H. unfold operation_budget in H. pass_guard H Hle. apply Z.ltb_ge in Hle.
  apply map_err_Ok in H. unfold OperationBudget_new in H. pass_guard H Hz. injection H as <-.
  unfold duration, from_millis, MAX_BACKGROUND_EXECUTION_MILLISECONDS in *.
  assert (30000 * 1000000 <= duration_max) by (by vm_compute). lia.
Qed.

Lemma mobile_execute_wake_mwp ms d : 0 <= ms -> live d -> mwp (mobile_execute_wake wake ms) foreign_post d.
Proof.
  intros Hms Hd. unfold mobile_execute_wake. destruct (operation_budget ms) as [budget|e] eqn:Eb.
  2:{ apply (mwp_ret env Henv); [done|]. intros d1 _ _. cbn. unfold operation_budget in Eb.
      destruct (_ <? ms); [by injection Eb as <-|]. destruct (OperationBudget_new _); [done|]. by injection Eb as <-. }
  apply operation_budget_Ok in Eb as Hb; [|done].
  eapply (mwp_bind env Henv); [done|eapply (engine_mwp env); [done|]; by apply (execute_wp env Henv)|]. intros disposition d1 Hpost H1 _.
  apply (mwp_call env Henv); [done..|]. intros spent d2 _ H2 Hm2.
  eapply (mwp_bind env Henv) with (Q' := anything); [done| |].
  { destruct (OperationBudget_new _) as [b|]; [|done].
    eapply (mwp_bind env Henv); [done|by eapply (notification_mwp env Henv), run_scoped_nwp, live_since|]. done. }
  intros _ d3 _ H3 Hm3. apply (mwp_ret env Henv); [done|]. intros d4 _ Hm4. exists disposition. split; [done|].
  destruct disposition; try done. destruct Hpost as [json Hj]. exists json.
  eapply committed_steps; [|exact Hj]. etrans; [exact Hm2|]. by etrans.
Qed.

(** A wake executed for a foreign host keeps to the library: wherever it stops, the
    invariants hold and what is permanent is kept; what it asks of the host next is
    what a request may ask; and a disposition of completion it shows stands for a
    stored response. *)
Theorem foreign_wake_is_safe ms p d (Hms : 0 <= ms) (Hwf : library_wf d0)
    (Hrun : reaches env (mobile_execute_wake wake ms, d0) (p, d)) :
  library_wf d /\ persists d0 d
  /\ (forall X (c : HostCall X) k, p = Host c k -> mobile_safe env foreign_config (vm_input wake) Wake_Request d0 X c d)
  /\ (forall hint, p = Ret (Ok (MobileCompleted hint)) -> exists json, committed (vm_input wake) d0 json d).
Proof.
  assert (live d0) as Hlive by (split; [done|apply rtc_refl]).
  destruct (wp_adequate _ _ _ _ _ _ _ _ (mobile_execute_wake_mwp ms d0 Hms Hlive) Hrun) as [Hw Hm%(wake_steps env Henv)].
  destruct (library_steps_library d0 d Hm Hwf) as [H1 H2]. split_and!; [done..| |].
  - intros X c k ->. exact (wp_Host _ _ _ _ _ _ _ Hw).
  - intros hint ->. apply wp_Ret in Hw as (disposition & E & Hpost). destruct disposition; done.
Qed.
End ForeignWake.

(** ** Runs of the model *)

Definition foreign_wake : ValidatedMobileWake := mkValidatedMobileWake sample_wake false.
Definition foreign_program := @mobile_execute_wake sample_urls sample_keys sample_nostr sample_json
  sample_notification_json foreign_wake 20000.
Definition foreign_run := run_prog (fun _ => paying_host) 0 foreign_program imported_database.

Lemma foreign_run_reaches env :
  reaches env (foreign_program, imported_database) (Ret foreign_run.1, foreign_run.2).
Proof.
  unfold foreign_run.
  exact (run_prog_reaches env (fun _ => paying_host) (fun _ => paying_host_typed) foreign_program 0 imported_database).
Qed.

Lemma foreign_run_result : foreign_run.1 = Ok (MobileCompleted (MobileHint_Request Mobile_PayInvoice)).
Proof. vm_compute. reflexivity. Qed.

Lemma foreign_wake_is_safe_witness :
  foreign_run.1 = Ok (MobileCompleted (MobileHint_Request Mobile_PayInvoice))
  /\ @library_wf sample_urls sample_parts sample_keys foreign_run.2 /\ exists json, @committed sample_urls sample_parts sample_keys sample_wake imported_database json foreign_run.2.
Proof.
  pose proof (foreign_run_reaches (@library_step sample_urls sample_parts sample_keys)) as Hr.
  rewrite foreign_run_result in Hr |- *. split; [reflexivity|].
  destruct (@foreign_wake_is_safe sample_urls sample_parts sample_keys sample_nostr sample_json sample_notification_json sample_sha
    sample_url_laws sample_parts_laws _ (fun _ _ H => H)
    foreign_wake imported_database sample_json_laws eq_refl 20000 _ _ ltac:(done) imported_library_wf Hr)
    as (Hwf & _ & _ & Hc).
  exact (conj Hwf (Hc _ eq_refl)).
Defined.

Definition registration_run := run_prog (fun _ => accepting_host) 0 sample_run imported_database.

Lemma registration_run_result : registration_run.1 = Ok (mkWorkerReport 1 1 0 0 false false).
Proof. vm_compute. reflexivity. Qed.

Lemma registration_report_fits_witness :
  mobile_registration_report (mkWorkerReport 1 1 0 0 false false) = Ok (mkMobileRegistrationReport 1 1 0 0 false false).
Proof.
  pose proof (run_prog_reaches RegistrationWorker.alone (fun _ => accepting_host) (fun _ => accepting_host_typed) sample_run 0
    imported_database) as Hr.
  fold registration_run in Hr. rewrite registration_run_result in Hr.
  exact (proj1 (@registration_report_fits sample_urls sample_keys "https://wake" RegistrationWorker.alone 10 (from_secs 5)
    imported_database _ _ ltac:(by vm_compute) Hr)).
Defined.
