(* ===== verification/LocalStore.v ===== *)
(** * Local state beside the ledger

    Models [diagnostics.rs], the bounded collector of diagnostic codes,
    [application_icon_cache.rs], the files of normalized icons,
    [secret_store.rs], the adapter over the platform's protected store, and the
    entry point of a native extension in [nwc-mobile-uniffi/src/lib.rs], which
    reports a wake with its diagnostics.  The cache directory is a finite map
    from file names to files; every system call may fail, which is data. *)
From Stdlib Require Import String.
From stdpp Require Import strings gmap pretty.
From S2P Require Import Prelude Types Text Outcome Host Registry NostrValidation Invoices Program Nwa NwcInfo PushTransport MobileService WakeEnvelope Engine MobileNode.
#[local] Open Scope Z_scope.

(** ** Diagnostics *)

Definition MAX_WAKE_DIAGNOSTIC_CODES : nat := 32.

#[export] Instance WakeDiagnosticCode_eq_dec : EqDecision WakeDiagnosticCode.
Proof. solve_decision. Defined.

(** [WakeDiagnosticCode::as_str]. *)
Definition diagnostic_as_str (code : WakeDiagnosticCode) : string :=
  match code with
  | PaymentRequestAccepted => "payment_request_accepted"
  | PaymentQuoteFailed => "payment_quote_failed"
  | PaymentBudgetExceeded => "payment_budget_exceeded"
  | PaymentStatusLookupFailed => "payment_status_lookup_failed"
  | PaymentFeeLimitExceeded => "payment_fee_limit_exceeded"
  | PaymentInsufficientFunds => "payment_insufficient_funds"
  | PaymentBackendFailed => "payment_backend_failed"
  | PaymentPending => "payment_pending"
  | PaymentSucceeded => "payment_succeeded"
  | InvoiceLookupNotFound => "invoice_lookup_not_found"
  | InvoiceLookupPending => "invoice_lookup_pending"
  | InvoiceLookupSettled => "invoice_lookup_settled"
  | InvoiceLookupFailed => "invoice_lookup_failed"
  | ResponsePublishFailed => "response_publish_failed"
  end.

(** The collector is a mutex over the codes. *)
Definition WakeDiagnosticCollector : Type := Mutex (list WakeDiagnosticCode).
Definition collector_default : WakeDiagnosticCollector := Held [].
Definition collector_codes (c : WakeDiagnosticCollector) : list WakeDiagnosticCode :=
  match c with Held codes => codes | Poisoned => [] end.
Definition collector_record (code : WakeDiagnosticCode) (c : WakeDiagnosticCollector) : WakeDiagnosticCollector :=
  match c with
  | Poisoned => Poisoned
  | Held codes =>
      if Nat.ltb (length codes) MAX_WAKE_DIAGNOSTIC_CODES && negb (bool_decide (code ∈ codes))
      then Held (codes ++ [code]) else Held codes
  end.

(** ** Cached icons *)

Definition ICON_DIRECTORY : string := "nwc_icons".
Definition STALE_TEMPORARY_FILE_AGE : Duration := from_secs 60.

Inductive ApplicationIconCacheError : Type :=
| Cache_InvalidUrl | Cache_InvalidBytes | Cache_InvalidPath | Cache_Io.

(** What a name of the directory is: a file with its bytes, or something else. *)
Inductive Node : Type := RegularFile (bytes : list Z) | OtherNode.
Notation IconDirectory := (gmap string Node).

(** [Url::from_file_path] of a name in the cache directory with a version query. *)
Class IconFiles := { icon_file_url : string -> string -> option string }.

(** [Path::extension] and [with_extension] of a file name: what follows its last
    dot, unless that starts the name. *)
Fixpoint last_dot (name : list Z) : option nat :=
  match name with
  | [] => None
  | c :: rest =>
      match last_dot rest with
      | Some n => Some (S n)
      | None => if c =? 46 then Some O else None
      end
  end.
Definition path_extension (name : list Z) : option (list Z) :=
  match last_dot name with Some (S n) => Some (drop (S (S n)) name) | _ => None end.
Definition with_extension (name extension : string) : string :=
  let stem := match last_dot (as_bytes name) with
              | Some (S n) => String.substring 0 (S n) name
              | _ => name
              end in
  (stem ++ "." ++ extension)%string.

Section Icons.
Context `{L : UrlLib} `{P : !UrlParts L} `{SH : Sha256} `{IF : IconFiles}.

(** [ApplicationIconUrl::parse]. *)
Definition ApplicationIconUrl_parse (value : string) : Result ApplicationIconCacheError string :=
  ok_or Cache_InvalidUrl (validated_public_icon_url value).

Definition icon_name (remote_url : string) : string := sha256_hex (as_bytes remote_url).

(** Whether an entry of the directory is an interrupted write: [age] is the time
    since it was modified, when the system tells. *)
Definition is_stale_temporary (name : string) (age : option Duration) : bool :=
  bool_decide (path_extension (as_bytes name) = Some (as_bytes "tmp"))
  && match age with Some age => STALE_TEMPORARY_FILE_AGE <=? age | None => false end.

(** The loop of [prepare] over the entries; [removes] says whether the removal of
    a name succeeds. *)
Fixpoint remove_stale (age : string -> option Duration) (removes : string -> bool) (names : list string)
    (dir : IconDirectory) : Result ApplicationIconCacheError unit * IconDirectory :=
  match names with
  | [] => (Ok tt, dir)
  | name :: rest =>
      if is_stale_temporary name (age name)
      then if removes name then remove_stale age removes rest (delete name dir) else (Err Cache_Io, dir)
      else remove_stale age removes rest dir
  end.

(** [cached_file_url]: whether the metadata and the bytes can be read. *)
Definition cached_file_url (metadata_ok read_ok : bool) (remote_url : string) (dir : IconDirectory)
  : Result ApplicationIconCacheError (option string) :=
  let name := icon_name remote_url in
  if negb metadata_ok then Err Cache_Io
  else match dir !! name with
       | None | Some OtherNode => Ok None
       | Some (RegularFile content) =>
           let len := Z.of_nat (length content) in
           if (len =? 0) || (MAX_APPLICATION_ICON_BYTES <? len) then Err Cache_InvalidBytes
           else if negb read_ok then Err Cache_Io
           else
           let? file_url := ok_or Cache_InvalidPath (icon_file_url name (sha256_hex content)) in
           Ok (Some file_url)
       end.

(** How the write of the temporary file ends: complete, interrupted after some of
    the bytes, or not even opened. *)
Inductive WriteOutcome : Type := Written | WroteOnly (count : nat) | NotOpened.

(** How the system calls of [store] end: the creation of the directory, the write,
    the rename, the removal after its failure, and the two reads afterwards. *)
Record StoreCalls := mkStoreCalls {
  sc_directory : bool;
  sc_write : WriteOutcome;
  sc_rename : bool;
  sc_remove : bool;
  sc_metadata : bool;
  sc_read : bool;
}.

(** [store]; [nonce] is the next number of the process. *)
Definition icon_store (calls : StoreCalls) (nonce : N) (remote_url : string) (normalized_bytes : list Z)
    (dir : IconDirectory) : Result ApplicationIconCacheError string * IconDirectory :=
  let len := Z.of_nat (length normalized_bytes) in
  if (len =? 0) || (MAX_APPLICATION_ICON_BYTES <? len) then (Err Cache_InvalidBytes, dir)
  else if negb (sc_directory calls) then (Err Cache_Io, dir)
  else
  let destination := icon_name remote_url in
  let temporary := with_extension destination (pretty nonce ++ ".tmp")%string in
  match sc_write calls with
  | NotOpened => (Err Cache_Io, dir)
  | WroteOnly count => (Err Cache_Io, <[temporary := RegularFile (take count normalized_bytes)]> dir)
  | Written =>
      let dir := <[temporary := RegularFile normalized_bytes]> dir in
      if negb (sc_rename calls)
      then (Err Cache_Io, if sc_remove calls then delete temporary dir else dir)
      else
      let dir := <[destination := RegularFile normalized_bytes]> (delete temporary dir) in
      ((let? cached := cached_file_url (sc_metadata calls) (sc_read calls) remote_url dir in
        ok_or Cache_InvalidPath cached), dir)
  end.
End Icons.

(** ** Stored secrets *)

(** [SecretKey::parse] of the nostr crate. *)
Class SecretKeyText := { secret_key_parse : string -> option (list Z) }.

Section Secrets.
Context `{N : NostrLib} `{ST : SecretKeyText}.

(** [loaded] is what the protected store answers for the wallet's key. *)
Definition wallet_service_secret_bytes (loaded : Result HostError (option string)) : Result HostError (list Z) :=
  let? encoded := loaded in
  let? encoded := ok_or Unavailable encoded in
  ok_or Internal (secret_key_parse encoded).
Definition load_wallet_service_signing_key (loaded : Result HostError (option string))
  : Result HostError Nip98SigningKey :=
  let? bytes := wallet_service_secret_bytes loaded in
  map_err (fun _ => Internal) (signing_key_from_bytes bytes).

(** [ClientSecretStore] over the protected store: the error carries nothing. *)
Definition stored_client_secret {A} (answered : Result HostError A) : Result unit A := map_err (fun _ => tt) answered.
End Secrets.

(** ** Wakes of a native extension *)

Inductive NwcSettlementNotificationStatus : Type := Notification_NotTracked | Notification_Pending | Notification_Delivered.
Definition settlement_notification_status (value : NwcMobileSettlementStatus) : NwcSettlementNotificationStatus :=
  match value with
  | Settlement_Pending => Notification_Pending
  | Settlement_Delivered => Notification_Delivered
  | Settlement_NotTracked => Notification_NotTracked
  end.

Record NwcExtensionWakeExecution := mkExtensionExecution {
  ne_disposition : MobileWakeDisposition;
  ne_diagnostic_codes : list string;
  ne_settlement_notification_status : NwcSettlementNotificationStatus;
}.

Definition extension_wake_execution (disposition : WakeDisposition) (diagnostics : WakeDiagnosticCollector)
    (status : NwcSettlementNotificationStatus) : NwcExtensionWakeExecution :=
  mkExtensionExecution (disposition_to_mobile disposition) (diagnostic_as_str <$> collector_codes diagnostics) status.

Definition rejected_extension_wake_execution : NwcExtensionWakeExecution :=
  extension_wake_execution (disposition_rejected Reject_InvalidWakePayload) collector_default Notification_NotTracked.

(** [execute_native_extension_wake]: the choices of the scheduler are those of
    [execute_native_wake], [wake] is what the wake then gives in its remaining time,
    and [recorded] the codes recorded meanwhile. *)
Definition execute_native_extension_wake `{UrlLib} (envelope : MobileWakeEnvelope) (execution_milliseconds : Z)
    (cancelled_before ran : bool) (opening : Opening) (spent : Duration) (timed_out : bool)
    (wake : WakeInput -> NwcMobileWakeKind -> Duration -> NwcMobileWakeResult)
    (recorded : list WakeDiagnosticCode) : NwcExtensionWakeExecution :=
  match native_extension_execution_duration execution_milliseconds with
  | None => rejected_extension_wake_execution
  | Some execution_time =>
      match validate_wake_envelope envelope with
      | Err _ => rejected_extension_wake_execution
      | Ok validated =>
          let result :=
            execute_native_wake execution_time cancelled_before ran opening spent timed_out
              (wake (vm_input validated) (from_settlement_check (vm_settlement_check validated))) in
          let diagnostics := fold_left (fun c code => collector_record code c) recorded collector_default in
          extension_wake_execution (wr_disposition result) diagnostics
            (settlement_notification_status (wr_settlement_status result))
      end
  end.

(** ** Properties *)

(** Every code once, at its first occurrence. *)
Fixpoint first_occurrences (seen codes : list WakeDiagnosticCode) : list WakeDiagnosticCode :=
  match codes with
  | [] => []
  | code :: rest =>
      if bool_decide (code ∈ seen) then first_occurrences seen rest
      else code :: first_occurrences (seen ++ [code]) rest
  end.

Definition all_codes : list WakeDiagnosticCode :=
  [PaymentRequestAccepted; PaymentQuoteFailed; PaymentBudgetExceeded; PaymentStatusLookupFailed;
   PaymentFeeLimitExceeded; PaymentInsufficientFunds; PaymentBackendFailed; PaymentPending; PaymentSucceeded;
   InvoiceLookupNotFound; InvoiceLookupPending; InvoiceLookupSettled; InvoiceLookupFailed; ResponsePublishFailed].

Lemma distinct_codes (codes : list WakeDiagnosticCode) : NoDup codes -> (length codes <= 14)%nat.
Proof.
  intros H. change 14%nat with (length all_codes). apply submseteq_length, NoDup_submseteq; [done|].
  intros code _. destruct code; by apply (bool_decide_unpack _).
Qed.

Lemma collected_codes codes : forall seen, NoDup seen ->
  fold_left (fun c code => collector_record code c) codes (Held seen) = Held (seen ++ first_occurrences seen codes).
Proof.
  induction codes as [|code codes IH]; intros seen Hnd; cbn [fold_left first_occurrences]; [by rewrite app_nil_r|].
  cbn [collector_record]. assert (Nat.ltb (length seen) MAX_WAKE_DIAGNOSTIC_CODES = true) as ->.
  { apply Nat.ltb_lt. pose proof (distinct_codes seen Hnd). unfold MAX_WAKE_DIAGNOSTIC_CODES. lia. }
  cbn [andb]. destruct (bool_decide_reflect (code ∈ seen)) as [Hin|Hout]; cbn [negb]; [by apply IH|].
  rewrite IH; [by rewrite <- (assoc_L (++))|]. apply NoDup_app. split_and!; [done| |apply NoDup_singleton].
  intros x Hx ->%list_elem_of_singleton. done.
Qed.

(** The collector keeps every recorded code once, in the order of its first
    record: its bound never drops one, since there are fewer codes. *)
Theorem collector_keeps_every_code codes :
  let collected := collector_codes (fold_left (fun c code => collector_record code c) codes collector_default) in
  collected = first_occurrences [] codes /\ NoDup collected /\ (forall code, code ∈ collected <-> code ∈ codes)
  /\ (length collected < MAX_WAKE_DIAGNOSTIC_CODES)%nat.
Proof.
  cbv zeta. unfold collector_default. rewrite collected_codes by apply NoDup_nil_2. cbn [collector_codes app].
  assert (forall l seen, NoDup (first_occurrences seen l) /\ forall code, code ∈ first_occurrences seen l <-> code ∈ l /\ code ∉ seen)
    as H.
  { induction l as [|x l IH]; intros seen; cbn [first_occurrences].
    - split; [apply NoDup_nil_2|]. intros code. rewrite elem_of_nil. tauto.
    - destruct (bool_decide_reflect (x ∈ seen)) as [Hin|Hout].
      + destruct (IH seen) as [H1 H2]. split; [done|]. intros code. rewrite H2, elem_of_cons. naive_solver.
      + destruct (IH (seen ++ [x])) as [H1 H2]. split.
        * apply NoDup_cons. split; [|done]. rewrite H2. intros [_ Hn]. apply Hn, elem_of_app. right.
          by apply list_elem_of_singleton.
        * intros code. rewrite elem_of_cons, H2, elem_of_app, list_elem_of_singleton, elem_of_cons.
          destruct (decide (code = x)); naive_solver. }
  destruct (H codes []) as [H1 H2]. split_and!; [done|done| |].
  - intros code. rewrite H2. split; [by intros []|]. intros ?. split; [done|apply not_elem_of_nil].
  - pose proof (distinct_codes _ H1). unfold MAX_WAKE_DIAGNOSTIC_CODES. lia.
Qed.

(** A hash is written in hexadecimal digits. *)
Class Sha256Laws (SH : Sha256) : Prop := {
  sha256_digits : forall bytes, Forall (fun b => 48 <= b <= 57 \/ 97 <= b <= 102) (as_bytes (sha256_hex bytes));
}.

Lemma last_dot_None l : Forall (fun b => 48 <= b <= 57 \/ 97 <= b <= 102) l -> last_dot l = None.
Proof.
  induction 1 as [|b l Hb _ IH]; [done|]. cbn [last_dot]. rewrite IH.
  by rewrite (proj2 (Z.eqb_neq b 46)) by lia.
Qed.

Lemma last_dot_app_after l m : last_dot m = None -> last_dot (l ++ 46 :: m) = Some (length l).
Proof. intros Hm. induction l as [|b l IH]; cbn [app last_dot length]; [by rewrite Hm|by rewrite IH]. Qed.

Section IconProofs.
Context `{SH : Sha256} `{IF : IconFiles} `{SL : !Sha256Laws SH}.

Lemma temporary_name remote_url extension :
  with_extension (icon_name remote_url) extension = (icon_name remote_url ++ "." ++ extension)%string
  /\ with_extension (icon_name remote_url) extension <> icon_name remote_url.
Proof.
  unfold with_extension, icon_name. rewrite last_dot_None by apply sha256_digits. split; [done|].
  intros H%(f_equal as_bytes). rewrite !as_bytes_app in H. rewrite <- (app_nil_r (as_bytes (sha256_hex _))) in H at 2.
  apply app_inv_head in H. done.
Qed.

(** C39: Storing an icon is atomic: whichever system call fails, the cached icon is the
    one from before or the complete new one, no other file changes except the
    temporary one of this very write, and a URL is returned only for the new icon,
    which then is what the cache serves. *)
Theorem icon_store_atomic calls nonce remote_url bytes dir r dir'
    (Hrun : icon_store calls nonce remote_url bytes dir = (r, dir')) :
  let destination := icon_name remote_url in
  let temporary := with_extension destination (pretty nonce ++ ".tmp")%string in
  temporary <> destination
  /\ (forall name, name <> destination -> name <> temporary -> dir' !! name = dir !! name)
  /\ (dir' !! destination = dir !! destination \/ dir' !! destination = Some (RegularFile bytes))
  /\ (forall url, r = Ok url ->
       1 <= Z.of_nat (length bytes) <= MAX_APPLICATION_ICON_BYTES
       /\ dir' !! destination = Some (RegularFile bytes) /\ dir' !! temporary = None
       /\ cached_file_url true true remote_url dir' = Ok (Some url)).
Proof.
  cbv zeta. destruct (temporary_name remote_url (pretty nonce ++ ".tmp")%string) as [_ Hne].
  unfold icon_store in Hrun. set (destination := icon_name remote_url) in *.
  set (temporary := with_extension destination _) in *. split; [done|].
  destruct ((Z.of_nat (length bytes) =? 0) || (MAX_APPLICATION_ICON_BYTES <? Z.of_nat (length bytes))) eqn:Hlen.
  { injection Hrun as <- <-. split_and!; [done|by left|done]. }
  destruct (negb (sc_directory calls)).
  { injection Hrun as <- <-. split_and!; [done|by left|done]. }
  destruct (sc_write calls) as [|count|].
  2: { injection Hrun as <- <-. split; [intros name _ Ht; by simplify_map_eq|].
    split; [left; by simplify_map_eq|done]. }
  2: { injection Hrun as <- <-. split_and!; [done|by left|done]. }
  destruct (negb (sc_rename calls)).
  { injection Hrun as <- <-. split; [intros name _ Ht; destruct (sc_remove calls); by simplify_map_eq|].
    split; [left; destruct (sc_remove calls); by simplify_map_eq|done]. }
  injection Hrun as <- <-. split; [|split].
  - intros name Hd Ht. by simplify_map_eq.
  - right. by simplify_map_eq.
  - intros url H. apply orb_false_iff in Hlen as [Hz Hmax]. apply Z.eqb_neq in Hz. apply Z.ltb_ge in Hmax.
    split; [lia|]. split; [by simplify_map_eq|].
    split; [by simplify_map_eq|].
    apply bind_Ok in H as (cached & Hc & ->%ok_or_Ok).
    unfold cached_file_url in *. fold destination in Hc |- *. rewrite lookup_insert_eq in Hc |- *. cbn [negb].
    destruct (sc_metadata calls); [|done]. cbn [negb] in Hc.
    destruct (_ || _); [done|]. by destruct (sc_read calls).
Qed.

(** The clean-up on start removes interrupted writes and nothing else: a cached icon
    always stays, whatever fails; the temporary file of any write is removed once it
    is a minute old; and after a clean-up that succeeds no listed stale temporary
    file is left, and every other file is as before. *)
Theorem cleanup_spares_icons age removes names dir r dir'
    (Hrun : remove_stale age removes names dir = (r, dir')) :
  (forall remote_url, dir' !! icon_name remote_url = dir !! icon_name remote_url)
  /\ (forall remote_url nonce old,
       is_stale_temporary (with_extension (icon_name remote_url) (nonce ++ ".tmp")) (Some old)
       = (STALE_TEMPORARY_FILE_AGE <=? old))
  /\ (r = Ok tt -> forall name,
       dir' !! name = if bool_decide (name ∈ names) && is_stale_temporary name (age name) then None else dir !! name).
Proof.
  split; [|split].
  - intros remote_url. assert (forall o, is_stale_temporary (icon_name remote_url) o = false) as Hicon.
    { intros o. unfold is_stale_temporary, path_extension. by rewrite last_dot_None by apply sha256_digits. }
    revert dir Hrun. induction names as [|name names IH]; cbn [remove_stale]; intros dir Hrun; [by injection Hrun as <- <-|].
    destruct (is_stale_temporary name (age name)) eqn:Hstale; [|by apply IH].
    destruct (removes name); [|by injection Hrun as <- <-]. rewrite (IH _ Hrun).
    apply lookup_delete_ne. intros ->. by rewrite Hicon in Hstale.
  - intros remote_url nonce old. destruct (temporary_name remote_url (nonce ++ ".tmp")%string) as [-> _].
    unfold is_stale_temporary, path_extension. rewrite !as_bytes_app.
    change (as_bytes ".tmp") with ([46] ++ as_bytes "tmp"). change (as_bytes ".") with [46].
    rewrite !(assoc_L (++)). rewrite <- (assoc_L (++) _ [46] (as_bytes "tmp")).
    change ([46] ++ as_bytes "tmp") with (46 :: as_bytes "tmp"). rewrite last_dot_app_after by done.
    set (l := _ ++ as_bytes nonce). assert (length l <> O) as Hl by (unfold l; rewrite !length_app; cbn; lia).
    destruct (length l) as [|n] eqn:E; [done|]. rewrite <- E, drop_app_ge by lia.
    replace (S (length l) - length l)%nat with 1%nat by lia. by rewrite bool_decide_eq_true_2 by done.
  - intros ->. revert dir Hrun. induction names as [|name names IH]; cbn [remove_stale]; intros dir Hrun x.
    { injection Hrun as <-. by rewrite bool_decide_eq_false_2 by apply not_elem_of_nil. }
    destruct (is_stale_temporary name (age name)) eqn:Hstale.
    + destruct (removes name); [|done]. rewrite (IH _ Hrun). destruct (decide (x = name)) as [->|Hx].
      * rewrite lookup_delete_eq, (bool_decide_eq_true_2 (name ∈ name :: names)) by set_solver.
        rewrite Hstale. by destruct (bool_decide _).
      * rewrite lookup_delete_ne by done. by rewrite (bool_decide_ext (x ∈ name :: names) (x ∈ names)) by set_solver.
    + rewrite (IH _ Hrun). destruct (decide (x = name)) as [->|Hx].
      * by rewrite Hstale, !andb_false_r.
      * by rewrite (bool_decide_ext (x ∈ name :: names) (x ∈ names)) by set_solver.
Qed.
End IconProofs.

(** ** Runs of the model *)

(** A digest that tells even from odd lengths. *)
Definition parity_sha : Sha256 :=
  {| sha256_hex := fun bytes => Hex32_to_hex (repeat (if Nat.even (length bytes) then 171 else 18) 32) |}.
Definition file_urls : IconFiles := {| icon_file_url := fun name version => Some ("file:///icons/" ++ name ++ "?v=" ++ version)%string |}.
#[local] Existing Instances parity_sha file_urls.

Lemma parity_sha_laws : Sha256Laws parity_sha.
Proof. split. intros bytes. cbn. by destruct (Nat.even _); apply (bool_decide_unpack _). Qed.

Definition all_calls : StoreCalls := mkStoreCalls true Written true true true true.

Definition stored_icon : Result ApplicationIconCacheError string * IconDirectory :=
  icon_store all_calls 7 "https://app.example/icon.png" [1; 2; 3] ∅.

Lemma stored_icon_ok : exists url, stored_icon.1 = Ok url.
Proof. eexists. by vm_compute. Qed.

Lemma icon_store_atomic_witness :
  exists url, stored_icon.1 = Ok url
  /\ cached_file_url true true "https://app.example/icon.png" stored_icon.2 = Ok (Some url).
Proof.
  destruct stored_icon_ok as [url Hurl]. exists url. split; [exact Hurl|].
  apply (@icon_store_atomic parity_sha file_urls parity_sha_laws all_calls 7 "https://app.example/icon.png" [1; 2; 3] ∅
    _ _ (surjective_pairing _)). exact Hurl.
Defined.

Lemma cleanup_spares_icons_witness :
  remove_stale (fun _ => Some (from_secs 61)) (fun _ => true) ["icon"; "icon.7.tmp"]
    (<["icon.7.tmp" := RegularFile [1]]> (<["icon" := RegularFile [1]]> ∅))
  = (Ok tt, <["icon" := RegularFile [1]]> ∅)
  /\ (<["icon" := RegularFile [1]]> (∅ : IconDirectory)) !! "icon.7.tmp" = None.
Proof.
  assert (remove_stale (fun _ => Some (from_secs 61)) (fun _ => true) ["icon"; "icon.7.tmp"]
    (<["icon.7.tmp" := RegularFile [1]]> (<["icon" := RegularFile [1]]> ∅))
    = (Ok tt, <["icon" := RegularFile [1]]> ∅)) as H by (vm_compute; done).
  split; [exact H|].
  destruct (@cleanup_spares_icons parity_sha parity_sha_laws _ _ _ _ _ _ H) as (_ & _ & H3).
  rewrite (H3 eq_refl). by vm_compute.
Defined.
